(** * Local-Log-Analyzer: the parsing and analysis core, embedded in Rocq

    The development follows the Python sources
      backend/app/models/schemas.py
      backend/app/services/file_processor.py
      backend/app/services/log_analyzer.py
      backend/app/services/pattern_detector.py
    function by function.  Text is a list of Latin-1 code points, regular
    expressions are run by a small backtracking matcher with Python's
    priorities (leftmost match, greedy quantifiers, ordered alternation),
    exceptions are values of a [result] type, and a [datetime] is a wall-clock
    microsecond count together with an optional UTC offset. *)

From Stdlib Require Import List Bool Arith ZArith QArith Lia Ascii String.
From Stdlib Require Import Qpower Qabs Qround Lqa.
From Stdlib Require Import Permutation Sorted.
Import ListNotations.

Set Implicit Arguments.
Abbreviation length := List.length (only parsing).
Open Scope string_scope.
Open Scope list_scope.
Open Scope nat_scope.
Open Scope bool_scope.

(** ** Exceptions as values *)

Inductive exn :=
| ValueError | TypeError | OverflowError | JSONDecodeError
| ValidationError | LogParsingError | CsvError | OSError | OtherError.

Inductive result (A : Type) :=
| Ok (a : A)
| Raise (e : exn).

Arguments Ok {A} a.
Arguments Raise {A} e.

Definition bind {A B} (x : result A) (k : A -> result B) : result B :=
  match x with
  | Ok a => k a
  | Raise e => Raise e
  end.

Notation "'do' x <- c ; k" := (bind c (fun x => k))
  (at level 10, x name, c at level 100, k at level 200).

(** [try_except c h] is [try: c  except Exception as e: h e]. *)
Definition try_except {A} (c : result A) (h : exn -> result A) : result A :=
  match c with
  | Ok a => Ok a
  | Raise e => h e
  end.

Fixpoint mapM {A B} (f : A -> result B) (l : list A) : result (list B) :=
  match l with
  | [] => Ok []
  | a :: l' => do b <- f a; do bs <- mapM f l'; Ok (b :: bs)
  end.

(** ** Text *)

Module Text.

Definition str := list ascii.

Definition lit (s : string) : str := list_ascii_of_string s.

Definition code (c : ascii) : nat := nat_of_ascii c.

Definition between (lo hi : nat) (c : ascii) : bool :=
  ((lo <=? code c) && (code c <=? hi))%nat.

Definition str_eqb (a b : str) : bool :=
  if list_eq_dec ascii_dec a b then true else false.

(** Character classes of Python 3 [str] on the Latin-1 range. *)

(** [c.isspace()], which is also the class [\s]. *)
Definition is_space (c : ascii) : bool :=
  between 9 13 c || between 28 32 c
  || (code c =? 133)%nat || (code c =? 160)%nat.

(** The class [\d]: decimal digits. *)
Definition is_digit (c : ascii) : bool := between 48 57 c.

Definition is_upper_ascii (c : ascii) : bool := between 65 90 c.
Definition is_lower_ascii (c : ascii) : bool := between 97 122 c.

(** [c.isalpha()]. *)
Definition is_alpha (c : ascii) : bool :=
  is_upper_ascii c || is_lower_ascii c
  || (code c =? 170)%nat || (code c =? 181)%nat || (code c =? 186)%nat
  || between 192 214 c || between 216 246 c || between 248 255 c.

(** [c.isdigit()]: decimal digits and the superscripts 1, 2, 3. *)
Definition is_digit_char (c : ascii) : bool :=
  is_digit c || (code c =? 178)%nat || (code c =? 179)%nat
  || (code c =? 185)%nat.

(** The class [\w]: [c.isalnum() or c == '_']. *)
Definition is_word (c : ascii) : bool :=
  is_alpha c || is_digit_char c || between 188 190 c || (code c =? 95)%nat.

Definition lower_char (c : ascii) : ascii :=
  if is_upper_ascii c || between 192 214 c || between 216 222 c
  then ascii_of_nat (code c + 32) else c.

(** [c.upper()].  The sharp s becomes two letters.  The two letters whose
    capitals lie outside Latin-1 (micro sign, y with diaeresis) are kept:
    they remain non-ASCII word characters, which is all that the patterns
    applied to upper-cased text observe. *)
Definition upper_char (c : ascii) : str :=
  if is_lower_ascii c || between 224 246 c || between 248 254 c
  then [ascii_of_nat (code c - 32)]
  else if (code c =? 223)%nat then lit "SS" else [c].

Definition lower (s : str) : str := map lower_char s.
Definition upper (s : str) : str := flat_map upper_char s.

(** [s.isdigit()] *)
Definition isdigit (s : str) : bool :=
  match s with
  | [] => false
  | _ => forallb is_digit_char s
  end.

(** [s.isalpha()] *)
Definition isalpha (s : str) : bool :=
  match s with
  | [] => false
  | _ => forallb is_alpha s
  end.

(** [s.lstrip()], [s.rstrip()], [s.strip()] *)
Fixpoint lstrip (s : str) : str :=
  match s with
  | c :: s' => if is_space c then lstrip s' else s
  | [] => []
  end.

Definition rstrip (s : str) : str := rev (lstrip (rev s)).

Definition strip (s : str) : str := rstrip (lstrip s).

(** [s.split(sep)] for a one-character separator: never empty. *)
Fixpoint str_split (sep : ascii) (s : str) : list str :=
  match s with
  | [] => [[]]
  | c :: s' =>
      if Ascii.eqb c sep then [] :: str_split sep s'
      else match str_split sep s' with
           | l :: ls => (c :: l) :: ls
           | [] => [[c]]
           end
  end.

(** [sep.join(parts)] *)
Fixpoint join (sep : str) (parts : list str) : str :=
  match parts with
  | [] => []
  | [p] => p
  | p :: ps => p ++ sep ++ join sep ps
  end.

(** [s.replace(c, empty)] for a one-character [c]. *)
Definition remove_char (c : ascii) (s : str) : str :=
  filter (fun x => negb (Ascii.eqb x c)) s.

(** [x in s] for a character [x]. *)
Definition mem_char (x : ascii) (s : str) : bool :=
  existsb (Ascii.eqb x) s.

(** Truthiness of a string. *)
Definition nonempty (s : str) : bool :=
  match s with [] => false | _ => true end.

(** Lexicographic order on code points: Python's [<=] on [str]. *)
Fixpoint str_leb (a b : str) : bool :=
  match a, b with
  | [], _ => true
  | _ :: _, [] => false
  | x :: a', y :: b' =>
      if (code x <? code y)%nat then true
      else if (code y <? code x)%nat then false
      else str_leb a' b'
  end.

(** Runs of blanks replaced by one space each; [after_blank] tells that
    the position follows a blank of the run being replaced. *)
Fixpoint collapse (after_blank : bool) (s : str) : str :=
  match s with
  | [] => []
  | c :: s' =>
      if is_space c then
        if after_blank then collapse true s'
        else " "%char :: collapse true s'
      else c :: collapse false s'
  end.

(** The only blanks are single spaces. *)
Fixpoint tidy (after_blank : bool) (s : str) : bool :=
  match s with
  | [] => true
  | c :: s' =>
      if is_space c then Ascii.eqb c " " && negb after_blank && tidy true s'
      else tidy false s'
  end.

(** The number of blanks that [s] starts with. *)
Definition blanks (s : str) : nat := length s - length (lstrip s).

Definition newline : ascii := ascii_of_nat 10.
Definition dquote : ascii := ascii_of_nat 34.

End Text.

Export Text.

Coercion lit : string >-> str.

(** ** Regular expressions

    The patterns of the sources are values of [regex]; [m] runs one from a
    position and lists every way it can match, most preferred first, which
    is the order in which Python's backtracking matcher tries them.  The
    first element is therefore the match that [re] reports. *)

Module Re.

Record mstate := MState {
  pre : str;                   (* the text before the position, reversed *)
  rest : str;                  (* the text from the position on *)
  caps : list (nat * str)      (* capture groups, latest first *)
}.

Inductive regex :=
| Eps
| Cls (p : ascii -> bool)
| Seq (a b : regex)
| Alt (a b : regex)
| Star (a : regex)
| LazyStar (a : regex)
| Grp (n : nat) (a : regex)
| Bol
| Eol
| WordB.

Definition start_state (before s : str) : mstate :=
  {| pre := before; rest := s; caps := [] |}.

Definition word_before (st : mstate) : bool :=
  match pre st with c :: _ => is_word c | [] => false end.

Definition word_after (st : mstate) : bool :=
  match rest st with c :: _ => is_word c | [] => false end.

(** [\b] *)
Definition at_boundary (st : mstate) : bool :=
  xorb (word_before st) (word_after st).

(** [$] without MULTILINE: the end, or just before a final newline. *)
Definition at_end (st : mstate) : bool :=
  match rest st with
  | [] => true
  | [c] => Ascii.eqb c newline
  | _ => false
  end.

(** The text between two positions of the same subject. *)
Definition consumed (st st' : mstate) : str :=
  firstn (length (rest st) - length (rest st')) (rest st).

Definition step (st : mstate) (c : ascii) (s : str) : mstate :=
  {| pre := c :: pre st; rest := s; caps := caps st |}.

Definition progress (st st' : mstate) : bool :=
  length (rest st') <? length (rest st).

(** The iterations of a starred pattern: [n] bounds their number, every
    iteration has to consume something, and the longer match is preferred
    ([star_loop]) or the shorter one ([lazy_loop]). *)
Fixpoint star_loop (body : mstate -> list mstate) (n : nat) (st : mstate)
  : list mstate :=
  match n with
  | 0 => [st]
  | S n' =>
      flat_map (fun st' => if progress st st' then star_loop body n' st'
                           else [])
               (body st) ++ [st]
  end.

Fixpoint lazy_loop (body : mstate -> list mstate) (n : nat) (st : mstate)
  : list mstate :=
  match n with
  | 0 => [st]
  | S n' =>
      st :: flat_map (fun st' => if progress st st' then lazy_loop body n' st'
                                 else [])
                     (body st)
  end.

Definition capture (n : nat) (st st' : mstate) : mstate :=
  {| pre := pre st'; rest := rest st';
     caps := (n, consumed st st') :: caps st' |}.

Fixpoint m (r : regex) (st : mstate) : list mstate :=
  match r with
  | Eps => [st]
  | Cls p =>
      match rest st with
      | c :: s => if p c then [step st c s] else []
      | [] => []
      end
  | Seq a b => flat_map (m b) (m a st)
  | Alt a b => m a st ++ m b st
  | Star a => star_loop (m a) (length (rest st)) st
  | LazyStar a => lazy_loop (m a) (length (rest st)) st
  | Grp n a => map (capture n st) (m a st)
  | Bol => match pre st with [] => [st] | _ => [] end
  | Eol => if at_end st then [st] else []
  | WordB => if at_boundary st then [st] else []
  end.

(** A static check: [needs_other d r] holds when every match of [r] has to
    consume a character outside the class [d]. *)
Definition all_chars : list ascii := map ascii_of_nat (seq 0 256).

Fixpoint needs_other (d : ascii -> bool) (r : regex) : bool :=
  match r with
  | Cls p => forallb (fun c => negb (d c && p c)) all_chars
  | Seq a b => needs_other d a || needs_other d b
  | Alt a b => needs_other d a && needs_other d b
  | Grp _ a => needs_other d a
  | _ => false
  end.

(** [later st st']: [st'] is a later position in the text of [st]. *)
Definition later (st st' : mstate) : Prop :=
  exists p, rest st = p ++ rest st'.

(** Pattern syntax. *)
Definition chr (c : ascii) : regex := Cls (Ascii.eqb c).
Definition chr_ci (c : ascii) : regex :=
  Cls (fun x => Ascii.eqb (lower_char x) (lower_char c)).
Definition any_of (s : str) : regex := Cls (fun x => mem_char x s).
Definition none_of (s : str) : regex := Cls (fun x => negb (mem_char x s)).
Definition dot : regex := Cls (fun x => negb (Ascii.eqb x newline)).
Definition digit : regex := Cls is_digit.
Definition word : regex := Cls is_word.
Definition space : regex := Cls is_space.
Definition nonspace : regex := Cls (fun x => negb (is_space x)).

Definition text (s : str) : regex :=
  fold_right (fun c r => Seq (chr c) r) Eps s.
Definition text_ci (s : str) : regex :=
  fold_right (fun c r => Seq (chr_ci c) r) Eps s.

Definition plus (a : regex) : regex := Seq a (Star a).
Definition lazy_plus (a : regex) : regex := Seq a (LazyStar a).
Definition opt (a : regex) : regex := Alt a Eps.

(** [a{n}] *)
Fixpoint rep (n : nat) (a : regex) : regex :=
  match n with
  | 0 => Eps
  | S n' => Seq a (rep n' a)
  end.

(** [a{0,n}] *)
Fixpoint upto (n : nat) (a : regex) : regex :=
  match n with
  | 0 => Eps
  | S n' => opt (Seq a (upto n' a))
  end.

(** [a{lo,hi}] and [a{lo,}] *)
Definition rep_range (lo hi : nat) (a : regex) : regex :=
  Seq (rep lo a) (upto (hi - lo) a).
Definition rep_min (lo : nat) (a : regex) : regex := Seq (rep lo a) (Star a).

Fixpoint seqs (l : list regex) : regex :=
  match l with
  | [] => Eps
  | [a] => a
  | a :: l' => Seq a (seqs l')
  end.

Fixpoint alts (l : list regex) : regex :=
  match l with
  | [] => Cls (fun _ => false)
  | [a] => a
  | a :: l' => Alt a (alts l')
  end.

(** A match object. *)
Record rmatch := RMatch {
  m_text : str;                (* group 0 *)
  m_caps : list (nat * str);
  m_after : str
}.

Fixpoint assoc {A} (n : nat) (l : list (nat * A)) : option A :=
  match l with
  | [] => None
  | (k, v) :: l' => if k =? n then Some v else assoc n l'
  end.

(** [match.group(n)], [None] for a group that took no part. *)
Definition group (n : nat) (x : rmatch) : option str := assoc n (m_caps x).

Definition match_at (r : regex) (before s : str) : option rmatch :=
  match m r (start_state before s) with
  | st' :: _ =>
      Some {| m_text := firstn (length s - length (rest st')) s;
              m_caps := caps st'; m_after := rest st' |}
  | [] => None
  end.

(** [re.match(r, s)] *)
Definition re_match (r : regex) (s : str) : option rmatch := match_at r [] s.

Fixpoint search_from (r : regex) (before s : str) : option rmatch :=
  match match_at r before s with
  | Some x => Some x
  | None =>
      match s with
      | [] => None
      | c :: s' => search_from r (c :: before) s'
      end
  end.

(** [re.search(r, s)] *)
Definition re_search (r : regex) (s : str) : option rmatch :=
  search_from r [] s.

(** [re.sub(r, repl, s)] for a replacement without group references.
    [skip] counts the characters of the subject still covered by the match
    replaced last. *)
Fixpoint sub_from (r : regex) (repl before s : str) (skip : nat) : str :=
  match skip with
  | S k =>
      match s with
      | [] => []
      | c :: s' => sub_from r repl (c :: before) s' k
      end
  | 0 =>
      match match_at r before s with
      | Some x =>
          match s with
          | [] => repl
          | c :: s' =>
              match length (m_text x) with
              | 0 => repl ++ c :: sub_from r repl (c :: before) s' 0
              | S k => repl ++ sub_from r repl (c :: before) s' k
              end
          end
      | None =>
          match s with
          | [] => []
          | c :: s' => c :: sub_from r repl (c :: before) s' 0
          end
      end
  end.

Definition re_sub (r : regex) (repl s : str) : str := sub_from r repl [] s 0.

(** [re.finditer(r, s)], as the list of the match objects. *)
Fixpoint finditer_from (r : regex) (before s : str) (skip : nat)
  : list rmatch :=
  match skip with
  | S k =>
      match s with
      | [] => []
      | c :: s' => finditer_from r (c :: before) s' k
      end
  | 0 =>
      match match_at r before s with
      | Some x =>
          match s with
          | [] => [x]
          | c :: s' => x :: finditer_from r (c :: before) s'
                                          (pred (length (m_text x)))
          end
      | None =>
          match s with
          | [] => []
          | c :: s' => finditer_from r (c :: before) s' 0
          end
      end
  end.

Definition re_finditer (r : regex) (s : str) : list rmatch :=
  finditer_from r [] s 0.

Definition is_some {A} (o : option A) : bool :=
  match o with Some _ => true | None => false end.

End Re.

Export Re.

(** ** [datetime]

    A [datetime] carries the fields of Python's class; [tzinfo] is the UTC
    offset in microseconds of an aware value and [None] for a naive one. *)

Module Datetime.

Local Open Scope Z_scope.

Record datetime := DateTime {
  year : Z; month : Z; day : Z;
  hour : Z; minute : Z; second : Z; microsecond : Z;
  tzinfo : option Z
}.

Definition is_leap (y : Z) : bool :=
  ((y mod 4 =? 0) && negb (y mod 100 =? 0)) || (y mod 400 =? 0).

Definition days_in_month (y mo : Z) : Z :=
  if mo =? 2 then (if is_leap y then 29 else 28)
  else if (mo =? 4) || (mo =? 6) || (mo =? 9) || (mo =? 11) then 30
  else 31.

Definition days_before_year (y : Z) : Z :=
  (y - 1) * 365 + (y - 1) / 4 - (y - 1) / 100 + (y - 1) / 400.

Definition days_before_month (y mo : Z) : Z :=
  fold_right Z.add 0
    (map (fun k => days_in_month y (Z.of_nat k)) (seq 1 (Z.to_nat mo - 1))).

(** [date(y, mo, d).toordinal()]: 1 is 0001-01-01. *)
Definition ymd2ord (y mo d : Z) : Z :=
  days_before_year y + days_before_month y mo + d.

(** The inverse, from a day count relative to 1970-01-01. *)
Definition civil_from_days (z0 : Z) : Z * Z * Z :=
  let z := z0 + 719468 in
  let era := z / 146097 in
  let doe := z - era * 146097 in
  let yoe := (doe - doe / 1460 + doe / 36524 - doe / 146096) / 365 in
  let y := yoe + era * 400 in
  let doy := doe - (365 * yoe + yoe / 4 - yoe / 100) in
  let mp := (5 * doy + 2) / 153 in
  let d := doy - (153 * mp + 2) / 5 + 1 in
  let mo := if mp <? 10 then mp + 3 else mp - 9 in
  (if mo <=? 2 then y + 1 else y, mo, d).

Definition us_per_second : Z := 1000000.
Definition us_per_day : Z := 86400 * us_per_second.

(** Microseconds of the wall clock since 0001-01-01T00:00:00. *)
Definition wall_us (t : datetime) : Z :=
  (((ymd2ord (year t) (month t) (day t) - 1) * 24 + hour t) * 60
   + minute t) * 60 * us_per_second
  + second t * us_per_second + microsecond t.

Definition utc_us (t : datetime) : Z :=
  wall_us t - match tzinfo t with Some off => off | None => 0 end.

Definition aware (t : datetime) : bool :=
  match tzinfo t with Some _ => true | None => false end.

(** The constructor's range checks. *)
Definition valid_fields (y mo d h mi s us : Z) : bool :=
  (1 <=? y) && (y <=? 9999) && (1 <=? mo) && (mo <=? 12)
  && (1 <=? d) && (d <=? days_in_month y mo)
  && (0 <=? h) && (h <=? 23) && (0 <=? mi) && (mi <=? 59)
  && (0 <=? s) && (s <=? 59) && (0 <=? us) && (us <=? 999999).

Definition mk_datetime (y mo d h mi s us : Z) (tz : option Z)
  : result datetime :=
  if valid_fields y mo d h mi s us
  then Ok (DateTime y mo d h mi s us tz)
  else Raise ValueError.

(** [a < b], [a == b] and [a - b] (in microseconds).  Ordering and
    subtraction of a naive and an aware value raise [TypeError]; equality
    of such a pair is just false. *)
Definition dt_ltb (a b : datetime) : result bool :=
  match tzinfo a, tzinfo b with
  | None, None => Ok (wall_us a <? wall_us b)
  | Some _, Some _ => Ok (utc_us a <? utc_us b)
  | _, _ => Raise TypeError
  end.

Definition dt_eqb (a b : datetime) : bool :=
  match tzinfo a, tzinfo b with
  | None, None => wall_us a =? wall_us b
  | Some _, Some _ => utc_us a =? utc_us b
  | _, _ => false
  end.

Definition dt_sub (a b : datetime) : result Z :=
  match tzinfo a, tzinfo b with
  | None, None => Ok (wall_us a - wall_us b)
  | Some _, Some _ => Ok (utc_us a - utc_us b)
  | _, _ => Raise TypeError
  end.

(** [min(ts)] and [max(ts)] over an iterable: [ValueError] when it is
    empty; the running best is replaced when the next item compares
    smaller (larger). *)
Fixpoint min_from (best : datetime) (l : list datetime) : result datetime :=
  match l with
  | [] => Ok best
  | t :: l' =>
      do lt <- dt_ltb t best;
      min_from (if lt then t else best) l'
  end.

Definition py_min (l : list datetime) : result datetime :=
  match l with
  | [] => Raise ValueError
  | t :: l' => min_from t l'
  end.

Fixpoint max_from (best : datetime) (l : list datetime) : result datetime :=
  match l with
  | [] => Ok best
  | t :: l' =>
      do gt <- dt_ltb best t;
      max_from (if gt then t else best) l'
  end.

Definition py_max (l : list datetime) : result datetime :=
  match l with
  | [] => Raise ValueError
  | t :: l' => max_from t l'
  end.

(** Decimal rendering, zero padded to [width] digits. *)
Fixpoint digits_rev (fuel : nat) (n : Z) : str :=
  match fuel with
  | O => []
  | S f =>
      ascii_of_nat (48 + Z.to_nat (n mod 10))
      :: (if n / 10 =? 0 then [] else digits_rev f (n / 10))
  end.

Definition decimal (n : Z) : str :=
  rev (digits_rev (S (Z.to_nat (Z.log2 (Z.abs n)))) (Z.abs n)).

Definition padded (width : nat) (n : Z) : str :=
  let d := decimal n in
  repeat (ascii_of_nat 48) (width - length d) ++ d.

(** The offset part of [isoformat()]: [+HH:MM[:SS[.ffffff]]]. *)
Definition format_offset (off : Z) : str :=
  let a := Z.abs off in
  let us := a mod us_per_second in
  let s := (a / us_per_second) mod 60 in
  let mi := (a / (60 * us_per_second)) mod 60 in
  let h := a / (3600 * us_per_second) in
  (if off <? 0 then lit "-" else lit "+")
  ++ padded 2 h ++ lit ":" ++ padded 2 mi
  ++ (if (s =? 0) && (us =? 0) then []
      else lit ":" ++ padded 2 s
           ++ (if us =? 0 then [] else lit "." ++ padded 6 us)).

(** [t.isoformat()] *)
Definition isoformat (t : datetime) : str :=
  padded 4 (year t) ++ lit "-" ++ padded 2 (month t) ++ lit "-"
  ++ padded 2 (day t) ++ lit "T" ++ padded 2 (hour t) ++ lit ":"
  ++ padded 2 (minute t) ++ lit ":" ++ padded 2 (second t)
  ++ (if microsecond t =? 0 then [] else lit "." ++ padded 6 (microsecond t))
  ++ match tzinfo t with
     | Some off => format_offset off
     | None => []
     end.

(** [t.replace(hour=h, minute=mi, second=0, microsecond=0)]; the range of
    the new fields is checked as by the constructor. *)
Definition replace_hm (t : datetime) (h mi : Z) : result datetime :=
  mk_datetime (year t) (month t) (day t) h mi 0 0 (tzinfo t).

(** [t.replace(minute=mi, second=0, microsecond=0)] *)
Definition replace_m (t : datetime) (mi : Z) : result datetime :=
  mk_datetime (year t) (month t) (day t) (hour t) mi 0 0 (tzinfo t).

(** Rounding of a rational to the nearest integer, halves to even. *)
Definition round_half_even (q : Q) : Z :=
  let n := Qnum q in
  let d := Z.pos (Qden q) in
  let fl := n / d in
  let r2 := 2 * (n - fl * d) in
  if r2 <? d then fl
  else if d <? r2 then fl + 1
  else if Z.even fl then fl else fl + 1.

(** *** [float]

    A [float] is a double of IEEE 754: a rational that a significand of 53
    bits and an exponent from -1022 to 1023 can hold, an infinity or a NaN
    (the sign of a zero is not kept).  What an operation returns is the
    double nearest to the exact result, ties going to the even
    significand. *)
Inductive pyfloat :=
| Finite (q : Q)
| Infinity (negative : bool)
| NaN.

Definition qltb (a b : Q) : bool := if Qlt_le_dec a b then true else false.

(** The exponent of the binade of a positive rational: the largest [e]
    with [2 ^ e <= q]. *)
Definition binade (q : Q) : Z :=
  let e := Z.log2 (Qnum q) - Z.log2 (Z.pos (Qden q)) in
  if qltb q (2 ^ e) then e - 1 else e.

(** The double nearest to a rational: the spacing of the doubles around
    [q] is [2 ^ (e - 52)] for the binade [e] of [q], and [2 ^ -1074] below
    the normal range; a result of [2 ^ 1024] or more overflows. *)
Definition to_double (q : Q) : pyfloat :=
  if Qeq_bool q 0 then Finite 0
  else
    let ulp := (2 ^ (Z.max (binade (Qabs q)) (-1022) - 52))%Q in
    let v := (inject_Z (round_half_even (q / ulp)) * ulp)%Q in
    if qltb (Qabs v) (2 ^ 1024) then Finite (Qred v)
    else Infinity (Qnum q <? 0).

(** [float(n)] and [a / b] for integers ([b] positive): the nearest
    double, [OverflowError] when there is none. *)
Definition finite_or_overflow (x : pyfloat) : result pyfloat :=
  match x with
  | Finite q => Ok (Finite q)
  | _ => Raise OverflowError
  end.

Definition float_of_int (n : Z) : result pyfloat :=
  finite_or_overflow (to_double (inject_Z n)).

Definition int_truediv (a : Z) (b : positive) : result pyfloat :=
  finite_or_overflow (to_double (a # b)).

(** [x + y], [x * y] *)
Definition fadd (x y : pyfloat) : pyfloat :=
  match x, y with
  | NaN, _ | _, NaN => NaN
  | Infinity a, Infinity b => if Bool.eqb a b then Infinity a else NaN
  | Infinity a, Finite _ | Finite _, Infinity a => Infinity a
  | Finite a, Finite b => to_double (a + b)
  end.

Definition fmul (x y : pyfloat) : pyfloat :=
  match x, y with
  | NaN, _ | _, NaN => NaN
  | Infinity a, Infinity b => Infinity (xorb a b)
  | Infinity a, Finite q | Finite q, Infinity a =>
      if Qeq_bool q 0 then NaN else Infinity (xorb a (Qnum q <? 0))
  | Finite a, Finite b => to_double (a * b)
  end.

(** [x / d] for a finite [d] other than zero. *)
Definition fdiv_by (x : pyfloat) (d : Q) : pyfloat :=
  match x with
  | NaN => NaN
  | Infinity a => Infinity (xorb a (Qnum d <? 0))
  | Finite a => to_double (a / d)
  end.

(** [x < y] *)
Definition fltb (x y : pyfloat) : bool :=
  match x, y with
  | NaN, _ | _, NaN => false
  | Infinity a, Infinity b => a && negb b
  | Infinity a, Finite _ => a
  | Finite _, Infinity b => negb b
  | Finite a, Finite b => qltb a b
  end.

(** [sum(xs)] of floats: added one after the other, from the left (as
    CPython 3.11 does; later versions compensate the rounding errors). *)
Definition py_sum (xs : list pyfloat) : pyfloat :=
  fold_left fadd xs (Finite 0).

(** *** [datetime.fromtimestamp]

    As in CPython 3.11 on a platform whose [time_t] has 64 bits. *)
Section LocalTime.

(** The local zone: the UTC offset, in seconds, in force at an epoch
    second. *)
Variable utcoffset : Z -> Z.

Definition local_seconds (t : Z) : Z := t + utcoffset t.

(** The date and time of day of a count of seconds since 1970-01-01. *)
Definition broken_down (seconds us : Z) : datetime :=
  let '(y, mo, d) := civil_from_days (seconds / 86400) in
  let sod := seconds mod 86400 in
  DateTime y mo d (sod / 3600) ((sod / 60) mod 60) (sod mod 60) us None.

(** C's [localtime]: it fails, with [EOVERFLOW], when the year less 1900
    is more than an [int] holds. *)
Definition localtime (t : Z) : result datetime :=
  let tm := broken_down (local_seconds t) 0 in
  if (- 2 ^ 31 <=? year tm - 1900) && (year tm - 1900 <? 2 ^ 31)
  then Ok tm
  else Raise OSError.

Definition year_in_range (t : datetime) : bool :=
  (1 <=? year t) && (year t <=? 9999).

(** [local(u)]: the wall clock, in seconds, of an instant; the year of
    the wall clock has to be one of 1..9999. *)
Definition local (t : Z) : result Z :=
  do tm <- localtime t;
  if year_in_range tm then Ok (local_seconds t) else Raise ValueError.

Definition max_fold_seconds : Z := 24 * 3600.

(** [datetime_from_timet_and_us]: the local time of the epoch second
    [timet]; to find the [fold] of the result (which the model does not
    keep) the wall clock is probed a day earlier and, if the clock was set
    back since, at the distance of that step. *)
Definition from_time_t (timet us : Z) : result datetime :=
  do tm <- localtime timet;
  if year_in_range tm then
    let result_seconds := local_seconds timet in
    do probe_seconds <- local (timet - max_fold_seconds);
    let transition := result_seconds - probe_seconds - max_fold_seconds in
    do _ <- (if transition <? 0 then local (timet + transition) else Ok 0);
    Ok (DateTime (year tm) (month tm) (day tm) (hour tm) (minute tm)
                 (second tm) us None)
  else Raise ValueError.

(** [_PyTime_ObjectToTimeval] with [ROUND_HALF_EVEN], for a finite float:
    [modf] splits it, the fraction is multiplied by [1e6], as a double,
    and rounded; a second that [time_t] cannot hold is refused.  (The
    integral part is changed by one only where it is small enough for the
    sum to be exact.) *)
Definition timeval_of_float (q : Q) : result (Z * Z) :=
  let intpart := Z.quot (Qnum q) (Z.pos (Qden q)) in
  let floatpart := (q - inject_Z intpart)%Q in
  match to_double (floatpart * 1000000) with
  | Finite p =>
      let r := round_half_even p in
      let '(sec, us) :=
        if 1000000 <=? r then (intpart + 1, r - 1000000)
        else if r <? 0 then (intpart - 1, r + 1000000)
        else (intpart, r) in
      if (- 2 ^ 63 <=? sec) && (sec <=? 2 ^ 63) then Ok (sec, us)
      else Raise OverflowError
  | _ => Raise OverflowError
  end.

(** The cast of the integral part to [time_t]: the double [2 ^ 63], which
    passes the range check, becomes the least [time_t]. *)
Definition to_time_t (sec : Z) : Z :=
  if sec =? 2 ^ 63 then - 2 ^ 63 else sec.

(** [datetime.fromtimestamp(x)] for a float and for an integer. *)
Definition fromtimestamp (x : pyfloat) : result datetime :=
  match x with
  | NaN => Raise ValueError
  | Infinity _ => Raise OverflowError
  | Finite q =>
      do tv <- timeval_of_float q;
      from_time_t (to_time_t (fst tv)) (snd tv)
  end.

Definition fromtimestamp_int (n : Z) : result datetime :=
  if (- 2 ^ 63 <=? n) && (n <? 2 ^ 63) then from_time_t n 0
  else Raise OverflowError.

End LocalTime.

End Datetime.

Export Datetime.

(** ** Library functions on text: [int], [float], [datetime.strptime] *)

Module PyLib.

Local Open Scope Z_scope.

Definition digit_val (c : ascii) : Z := Z.of_nat (code c) - 48.

Definition digits_value (ds : str) : Z :=
  fold_left (fun acc c => acc * 10 + digit_val c) ds 0.

(** [int(s)] for a string without sign or blanks: decimal digits. *)
Definition py_int (s : str) : result Z :=
  match s with
  | [] => Raise ValueError
  | _ => if forallb is_digit s then Ok (digits_value s) else Raise ValueError
  end.

(** A run of digits in which single underscores may separate digits. *)
Fixpoint digitpart (s : str) : str * str :=
  match s with
  | c :: s' =>
      if is_digit c then
        let '(ds, r) :=
          match s' with
          | u :: ((d :: _) as s'') =>
              if Ascii.eqb u "_" && is_digit d then digitpart s''
              else digitpart s'
          | _ => digitpart s'
          end in
        (c :: ds, r)
      else ([], s)
  | [] => ([], [])
  end.

Definition take_sign (s : str) : bool * str :=
  match s with
  | c :: s' =>
      if Ascii.eqb c "-" then (true, s')
      else if Ascii.eqb c "+" then (false, s')
      else (false, s)
  | [] => (false, [])
  end.

Definition pow10 (e : Z) : Q :=
  if 0 <=? e then inject_Z (10 ^ e) else / inject_Z (10 ^ (- e)).

Definition signed (neg : bool) (q : Q) : Q := if neg then Qopp q else q.

(** [float(s)] for a stripped string: the double nearest to the decimal
    value.  [None] stands for [ValueError]. *)
Definition py_float (s : str) : option pyfloat :=
  let '(neg, s1) := take_sign s in
  let w := lower s1 in
  if str_eqb w (lit "inf") || str_eqb w (lit "infinity")
  then Some (Infinity neg)
  else if str_eqb w (lit "nan") then Some NaN
  else
    let '(ip, s2) := digitpart s1 in
    let '(fp, s3) :=
      match s2 with
      | c :: t => if Ascii.eqb c "." then digitpart t else ([], s2)
      | [] => ([], s2)
      end in
    match ip ++ fp with
    | [] => None
    | mant =>
        let scale := - Z.of_nat (length fp) in
        match s3 with
        | [] =>
            Some (to_double (signed neg (inject_Z (digits_value mant)
                                         * pow10 scale)))
        | e :: t =>
            if Ascii.eqb (lower_char e) "e" then
              let '(eneg, t1) := take_sign t in
              match digitpart t1 with
              | ((_ :: _) as ed, []) =>
                  let ex := if eneg then - digits_value ed
                            else digits_value ed in
                  Some (to_double
                          (signed neg (inject_Z (digits_value mant)
                                       * pow10 (scale + ex))))
              | _ => None
              end
            else None
        end
    end.

(** *** [datetime.strptime]

    As in CPython's [_strptime]: the format is turned into a pattern, one
    group per directive, compiled case-insensitively; the pattern must
    match the whole of the data; the groups are converted and handed to the
    [datetime] constructor.  The directives are those of the formats in
    [_extract_timestamp]. *)

Definition gY := 1%nat.
Definition gm := 2%nat.
Definition gd := 3%nat.
Definition gH := 4%nat.
Definition gM := 5%nat.
Definition gS := 6%nat.
Definition gf := 7%nat.
Definition gz := 8%nat.
Definition gb := 9%nat.

Definition range_cls (lo hi : string) : regex :=
  Cls (fun c => between (code (hd "0"%char (lit lo)))
                        (code (hd "0"%char (lit hi))) c).

Definition month_names : list str :=
  map lit ["jan"; "feb"; "mar"; "apr"; "may"; "jun";
           "jul"; "aug"; "sep"; "oct"; "nov"; "dec"].

Definition directive (c : ascii) : option regex :=
  if Ascii.eqb c "Y" then Some (Grp gY (rep 4 digit))
  else if Ascii.eqb c "m" then
    Some (Grp gm (alts [Seq (chr "1") (range_cls "0" "2");
                        Seq (chr "0") (range_cls "1" "9");
                        range_cls "1" "9"]))
  else if Ascii.eqb c "d" then
    Some (Grp gd (alts [Seq (chr "3") (range_cls "0" "1");
                        Seq (range_cls "1" "2") digit;
                        Seq (chr "0") (range_cls "1" "9");
                        range_cls "1" "9";
                        Seq (chr " ") (range_cls "1" "9")]))
  else if Ascii.eqb c "H" then
    Some (Grp gH (alts [Seq (chr "2") (range_cls "0" "3");
                        Seq (range_cls "0" "1") digit;
                        digit]))
  else if Ascii.eqb c "M" then
    Some (Grp gM (alts [Seq (range_cls "0" "5") digit; digit]))
  else if Ascii.eqb c "S" then
    Some (Grp gS (alts [Seq (chr "6") (range_cls "0" "1");
                        Seq (range_cls "0" "5") digit;
                        digit]))
  else if Ascii.eqb c "f" then Some (Grp gf (rep_range 1 6 (range_cls "0" "9")))
  else if Ascii.eqb c "z" then
    Some (Grp gz (Alt
      (seqs [any_of (lit "+-"); digit; digit; opt (chr ":");
             range_cls "0" "5"; digit;
             opt (seqs [opt (chr ":"); range_cls "0" "5"; digit;
                        opt (Seq (chr ".") (rep_range 1 6 digit))])])
      (chr "Z")))
  else if Ascii.eqb c "b" then Some (Grp gb (alts (map text_ci month_names)))
  else if Ascii.eqb c "%" then Some (chr "%")
  else None.

Fixpoint strptime_regex (fmt : str) : option regex :=
  match fmt with
  | [] => Some Eps
  | c :: fmt' =>
      if Ascii.eqb c "%" then
        match fmt' with
        | d :: fmt'' =>
            match directive d, strptime_regex fmt'' with
            | Some r, Some r' => Some (Seq r r')
            | _, _ => None
            end
        | [] => None
        end
      else
        match strptime_regex fmt' with
        | Some r' =>
            if is_space c then
              match fmt' with
              | c2 :: _ => if is_space c2 then Some r'
                           else Some (Seq (plus space) r')
              | [] => Some (Seq (plus space) r')
              end
            else Some (Seq (chr_ci c) r')
        | None => None
        end
  end.

Definition int_of (o : option str) (default : Z) : Z :=
  match o with
  | Some s => digits_value (lstrip s)
  | None => default
  end.

Fixpoint index_of (x : str) (l : list str) (i : Z) : option Z :=
  match l with
  | [] => None
  | y :: l' => if str_eqb x y then Some i else index_of x l' (i + 1)
  end.

(** The value of a [%f] group: the digits padded on the right to six. *)
Definition fraction_value (s : str) : Z :=
  digits_value (s ++ repeat "0"%char (6 - length s)).

(** The value of a [%z] group in microseconds; [ValueError] for a colon
    used before the minutes and not before the seconds. *)
Definition offset_value (z : str) : result Z :=
  if str_eqb z (lit "Z") then Ok 0
  else
    let z1 :=
      match z with
      | sg :: h1 :: h2 :: c :: t =>
          if Ascii.eqb c ":" then sg :: h1 :: h2 :: t else z
      | _ => z
      end in
    let colon := negb (str_eqb z1 z) in
    do z2 <-
      match z1 with
      | sg :: h1 :: h2 :: m1 :: m2 :: c :: t =>
          if colon then
            if Ascii.eqb c ":" then Ok (sg :: h1 :: h2 :: m1 :: m2 :: t)
            else Raise ValueError
          else Ok z1
      | _ => Ok z1
      end;
    let hours := digits_value (firstn 2 (skipn 1 z2)) in
    let minutes := digits_value (firstn 2 (skipn 3 z2)) in
    let seconds := digits_value (firstn 2 (skipn 5 z2)) in
    let off := (hours * 3600 + minutes * 60 + seconds) * us_per_second
               + fraction_value (skipn 8 z2) in
    Ok (match z2 with
        | sg :: _ => if Ascii.eqb sg "-" then - off else off
        | [] => off
        end).

(** [datetime.strptime(data, fmt)] *)
Definition strptime (data fmt : str) : result datetime :=
  match strptime_regex fmt with
  | None => Raise ValueError
  | Some r =>
      match re_match r data with
      | None => Raise ValueError
      | Some x =>
          match m_after x with
          | _ :: _ => Raise ValueError      (* unconverted data remains *)
          | [] =>
              let y := int_of (group gY x) 1900 in
              let mo :=
                match group gb x with
                | Some b =>
                    match index_of (lower b) month_names 1 with
                    | Some i => i
                    | None => 1
                    end
                | None => int_of (group gm x) 1
                end in
              let d := int_of (group gd x) 1 in
              let h := int_of (group gH x) 0 in
              let mi := int_of (group gM x) 0 in
              let s := int_of (group gS x) 0 in
              let us := match group gf x with
                        | Some f => fraction_value f
                        | None => 0
                        end in
              do tz <-
                match group gz x with
                | Some z =>
                    do off <- offset_value z;
                    if Z.abs off <? us_per_day then Ok (Some off)
                    else Raise ValueError
                | None => Ok None
                end;
              mk_datetime y mo d h mi s us tz
          end
      end
  end.

End PyLib.

Export PyLib.

(** ** app/models/schemas.py *)

Module Schemas.

Inductive LogLevel :=
| ERROR | WARN | WARNING | INFO | DEBUG | TRACE | FATAL | CRITICAL.

Definition level_value (l : LogLevel) : str :=
  match l with
  | ERROR => lit "ERROR" | WARN => lit "WARN" | WARNING => lit "WARNING"
  | INFO => lit "INFO" | DEBUG => lit "DEBUG" | TRACE => lit "TRACE"
  | FATAL => lit "FATAL" | CRITICAL => lit "CRITICAL"
  end.

Definition level_eqb (a b : LogLevel) : bool :=
  match a, b with
  | ERROR, ERROR | WARN, WARN | WARNING, WARNING | INFO, INFO
  | DEBUG, DEBUG | TRACE, TRACE | FATAL, FATAL | CRITICAL, CRITICAL => true
  | _, _ => false
  end.

Inductive LogFormat := JSON | CSV | SYSLOG | PLAIN_TEXT | CUSTOM.

Definition format_eqb (a b : LogFormat) : bool :=
  match a, b with
  | JSON, JSON | CSV, CSV | SYSLOG, SYSLOG | PLAIN_TEXT, PLAIN_TEXT
  | CUSTOM, CUSTOM => true
  | _, _ => false
  end.

(** Decoded JSON, which is also the type of the values of [metadata]. *)
#[warnings="-register-all"]
Inductive json :=
| JNull
| JBool (b : bool)
| JInt (z : Z)
| JFloat (q : Q)
| JStr (s : str)
| JArr (l : list json)
| JObj (l : list (str * json)).

(** Python's truth value of a decoded value. *)
Definition truthy (v : json) : bool :=
  match v with
  | JNull => false
  | JBool b => b
  | JInt z => negb (z =? 0)%Z
  | JFloat q => negb (Qnum q =? 0)%Z
  | JStr s => nonempty s
  | JArr l => match l with [] => false | _ => true end
  | JObj l => match l with [] => false | _ => true end
  end.

Record LogEntry := mkLogEntry {
  timestamp : option datetime;
  level : option LogLevel;
  service : option str;
  message : str;
  raw_line : str;
  line_number : nat;
  metadata : list (str * json)
}.

Record PatternMatch := mkPatternMatch {
  pattern : str;
  count : nat;
  examples : list str;
  severity : str;
  category : str;
  first_occurrence : option datetime;
  last_occurrence : option datetime
}.

(** The anomaly dictionaries of [log_analyzer]. *)
Record Anomaly := mkAnomaly {
  anomaly_type : str;
  description : str;
  anomaly_timestamp : str;
  anomaly_severity : str;
  affected_entries : nat
}.

(** The bucket dictionaries of [get_timeline_data]. *)
Record TimelinePoint := mkTimelinePoint {
  bucket : str;
  error_count : nat;
  warn_count : nat;
  info_count : nat;
  other_count : nat;
  total_count : nat
}.

End Schemas.

Export Schemas.

(** ** Dictionaries

    A [dict] keeps its keys in insertion order; assigning to a key that is
    present keeps its place. *)

Module Dict.

Section WithKey.

Context {K V : Type}.
Variable keq : K -> K -> bool.

Fixpoint get (k : K) (d : list (K * V)) : option V :=
  match d with
  | [] => None
  | (k', v) :: d' => if keq k' k then Some v else get k d'
  end.

Fixpoint set (k : K) (v : V) (d : list (K * V)) : list (K * V) :=
  match d with
  | [] => [(k, v)]
  | (k', v') :: d' =>
      if keq k' k then (k', v) :: d' else (k', v') :: set k v d'
  end.

(** [d[k] = f(d[k])] on a [defaultdict] with default [dflt]. *)
Fixpoint update (k : K) (f : V -> V) (dflt : V) (d : list (K * V))
  : list (K * V) :=
  match d with
  | [] => [(k, f dflt)]
  | (k', v') :: d' =>
      if keq k' k then (k', f v') :: d' else (k', v') :: update k f dflt d'
  end.

End WithKey.

End Dict.

(** Stable sorting by a key: the result of [sorted(l, key=...)]; [leb] is
    the order of the keys ([reverse=True] is the converse order, which
    keeps equal elements in their original order as well). *)

Section Sorting.

Context {A : Type}.
Variable leb : A -> A -> bool.

Fixpoint insert_sorted (x : A) (l : list A) : list A :=
  match l with
  | [] => [x]
  | y :: l' => if leb x y then x :: l else y :: insert_sorted x l'
  end.

Fixpoint sorted (l : list A) : list A :=
  match l with
  | [] => []
  | x :: l' => insert_sorted x (sorted l')
  end.

End Sorting.

(** ** Sequences: prefixes, substrings and slices *)

Module Seqs.

Local Open Scope Z_scope.

(** [s.startswith(p)] *)
Fixpoint startswith (s p : str) : bool :=
  match p, s with
  | [], _ => true
  | _ :: _, [] => false
  | x :: p', y :: s' => Ascii.eqb x y && startswith s' p'
  end.

(** [sub in s] *)
Fixpoint contains (s sub : str) : bool :=
  startswith s sub
  || match s with
     | [] => false
     | _ :: s' => contains s' sub
     end.

(** A bound of a slice of a sequence of length [n]: a negative index
    counts from the end, and the result is clipped to [0..n]. *)
Definition slice_index (n i : Z) : Z :=
  if i <? 0 then Z.max (i + n) 0 else Z.min i n.

(** [l[start:stop]] *)
Definition py_slice {A} (l : list A) (start stop : Z) : list A :=
  let n := Z.of_nat (length l) in
  let lo := slice_index n start in
  let hi := slice_index n stop in
  firstn (Z.to_nat (hi - lo)) (skipn (Z.to_nat lo) l).

(** [sum(counts)] *)
Definition total (counts : list nat) : nat := fold_right Nat.add 0%nat counts.

End Seqs.

Export Seqs.

(** ** app/services/file_processor.py *)

Module FileProcessor.

(** *** The pattern tables of [__init__] *)

Definition d2 : regex := rep 2 digit.
Definition d4 : regex := rep 4 digit.
Definition hms : regex := seqs [d2; chr ":"; d2; chr ":"; d2].
Definition ymd : regex := seqs [d4; chr "-"; d2; chr "-"; d2].

(** [\w{3}\s+\d{1,2}\s+\d{2}:\d{2}:\d{2}] *)
Definition syslog_stamp : regex :=
  seqs [rep 3 word; plus space; rep_range 1 2 digit; plus space; hms].

Definition timestamp_patterns : list (str * regex) :=
  [ (lit "iso8601_with_tz",
     seqs [ymd; chr "T"; hms; opt (Seq (chr ".") (rep_range 1 6 digit));
           opt (Alt (chr "Z")
                    (seqs [any_of (lit "+-"); d2; opt (chr ":"); d2]))]);
    (lit "iso8601_simple",
     seqs [ymd; chr " "; hms; opt (Seq (chr ".") (rep_range 1 6 digit))]);
    (lit "syslog", syslog_stamp);
    (lit "us_format",
     seqs [rep_range 1 2 digit; chr "/"; rep_range 1 2 digit; chr "/"; d4;
           chr " "; hms]);
    (lit "european",
     seqs [rep_range 1 2 digit; chr "."; rep_range 1 2 digit; chr "."; d4;
           chr " "; hms]);
    (lit "unix_timestamp",
     Seq (rep 10 digit) (opt (Seq (chr ".") (rep_range 1 6 digit))));
    (lit "apache_common",
     seqs [d2; chr "/"; rep 3 word; chr "/"; d4; chr ":"; hms; chr " ";
           any_of (lit "+-"); d4]) ].

Definition bounded (ws : list string) : regex :=
  seqs [WordB; alts (map (fun w => text (lit w)) ws); WordB].

Definition bracketed (ws : list string) : regex :=
  seqs [chr "["; alts (map (fun w => text (lit w)) ws); chr "]"].

Definition log_level_patterns : list (LogLevel * list regex) :=
  [ (ERROR, [bounded ["ERROR"; "ERR"; "ERRO"]; bounded ["error"; "err"; "erro"];
             bounded ["Error"; "Err"; "Erro"];
             bracketed ["ERROR"; "ERR"; "ERRO"];
             bracketed ["error"; "err"; "erro"]]);
    (WARN, [bounded ["WARN"; "WARNING"; "WARN"]; bounded ["warn"; "warning"];
            bounded ["Warn"; "Warning"]; bracketed ["WARN"; "WARNING"];
            bracketed ["warn"; "warning"]]);
    (INFO, [bounded ["INFO"; "INFORMATION"]; bounded ["info"; "information"];
            bounded ["Info"; "Information"]; bracketed ["INFO"; "INFORMATION"];
            bracketed ["info"; "information"]]);
    (DEBUG, [bounded ["DEBUG"; "DBG"]; bounded ["debug"; "dbg"];
             bounded ["Debug"; "Dbg"]; bracketed ["DEBUG"; "DBG"];
             bracketed ["debug"; "dbg"]]);
    (TRACE, [bounded ["TRACE"; "TRC"]; bounded ["trace"; "trc"];
             bounded ["Trace"; "Trc"]; bracketed ["TRACE"; "TRC"];
             bracketed ["trace"; "trc"]]);
    (FATAL, [bounded ["FATAL"; "CRIT"; "CRITICAL"];
             bounded ["fatal"; "crit"; "critical"];
             bounded ["Fatal"; "Crit"; "Critical"];
             bracketed ["FATAL"; "CRIT"; "CRITICAL"];
             bracketed ["fatal"; "crit"; "critical"]]) ].

(** [detection_thresholds] *)
Definition json_confidence : Q := 7 # 10.
Definition csv_confidence : Q := 8 # 10.
Definition syslog_confidence : Q := 6 # 10.
Definition minimum_lines : nat := 3.

(** *** [_get_excluded_service_names] *)
Definition _get_excluded_service_names : list str :=
  map lit ["info"; "error"; "warn"; "warning"; "debug"; "trace"; "fatal";
           "critical"; "log"; "logs"; "message"; "msg"; "text"; "data";
           "main"; "root"; "system"].

Definition excluded (s : str) : bool :=
  existsb (str_eqb (lower s)) _get_excluded_service_names.

(** *** [_extract_service] *)

Definition service_patterns : list regex :=
  [ seqs [Grp 1 (plus word); chr "["; plus digit; chr "]"; chr ":"; space];
    seqs [chr "["; Grp 1 (plus (none_of (lit "]"))); chr "]"];
    seqs [Grp 1 (plus word); chr ":"; space];
    seqs [WordB; Grp 1 (plus word); Star space; chr "-"; space];
    seqs [Grp 1 (plus word); chr "."; plus word];
    seqs [Grp 1 (plus word); chr ":"; Eol];
    seqs [Bol; Grp 1 (plus word); space] ].

(** The loop over the patterns: the first pattern that matches with a
    group outside the stoplist decides. *)
Fixpoint first_service (patterns : list regex) (service : str) : option str :=
  match patterns with
  | [] => None
  | p :: ps =>
      match re_search p service with
      | Some x =>
          match group 1 x with
          | Some extracted =>
              if negb (excluded extracted) then Some extracted
              else first_service ps service
          | None => first_service ps service
          end
      | None => first_service ps service
      end
  end.

(** [[^\w.-]] *)
Definition not_name_char : regex :=
  Cls (fun c => negb (is_word c || Ascii.eqb c "." || Ascii.eqb c "-")).

Definition _extract_service (service_input : option str) : option str :=
  match service_input with
  | None => None
  | Some input =>
      if negb (nonempty input) then None
      else
        let service := strip input in
        if negb (existsb (fun c => mem_char c service) (lit "[]:- ")) then
          (* already clean service name *)
          if negb (excluded service) then Some service else None
        else
          match first_service service_patterns service with
          | Some extracted => Some extracted
          | None =>
              (* "if no pattern matches, return the cleaned service name" *)
              let cleaned := re_sub not_name_char [] service in
              if nonempty cleaned && negb (excluded cleaned)
              then Some cleaned else None
          end
  end.

(** *** [_extract_log_level] *)

Definition enhanced_patterns : list (LogLevel * list regex) :=
  [ (FATAL, [bounded ["FATAL"]; bounded ["CRITICAL"]; bounded ["EMERGENCY"]]);
    (ERROR, [bounded ["ERROR"]; bounded ["ERR"]; bounded ["FAILED"];
             bounded ["FAILURE"]]);
    (WARN, [bounded ["WARN"]; bounded ["WARNING"]; bounded ["ALERT"]]);
    (INFO, [bounded ["INFO"]; bounded ["INFORMATION"]; bounded ["NOTICE"]]);
    (DEBUG, [bounded ["DEBUG"]; bounded ["TRACE"]; bounded ["VERBOSE"]]) ].

Fixpoint first_level (table : list (LogLevel * list regex)) (s : str)
  : option LogLevel :=
  match table with
  | [] => None
  | (lv, patterns) :: table' =>
      if existsb (fun p => is_some (re_search p s)) patterns then Some lv
      else first_level table' s
  end.

Definition _extract_log_level (text : option str) : option LogLevel :=
  match text with
  | None => None
  | Some t =>
      if negb (nonempty t) then None
      else
        let text_upper := upper t in
        match first_level enhanced_patterns text_upper with
        | Some lv => Some lv
        | None => first_level log_level_patterns text_upper
        end
  end.

Section Platform.

(** The local time zone. *)
Variable utcoffset : Z -> Z.

(** *** [_extract_timestamp] *)

Definition formats : list string :=
  [ "%Y-%m-%dT%H:%M:%S.%fZ"; "%Y-%m-%dT%H:%M:%SZ"; "%Y-%m-%dT%H:%M:%S.%f";
    "%Y-%m-%dT%H:%M:%S"; "%Y-%m-%dT%H:%M:%S%z";
    "%Y-%m-%d %H:%M:%S.%f"; "%Y-%m-%d %H:%M:%S";
    "%b %d %H:%M:%S"; "%Y %b %d %H:%M:%S";
    "%m/%d/%Y %H:%M:%S"; "%d/%m/%Y %H:%M:%S"; "%Y/%m/%d %H:%M:%S";
    "%s" ].

(** One turn of the loop over [formats]. *)
Definition try_format (timestamp_str : str) (fmt : string) : result datetime :=
  if String.eqb fmt "%s" then
    match py_float timestamp_str with
    | Some x => fromtimestamp utcoffset x
    | None => Raise ValueError
    end
  else strptime timestamp_str (lit fmt).

(** [except (ValueError, TypeError, OverflowError)]: what the loop
    catches; any other exception leaves the function. *)
Definition caught_in_loop (e : exn) : bool :=
  match e with
  | ValueError | TypeError | OverflowError => true
  | _ => false
  end.

Fixpoint first_format (timestamp_str : str) (fmts : list string)
  : result (option datetime) :=
  match fmts with
  | [] => Ok None
  | fmt :: fmts' =>
      match try_format timestamp_str fmt with
      | Ok t => Ok (Some t)
      | Raise e =>
          if caught_in_loop e then first_format timestamp_str fmts'
          else Raise e
      end
  end.

(** [except (ValueError, OverflowError)] of the digit branch. *)
Definition caught_in_digits (e : exn) : bool :=
  match e with
  | ValueError | OverflowError => true
  | _ => false
  end.

(** The digit branch that follows the loop. *)
Definition relative_timestamp (timestamp_str : str)
  : result (option datetime) :=
  if isdigit timestamp_str then
    let attempt :=
      do timestamp <- py_int timestamp_str;
      if (10 ^ 10 <? timestamp)%Z then
        do x <- int_truediv timestamp 1000;
        fromtimestamp utcoffset x
      else if (10 ^ 13 <? timestamp)%Z then
        do x <- float_of_int timestamp;
        fromtimestamp utcoffset (fdiv_by x 1000000)
      else fromtimestamp_int utcoffset timestamp in
    match attempt with
    | Ok t => Ok (Some t)
    | Raise e => if caught_in_digits e then Ok None else Raise e
    end
  else Ok None.

Definition _extract_timestamp (timestamp_str : option str)
  : result (option datetime) :=
  match timestamp_str with
  | None => Ok None
  | Some input =>
      if negb (nonempty input) then Ok None
      else
        let timestamp_str := strip input in
        do found <- first_format timestamp_str formats;
        match found with
        | Some t => Ok (Some t)
        | None => relative_timestamp timestamp_str
        end
  end.

(** The libraries behind the parsers: [json.loads], [str] of a decoded value,
    what pydantic makes of a [message] that is not a string, the text of an
    exception, and the [csv] module. *)
Variable json_loads : str -> result json.
Variable py_repr : json -> str.
Variable coerce_message : json -> result str.
Variable error_text : str -> exn -> str.
Variable dialect : Type.
Variable csv_excel : dialect.
Variable csv_sniff : str -> str -> result dialect.
Variable csv_reader : list str -> dialect -> result (list (list str)).

(** [str(v)] *)
Definition py_str (v : json) : str :=
  match v with
  | JStr s => s
  | JNull => lit "None"
  | JBool true => lit "True"
  | JBool false => lit "False"
  | JInt z => (if (z <? 0)%Z then lit "-" else []) ++ decimal z
  | _ => py_repr v
  end.

(** [d.get(k)] and [d.get(k, default)] on a decoded object. *)
Definition jget (k : string) (d : list (str * json)) : option json :=
  Dict.get str_eqb (lit k) d.

Definition or_none (o : option json) : json :=
  match o with Some v => v | None => JNull end.

(** [a or b] *)
Definition py_or (a b : json) : json := if truthy a then a else b.

(** An argument that may be any decoded value: [None] and the other false
    values are dropped, anything else is passed as [str(v)]. *)
Definition as_text (v : json) : option str :=
  if truthy v then Some (py_str v) else None.

(** *** Entry constructors *)

Definition _create_fallback_entry (line : str) (line_num : nat) (reason : str)
  : LogEntry :=
  {| timestamp := None;
     level := Some INFO;
     service := None;
     message := if nonempty line then line else lit "(empty line)";
     raw_line := line;
     line_number := line_num;
     metadata := [(lit "parse_error", JStr reason)] |}.

Definition _create_log_entry_from_json (data : list (str * json))
    (raw : str) (line_num : nat) : result LogEntry :=
  do ts <- _extract_timestamp
             (as_text (py_or (py_or (or_none (jget "timestamp" data))
                                    (or_none (jget "time" data)))
                             (or_none (jget "@timestamp" data))));
  let lv_arg :=
    match jget "level" data with
    | Some v => v
    | None => match jget "severity" data with
              | Some v => v
              | None => JStr []
              end
    end in
  let lv := _extract_log_level (Some (py_str lv_arg)) in
  let sv_arg :=
    match jget "service" data with
    | Some v => v
    | None => match jget "logger" data with
              | Some v => v
              | None => or_none (jget "component" data)
              end
    end in
  let sv := _extract_service (as_text sv_arg) in
  let msg_arg :=
    match jget "message" data with
    | Some v => v
    | None => match jget "msg" data with
              | Some v => v
              | None => JStr (py_str (JObj data))
              end
    end in
  do msg <- match msg_arg with
            | JStr s => Ok s
            | v => coerce_message v
            end;
  Ok {| timestamp := ts; level := lv; service := sv; message := msg;
        raw_line := raw; line_number := line_num; metadata := data |}.

(** In [_create_log_entry_from_text] the loop runs over the dictionary
    [timestamp_patterns] itself, that is over its keys: what is searched
    for in the line is the name of each pattern, taken as a pattern, and
    what is handed to [_extract_timestamp] is that name.  No name is a
    number, so that nothing is raised there (lemma
    [PatternNames.pattern_name_stamp]); the model gives no timestamp for an
    exception, which therefore never shows. *)
Fixpoint first_timestamp (names : list str) (line : str)
  : option datetime :=
  match names with
  | [] => None
  | name :: names' =>
      match re_search (text name) line with
      | Some x =>
          match _extract_timestamp (Some (m_text x)) with
          | Ok timestamp => timestamp
          | Raise _ => None
          end
      | None => first_timestamp names' line
      end
  end.

Definition _create_log_entry_from_text (line : str) (line_num : nat)
  : LogEntry :=
  {| timestamp := first_timestamp (map fst timestamp_patterns) line;
     level := _extract_log_level (Some line);
     service := _extract_service (Some line);
     message := line;
     raw_line := line;
     line_number := line_num;
     metadata := [] |}.

(** A row of [csv.DictReader] after the [None] key is dropped: a short row
    leaves its missing fields at [None]. *)
Definition csv_row := list (str * option str).

Definition present (col : string) (row : csv_row) : option str :=
  match Dict.get str_eqb (lit col) row with
  | Some (Some v) => if nonempty v then Some v else None
  | _ => None
  end.

Fixpoint first_present (cols : list string) (row : csv_row) : option str :=
  match cols with
  | [] => None
  | col :: cols' =>
      match present col row with
      | Some v => Some v
      | None => first_present cols' row
      end
  end.

(** [sep.join(values)]: [TypeError] when a value is [None]. *)
Fixpoint join_values (vs : list (option str)) : result (list str) :=
  match vs with
  | [] => Ok []
  | Some v :: vs' => do r <- join_values vs'; Ok (v :: r)
  | None :: _ => Raise TypeError
  end.

Definition _create_log_entry_from_csv (row : csv_row) (line_num : nat)
  : result LogEntry :=
  do ts <- match first_present ["timestamp"; "time"; "datetime"; "date"] row
           with
           | Some v => _extract_timestamp (Some v)
           | None => Ok None
           end;
  let lv := match first_present ["level"; "severity"; "loglevel"] row with
            | Some v => _extract_log_level (Some v)
            | None => None
            end in
  let sv := match first_present ["service"; "logger"; "component"; "source"]
                                row with
            | Some v => _extract_service (Some v)
            | None => None
            end in
  let msg0 := match first_present ["message"; "msg"; "description"; "text"]
                                  row with
              | Some v => v
              | None => []
              end in
  let msg :=
    if nonempty msg0 then msg0
    else join (lit " | ")
           (flat_map (fun kv => match snd kv with
                                | Some v => if nonempty v
                                            then [fst kv ++ lit ": " ++ v]
                                            else []
                                | None => []
                                end) row) in
  do vals <- join_values (map snd row);
  Ok {| timestamp := ts; level := lv; service := sv; message := msg;
        raw_line := join (lit ",") vals; line_number := line_num;
        metadata := map (fun kv => (fst kv, match snd kv with
                                            | Some v => JStr v
                                            | None => JNull
                                            end)) row |}.

(** Named groups of the syslog patterns. *)
Definition g_priority := 1.
Definition g_timestamp := 2.
Definition g_hostname := 3.
Definition g_tag := 4.
Definition g_service := 5.
Definition g_message := 6.

Definition rest_of_line : regex := Seq (Grp g_message (Star dot)) Eol.

Definition syslog_patterns : list regex :=
  [ seqs [Bol; chr "<"; Grp g_priority (plus digit); chr ">";
          Grp g_timestamp syslog_stamp; plus space;
          Grp g_hostname (plus nonspace); plus space;
          Grp g_tag (lazy_plus nonspace); chr ":"; Star space; rest_of_line];
    seqs [Bol; Grp g_timestamp syslog_stamp; plus space;
          Grp g_hostname (plus nonspace); plus space;
          Grp g_service (lazy_plus nonspace); chr ":"; Star space;
          rest_of_line];
    seqs [Bol;
          Grp g_timestamp
            (seqs [ymd; chr "T"; hms; opt (Seq (chr ".") (plus digit));
                   opt (Alt (chr "Z")
                            (seqs [any_of (lit "+-"); d2; chr ":"; d2]))]);
          plus space; Grp g_hostname (plus nonspace); plus space;
          Grp g_service (plus nonspace); plus space; rest_of_line];
    seqs [Bol; Grp g_timestamp syslog_stamp; plus space;
          Grp g_hostname (plus nonspace); plus space;
          Grp g_tag (plus (none_of (lit ":"))); chr ":"; Star space;
          rest_of_line];
    seqs [Bol; Grp g_timestamp syslog_stamp; plus space; rest_of_line] ].

Definition opt_text (o : option str) : json :=
  match o with Some s => JStr s | None => JNull end.

Definition truthy_text (o : option str) : option str :=
  match o with
  | Some s => if nonempty s then Some s else None
  | None => None
  end.

Definition _create_log_entry_from_syslog_match (x : rmatch) (line : str)
    (line_num : nat) : result LogEntry :=
  let timestamp_str := group g_timestamp x in
  let hostname := group g_hostname x in
  let sv0 := match truthy_text (group g_service x) with
             | Some s => Some s
             | None => group g_tag x
             end in
  let msg := match group g_message x with Some s => s | None => [] end in
  let priority := group g_priority x in
  do ts <- match truthy_text timestamp_str with
           | Some s => _extract_timestamp (Some s)
           | None => Ok None
           end;
  let lv0 :=
    match truthy_text priority with
    | Some p =>
        match py_int p with
        | Ok n =>
            let sev := (n mod 8)%Z in
            if (sev <=? 3)%Z then Some ERROR
            else if (sev =? 4)%Z then Some WARN
            else if (sev <=? 6)%Z then Some INFO
            else Some DEBUG
        | Raise _ => None
        end
    | None => None
    end in
  let lv := match lv0 with
            | Some l => Some l
            | None => _extract_log_level (Some msg)
            end in
  Ok {| timestamp := ts; level := lv; service := _extract_service sv0;
        message := msg; raw_line := line; line_number := line_num;
        metadata := [(lit "hostname", opt_text hostname);
                     (lit "priority", opt_text priority)] |}.

(** The pattern for [key=value]: a word, the equals sign, and a value that
    is double-quoted (group 2), single-quoted (group 3) or free of blanks
    (group 4). *)
Definition kv_pattern : regex :=
  seqs [Grp 1 (plus word); chr "=";
        alts [seqs [chr dquote; Grp 2 (Star (none_of [dquote])); chr dquote];
              seqs [chr "'"; Grp 3 (Star (none_of (lit "'"))); chr "'"];
              Grp 4 (plus nonspace)]].

(** One tuple of [re.findall]: a group that took no part is empty. *)
Definition group_or_empty (n : nat) (x : rmatch) : str :=
  match group n x with Some s => s | None => [] end.

Definition kv_value (x : rmatch) : str :=
  if nonempty (group_or_empty 2 x) then group_or_empty 2 x
  else if nonempty (group_or_empty 3 x) then group_or_empty 3 x
  else group_or_empty 4 x.

Definition sget (k : string) (d : list (str * str)) : option str :=
  truthy_text (Dict.get str_eqb (lit k) d).

Definition first_some {A} (a b : option A) : option A :=
  match a with Some _ => a | None => b end.

Definition _create_log_entry_from_structured (line : str) (line_num : nat)
  : result LogEntry :=
  let structured_data :=
    fold_left (fun d x => Dict.set str_eqb (group_or_empty 1 x) (kv_value x) d)
              (re_finditer kv_pattern line) [] in
  match structured_data with
  | [] => Ok (_create_log_entry_from_text line line_num)
  | _ =>
      do ts <- _extract_timestamp
                 (first_some (sget "timestamp" structured_data)
                    (first_some (sget "time" structured_data)
                                (sget "ts" structured_data)));
      let lv := _extract_log_level
                  (first_some (sget "level" structured_data)
                     (first_some (sget "severity" structured_data)
                        (Some (match Dict.get str_eqb (lit "loglevel")
                                              structured_data with
                               | Some v => v
                               | None => []
                               end)))) in
      let sv := _extract_service
                  (first_some (sget "service" structured_data)
                     (first_some (sget "component" structured_data)
                                 (Dict.get str_eqb (lit "logger")
                                           structured_data))) in
      let msg :=
        match first_some (sget "message" structured_data)
                         (sget "msg" structured_data) with
        | Some s => s
        | None => join (lit " ")
                    (map (fun kv => fst kv ++ lit "=" ++ snd kv)
                         structured_data)
        end in
      Ok {| timestamp := ts; level := lv; service := sv; message := msg;
            raw_line := line; line_number := line_num;
            metadata := map (fun kv => (fst kv, JStr (snd kv)))
                            structured_data |}
  end.

(** *** Parsers

    [content.strip().split(newline)], numbered from 1 as by [enumerate]. *)
Definition numbered_lines (content : str) : list (nat * str) :=
  let lines := str_split newline (strip content) in
  combine (seq 1 (length lines)) lines.

(** The body shared by the line parsers: a stripped line that is empty is
    skipped, any other line appends the one entry that [entry_of] makes. *)
Definition parse_lines (entry_of : str -> nat -> LogEntry) (content : str)
  : list LogEntry :=
  flat_map (fun nl => let line := strip (snd nl) in
                      if nonempty line then [entry_of line (fst nl)] else [])
           (numbered_lines content).

Definition json_line_entry (line : str) (line_num : nat) : LogEntry :=
  match json_loads line with
  | Ok (JObj data) =>
      match _create_log_entry_from_json data line line_num with
      | Ok entry => entry
      | Raise e =>
          _create_fallback_entry line line_num
            (lit "Unexpected error: " ++ error_text line e)
      end
  | Ok _ => _create_fallback_entry line line_num (lit "Non-object JSON")
  | Raise JSONDecodeError =>
      _create_fallback_entry line line_num
        (lit "JSON decode error: " ++ error_text line JSONDecodeError)
  | Raise e =>
      _create_fallback_entry line line_num
        (lit "Unexpected error: " ++ error_text line e)
  end.

Definition _parse_json_logs (content : str) : list LogEntry :=
  parse_lines json_line_entry content.

Definition _parse_plain_text_logs (content : str) : list LogEntry :=
  parse_lines _create_log_entry_from_text content.

(** The first pattern that matches decides; a failure while the entry is
    built gives a fallback entry; no pattern: the line is plain text. *)
Fixpoint syslog_line_entry_from (patterns : list regex) (line : str)
    (line_num : nat) : LogEntry :=
  match patterns with
  | [] => _create_log_entry_from_text line line_num
  | p :: ps =>
      match re_match p line with
      | Some x =>
          match _create_log_entry_from_syslog_match x line line_num with
          | Ok entry => entry
          | Raise e =>
              _create_fallback_entry line line_num
                (lit "Syslog parse error: " ++ error_text line e)
          end
      | None => syslog_line_entry_from ps line line_num
      end
  end.

Definition _parse_syslog_logs (content : str) : list LogEntry :=
  parse_lines (syslog_line_entry_from syslog_patterns) content.

Definition structured_line_entry (line : str) (line_num : nat) : LogEntry :=
  match _create_log_entry_from_structured line line_num with
  | Ok entry => entry
  | Raise _ => _create_log_entry_from_text line line_num
  end.

Definition _parse_structured_logs (content : str) : list LogEntry :=
  parse_lines structured_line_entry content.

(** [s.splitlines()] *)
Definition is_linebreak (c : ascii) : bool :=
  between 10 13 c || between 28 30 c || (code c =? 133).

Fixpoint splitlines_from (cur : str) (s : str) : list str :=
  match s with
  | [] => match cur with [] => [] | _ => [rev cur] end
  | c :: s' =>
      if is_linebreak c then
        rev cur ::
        match s' with
        | n :: s'' =>
            if (code c =? 13) && (code n =? 10) then splitlines_from [] s''
            else splitlines_from [] s'
        | [] => []
        end
      else splitlines_from (c :: cur) s'
  end.

Definition splitlines (s : str) : list str := splitlines_from [] s.

(** The dialect loop of [_parse_csv_logs]: [csv.Error] moves on to the
    next delimiter, any other exception leaves the parser. *)
Fixpoint sniff_first (sample : str) (delimiters : list string)
  : result (option dialect) :=
  match delimiters with
  | [] => Ok None
  | dl :: ds =>
      match csv_sniff sample (lit dl) with
      | Ok dia => Ok (Some dia)
      | Raise CsvError => sniff_first sample ds
      | Raise e => Raise e
      end
  end.

Definition tab : string := String (ascii_of_nat 9) EmptyString.

(** The rows of [csv.DictReader]: empty rows are skipped, a short row is
    filled with [None], the surplus of a long row goes under the key [None],
    which [_parse_csv_logs] drops again. *)
Definition dict_row (fieldnames : list str) (row : list str) : csv_row :=
  fold_left (fun d kv => Dict.set str_eqb (fst kv) (snd kv) d)
            (combine fieldnames
                     (map Some row
                      ++ repeat None (length fieldnames - length row)))
            [].

Definition csv_row_entry (lines : list str) (row : csv_row) (line_num : nat)
  : LogEntry :=
  match row with
  | [] => _create_fallback_entry [] line_num (lit "Empty CSV row")
  | _ =>
      match _create_log_entry_from_csv row line_num with
      | Ok entry => entry
      | Raise e =>
          let raw := nth (line_num - 1) lines [] in
          _create_fallback_entry raw line_num
            (lit "CSV parse error: " ++ error_text raw e)
      end
  end.

Definition parse_csv (content : str) : result (list LogEntry) :=
  let lines := splitlines content in
  if length lines <? 2 then Raise LogParsingError
  else
    let sample := join [newline] (firstn (Nat.min 10 (length lines)) lines) in
    do found <- sniff_first sample [","; ";"; tab; "|"];
    let dia := match found with Some dia => dia | None => csv_excel end in
    do rows <- csv_reader lines dia;
    match rows with
    | [] => Raise LogParsingError
    | [] :: _ => Raise LogParsingError
    | headers :: data =>
        let data := filter (fun r => match r with [] => false | _ => true end)
                           data in
        Ok (map (fun nr => csv_row_entry lines (dict_row headers (snd nr))
                                         (fst nr))
                (combine (seq 2 (length data)) data))
    end.

Definition _parse_csv_logs (content : str) : list LogEntry :=
  match parse_csv content with
  | Ok entries => entries
  | Raise _ => _parse_plain_text_logs content
  end.

(** *** Format detection *)

Definition ratio (a b : nat) : Q := Z.of_nat a # Pos.of_nat b.

(** The last [.] of the base name starts the extension, unless only dots
    precede it: [os.path.splitext(filename)[1]]. *)
Fixpoint ext_from (rev_base seen : str) : str :=
  match rev_base with
  | [] => []
  | c :: more =>
      if Ascii.eqb c "." then
        if existsb (fun x => negb (Ascii.eqb x ".")) more then c :: seen
        else []
      else ext_from more (c :: seen)
  end.

Definition splitext_ext (filename : str) : str :=
  ext_from (rev (last (str_split "/" filename) [])) [].

Definition _format_from_extension (filename : str) : LogFormat :=
  let ext := lower (splitext_ext filename) in
  if str_eqb ext (lit ".json") then JSON
  else if str_eqb ext (lit ".csv") then CSV
  else if str_eqb ext (lit ".syslog") then SYSLOG
  else PLAIN_TEXT.

(** [_score_json_format]: the loop keeps the number of object lines and the
    number of lines that are not blank; of the exceptions of [json.loads]
    only [JSONDecodeError] and [TypeError] are caught. *)
Fixpoint json_counts (lines : list str) (valid total : nat)
  : result (nat * nat) :=
  match lines with
  | [] => Ok (valid, total)
  | line :: lines' =>
      if negb (nonempty (strip line)) then json_counts lines' valid (total - 1)
      else
        match json_loads line with
        | Ok (JObj _) => json_counts lines' (S valid) total
        | Ok _ => json_counts lines' valid total
        | Raise JSONDecodeError => json_counts lines' valid total
        | Raise TypeError => json_counts lines' valid total
        | Raise e => Raise e
        end
  end.

Definition _score_json_format (lines : list str) : result Q :=
  match lines with
  | [] => Ok 0%Q
  | _ =>
      do vt <- json_counts lines 0 (length lines);
      let '(valid, total) := vt in
      if total =? 0 then Ok 0%Q else Ok (ratio valid total)
  end.

Definition qmin (a b : Q) : Q := if Qlt_le_dec b a then b else a.

Definition header_like (col : str) : bool :=
  isalpha (remove_char " " (remove_char "_" col)).

Definition score_csv (lines : list str) : result Q :=
  let sample := join [newline] (firstn 10 lines) in
  do dia <- csv_sniff sample (lit ",;|" ++ lit tab);
  do rows <- csv_reader (firstn 5 lines) dia;
  match rows with
  | header :: (_ :: _) as data =>
      if length header <? 2 then Ok 0%Q
      else
        let consistent :=
          length (filter (fun row => length row =? length header) data) in
        let consistency_score := ratio consistent (length rows - 1) in
        let header_bonus :=
          if forallb header_like header then (2 # 10)%Q else 0%Q in
        Ok (qmin 1%Q (consistency_score + header_bonus)%Q)
  | _ => Ok 0%Q
  end.

Definition _score_csv_format (lines : list str) : Q :=
  if length lines <? 2 then 0%Q
  else match score_csv lines with
       | Ok q => q
       | Raise _ => 0%Q
       end.

Definition syslog_score_patterns : list regex :=
  [ Seq Bol syslog_stamp;
    seqs [Bol; chr "<"; plus digit; chr ">"];
    seqs [Bol; ymd; chr "T"; hms] ].

Definition count_if {A} (f : A -> bool) (l : list A) : nat :=
  length (filter f l).

Definition _score_syslog_format (lines : list str) : Q :=
  match lines with
  | [] => 0%Q
  | _ =>
      let matching_lines :=
        count_if (fun line => existsb (fun p => is_some (re_search p line))
                                      syslog_score_patterns)
                 (firstn 20 lines) in
      ratio matching_lines (Nat.min (length lines) 20)
  end.

Definition structured_patterns : list regex :=
  [ seqs [plus word; chr "="; plus word];
    seqs [plus word; chr ":"; Star space; plus word];
    seqs [chr "["; plus word; chr "]"];
    seqs [ymd; Cls (fun c => is_space c || Ascii.eqb c "T"); hms] ].

Definition _score_structured_format (lines : list str) : Q :=
  match lines with
  | [] => 0%Q
  | _ =>
      let structured_score :=
        fold_left
          (fun acc line =>
             let line_score :=
               count_if (fun p => is_some (re_search p line))
                        structured_patterns in
             (acc + qmin (ratio line_score (length structured_patterns)) 1%Q)%Q)
          (firstn 20 lines) 0%Q in
      (structured_score / inject_Z (Z.of_nat (Nat.min (length lines) 20)))%Q
  end.

(** [max(scores, key=scores.get)]: the first key of the largest score. *)
Fixpoint max_by_score (best : LogFormat * Q) (l : list (LogFormat * Q))
  : LogFormat * Q :=
  match l with
  | [] => best
  | x :: l' =>
      max_by_score (if Qlt_le_dec (snd best) (snd x) then x else best) l'
  end.

Definition below (q threshold : Q) : bool :=
  if Qlt_le_dec q threshold then true else false.

(** The lines of the sample: stripped, blank ones left out. *)
Definition nonblank_lines (content : str) : list str :=
  flat_map (fun line => if nonempty (strip line) then [strip line] else [])
           (str_split newline content).

Definition _detect_log_format (content filename : str)
  : result (LogFormat * Q) :=
  let lines := nonblank_lines content in
  if length lines <? minimum_lines
  then Ok (_format_from_extension filename, (5 # 10)%Q)
  else
    let sample_lines := firstn (Nat.min 100 (length lines)) lines in
    do json_score <- _score_json_format sample_lines;
    let csv_score := _score_csv_format sample_lines in
    let syslog_score := _score_syslog_format sample_lines in
    let structured_score := _score_structured_format sample_lines in
    let '(best_format, confidence) :=
      max_by_score (JSON, json_score)
                   [(CSV, csv_score); (SYSLOG, syslog_score);
                    (CUSTOM, structured_score); (PLAIN_TEXT, (1 # 10)%Q)] in
    if format_eqb best_format JSON && below confidence json_confidence
    then Ok (PLAIN_TEXT, (5 # 10)%Q)
    else if format_eqb best_format CSV && below confidence csv_confidence
    then Ok (PLAIN_TEXT, (5 # 10)%Q)
    else if format_eqb best_format SYSLOG && below confidence syslog_confidence
    then Ok (PLAIN_TEXT, (5 # 10)%Q)
    else Ok (best_format, confidence).

(** *** Entry points *)

Definition parse_as (file_format : LogFormat) (content : str)
  : list LogEntry :=
  match file_format with
  | JSON => _parse_json_logs content
  | CSV => _parse_csv_logs content
  | SYSLOG => _parse_syslog_logs content
  | CUSTOM => _parse_structured_logs content
  | PLAIN_TEXT => _parse_plain_text_logs content
  end.

Definition process_content (content filename : str)
  : result (list LogEntry * LogFormat) :=
  if negb (nonempty (strip content)) then Ok ([], PLAIN_TEXT)
  else
    do detected <- _detect_log_format content filename;
    Ok (parse_as (fst detected) content, fst detected).

(** [process_file], given what reading the file returned: an empty file is
    refused, and every other exception is turned into [LogParsingError]. *)
Definition process_file (content file_path : str) : result (list LogEntry) :=
  if negb (nonempty (strip content)) then Raise LogParsingError
  else
    match _detect_log_format content
            (last (str_split "/" file_path) []) with
    | Ok detected => Ok (parse_as (fst detected) content)
    | Raise _ => Raise LogParsingError
    end.

End Platform.

End FileProcessor.

(** ** app/services/log_analyzer.py

    The methods take the entries that [process_file] returned. *)

Module LogAnalyzer.

Record LogAnalysis := mkLogAnalysis {
  total_entries : nat;
  date_range : option datetime * option datetime;
  level_distribution : list (LogLevel * nat);
  service_distribution : list (str * nat);
  error_patterns : list PatternMatch;
  anomalies : list Anomaly;
  time_series : list TimelinePoint
}.

(** [e.level in [LogLevel.ERROR, LogLevel.FATAL, LogLevel.CRITICAL]] *)
Definition is_error (e : LogEntry) : bool :=
  match level e with
  | Some ERROR | Some FATAL | Some CRITICAL => true
  | _ => false
  end.

(** [e.level in [LogLevel.WARN, LogLevel.WARNING]] *)
Definition is_warn (e : LogEntry) : bool :=
  match level e with
  | Some WARN | Some WARNING => true
  | _ => false
  end.

Definition is_info (e : LogEntry) : bool :=
  match level e with
  | Some INFO => true
  | _ => false
  end.

(** [[e.timestamp for e in entries if e.timestamp]] *)
Definition timestamps (entries : list LogEntry) : list datetime :=
  flat_map (fun e => match timestamp e with Some t => [t] | None => [] end)
           entries.

Definition has_timestamp (e : LogEntry) : bool :=
  match timestamp e with Some _ => true | None => false end.

(** *** [_get_date_range] *)
Definition _get_date_range (entries : list LogEntry)
  : result (option datetime * option datetime) :=
  match timestamps entries with
  | [] => Ok (None, None)
  | ts => do lo <- py_min ts; do hi <- py_max ts; Ok (Some lo, Some hi)
  end.

(** *** [_get_level_distribution] *)
Definition _get_level_distribution (entries : list LogEntry)
  : list (LogLevel * nat) :=
  fold_left (fun d e => Dict.update level_eqb
                          (match level e with Some l => l | None => INFO end)
                          S 0 d)
            entries [].

(** *** [_get_service_distribution] *)
Definition by_count_desc {A} (count_of : A -> nat) (x y : A) : bool :=
  count_of y <=? count_of x.

Definition _get_service_distribution (entries : list LogEntry)
  : list (str * nat) :=
  let distribution :=
    fold_left (fun d e => Dict.update str_eqb
                            (match service e with
                             | Some s => if nonempty s then s
                                         else lit "unknown"
                             | None => lit "unknown"
                             end)
                            S 0 d)
              entries [] in
  firstn 20 (sorted (by_count_desc snd) distribution).

(** *** [_normalize_error_message] *)

Definition hex : regex :=
  Cls (fun c => is_digit c || between 97 102 c).

Definition timestamp_re : regex :=
  seqs [rep 4 digit; chr "-"; rep 2 digit; chr "-"; rep 2 digit;
        Cls (fun c => Ascii.eqb c "T" || is_space c);
        rep 2 digit; chr ":"; rep 2 digit; chr ":"; rep 2 digit;
        opt (Grp 1 (Seq (chr ".") (plus digit)));
        opt (Grp 2 (Alt (chr "Z")
                        (seqs [any_of (lit "+-"); rep 2 digit; opt (chr ":");
                               rep 2 digit])))].

Definition uuid_re : regex :=
  seqs [WordB; rep 8 hex; chr "-"; rep 4 hex; chr "-"; rep 4 hex; chr "-";
        rep 4 hex; chr "-"; rep 12 hex; WordB].

Definition long_number_re : regex := seqs [WordB; rep_min 6 digit; WordB].

Definition ip_re : regex :=
  seqs [WordB; rep_range 1 3 digit; chr "."; rep_range 1 3 digit; chr ".";
        rep_range 1 3 digit; chr "."; rep_range 1 3 digit; WordB].

Definition slash : regex := any_of (lit "/\").

Definition file_path_re : regex := Seq slash (plus nonspace).

Definition number_re : regex := seqs [WordB; plus digit; WordB].

Definition _normalize_error_message (message : str) : str :=
  let normalized := message in
  let normalized := re_sub timestamp_re (lit "TIMESTAMP") normalized in
  let normalized := re_sub uuid_re (lit "UUID") normalized in
  let normalized := re_sub long_number_re (lit "ID") normalized in
  let normalized := re_sub ip_re (lit "IP_ADDRESS") normalized in
  let normalized := re_sub file_path_re (lit "FILE_PATH") normalized in
  let normalized := re_sub number_re (lit "NUMBER") normalized in
  normalized.

(** *** [_detect_error_patterns] *)

(** The [defaultdict(list)] filled by the first loop. *)
Definition group_by_message (normalize : str -> str)
    (error_entries : list LogEntry) : list (str * list LogEntry) :=
  fold_left (fun d e => Dict.update str_eqb (normalize (message e))
                          (fun l => l ++ [e]) [] d)
            error_entries [].

(** The dictionary built for one group.  [min] and [max] run over the
    timestamps that are present. *)
Definition pattern_of (group : str * list LogEntry) : result PatternMatch :=
  let '(pat, matching_entries) := group in
  do first <- py_min (timestamps matching_entries);
  do last <- py_max (timestamps matching_entries);
  Ok {| pattern := pat;
        count := length matching_entries;
        examples := map message (firstn 3 matching_entries);
        severity := if 10 <? length matching_entries then lit "high"
                    else lit "medium";
        category := lit "error";
        first_occurrence := Some first;
        last_occurrence := Some last |}.

Definition recurring (group : str * list LogEntry) : bool :=
  2 <=? length (snd group).

Definition _detect_error_patterns (entries : list LogEntry)
  : result (list PatternMatch) :=
  let error_entries := filter is_error entries in
  match error_entries with
  | [] => Ok []
  | _ =>
      let error_patterns :=
        group_by_message _normalize_error_message error_entries in
      do patterns <- mapM pattern_of (filter recurring error_patterns);
      Ok (firstn 10 (sorted (by_count_desc count) patterns))
  end.

(** *** Anomalies *)

Definition same_kind (ts : list datetime) : bool :=
  forallb aware ts || forallb (fun t => negb (aware t)) ts.

Definition time_key (t : datetime) : Z :=
  if aware t then utc_us t else wall_us t.

Definition entry_key (e : LogEntry) : Z :=
  match timestamp e with Some t => time_key t | None => 0%Z end.

(** [sorted([e for e in entries if e.timestamp], key=lambda x: x.timestamp)].
    A sort of a list that holds a naive and an aware timestamp has to
    compare one with the other at some point, which raises [TypeError]. *)
Definition sorted_by_timestamp (entries : list LogEntry)
  : result (list LogEntry) :=
  let timestamped := filter has_timestamp entries in
  if same_kind (timestamps timestamped)
  then Ok (sorted (fun a b => (entry_key a <=? entry_key b)%Z) timestamped)
  else Raise TypeError.

(** The gaps between consecutive entries, in microseconds, each with the
    entry before it. *)
Fixpoint time_gaps (l : list LogEntry) : list (LogEntry * Z) :=
  match l with
  | a :: ((b :: _) as l') => (a, (entry_key b - entry_key a)%Z) :: time_gaps l'
  | _ => []
  end.

(** [delta.total_seconds()] of a difference given in microseconds: the
    quotient by [10**6], as a double (no difference of two dates is large
    enough to overflow). *)
Definition total_seconds (us : Z) : pyfloat := to_double (us # 1000000).

Definition qlt (a b : Q) : bool := if Qlt_le_dec a b then true else false.

(** [f"{x:.1f}"] for an [x] that is not negative: the decimal with one
    digit after the point that is nearest to the double. *)
Definition format_1f (x : pyfloat) : str :=
  match x with
  | Finite q =>
      let n := round_half_even (q * 10) in
      decimal (n / 10) ++ lit "." ++ decimal (n mod 10)
  | Infinity _ => lit "inf"
  | NaN => lit "nan"
  end.

Definition of_nat (n : nat) : str := decimal (Z.of_nat n).

Definition entry_iso (e : LogEntry) : str :=
  match timestamp e with Some t => isoformat t | None => [] end.

Definition _detect_time_anomalies (entries : list LogEntry)
  : result (list Anomaly) :=
  do timestamped_entries <- sorted_by_timestamp entries;
  if length timestamped_entries <? 10 then Ok []
  else
    let gaps := time_gaps timestamped_entries in
    match gaps with
    | [] => Ok []
    | _ =>
        let avg_gap :=
          fdiv_by (py_sum (map (fun g => total_seconds (snd g)) gaps))
                  (inject_Z (Z.of_nat (length gaps))) in
        let threshold := fmul avg_gap (Finite 10) in
        Ok (flat_map
              (fun g =>
                 let gap := total_seconds (snd g) in
                 if fltb threshold gap && fltb (Finite 300) gap then
                   [{| anomaly_type := lit "time_gap";
                       description :=
                         lit "Large gap in logging: "
                         ++ format_1f (fdiv_by gap 60) ++ lit " minutes";
                       anomaly_timestamp := entry_iso (fst g);
                       anomaly_severity := lit "medium";
                       affected_entries := 0 |}]
                 else [])
              gaps)
    end.

(** [t.replace(minute=mi, second=0, microsecond=0)] and
    [t.replace(hour=h, minute=mi, second=0, microsecond=0)]; the new fields
    are computed from those of [t] and lie in their ranges. *)
Definition replace_minute (t : datetime) (mi : Z) : datetime :=
  DateTime (year t) (month t) (day t) (hour t) mi 0 0 (tzinfo t).

Definition replace_hour_minute (t : datetime) (h mi : Z) : datetime :=
  DateTime (year t) (month t) (day t) h mi 0 0 (tzinfo t).

(** The [defaultdict(int)] of a bucketing loop, keyed by [datetime]. *)
Definition bucket_counts (key_of : datetime -> datetime)
    (ts : list datetime) : list (datetime * nat) :=
  fold_left (fun d t => Dict.update dt_eqb (key_of t) S 0 d) ts [].

Definition average (counts : list nat) : Q :=
  (inject_Z (Z.of_nat (fold_right Nat.add 0%nat counts))
   / inject_Z (Z.of_nat (length counts)))%Q.

Definition qnat (n : nat) : Q := inject_Z (Z.of_nat n).

Definition hourly_counts (entries : list LogEntry) : list (datetime * nat) :=
  bucket_counts (fun t => replace_minute t 0) (timestamps entries).

Definition _detect_volume_anomalies (entries : list LogEntry)
  : list Anomaly :=
  let hourly := hourly_counts entries in
  if length hourly <? 3 then []
  else
    let avg_count := average (map snd hourly) in
    flat_map
      (fun hc =>
         let '(hour_key, n) := hc in
         if qlt (avg_count * 3) (qnat n) && (100 <? n) then
           [{| anomaly_type := lit "volume_spike";
               description := lit "Unusual high log volume: " ++ of_nat n
                              ++ lit " entries in 1 hour";
               anomaly_timestamp := isoformat hour_key;
               anomaly_severity := if qlt (avg_count * 5) (qnat n)
                                   then lit "medium" else lit "low";
               affected_entries := n |}]
         else [])
      hourly.

Definition _detect_error_spikes (entries : list LogEntry) : list Anomaly :=
  let error_entries := filter (fun e => is_error e && has_timestamp e)
                              entries in
  if length error_entries <? 10 then []
  else
    let interval_errors :=
      bucket_counts (fun t => replace_minute t ((minute t / 10) * 10)%Z)
                    (timestamps error_entries) in
    if length interval_errors <? 3 then []
    else
      let avg_errors := average (map snd interval_errors) in
      flat_map
        (fun ic =>
           let '(interval, n) := ic in
           if qlt (avg_errors * 3) (qnat n) && (10 <? n) then
             [{| anomaly_type := lit "error_spike";
                 description := lit "Error spike: " ++ of_nat n
                                ++ lit " errors in 10 minutes";
                 anomaly_timestamp := isoformat interval;
                 anomaly_severity := if qlt (avg_errors * 5) (qnat n)
                                     then lit "high" else lit "medium";
                 affected_entries := n |}]
           else [])
        interval_errors.

Definition _detect_anomalies (entries : list LogEntry)
  : result (list Anomaly) :=
  do time_anomalies <-
    (if 100 <? length entries then _detect_time_anomalies entries
     else Ok []);
  let volume_anomalies := _detect_volume_anomalies entries in
  let error_anomalies := _detect_error_spikes entries in
  Ok (firstn 10 (time_anomalies ++ volume_anomalies ++ error_anomalies)).

(** *** Timeline *)

Definition _parse_interval (interval : str) : Z :=
  let interval_map :=
    [ (lit "1m", 1); (lit "5m", 5); (lit "15m", 15); (lit "30m", 30);
      (lit "1h", 60); (lit "2h", 120); (lit "6h", 360); (lit "12h", 720);
      (lit "1d", 1440) ]%Z in
  match Dict.get str_eqb interval interval_map with
  | Some minutes => minutes
  | None => 60%Z
  end.

Definition _round_timestamp (t : datetime) (interval_minutes : Z)
  : datetime :=
  let total_minutes := (hour t * 60 + minute t)%Z in
  let rounded_minutes :=
    ((total_minutes / interval_minutes) * interval_minutes)%Z in
  replace_hour_minute t (rounded_minutes / 60)%Z (rounded_minutes mod 60)%Z.

(** The five counters of a bucket. *)
Record counts := mkCounts {
  c_error : nat; c_warn : nat; c_info : nat; c_other : nat; c_total : nat
}.

Definition no_counts : counts := mkCounts 0 0 0 0 0.

(** The body of the counting loop of [get_timeline_data]. *)
Definition count_entry (e : LogEntry) (c : counts) : counts :=
  let c' :=
    if is_error e then mkCounts (S (c_error c)) (c_warn c) (c_info c)
                                (c_other c) (c_total c)
    else if is_warn e then mkCounts (c_error c) (S (c_warn c)) (c_info c)
                                    (c_other c) (c_total c)
    else if is_info e then mkCounts (c_error c) (c_warn c) (S (c_info c))
                                    (c_other c) (c_total c)
    else mkCounts (c_error c) (c_warn c) (c_info c) (S (c_other c))
                  (c_total c) in
  mkCounts (c_error c') (c_warn c') (c_info c') (c_other c') (S (c_total c')).

Definition timeline_key (interval_minutes : Z) (e : LogEntry) : str :=
  match timestamp e with
  | Some t => isoformat (_round_timestamp t interval_minutes)
  | None => []
  end.

Definition grouped_data (interval_minutes : Z)
    (timestamped_entries : list LogEntry) : list (str * counts) :=
  fold_left (fun d e => Dict.update str_eqb (timeline_key interval_minutes e)
                          (count_entry e) no_counts d)
            timestamped_entries [].

Definition timeline_point (kc : str * counts) : TimelinePoint :=
  {| bucket := fst kc;
     error_count := c_error (snd kc);
     warn_count := c_warn (snd kc);
     info_count := c_info (snd kc);
     other_count := c_other (snd kc);
     total_count := c_total (snd kc) |}.

Definition get_timeline_data (entries : list LogEntry) (interval : str)
  : list TimelinePoint :=
  let timestamped_entries := filter has_timestamp entries in
  match timestamped_entries with
  | [] => []
  | _ =>
      let interval_minutes := _parse_interval interval in
      let timeline_data :=
        map timeline_point (grouped_data interval_minutes timestamped_entries)
      in
      sorted (fun a b => str_leb (bucket a) (bucket b)) timeline_data
  end.

(** *** [_generate_time_series] and [analyze_file] *)

Definition count_series (e : LogEntry) (c : counts) : counts :=
  let c' :=
    if is_error e then mkCounts (S (c_error c)) (c_warn c) (c_info c) 0
                                (c_total c)
    else if is_warn e then mkCounts (c_error c) (S (c_warn c)) (c_info c) 0
                                    (c_total c)
    else if is_info e then mkCounts (c_error c) (c_warn c) (S (c_info c)) 0
                                    (c_total c)
    else c in
  mkCounts (c_error c') (c_warn c') (c_info c') 0 (S (c_total c')).

Definition _generate_time_series (entries : list LogEntry)
  : list TimelinePoint :=
  let hourly_data :=
    fold_left (fun d e =>
                 match timestamp e with
                 | Some t => Dict.update dt_eqb (replace_minute t 0)
                                         (count_series e) no_counts d
                 | None => d
                 end)
              entries [] in
  sorted (fun a b => str_leb (bucket a) (bucket b))
         (map (fun kc => timeline_point (isoformat (fst kc), snd kc))
              hourly_data).

Definition analyze_file (entries : list LogEntry) : result LogAnalysis :=
  match entries with
  | [] => Ok (mkLogAnalysis 0 (None, None) [] [] [] [] [])
  | _ =>
      do range <- _get_date_range entries;
      let levels := _get_level_distribution entries in
      let services := _get_service_distribution entries in
      do patterns <- _detect_error_patterns entries;
      do anoms <- _detect_anomalies entries;
      let series := _generate_time_series entries in
      Ok (mkLogAnalysis (length entries) range levels services patterns
                        anoms series)
  end.

(** *** [_entry_to_dict] *)
Record EntryDict := mkEntryDict {
  d_timestamp : option str;
  d_level : option str;
  d_service : option str;
  d_message : str;
  d_line_number : nat;
  d_metadata : list (str * json)
}.

Definition _entry_to_dict (entry : LogEntry) : EntryDict :=
  {| d_timestamp := option_map isoformat (timestamp entry);
     d_level := option_map level_value (level entry);
     d_service := service entry;
     d_message := message entry;
     d_line_number := line_number entry;
     d_metadata := metadata entry |}.

(** *** [get_basic_stats] *)
Record BasicStats := mkBasicStats {
  stats_total_entries : nat;
  stats_date_range : option datetime * option datetime;
  stats_level_counts : list (LogLevel * nat);
  stats_service_counts : list (str * nat);
  stats_has_timestamps : bool;
  stats_has_services : bool
}.

(** [e.service] as a condition: a name that is not empty. *)
Definition has_service (e : LogEntry) : bool :=
  is_some (FileProcessor.truthy_text (service e)).

Definition get_basic_stats (entries : list LogEntry) : result BasicStats :=
  do range <- _get_date_range entries;
  Ok {| stats_total_entries := length entries;
        stats_date_range := range;
        stats_level_counts := _get_level_distribution entries;
        stats_service_counts := _get_service_distribution entries;
        stats_has_timestamps := 0 <? length (filter has_timestamp entries);
        stats_has_services := 0 <? length (filter has_service entries) |}.

(** *** [get_entries] *)

(** The three tests of the filter loop; each one sends the entry to
    [continue].  A filter that is [None] or empty is not applied. *)
Definition level_rejects (level_filter : option str) (entry : LogEntry)
  : bool :=
  match FileProcessor.truthy_text level_filter with
  | Some wanted =>
      match level entry with
      | Some l => negb (str_eqb (level_value l) wanted)
      | None => true
      end
  | None => false
  end.

Definition service_rejects (service_filter : option str) (entry : LogEntry)
  : bool :=
  match FileProcessor.truthy_text service_filter with
  | Some wanted =>
      match FileProcessor.truthy_text (service entry) with
      | Some s => negb (str_eqb s wanted)
      | None => true
      end
  | None => false
  end.

Definition search_rejects (search_term : option str) (entry : LogEntry)
  : bool :=
  match FileProcessor.truthy_text search_term with
  | Some term => negb (contains (lower (message entry)) (lower term))
  | None => false
  end.

Definition passes_filters (level_filter service_filter search_term : option str)
    (entry : LogEntry) : bool :=
  if level_rejects level_filter entry then false
  else if service_rejects service_filter entry then false
  else if search_rejects search_term entry then false
  else true.

Record EntryPage := mkEntryPage {
  page_entries : list EntryDict;
  page_total : nat;
  page_offset : Z;
  page_limit : Z
}.

Definition get_entries (entries : list LogEntry) (offset limit : Z)
    (level_filter service_filter search_term : option str) : EntryPage :=
  let filtered_entries :=
    filter (passes_filters level_filter service_filter search_term) entries in
  let total := length filtered_entries in
  let paginated_entries :=
    py_slice filtered_entries offset (offset + limit) in
  {| page_entries := map _entry_to_dict paginated_entries;
     page_total := total;
     page_offset := offset;
     page_limit := limit |}.

(** *** [get_file_context_for_chat] *)
Record ChatContext := mkChatContext {
  ctx_total_entries : nat;
  ctx_sample_entries : list EntryDict;
  ctx_error_entries : list EntryDict;
  ctx_services : list (str * nat);
  ctx_date_range : option datetime * option datetime;
  ctx_level_distribution : list (LogLevel * nat)
}.

Definition get_file_context_for_chat (entries : list LogEntry)
  : result ChatContext :=
  let sample := if 10 <? length entries then firstn 10 entries else entries in
  let errors := firstn 5 (filter is_error entries) in
  let distribution := _get_service_distribution entries in
  do range <- _get_date_range entries;
  Ok {| ctx_total_entries := length entries;
        ctx_sample_entries := map _entry_to_dict sample;
        ctx_error_entries := map _entry_to_dict errors;
        ctx_services := firstn 10 distribution;
        ctx_date_range := range;
        ctx_level_distribution := _get_level_distribution entries |}.

(** Characters that no pattern of [_normalize_error_message] can start
    from or run over: no digit, hyphen, slash or backslash. *)
Definition steady_char (c : ascii) : bool :=
  negb (is_digit c || mem_char c (lit "-/\")).

End LogAnalyzer.

(** ** app/services/pattern_detector.py *)

Module PatternDetector.

Import LogAnalyzer.

Definition any_text : regex := Star dot.

Definition words (ws : list string) : regex :=
  alts (map (fun w => text_ci (lit w)) ws).

(** [self.error_patterns]; every pattern carries the flag [(?i)]. *)
Definition error_patterns : list (string * regex) :=
  [ ("connection_error",
     seqs [words ["connection"; "connect"]; any_text;
           words ["failed"; "error"; "refused"; "timeout"; "denied"]]);
    ("memory_error",
     seqs [words ["memory"; "heap"; "oom"; "out of memory"]; any_text;
           words ["error"; "exception"; "full"]]);
    ("permission_error",
     seqs [words ["permission"; "access"]; any_text;
           words ["denied"; "forbidden"; "error"]]);
    ("file_error",
     seqs [words ["file"; "directory"]; any_text;
           words ["not found"; "missing"; "error"; "corrupt"]]);
    ("network_error",
     seqs [words ["network"; "socket"; "tcp"; "udp"]; any_text;
           words ["error"; "timeout"; "unreachable"]]);
    ("database_error",
     seqs [words ["database"; "db"; "sql"]; any_text;
           words ["error"; "exception"; "timeout"; "deadlock"]]);
    ("authentication_error",
     seqs [words ["auth"; "login"; "credential"]; any_text;
           words ["failed"; "error"; "invalid"; "denied"]]);
    ("timeout_error", words ["timeout"; "timed out"; "deadline exceeded"]);
    ("null_pointer",
     seqs [words ["null"; "nil"]; any_text;
           words ["pointer"; "reference"; "exception"; "error"]]);
    ("serialization_error",
     seqs [words ["serialize"; "deserialize"; "json"; "xml"]; any_text;
           words ["error"; "exception"; "failed"]]) ].

(** *** [_calculate_severity] *)
Definition _calculate_severity (pattern_count total_entries : nat) : str :=
  let frequency :=
    if 0 <? total_entries then FileProcessor.ratio pattern_count total_entries
    else 0%Q in
  if qlt (1 # 10) frequency then lit "high"
  else if qlt (5 # 100) frequency then lit "medium"
  else lit "low".

(** [name.replace("_", " ").title()] *)
Fixpoint title_from (s : str) (in_word : bool) : str :=
  match s with
  | [] => []
  | c :: s' =>
      let c := if Ascii.eqb c "_" then " "%char else c in
      if is_alpha c then
        (if in_word then lower_char c
         else hd c (upper_char c)) :: title_from s' true
      else c :: title_from s' false
  end.

(** The optional first and last occurrence of the three detectors here:
    both stay [None] when no entry of the group has a timestamp. *)
Definition occurrences (matching_entries : list LogEntry)
  : result (option datetime * option datetime) :=
  match timestamps matching_entries with
  | [] => Ok (None, None)
  | ts => do lo <- py_min ts; do hi <- py_max ts; Ok (Some lo, Some hi)
  end.

(** *** [_detect_error_patterns] *)
Definition error_pattern_of (entries : list LogEntry)
    (named : string * regex) : result (list PatternMatch) :=
  let matching_entries :=
    filter (fun e => is_some (re_search (snd named) (message e))) entries in
  if 2 <=? length matching_entries then
    do occ <- occurrences matching_entries;
    Ok [{| pattern := title_from (lit (fst named)) false;
           count := length matching_entries;
           examples := map message (firstn 3 matching_entries);
           severity := _calculate_severity (length matching_entries)
                                           (length entries);
           category := lit "error";
           first_occurrence := fst occ;
           last_occurrence := snd occ |}]
  else Ok [].

Definition _detect_error_patterns (entries : list LogEntry)
  : result (list PatternMatch) :=
  do found <- mapM (error_pattern_of entries) error_patterns;
  Ok (List.concat found).

(** *** [_normalize_message] *)

Definition url_re : regex :=
  seqs [text (lit "http"); opt (chr "s"); text (lit "://"); plus nonspace].

Definition path_re : regex :=
  seqs [slash; Star nonspace; slash; Star nonspace].

Definition double_quoted_re : regex :=
  seqs [chr dquote; Star (none_of [dquote]); chr dquote].

Definition single_quoted_re : regex :=
  seqs [chr "'"; Star (none_of (lit "'")); chr "'"].

Definition whitespace_re : regex := plus space.

Definition _normalize_message (message : str) : str :=
  let normalized := message in
  let normalized := re_sub timestamp_re (lit "<TIMESTAMP>") normalized in
  let normalized := re_sub uuid_re (lit "<UUID>") normalized in
  let normalized := re_sub long_number_re (lit "<ID>") normalized in
  let normalized := re_sub ip_re (lit "<IP>") normalized in
  let normalized := re_sub url_re (lit "<URL>") normalized in
  let normalized := re_sub path_re (lit "<PATH>") normalized in
  let normalized :=
    re_sub double_quoted_re ([dquote] ++ lit "<STRING>" ++ [dquote])
           normalized in
  let normalized := re_sub single_quoted_re (lit "'<STRING>'") normalized in
  let normalized := re_sub number_re (lit "<NUM>") normalized in
  let normalized := strip (re_sub whitespace_re (lit " ") normalized) in
  normalized.

(** The two stages of [_normalize_message]: the nine substitutions of
    placeholders, and the normalization of blanks. *)
Definition substitute_placeholders (message : str) : str :=
  let normalized := message in
  let normalized := re_sub timestamp_re (lit "<TIMESTAMP>") normalized in
  let normalized := re_sub uuid_re (lit "<UUID>") normalized in
  let normalized := re_sub long_number_re (lit "<ID>") normalized in
  let normalized := re_sub ip_re (lit "<IP>") normalized in
  let normalized := re_sub url_re (lit "<URL>") normalized in
  let normalized := re_sub path_re (lit "<PATH>") normalized in
  let normalized :=
    re_sub double_quoted_re ([dquote] ++ lit "<STRING>" ++ [dquote])
           normalized in
  let normalized := re_sub single_quoted_re (lit "'<STRING>'") normalized in
  re_sub number_re (lit "<NUM>") normalized.

Definition normalize_whitespace (normalized : str) : str :=
  strip (re_sub whitespace_re (lit " ") normalized).

(** Characters that no placeholder pattern can start from: no digit,
    hyphen, slash, backslash or quote. *)
Definition plain_char (c : ascii) : bool :=
  negb (is_digit c || mem_char c (lit "-/\'") || Ascii.eqb c dquote).

(** *** [_truncate_message] *)
Definition _truncate_message (message : str) (max_length : Z) : str :=
  if (Z.of_nat (length message) <=? max_length)%Z then message
  else py_slice message 0 (max_length - 3) ++ lit "...".

(** *** [_detect_repetitive_patterns] *)

(** The [defaultdict(list)] of the first loop: the entries by normalized
    message, those with a normalized message of at most 10 characters left
    out. *)
Definition normalized_messages (entries : list LogEntry)
  : list (str * list LogEntry) :=
  fold_left (fun d e =>
               let normalized := _normalize_message (message e) in
               if 10 <? length normalized
               then Dict.update str_eqb normalized (fun l => l ++ [e]) [] d
               else d)
            entries [].

(** [entry.level and word in entry.level.value.lower()] *)
Definition level_mentions (word : string) (e : LogEntry) : bool :=
  match level e with
  | Some l => contains (lower (level_value l)) (lit word)
  | None => false
  end.

Definition repetitive_pattern_of (entries : list LogEntry)
    (group : str * list LogEntry) : result (list PatternMatch) :=
  let matching_entries := snd group in
  if 5 <=? length matching_entries then
    let examples := map message (firstn 3 matching_entries) in
    let severity :=
      _calculate_severity (length matching_entries) (length entries) in
    do occ <- occurrences matching_entries;
    let category :=
      if existsb (level_mentions "error") matching_entries then lit "error"
      else if existsb (level_mentions "warn") matching_entries
           then lit "warning"
           else lit "info" in
    Ok [{| pattern := lit "Repetitive: "
                      ++ _truncate_message (hd [] examples) 80;
           count := length matching_entries;
           examples := examples;
           severity := severity;
           category := category;
           first_occurrence := fst occ;
           last_occurrence := snd occ |}]
  else Ok [].

Definition _detect_repetitive_patterns (entries : list LogEntry)
  : result (list PatternMatch) :=
  do found <- mapM (repetitive_pattern_of entries)
                   (normalized_messages entries);
  Ok (List.concat found).

(** *** [_detect_service_patterns] *)

(** The entries by service; an entry without a service name is left out. *)
Definition service_entries (entries : list LogEntry)
  : list (str * list LogEntry) :=
  fold_left (fun d e =>
               match FileProcessor.truthy_text (service e) with
               | Some s => Dict.update str_eqb s (fun l => l ++ [e]) [] d
               | None => d
               end)
            entries [].

(** [Counter(entry.message for entry in l)] *)
Definition message_counts (l : list LogEntry) : list (str * nat) :=
  fold_left (fun d e => Dict.update str_eqb (message e) S 0 d) l [].

(** [c.most_common(n)]: the [n] largest counts, equal counts in the order
    of insertion. *)
Definition most_common (n : nat) (c : list (str * nat)) : list (str * nat) :=
  firstn n (sorted (by_count_desc snd) c).

Definition service_message_pattern (service : str)
    (service_entries_list : list LogEntry) (mc : str * nat)
  : result (list PatternMatch) :=
  let '(msg, n) := mc in
  if 3 <=? n then
    let matching_entries :=
      filter (fun e => str_eqb (message e) msg) service_entries_list in
    let severity := _calculate_severity n (length service_entries_list) in
    do occ <- occurrences matching_entries;
    Ok [{| pattern := service ++ lit ": " ++ _truncate_message msg 80;
           count := n;
           examples := [msg];
           severity := severity;
           category := lit "service";
           first_occurrence := fst occ;
           last_occurrence := snd occ |}]
  else Ok [].

Definition service_patterns_of (group : str * list LogEntry)
  : result (list PatternMatch) :=
  let '(service, service_entries_list) := group in
  if 10 <=? length service_entries_list then
    do found <- mapM (service_message_pattern service service_entries_list)
                     (most_common 5 (message_counts service_entries_list));
    Ok (List.concat found)
  else Ok [].

Definition _detect_service_patterns (entries : list LogEntry)
  : result (list PatternMatch) :=
  do found <- mapM service_patterns_of (service_entries entries);
  Ok (List.concat found).

(** *** [detect_patterns], on the entries that [process_file] returned *)
Definition detect_patterns (entries : list LogEntry)
  : result (list PatternMatch) :=
  do by_category <- _detect_error_patterns entries;
  do repetitive <- _detect_repetitive_patterns entries;
  do by_service <- _detect_service_patterns entries;
  Ok (firstn 20 (sorted (by_count_desc count)
                        (by_category ++ repetitive ++ by_service))).

End PatternDetector.

(** ** app/utils/file_utils.py *)

Module FileUtils.

Import FileProcessor.

Section Platform.

(** [json.loads], and [csv.Sniffer().sniff] with its default delimiters
    and [csv.reader]. *)
Variable json_loads : str -> result json.
Variable dialect : Type.
Variable csv_sniff : str -> result dialect.
Variable csv_reader : list str -> dialect -> result (list (list str)).

(** [content.strip().split(newline)[:5]] *)
Definition first_lines (content : str) : list str :=
  firstn 5 (str_split newline (strip content)).

Definition nonblank (line : str) : bool := nonempty (strip line).

(** [max(1, len([l for l in lines if l.strip()]) // 2)] *)
Definition enough (lines : list str) : nat :=
  Nat.max 1 (count_if nonblank lines / 2).

Definition decodes (line : str) : bool :=
  match json_loads line with
  | Ok _ => true
  | Raise _ => false
  end.

Definition _is_json_format (content : str) : bool :=
  let lines := first_lines content in
  let json_line_count :=
    count_if (fun line => nonblank line && decodes (strip line)) lines in
  enough lines <=? json_line_count.

Definition _is_csv_format (content : str) : bool :=
  let lines := first_lines content in
  if length lines <? 2 then false
  else
    match csv_sniff (firstn 500 content) with
    | Ok dia =>
        match csv_reader (firstn 3 lines) dia with
        | Ok (first_row :: ((_ :: _) as more)) =>
            forallb (fun row => length row =? length first_row) more
        | _ => false
        end
    | Raise _ => false
    end.

Definition syslog_patterns : list regex :=
  [ Seq Bol syslog_stamp;
    seqs [Bol; ymd; chr "T"; hms];
    seqs [chr "<"; plus digit; chr ">"] ].

Definition _is_syslog_format (content : str) : bool :=
  let lines := first_lines content in
  let matching_lines :=
    count_if (fun line =>
                nonblank line
                && existsb (fun p => is_some (re_search p (strip line)))
                           syslog_patterns)
             lines in
  enough lines <=? matching_lines.

(** [get_file_format], given the text that decoding the bytes gave
    (undecodable bytes are ignored, so that decoding does not fail). *)
Definition get_file_format (content filename : str) : LogFormat :=
  let ext := splitext_ext (lower filename) in
  let text_content := firstn 1000 content in
  if str_eqb ext (lit ".json") || _is_json_format text_content then JSON
  else if str_eqb ext (lit ".csv") || _is_csv_format text_content then CSV
  else if str_eqb ext (lit ".syslog") || _is_syslog_format text_content
       then SYSLOG
       else PLAIN_TEXT.

End Platform.

End FileUtils.

(** * The words of the specification

    Definitions that follow the text of the specification rather than the
    code, for the statements that compare the two. *)

Module SpecWords.

(** "Apply format-specific acceptance thresholds (JSON 0.7, CSV 0.8,
    Syslog 0.6)"; the other formats have none. *)
Definition acceptance_threshold (f : LogFormat) : option Q :=
  match f with
  | JSON => Some (7 # 10)%Q
  | CSV => Some (8 # 10)%Q
  | SYSLOG => Some (6 # 10)%Q
  | _ => None
  end.

(** "Below threshold, demote to plain text at confidence 0.5." *)
Definition accept (best : LogFormat) (confidence : Q) : LogFormat * Q :=
  match acceptance_threshold best with
  | Some t => if Qlt_le_dec confidence t then (PLAIN_TEXT, (5 # 10)%Q)
              else (best, confidence)
  | None => (best, confidence)
  end.


End SpecWords.

(** * Examples

    Concrete entries, texts and a concrete platform, used where a statement
    is evaluated. *)

Module Examples.

(** A platform: UTC as the local zone; a decoder that takes every line
    that opens a brace for an empty object; no CSV dialect is ever found. *)
Definition utc (t : Z) : Z := 0%Z.

Definition brace_loads (line : str) : result json :=
  match line with
  | c :: _ => if Ascii.eqb c "{" then Ok (JObj []) else Raise JSONDecodeError
  | [] => Raise JSONDecodeError
  end.

Definition no_repr (v : json) : str := lit "<value>".
Definition refuse_message (v : json) : result str := Raise ValidationError.
Definition plain_error_text (line : str) (e : exn) : str := lit "error".
Definition no_sniff (sample delimiters : str) : result unit := Raise CsvError.
Definition no_rows (lines : list str) (d : unit) : result (list (list str)) :=
  Ok [].

Definition error_entry (n : nat) (msg : string) : LogEntry :=
  {| timestamp := None; level := Some ERROR; service := None;
     message := lit msg; raw_line := lit msg; line_number := n;
     metadata := [] |}.

(** Two ERROR entries with one message and no timestamp. *)
Definition two_errors : list LogEntry :=
  [error_entry 1 "disk failure"; error_entry 2 "disk failure"].

(** Two ERROR entries with one message, the first with a naive timestamp
    and the second with one that carries the offset +02:00. *)
Definition mixed_errors : list LogEntry :=
  [ {| timestamp := Some (DateTime 2024 1 1 10 0 0 0 None);
       level := Some ERROR; service := None; message := lit "disk failure";
       raw_line := lit "disk failure"; line_number := 1; metadata := [] |};
    {| timestamp := Some (DateTime 2024 1 1 10 0 5 0 (Some 7200000000%Z));
       level := Some ERROR; service := None; message := lit "disk failure";
       raw_line := lit "disk failure"; line_number := 2; metadata := [] |} ].

(** Blanks, a line feed and a tab. *)
Definition blank_content : str :=
  [" "%char; newline; ascii_of_nat 9; " "%char].


(** Entries of 2024-01-01 with a given time of day and level. *)
Definition stamped (h mi : Z) (lv : option LogLevel) (msg : string)
  : LogEntry :=
  {| timestamp := Some (DateTime 2024 1 1 h mi 0 0 None); level := lv;
     service := None; message := lit msg; raw_line := lit msg;
     line_number := 1; metadata := [] |}.

Definition timeline_entries : list LogEntry :=
  [ stamped 10 5 (Some ERROR) "a"; stamped 10 40 (Some INFO) "b";
    stamped 11 0 (Some WARN) "c"; error_entry 4 "d";
    stamped 9 59 None "e" ].

(** A hundred entries one second apart and one more a day later. *)
Definition second_entry (day0 k : Z) : LogEntry :=
  {| timestamp := Some (DateTime 2024 1 day0 0 (k / 60) (k mod 60) 0 None);
     level := Some INFO; service := None; message := lit "tick";
     raw_line := lit "tick"; line_number := Z.to_nat k; metadata := [] |}.

Definition gap_entries : list LogEntry :=
  map (fun k => second_entry 1 (Z.of_nat k)) (seq 0 100)
  ++ [second_entry 2 0].

(** A hundred and ten entries 27.600430 s apart and one more 300.844687 s
    later: the last gap is ten times the mean of the gaps. *)
Definition drift_entry (us : Z) : LogEntry :=
  let s := (us / 1000000)%Z in
  {| timestamp := Some (DateTime 2024 1 1 (s / 3600) ((s / 60) mod 60)
                                 (s mod 60) (us mod 1000000) None);
     level := Some INFO; service := None; message := lit "tick";
     raw_line := lit "tick"; line_number := 1; metadata := [] |}.

Definition drift_entries : list LogEntry :=
  map (fun k => drift_entry (Z.of_nat k * 27600430)) (seq 0 110)
  ++ [drift_entry (109 * 27600430 + 300844687)].

(** JSON lines.  A line is written from its fields, and [table_loads]
    decodes exactly the lines written from the given objects. *)
Definition field (k v : string) : str * json := (lit k, JStr (lit v)).

Definition quoted (s : str) : str := [dquote] ++ s ++ [dquote].

Definition render_field (kv : str * json) : str :=
  quoted (fst kv) ++ lit ": "
  ++ match snd kv with JStr s => quoted s | _ => lit "null" end.

Definition render (fields : list (str * json)) : str :=
  lit "{" ++ join (lit ", ") (map render_field fields) ++ lit "}".

Definition table_loads (objects : list (list (str * json))) (line : str)
  : result json :=
  match Dict.get str_eqb line (map (fun o => (render o, JObj o)) objects)
  with
  | Some v => Ok v
  | None => Raise JSONDecodeError
  end.

(** Twelve records: nine INFO records and three ERROR records whose
    messages differ by a seven-digit id and a UUID only. *)
Definition info_record (k : string) : list (str * json) :=
  [field "level" "INFO"; field "message" k].

Definition twelve_records : list (list (str * json)) :=
  [ info_record "service started";
    info_record "listening on port 8080";
    [field "level" "ERROR";
     field "message"
       "payment 1234567 failed for 123e4567-e89b-12d3-a456-426614174000"];
    info_record "cache warmed";
    info_record "user logged in";
    [field "level" "ERROR";
     field "message"
       "payment 7654321 failed for 00112233-4455-6677-8899-aabbccddeeff"];
    info_record "report generated";
    info_record "user logged out";
    info_record "cache evicted";
    [field "level" "ERROR";
     field "message"
       "payment 5550001 failed for deadbeef-0000-1111-2222-333344445555"];
    info_record "heartbeat";
    info_record "shutdown requested" ].

(** The same records, each with a timestamp field. *)
Definition twelve_stamped_records : list (list (str * json)) :=
  map (fun o => field "timestamp" "2024-08-24T15:30:00Z" :: o)
      twelve_records.

Definition content_of (objects : list (list (str * json))) : str :=
  join [newline] (map render objects).

Definition entries_of (objects : list (list (str * json)))
  : list LogEntry :=
  FileProcessor._parse_json_logs utc (table_loads objects) no_repr
    refuse_message plain_error_text (content_of objects).

End Examples.

(** ** Facts about text *)

Module TextFacts.

Lemma str_eqb_eq (a b : str) : str_eqb a b = true <-> a = b.
Proof.
  unfold str_eqb. destruct (list_eq_dec ascii_dec a b); split; congruence.
Qed.

Lemma str_eqb_refl (a : str) : str_eqb a a = true.
Proof. now apply str_eqb_eq. Qed.

Lemma lstrip_space (c : ascii) (s : str) :
  is_space c = true -> lstrip (c :: s) = lstrip s.
Proof. intros H. simpl. now rewrite H. Qed.

Lemma lstrip_nonspace (c : ascii) (s : str) :
  is_space c = false -> lstrip (c :: s) = c :: s.
Proof. intros H. simpl. now rewrite H. Qed.

Lemma lstrip_blank (s : str) : forallb is_space s = true -> lstrip s = [].
Proof.
  induction s as [|c s IH]; simpl; [reflexivity|].
  intros H. apply andb_prop in H as [Hc Hs]. rewrite Hc. auto.
Qed.


Lemma strip_blank (s : str) : forallb is_space s = true -> strip s = [].
Proof. intros H. unfold strip. now rewrite lstrip_blank. Qed.



(** [s] is its stripped left part followed by blanks only. *)
Lemma lstrip_split (s : str) :
  exists w, s = w ++ lstrip s /\ forallb is_space w = true.
Proof.
  induction s as [|c s (w & E & Hw)]; [now exists []|].
  simpl. destruct (is_space c) eqn:Hc.
  - exists (c :: w). simpl. rewrite Hc, Hw. split; [now f_equal | reflexivity].
  - now exists [].
Qed.

Lemma rstrip_split (s : str) :
  exists w, s = rstrip s ++ w /\ forallb is_space w = true.
Proof.
  destruct (lstrip_split (rev s)) as (w & E & Hw).
  exists (rev w). split.
  - unfold rstrip. rewrite <- rev_app_distr, <- E. now rewrite rev_involutive.
  - rewrite forallb_forall in *. intros x Hx. apply Hw. now apply in_rev.
Qed.

Lemma split_not_nil (sep : ascii) (s : str) : str_split sep s <> [].
Proof.
  destruct s as [|c s]; simpl; [discriminate|].
  destruct (Ascii.eqb c sep); [discriminate|].
  destruct (str_split sep s); discriminate.
Qed.



End TextFacts.

(** ** Stripping twice *)

Module StripFacts.

Import TextFacts.

Lemma lstrip_head (s : str) (c : ascii) (t : str) :
  lstrip s = c :: t -> is_space c = false.
Proof.
  induction s as [|x s IH]; simpl; [discriminate|].
  destruct (is_space x) eqn:Hx; [exact IH|]. now intros [= <- <-].
Qed.

Lemma lstrip_fixed (s : str) :
  match s with c :: _ => is_space c = false | [] => True end ->
  lstrip s = s.
Proof. destruct s as [|c s]; simpl; [reflexivity|]. now intros ->. Qed.

Lemma lstrip_idem (s : str) : lstrip (lstrip s) = lstrip s.
Proof.
  apply lstrip_fixed. destruct (lstrip s) eqn:E; [exact I|].
  now apply lstrip_head in E.
Qed.

Lemma rstrip_idem (s : str) : rstrip (rstrip s) = rstrip s.
Proof. unfold rstrip. now rewrite rev_involutive, lstrip_idem. Qed.

(** Stripping on the right keeps a first character that is not blank. *)
Lemma rstrip_keeps_head (c : ascii) (s : str) :
  is_space c = false -> exists t, rstrip (c :: s) = c :: t.
Proof.
  intros Hc. unfold rstrip. cbn [rev].
  induction (rev s) as [|x r IH].
  - cbn. rewrite Hc. now exists [].
  - cbn [app lstrip]. destruct (is_space x).
    + exact IH.
    + change (x :: r ++ [c]) with ((x :: r) ++ [c]). rewrite rev_unit.
      now eexists.
Qed.

Lemma lstrip_rstrip_lstrip (s : str) :
  lstrip (rstrip (lstrip s)) = rstrip (lstrip s).
Proof.
  apply lstrip_fixed. destruct (lstrip s) as [|c t] eqn:E; [exact I|].
  apply lstrip_head in E.
  destruct (@rstrip_keeps_head c t E) as (t1 & ->). exact E.
Qed.

Lemma strip_idem (s : str) : strip (strip s) = strip s.
Proof. unfold strip. now rewrite lstrip_rstrip_lstrip, rstrip_idem. Qed.

End StripFacts.

(** ** Lists, dictionaries and sorting *)

Module ListFacts.

Import FileProcessor.

Lemma Ok_inj {A} (a b : A) : Ok a = Ok b -> a = b.
Proof. congruence. Qed.

Lemma in_firstn {A} (n : nat) (l : list A) (x : A) :
  In x (firstn n l) -> In x l.
Proof.
  intros H. rewrite <- (firstn_skipn n l). apply in_or_app. now left.
Qed.

Lemma count_if_app {A} (f : A -> bool) (l1 l2 : list A) :
  count_if f (l1 ++ l2) = count_if f l1 + count_if f l2.
Proof. unfold count_if. now rewrite filter_app, length_app. Qed.

Lemma count_if_none {A} (f : A -> bool) (l : list A) :
  (forall x, In x l -> f x = false) -> count_if f l = 0.
Proof.
  unfold count_if. induction l as [|x l IH]; cbn; [reflexivity|].
  intros H. rewrite (H x) by now left. apply IH.
  intros y Hy. apply H. now right.
Qed.

Lemma count_if_filter {A} (f g : A -> bool) (l : list A) :
  count_if f (filter g l) = count_if (fun x => g x && f x) l.
Proof.
  unfold count_if. induction l as [|x l IH]; cbn; [reflexivity|].
  destruct (g x); cbn; [|exact IH]. destruct (f x); cbn; now rewrite IH.
Qed.

End ListFacts.

Module DictFacts.

Section WithKey.

Context {K V : Type}.
Variable keq : K -> K -> bool.
Hypothesis keq_spec : forall a b, keq a b = true <-> a = b.

Lemma keq_refl (k : K) : keq k k = true.
Proof. now apply keq_spec. Qed.

Lemma keq_neq (a b : K) : a <> b -> keq a b = false.
Proof.
  intros H. destruct (keq a b) eqn:E; [|reflexivity].
  now apply keq_spec in E.
Qed.

Lemma update_keys (k : K) (f : V -> V) (dflt : V) (d : list (K * V)) :
  map fst (Dict.update keq k f dflt d)
  = if existsb (fun k' => keq k' k) (map fst d) then map fst d
    else map fst d ++ [k].
Proof.
  induction d as [|[k' v] d IH]; [reflexivity|].
  cbn. destruct (keq k' k); cbn; [reflexivity|].
  rewrite IH. now destruct (existsb _ _).
Qed.

Lemma existsb_keys (k : K) (l : list K) :
  existsb (fun k' => keq k' k) l = true <-> In k l.
Proof.
  rewrite existsb_exists. split.
  - intros (x & Hx & E). apply keq_spec in E. now subst.
  - intros H. exists k. split; [assumption | apply keq_refl].
Qed.

Lemma update_key_in (k : K) (f : V -> V) (dflt : V) (d : list (K * V)) :
  In k (map fst (Dict.update keq k f dflt d)).
Proof.
  rewrite update_keys. destruct (existsb _ _) eqn:E.
  - now apply existsb_keys.
  - apply in_or_app. right. now left.
Qed.

Lemma update_keys_incl (k k0 : K) (f : V -> V) (dflt : V)
    (d : list (K * V)) :
  In k0 (map fst d) -> In k0 (map fst (Dict.update keq k f dflt d)).
Proof.
  rewrite update_keys. destruct (existsb _ _); [auto|].
  intros H. apply in_or_app. now left.
Qed.

Lemma update_nodup (k : K) (f : V -> V) (dflt : V) (d : list (K * V)) :
  NoDup (map fst d) -> NoDup (map fst (Dict.update keq k f dflt d)).
Proof.
  intros H. rewrite update_keys. destruct (existsb _ _) eqn:E; [assumption|].
  apply NoDup_app; [assumption | constructor; [intros [] | constructor] |].
  intros x Hx [<-|[]].
  apply existsb_keys in Hx. congruence.
Qed.

(** What a binding of the updated dictionary comes from. *)
Lemma update_in (k : K) (f : V -> V) (dflt : V) (d : list (K * V))
    (k0 : K) (v0 : V) :
  NoDup (map fst d) ->
  In (k0, v0) (Dict.update keq k f dflt d) ->
  (k0 <> k /\ In (k0, v0) d)
  \/ (k0 = k /\ ((exists v, In (k, v) d /\ v0 = f v)
                \/ (~ In k (map fst d) /\ v0 = f dflt))).
Proof.
  induction d as [|[k' v] d IH]; cbn.
  - intros _ [[= <- <-]|[]]. right. split; [reflexivity|]. right. now split.
  - intros Hnd. inversion Hnd as [|? ? Hnin Hnd']; subst.
    destruct (keq k' k) eqn:E.
    + apply keq_spec in E. subst k'. intros [[= <- <-]|H].
      * right. split; [reflexivity|]. left. exists v.
        split; [now left|reflexivity].
      * left. split; [|now right]. intros ->. apply Hnin.
        now apply (in_map fst) in H.
    + intros [[= <- <-]|H].
      * left. split; [|now left]. intros ->. now rewrite keq_refl in E.
      * destruct (IH Hnd' H) as [[Hn Hin]|[-> [(v1 & Hin & ->)|[Hnin' ->]]]].
        -- left. split; [assumption | now right].
        -- right. split; [reflexivity|]. left. exists v1.
           split; [now right|reflexivity].
        -- right. split; [reflexivity|]. right. split; [|reflexivity].
           intros [<-|Hin]; [now rewrite keq_refl in E | contradiction].
Qed.

End WithKey.

End DictFacts.

Module SortFacts.

Section Sorting.

Context {A : Type}.
Variable leb : A -> A -> bool.

Lemma insert_perm (x : A) (l : list A) :
  Permutation (insert_sorted leb x l) (x :: l).
Proof.
  induction l as [|y l IH]; cbn; [reflexivity|].
  destruct (leb x y); [reflexivity|].
  rewrite IH. apply perm_swap.
Qed.

Lemma sorted_perm (l : list A) : Permutation (sorted leb l) l.
Proof.
  induction l as [|x l IH]; cbn; [reflexivity|].
  rewrite insert_perm. now constructor.
Qed.

Lemma sorted_in (l : list A) (x : A) : In x (sorted leb l) <-> In x l.
Proof.
  split; apply Permutation_in; [|symmetry]; apply sorted_perm.
Qed.

Lemma sorted_length (l : list A) : length (sorted leb l) = length l.
Proof. apply Permutation_length, sorted_perm. Qed.

Hypothesis leb_total : forall a b, leb a b = false -> leb b a = true.
Hypothesis leb_trans :
  forall a b c, leb a b = true -> leb b c = true -> leb a c = true.

Let le (a b : A) : Prop := leb a b = true.

Lemma insert_strongly_sorted (x : A) (l : list A) :
  StronglySorted le l -> StronglySorted le (insert_sorted leb x l).
Proof.
  induction 1 as [|y l Hs IH Hall]; cbn.
  - repeat constructor.
  - destruct (leb x y) eqn:E.
    + constructor; [now constructor|].
      constructor; [exact E|].
      eapply Forall_impl; [|exact Hall].
      intros z Hz. now apply leb_trans with y.
    + constructor; [exact IH|].
      eapply Permutation_Forall; [symmetry; apply insert_perm|].
      constructor; [now apply leb_total | exact Hall].
Qed.

Lemma sorted_strongly_sorted (l : list A) : StronglySorted le (sorted leb l).
Proof.
  induction l as [|x l IH]; cbn; [constructor|].
  now apply insert_strongly_sorted.
Qed.

End Sorting.

Lemma str_leb_refl (a : str) : str_leb a a = true.
Proof.
  induction a as [|x a IH]; cbn [str_leb]; [reflexivity|].
  now rewrite Nat.ltb_irrefl.
Qed.

Lemma code_inj (x y : ascii) : code x = code y -> x = y.
Proof.
  unfold code. intros H.
  rewrite <- (ascii_nat_embedding x), <- (ascii_nat_embedding y).
  now rewrite H.
Qed.

Lemma str_leb_total (a b : str) : str_leb a b = false -> str_leb b a = true.
Proof.
  revert b. induction a as [|x a IH]; intros [|y b]; cbn [str_leb]; try easy.
  destruct (code x <? code y) eqn:E1; [discriminate|].
  destruct (code y <? code x) eqn:E2; [reflexivity|]. apply IH.
Qed.

Lemma str_leb_trans (a b c : str) :
  str_leb a b = true -> str_leb b c = true -> str_leb a c = true.
Proof.
  revert b c.
  induction a as [|x a IH]; intros [|y b] [|z c]; cbn [str_leb]; try easy.
  destruct (code x <? code y) eqn:E1, (code y <? code x) eqn:E2,
           (code y <? code z) eqn:E3, (code z <? code y) eqn:E4,
           (code x <? code z) eqn:E5, (code z <? code x) eqn:E6;
    try reflexivity; try discriminate;
    rewrite ?Nat.ltb_lt, ?Nat.ltb_ge in *; try lia.
  apply IH.
Qed.

Lemma str_leb_antisym (a b : str) :
  str_leb a b = true -> str_leb b a = true -> a = b.
Proof.
  revert b. induction a as [|x a IH]; intros [|y b]; cbn [str_leb]; try easy.
  destruct (code x <? code y) eqn:E1, (code y <? code x) eqn:E2;
    try discriminate;
    rewrite ?Nat.ltb_lt, ?Nat.ltb_ge in *; try lia.
  intros H1 H2. f_equal; [apply code_inj; lia | now apply IH].
Qed.

End SortFacts.

(** ** Facts about the matcher *)

Module ReFacts.

Lemma all_chars_complete (c : ascii) : In c all_chars.
Proof.
  unfold all_chars. rewrite <- (ascii_nat_embedding c).
  apply in_map, in_seq. pose proof (nat_ascii_bounded c). lia.
Qed.

Lemma flat_map_nil {A B} (f : A -> list B) (l : list A) :
  (forall x, In x l -> f x = []) -> flat_map f l = [].
Proof.
  induction l as [|x l IH]; cbn; [reflexivity|]. intros H.
  rewrite (H x) by now left. apply IH. intros y Hy. apply H. now right.
Qed.

(** A match ends at a later position of the same text. *)
Lemma later_refl (st : mstate) : later st st.
Proof. now exists []. Qed.

Lemma later_trans (a b c : mstate) : later a b -> later b c -> later a c.
Proof.
  intros (p & Hp) (q & Hq). exists (p ++ q). now rewrite Hp, Hq, app_assoc.
Qed.

Lemma star_loop_later (body : mstate -> list mstate) :
  (forall st st', In st' (body st) -> later st st') ->
  forall n st st', In st' (star_loop body n st) -> later st st'.
Proof.
  intros Hbody. induction n as [|n IH]; intros st st'; cbn [star_loop].
  - intros [<-|[]]. apply later_refl.
  - intros H. apply in_app_or in H as [H|[<-|[]]]; [|apply later_refl].
    apply in_flat_map in H as (st1 & H1 & H).
    destruct (progress st st1); [|contradiction].
    eapply later_trans; [apply Hbody; eassumption | now apply IH].
Qed.

Lemma lazy_loop_later (body : mstate -> list mstate) :
  (forall st st', In st' (body st) -> later st st') ->
  forall n st st', In st' (lazy_loop body n st) -> later st st'.
Proof.
  intros Hbody. induction n as [|n IH]; intros st st'; cbn [lazy_loop].
  - intros [<-|[]]. apply later_refl.
  - intros [<-|H]; [apply later_refl|].
    apply in_flat_map in H as (st1 & H1 & H).
    destruct (progress st st1); [|contradiction].
    eapply later_trans; [apply Hbody; eassumption | now apply IH].
Qed.

Lemma m_later (r : regex) :
  forall st st', In st' (m r st) -> later st st'.
Proof.
  induction r as [|p|a IHa b IHb|a IHa b IHb|a IHa|a IHa|n a IHa| | |];
    intros st st'; cbn [m].
  - intros [<-|[]]. apply later_refl.
  - destruct (rest st) as [|c s] eqn:E; [contradiction|].
    destruct (p c); [|contradiction]. intros [<-|[]].
    exists [c]. now rewrite E.
  - intros H. apply in_flat_map in H as (st1 & H1 & H).
    eapply later_trans; eauto.
  - intros H. apply in_app_or in H as [H|H]; eauto.
  - now apply star_loop_later.
  - now apply lazy_loop_later.
  - intros H. apply in_map_iff in H as (st1 & <- & H).
    destruct (IHa _ _ H) as (p & Hp). now exists p.
  - destruct (pre st); [|contradiction]. intros [<-|[]]. apply later_refl.
  - destruct (at_end st); [|contradiction]. intros [<-|[]]. apply later_refl.
  - destruct (at_boundary st); [|contradiction]. intros [<-|[]].
    apply later_refl.
Qed.

Lemma later_class (d : ascii -> bool) (st st' : mstate) :
  later st st' -> forallb d (rest st) = true -> forallb d (rest st') = true.
Proof.
  intros (p & ->). rewrite forallb_app. now intros H%andb_prop.
Qed.

(** A pattern that needs a character outside a class has no match in a
    text made of that class. *)
Lemma m_none_in_class (d : ascii -> bool) (r : regex) :
  needs_other d r = true ->
  forall st, forallb d (rest st) = true -> m r st = [].
Proof.
  induction r as [|p|a IHa b IHb|a IHa b IHb|a IHa|a IHa|n a IHa| | |];
    cbn [needs_other m]; try discriminate.
  - intros Hp st Hd. destruct (rest st) as [|c s]; [reflexivity|].
    cbn in Hd. apply andb_prop in Hd as [Hc _].
    rewrite forallb_forall in Hp. specialize (Hp c (all_chars_complete c)).
    rewrite Hc in Hp. cbn in Hp. now destruct (p c).
  - intros H st Hd. apply orb_prop in H as [H|H].
    + now rewrite IHa.
    + apply flat_map_nil. intros st1 H1. apply IHb; [assumption|].
      eapply later_class; [|eassumption]. now apply m_later with a.
  - intros H st Hd. apply andb_prop in H as [Ha Hb].
    now rewrite IHa, IHb.
  - intros H st Hd. now rewrite IHa.
Qed.

Lemma match_at_none_in_class (d : ascii -> bool) (r : regex)
    (before s : str) :
  needs_other d r = true -> forallb d s = true -> match_at r before s = None.
Proof.
  intros Hr Hs. unfold match_at. now rewrite (m_none_in_class d r Hr).
Qed.

(** Such a pattern substitutes nothing in such a text. *)
Lemma sub_none_in_class (d : ascii -> bool) (r : regex) (repl s : str) :
  needs_other d r = true -> forallb d s = true -> re_sub r repl s = s.
Proof.
  intros Hr. unfold re_sub. generalize (@nil ascii) as before.
  induction s as [|c s IH]; intros before Hs; cbn [sub_from];
    rewrite (match_at_none_in_class d r _ _ Hr Hs); [reflexivity|].
  cbn in Hs. apply andb_prop in Hs as [_ Hs]. now rewrite IH.
Qed.

End ReFacts.

(** ** Rounding and doubles *)

Module FloatFacts.

Local Open Scope Z_scope.

(** *** Rounding to the nearest integer *)



Lemma rhe_le_int (q : Q) (N : Z) :
  (q <= inject_Z N)%Q -> round_half_even q <= N.
Proof.
  destruct q as [n d]. unfold Qle, inject_Z. cbn [Qnum Qden]. intros H.
  unfold round_half_even. cbn [Qnum Qden].
  pose proof (Z.div_mod n (Z.pos d) ltac:(lia)) as Hdm.
  pose proof (Z.mod_pos_bound n (Z.pos d) ltac:(lia)) as Hr.
  set (fl := n / Z.pos d) in *. set (r := n mod Z.pos d) in *.
  assert (E : n - fl * Z.pos d = r) by lia. rewrite E.
  assert (Hfl : fl < N \/ fl = N /\ r = 0) by nia.
  destruct (Z.ltb_spec (2 * r) (Z.pos d)); [lia|].
  destruct (Z.ltb_spec (Z.pos d) (2 * r)); [lia|].
  destruct (Z.even fl); lia.
Qed.

Lemma rhe_ge_int (q : Q) (N : Z) :
  (inject_Z N <= q)%Q -> N <= round_half_even q.
Proof.
  destruct q as [n d]. unfold Qle, inject_Z. cbn [Qnum Qden]. intros H.
  unfold round_half_even. cbn [Qnum Qden].
  pose proof (Z.div_mod n (Z.pos d) ltac:(lia)) as Hdm.
  pose proof (Z.mod_pos_bound n (Z.pos d) ltac:(lia)) as Hr.
  set (fl := n / Z.pos d) in *. set (r := n mod Z.pos d) in *.
  assert (Hfl : N <= fl) by nia.
  destruct (_ <? _); [lia|]. destruct (_ <? _); [lia|].
  destruct (Z.even fl); lia.
Qed.

Lemma rhe_int (q : Q) (z : Z) :
  (q == inject_Z z)%Q -> round_half_even q = z.
Proof.
  intros H. apply Z.le_antisymm.
  - apply rhe_le_int. rewrite H. apply Qle_refl.
  - apply rhe_ge_int. rewrite H. apply Qle_refl.
Qed.

(** *** Powers of two *)

Lemma two_nonzero : ~ (2 == 0)%Q.
Proof. discriminate. Qed.

Lemma pow2_pos (e : Z) : (0 < 2 ^ e)%Q.
Proof. now apply Qpower_0_lt. Qed.

Lemma pow2_add (a b : Z) : (2 ^ (a + b) == 2 ^ a * 2 ^ b)%Q.
Proof. apply Qpower_plus, two_nonzero. Qed.

Lemma pow2_int (n : Z) : 0 <= n -> (2 ^ n == inject_Z (2 ^ n))%Q.
Proof. intros H. symmetry. now apply (Zpower_Qpower 2). Qed.

Lemma pow2_le (a b : Z) : a <= b -> (2 ^ a <= 2 ^ b)%Q.
Proof. intros H. apply Qpower_le_compat_l; [assumption|discriminate]. Qed.

Lemma pow2_lt (a b : Z) : a < b -> (2 ^ a < 2 ^ b)%Q.
Proof. intros H. apply Qpower_lt_compat_l; [assumption|reflexivity]. Qed.

Lemma pow2_lt_inv (a b : Z) : (2 ^ a < 2 ^ b)%Q -> a < b.
Proof. intros H. apply Qpower_lt_compat_l_inv in H; [assumption|reflexivity]. Qed.

(** *** The binade of a rational *)

Lemma binade_le (q : Q) : (0 < q)%Q -> (2 ^ binade q <= q)%Q.
Proof.
  intros Hq. unfold binade, qltb.
  destruct (Qlt_le_dec q _) as [Hlt|Hle]; [|exact Hle].
  destruct q as [n d]. cbn [Qnum Qden] in *.
  assert (Hn : 0 < n) by (unfold Qlt in Hq; cbn in Hq; lia).
  pose proof (Z.log2_spec n Hn) as [Hn1 _].
  pose proof (Z.log2_spec (Z.pos d) ltac:(lia)) as [_ Hd2].
  pose proof (Z.log2_nonneg n) as Hln.
  pose proof (Z.log2_nonneg (Z.pos d)) as Hld.
  replace (Z.log2 n - Z.log2 (Z.pos d) - 1)
    with (Z.log2 n + - Z.succ (Z.log2 (Z.pos d))) by lia.
  rewrite pow2_add, Qpower_opp, !pow2_int by lia.
  set (a := 2 ^ Z.log2 n) in *. set (b := 2 ^ Z.succ (Z.log2 (Z.pos d))) in *.
  assert (Hb : 0 < b) by lia.
  apply Qle_shift_div_r; [unfold Qlt; cbn; lia|].
  unfold Qle, Qmult, inject_Z. cbn [Qnum Qden]. nia.
Qed.

Lemma binade_lt (q : Q) (E : Z) :
  (0 < q)%Q -> (q < 2 ^ E)%Q -> binade q < E.
Proof.
  intros Hq H. apply pow2_lt_inv.
  eapply Qle_lt_trans; [now apply binade_le|exact H].
Qed.

(** *** The nearest double *)


(** A positive rational below [2 ^ 1023]: the significand that is kept
    and the exponent of its last bit. *)
Lemma to_double_pos (q : Q) (E : Z) :
  (0 < q)%Q -> (q < 2 ^ E)%Q -> E <= 1023 ->
  exists k,
    -1022 <= k /\ (k < E \/ k = -1022)
    /\ to_double q
       = Finite (Qred (inject_Z (round_half_even (q / 2 ^ (k - 52)))
                       * 2 ^ (k - 52)))
    /\ 0 <= round_half_even (q / 2 ^ (k - 52)).
Proof.
  intros Hq HE HE'.
  pose proof (@binade_lt q E Hq HE) as Hb.
  exists (Z.max (binade q) (-1022)).
  split; [lia|]. split; [lia|].
  set (k := Z.max (binade q) (-1022)).
  assert (Hk : k <= 1022) by lia.
  pose proof (pow2_pos (k - 52)) as Hu.
  assert (Hy : (0 <= q / 2 ^ (k - 52))%Q).
  { apply Qle_shift_div_l; [exact Hu|]. rewrite Qmult_0_l.
    now apply Qlt_le_weak. }
  assert (Hm : 0 <= round_half_even (q / 2 ^ (k - 52)))
    by now apply rhe_ge_int.
  split; [|exact Hm].
  assert (Hm' : round_half_even (q / 2 ^ (k - 52)) <= 2 ^ (1075 - k)).
  { apply rhe_le_int. apply Qle_shift_div_r; [exact Hu|].
    rewrite <- pow2_int by lia. rewrite <- pow2_add.
    replace (1075 - k + (k - 52)) with 1023 by lia.
    apply Qlt_le_weak. eapply Qlt_le_trans; [exact HE|]. now apply pow2_le. }
  unfold to_double.
  assert (Hz : Qeq_bool q 0 = false).
  { destruct (Qeq_bool q 0) eqn:E0; [|reflexivity].
    apply Qeq_bool_eq in E0. rewrite E0 in Hq. discriminate. }
  rewrite Hz.
  assert (Habs : Qabs q = q).
  { destruct q as [[|n|n] d]; try reflexivity; discriminate. }
  rewrite Habs. fold k.
  set (m := round_half_even (q / 2 ^ (k - 52))) in *.
  assert (Hv : (0 <= inject_Z m * 2 ^ (k - 52))%Q).
  { apply Qmult_le_0_compat; [|now apply Qlt_le_weak].
    change 0%Q with (inject_Z 0). now rewrite <- Zle_Qle. }
  assert (Hlt : (Qabs (inject_Z m * 2 ^ (k - 52)) < 2 ^ 1024)%Q).
  { rewrite Qabs_pos by exact Hv.
    apply Qle_lt_trans with (2 ^ 1023)%Q; [|now apply pow2_lt].
    replace 1023 with (1075 - k + (k - 52)) by lia.
    rewrite pow2_add. apply Qmult_le_compat_r; [|now apply Qlt_le_weak].
    rewrite pow2_int by lia. now rewrite <- Zle_Qle. }
  unfold qltb. destruct (Qlt_le_dec _ _) as [_|Hge]; [reflexivity|].
  exfalso. exact (Qlt_not_le _ _ Hlt Hge).
Qed.


(** Rounding does not cross an integer below [2 ^ 53]. *)
Lemma to_double_between (q : Q) (a b : Z) :
  (0 < q)%Q -> (inject_Z a <= q)%Q -> (q <= inject_Z b)%Q -> b < 2 ^ 53 ->
  exists v, to_double q = Finite v
            /\ (inject_Z a <= v)%Q /\ (v <= inject_Z b)%Q.
Proof.
  intros Hq Ha Hb Hb'.
  assert (HE : (q < 2 ^ 53)%Q).
  { eapply Qle_lt_trans; [exact Hb|]. rewrite pow2_int by lia.
    now rewrite <- Zlt_Qlt. }
  destruct (@to_double_pos q _ Hq HE) as (k & Hk1 & Hk2 & Hd & Hm); [lia|].
  eexists. split; [exact Hd|].
  rewrite Qred_correct.
  set (u := (2 ^ (k - 52))%Q) in *.
  assert (Hu : (0 < u)%Q) by apply pow2_pos.
  assert (Hone : (inject_Z (2 ^ (52 - k)) * u == 1)%Q).
  { unfold u. rewrite <- pow2_int, <- pow2_add by lia.
    replace (52 - k + (k - 52)) with 0 by lia. reflexivity. }
  assert (Hint : forall c, (inject_Z c == inject_Z (c * 2 ^ (52 - k)) * u)%Q).
  { intros c. rewrite inject_Z_mult, <- Qmult_assoc, Hone.
    now rewrite Qmult_1_r. }
  split.
  - rewrite (Hint a). apply Qmult_le_compat_r; [|now apply Qlt_le_weak].
    rewrite <- Zle_Qle. apply rhe_ge_int.
    apply Qle_shift_div_l; [exact Hu|]. now rewrite <- Hint.
  - rewrite (Hint b). apply Qmult_le_compat_r; [|now apply Qlt_le_weak].
    rewrite <- Zle_Qle. apply rhe_le_int.
    apply Qle_shift_div_r; [exact Hu|]. now rewrite <- Hint.
Qed.


(** Nothing positive comes of a rational that is not positive. *)
Lemma to_double_nonpos (q : Q) :
  (q <= 0)%Q ->
  match to_double q with
  | Finite v => (v <= 0)%Q
  | Infinity negative => negative = true
  | NaN => False
  end.
Proof.
  intros Hq. unfold to_double.
  destruct (Qeq_bool q 0) eqn:E0; [apply Qle_refl|].
  set (u := (2 ^ _)%Q). assert (Hu : (0 < u)%Q) by apply pow2_pos.
  assert (Hneg : (Qnum q <? 0) = true).
  { apply Z.ltb_lt. apply Qeq_bool_neq in E0.
    destruct q as [[|n|n] d]; [elim E0; reflexivity| |reflexivity].
    unfold Qle in Hq. cbn in Hq. lia. }
  destruct (qltb _ _); [|exact Hneg].
  rewrite Qred_correct.
  assert (Hm : round_half_even (q / u) <= 0).
  { apply rhe_le_int. apply Qle_shift_div_r; [exact Hu|].
    now rewrite Qmult_0_l. }
  setoid_replace 0%Q with (0 * u)%Q by (now rewrite Qmult_0_l).
  apply Qmult_le_compat_r; [|now apply Qlt_le_weak].
  change 0%Q with (inject_Z 0). now rewrite <- Zle_Qle.
Qed.

End FloatFacts.

(** ** One entry per line that is not blank *)

Module LineParsers.

Import FileProcessor TextFacts.

Lemma space_newline : is_space newline = true.
Proof. reflexivity. Qed.







Section Parsers.

Variable utcoffset : Z -> Z.
Variable json_loads : str -> result json.
Variable py_repr : json -> str.
Variable coerce_message : json -> result str.
Variable error_text : str -> exn -> str.
Variable dialect : Type.
Variable csv_excel : dialect.
Variable csv_sniff : str -> str -> result dialect.
Variable csv_reader : list str -> dialect -> result (list (list str)).


Lemma raw_of_json (data : list (str * json)) (line : str) (n : nat)
    (e : LogEntry) :
  _create_log_entry_from_json utcoffset py_repr coerce_message data line n
  = Ok e -> raw_line e = line.
Proof.
  unfold _create_log_entry_from_json.
  repeat (match goal with |- bind ?c _ = _ -> _ => destruct c end;
          cbn [bind]; [|discriminate]).
  intros [= <-]. reflexivity.
Qed.

Lemma raw_of_json_line (line : str) (n : nat) :
  raw_line (json_line_entry utcoffset json_loads py_repr coerce_message
                            error_text line n) = line.
Proof.
  unfold json_line_entry.
  destruct (json_loads line) as [[]|[]]; try reflexivity.
  destruct (_create_log_entry_from_json _ _ _ _ _ _) eqn:E; [|reflexivity].
  now apply raw_of_json in E.
Qed.

Lemma raw_of_syslog_line (patterns : list regex) (line : str) (n : nat) :
  raw_line (syslog_line_entry_from utcoffset error_text patterns line n)
  = line.
Proof.
  induction patterns as [|p ps IH]; [reflexivity|].
  cbn [syslog_line_entry_from]. destruct (re_match p line); [|exact IH].
  unfold _create_log_entry_from_syslog_match.
  match goal with |- context [bind ?c _] => destruct c end; reflexivity.
Qed.

Lemma raw_of_structured_line (line : str) (n : nat) :
  raw_line (structured_line_entry utcoffset line n) = line.
Proof.
  unfold structured_line_entry, _create_log_entry_from_structured.
  destruct (fold_left _ _ _); [reflexivity|].
  match goal with |- context [bind ?c _] => destruct c end; reflexivity.
Qed.



End Parsers.

Import Examples.


End LineParsers.

(** ** Empty input *)

Module EmptyInput.

Import FileProcessor TextFacts Examples.

Section Content.

Variable utcoffset : Z -> Z.
Variable json_loads : str -> result json.
Variable py_repr : json -> str.
Variable coerce_message : json -> result str.
Variable error_text : str -> exn -> str.
Variable dialect : Type.
Variable csv_excel : dialect.
Variable csv_sniff : str -> str -> result dialect.
Variable csv_reader : list str -> dialect -> result (list (list str)).

(** C5: for content that is empty or consists of blanks only,
    [process_content] returns no entries together with the default format,
    plain text, whatever the file name; nothing is raised. *)
Theorem C5_blank_content_is_empty_plain_text (content filename : str) :
  forallb is_space content = true ->
  process_content utcoffset json_loads py_repr coerce_message error_text
                  csv_excel csv_sniff csv_reader content filename
  = Ok ([], PLAIN_TEXT).
Proof.
  intros H. unfold process_content. now rewrite strip_blank.
Qed.

(** [process_file], which reads the file itself, refuses such a file. *)
Lemma process_file_refuses_blank (content file_path : str) :
  forallb is_space content = true ->
  process_file utcoffset json_loads py_repr coerce_message error_text
               csv_excel csv_sniff csv_reader content file_path
  = Raise LogParsingError.
Proof.
  intros H. unfold process_file. now rewrite strip_blank.
Qed.

End Content.

Lemma C5_witness :
  process_content utc brace_loads no_repr refuse_message plain_error_text
                  tt no_sniff no_rows blank_content (lit "app.json")
  = Ok ([], PLAIN_TEXT).
Proof.
  apply C5_blank_content_is_empty_plain_text. reflexivity.
Defined.

End EmptyInput.

(** * Verification *)

(** ** Error-pattern clustering on entries without timestamps *)

Module ClusteringFailure.

Import LogAnalyzer Examples.

(** The group is found, with its two members. *)
Lemma two_errors_grouped :
  filter recurring
    (group_by_message _normalize_error_message (filter is_error two_errors))
  = [(lit "disk failure", two_errors)].
Proof. vm_compute. reflexivity. Qed.

(** The guarded computation of [pattern_detector] gives absent
    occurrences on the same group. *)
Lemma sibling_is_guarded :
  PatternDetector.occurrences two_errors = Ok (None, None).
Proof. reflexivity. Qed.

(** C1 (code bug): on two ERROR entries that share their message and have
    no timestamp, [_detect_error_patterns] of [log_analyzer] does not
    return a pattern with absent first and last occurrence: [min] over
    the empty sequence of timestamps raises [ValueError], and the
    exception leaves [analyze_file] as well. *)
Theorem C1_clustering_raises_without_timestamps :
  _detect_error_patterns two_errors = Raise ValueError
  /\ analyze_file two_errors = Raise ValueError.
Proof. split; vm_compute; reflexivity. Qed.

(** Timestamps of two kinds are a second way to fail: the extractor makes
    an aware value of "2024-01-01T10:00:05+0200" and a naive one of
    "2024-01-01T10:00:00", and [min] cannot compare them. *)
Lemma clustering_raises_on_mixed_timestamps :
  FileProcessor._extract_timestamp utc (Some (lit "2024-01-01T10:00:05+0200"))
  = Ok (Some (DateTime 2024 1 1 10 0 5 0 (Some 7200000000%Z)))
  /\ FileProcessor._extract_timestamp utc (Some (lit "2024-01-01T10:00:00"))
     = Ok (Some (DateTime 2024 1 1 10 0 0 0 None))
  /\ _detect_error_patterns mixed_errors = Raise TypeError.
Proof. vm_compute. repeat split; reflexivity. Qed.

End ClusteringFailure.

(** ** The service extractor and the stoplist *)

Module ServiceStoplist.

Import FileProcessor.

(** The bracketed token is the only one extracted, and it is stoplisted. *)
Lemma only_token_is_stoplisted :
  first_service service_patterns (lit "[ERROR] something failed") = None
  /\ option_map (group 1)
       (re_search (nth 1 service_patterns Eps) (lit "[ERROR] something failed"))
     = Some (Some (lit "ERROR"))
  /\ excluded (lit "ERROR") = true.
Proof. vm_compute. repeat split; reflexivity. Qed.

(** C3 (code bug): for the input "[ERROR] something failed" the extractor
    does not return absent.  After the only extracted token, ERROR, has
    been rejected by the stoplist, the code falls through to the branch
    meant for "no pattern matches" and returns the input with everything
    but word characters, dots and hyphens removed. *)
Theorem C3_stoplisted_token_falls_through :
  _extract_service (Some (lit "[ERROR] something failed"))
  = Some (lit "ERRORsomethingfailed").
Proof. vm_compute. reflexivity. Qed.

End ServiceStoplist.

(** ** Error-pattern clustering on twelve JSON lines *)

Module ClusteringExample.

Import LogAnalyzer FileProcessor Examples.

(** The twelve lines are detected and parsed as JSON, one entry each; the
    three ERROR entries have one normalized message. *)
Lemma twelve_lines_parsed :
  process_content utc (table_loads twelve_records) no_repr refuse_message
                  plain_error_text tt no_sniff no_rows
                  (content_of twelve_records) (lit "app.log")
  = Ok (entries_of twelve_records, JSON)
  /\ length (entries_of twelve_records) = 12
  /\ map (fun e => _normalize_error_message (message e))
         (filter is_error (entries_of twelve_records))
     = [lit "payment ID failed for UUID"; lit "payment ID failed for UUID";
        lit "payment ID failed for UUID"].
Proof. vm_compute. repeat split; reflexivity. Qed.

(** With a timestamp in every record the clustering gives the one pattern
    of the scenario: count 3, severity medium. *)
Lemma twelve_stamped_lines_cluster :
  option_map (map (fun p => (pattern p, count p, severity p, category p)))
             (match _detect_error_patterns (entries_of twelve_stamped_records)
              with Ok found => Some found | Raise _ => None end)
  = Some [(lit "payment ID failed for UUID", 3, lit "medium", lit "error")].
Proof. vm_compute. reflexivity. Qed.

(** C6 (code bug): on the entries parsed from twelve JSON lines, three of
    them ERROR lines of one normalized shape, the clustering does not
    yield the one pattern with count 3 and severity medium when the
    records carry no timestamp: it raises [ValueError], by the defect of
    C1 ([min] over no timestamps). *)
Theorem C6_twelve_lines_without_timestamps_raise :
  length (entries_of twelve_records) = 12
  /\ length (filter is_error (entries_of twelve_records)) = 3
  /\ _detect_error_patterns (entries_of twelve_records) = Raise ValueError.
Proof. vm_compute. repeat split; reflexivity. Qed.

(** The detector of the same name in [pattern_detector] is another
    algorithm: it looks for ten named categories in the messages of all
    entries, whatever their level, and finds none here. *)
Lemma category_detector_finds_nothing :
  PatternDetector._detect_error_patterns (entries_of twelve_records) = Ok [].
Proof. vm_compute. reflexivity. Qed.

End ClusteringExample.

(** ** What the error-pattern clustering returns, when it returns *)

Module Clustering.

Import LogAnalyzer FileProcessor TextFacts DictFacts SortFacts ListFacts.

Lemma filter_none {A} (f : A -> bool) (l : list A) :
  (forall x, In x l -> f x = false) -> filter f l = [].
Proof.
  induction l as [|x l IH]; cbn; [reflexivity|]. intros H.
  rewrite (H x) by now left. apply IH. intros y Hy. apply H. now right.
Qed.

Section Groups.

Variable normalize : str -> str.

Lemma group_snoc (l : list LogEntry) (e : LogEntry) :
  group_by_message normalize (l ++ [e])
  = Dict.update str_eqb (normalize (message e)) (fun g => g ++ [e]) []
                (group_by_message normalize l).
Proof. unfold group_by_message. now rewrite fold_left_app. Qed.

(** The grouping loop: distinct keys, and under each key the entries of
    that normalized message, in their order. *)
Lemma group_invariant (l : list LogEntry) :
  let g := group_by_message normalize l in
  NoDup (map fst g)
  /\ (forall e, In e l -> In (normalize (message e)) (map fst g))
  /\ (forall k members, In (k, members) g ->
        members = filter (fun e => str_eqb (normalize (message e)) k) l).
Proof.
  induction l as [|e l IH] using rev_ind.
  - cbn. repeat split; try constructor; contradiction.
  - cbn zeta in *. destruct IH as (Hnd & Hkeys & Hmem).
    rewrite group_snoc. split; [|split].
    + now apply update_nodup; [apply str_eqb_eq|].
    + intros e' He'. apply in_app_or in He' as [He'|[<-|[]]].
      * apply update_keys_incl; auto.
      * apply update_key_in, str_eqb_eq.
    + intros k members Hin. rewrite filter_app. cbn [filter].
      apply (update_in str_eqb str_eqb_eq) in Hin; [|assumption].
      destruct Hin as [[Hne Hin]|[-> [(v & Hin & ->)|[Hnin ->]]]].
      * rewrite (keq_neq str_eqb str_eqb_eq) by congruence.
        rewrite app_nil_r. now apply Hmem.
      * rewrite str_eqb_refl. f_equal. now apply Hmem.
      * rewrite str_eqb_refl, filter_none; [reflexivity|].
        intros x Hx. apply (keq_neq str_eqb str_eqb_eq).
        intros E. apply Hnin. rewrite <- E. now apply Hkeys.
Qed.

End Groups.

Lemma pattern_of_fields (g : str * list LogEntry) (p : PatternMatch) :
  pattern_of g = Ok p ->
  pattern p = fst g /\ count p = length (snd g)
  /\ examples p = map message (firstn 3 (snd g))
  /\ severity p = (if 10 <? length (snd g) then lit "high" else lit "medium")
  /\ category p = lit "error".
Proof.
  destruct g as [k members]. unfold pattern_of.
  destruct (py_min (timestamps members)); cbn [bind]; [|discriminate].
  destruct (py_max (timestamps members)); cbn [bind]; [|discriminate].
  intros E. apply Ok_inj in E. subst p. now repeat split.
Qed.

Lemma mapM_ok {A B} (f : A -> result B) (l : list A) (out : list B) :
  mapM f l = Ok out -> Forall2 (fun a b => f a = Ok b) l out.
Proof.
  revert out. induction l as [|a l IH]; cbn [mapM]; intros out.
  - intros E. apply Ok_inj in E. subst. constructor.
  - destruct (f a) eqn:Ea; cbn [bind]; [|discriminate].
    destruct (mapM f l); cbn [bind]; [|discriminate].
    intros E. apply Ok_inj in E. subst. constructor; auto.
Qed.

Lemma Forall2_in_r {A B} {R : A -> B -> Prop} {l : list A} {l' : list B}
    {b : B} :
  Forall2 R l l' -> In b l' -> exists a, In a l /\ R a b.
Proof.
  induction 1 as [|x y l l' Hxy _ IH]; [contradiction|].
  intros [<-|Hb]; [exists x; split; [now left|assumption]|].
  destruct (IH Hb) as (a & Ha & HR). exists a. split; [now right|assumption].
Qed.

Lemma Forall2_in_l {A B} {R : A -> B -> Prop} {l : list A} {l' : list B}
    {a : A} :
  Forall2 R l l' -> In a l -> exists b, In b l' /\ R a b.
Proof.
  induction 1 as [|x y l l' Hxy _ IH]; [contradiction|].
  intros [<-|Ha]; [exists y; split; [now left|assumption]|].
  destruct (IH Ha) as (b & Hb & HR). exists b. split; [now right|assumption].
Qed.

Lemma firstn_strongly_sorted {A} (R : A -> A -> Prop) (n : nat) (l : list A) :
  StronglySorted R l -> StronglySorted R (firstn n l).
Proof.
  intros H. revert n. induction H as [|x l Hs IH Hall]; intros [|n]; cbn;
    try constructor; auto.
  rewrite Forall_forall in *. intros y Hy. apply Hall.
  now apply in_firstn in Hy.
Qed.

Lemma strongly_sorted_impl {A} (R R' : A -> A -> Prop) (l : list A) :
  (forall a b, R a b -> R' a b) -> StronglySorted R l -> StronglySorted R' l.
Proof.
  intros H. induction 1 as [|x l Hs IH Hall]; constructor; [assumption|].
  eapply Forall_impl; [|exact Hall]. intros y. apply H.
Qed.

(** Every element of a sorted list either is among the first [n] or comes
    after all of them. *)
Lemma firstn_top {A} {R : A -> A -> Prop} (n : nat) {l : list A} {y : A} :
  StronglySorted R l -> In y l ->
  In y (firstn n l) \/ forall x, In x (firstn n l) -> R x y.
Proof.
  intros H. revert n. induction H as [|x l Hs IH Hall]; intros n Hy;
    [contradiction|].
  destruct n as [|n]; [right; intros ? []|]. cbn [firstn].
  destruct Hy as [<-|Hy]; [left; now left|].
  destruct (IH n Hy) as [Hin|Hafter]; [left; now right|].
  right. intros z [<-|Hz]; [|now apply Hafter].
  rewrite Forall_forall in Hall. now apply Hall.
Qed.

(** When [_detect_error_patterns] returns, it returns at most 10 patterns
    in descending order of count; each stands for one normalized message
    shared by at least 2 entries of level ERROR, FATAL or CRITICAL, counts
    those entries, and is "high" when the count exceeds 10 and "medium"
    otherwise; a normalized message shared by at least 2 such entries that
    is left out has a count no larger than any pattern returned. *)
Lemma clustering_result (entries : list LogEntry)
    (found : list PatternMatch) :
  _detect_error_patterns entries = Ok found ->
  let shared k :=
    count_if (fun e => is_error e
                       && str_eqb (_normalize_error_message (message e)) k)
             entries in
  length found <= 10
  /\ StronglySorted (fun p q => count q <= count p) found
  /\ (forall p, In p found ->
        category p = lit "error" /\ 2 <= count p
        /\ count p = shared (pattern p)
        /\ severity p = (if 10 <? count p then lit "high" else lit "medium"))
  /\ (forall k, 2 <= shared k ->
        (exists p, In p found /\ pattern p = k)
        \/ (forall p, In p found -> shared k <= count p)).
Proof.
  intros Hret. intros shared. unfold _detect_error_patterns in Hret.
  destruct (filter is_error entries) as [|e0 l0] eqn:Hf.
  { apply Ok_inj in Hret. subst found.
    split; [cbn; lia|]. split; [constructor|]. split; [intros p []|].
    intros k Hk. exfalso. subst shared. cbn in Hk.
    rewrite <- count_if_filter, Hf in Hk. cbn in Hk. lia. }
  rewrite <- Hf in Hret. clear e0 l0 Hf.
  destruct (group_invariant _normalize_error_message
              (filter is_error entries)) as (Hnd & Hkeys & Hmem).
  set (groups := group_by_message _ _) in *.
  destruct (mapM pattern_of (filter recurring groups)) as [all|] eqn:Hall;
    cbn [bind] in Hret; [|discriminate].
  apply Ok_inj in Hret. apply mapM_ok in Hall.
  assert (Hsorted : StronglySorted (fun p q => count q <= count p)
                      (sorted (by_count_desc count) all)).
  { apply strongly_sorted_impl
      with (R := fun p q => by_count_desc count p q = true).
    - intros a b. unfold by_count_desc. apply Nat.leb_le.
    - apply sorted_strongly_sorted.
      + intros a b. unfold by_count_desc. rewrite Nat.leb_gt, Nat.leb_le. lia.
      + intros a b c. unfold by_count_desc. rewrite !Nat.leb_le. lia. }
  assert (Hp : forall p, In p all ->
            category p = lit "error" /\ 2 <= count p
            /\ count p = shared (pattern p)
            /\ severity p = (if 10 <? count p then lit "high"
                             else lit "medium")).
  { intros p Hin. destruct (Forall2_in_r Hall Hin) as ([k members] & Hg & Hpat).
    apply filter_In in Hg as [Hg Hrec]. apply pattern_of_fields in Hpat.
    cbn [fst snd] in Hpat. destruct Hpat as (-> & Hc & _ & Hsev & Hcat).
    unfold recurring in Hrec. cbn [snd] in Hrec. apply Nat.leb_le in Hrec.
    rewrite Hc. repeat split; try assumption.
    subst shared. cbn beta. rewrite <- count_if_filter.
    unfold count_if. now rewrite <- (Hmem _ _ Hg). }
  subst found. split; [apply firstn_le_length|]. split; [|split].
  - now apply firstn_strongly_sorted.
  - intros p Hin. apply Hp. now apply in_firstn, sorted_in in Hin.
  - intros k Hk.
    assert (Hkey : In k (map fst groups)).
    { subst shared. cbn beta in Hk. rewrite <- count_if_filter in Hk.
      unfold count_if in Hk.
      destruct (filter _ (filter is_error entries)) as [|e l] eqn:E;
        [cbn in Hk; lia|].
      assert (He : In e (filter (fun e => str_eqb (_normalize_error_message
                                                     (message e)) k)
                                (filter is_error entries)))
        by (rewrite E; now left).
      apply filter_In in He as [He Hk']. apply str_eqb_eq in Hk'. subst k.
      now apply Hkeys. }
    apply in_map_iff in Hkey as ([k' members] & Ek & Hg). cbn in Ek. subst k'.
    assert (Hlen : length members = shared k).
    { subst shared. cbn beta. rewrite <- count_if_filter. unfold count_if.
      now rewrite <- (Hmem _ _ Hg). }
    assert (Hg' : In (k, members) (filter recurring groups)).
    { apply filter_In. split; [assumption|]. unfold recurring. cbn [snd].
      apply Nat.leb_le. lia. }
    destruct (Forall2_in_l Hall Hg') as (q & Hq & Hpat).
    apply pattern_of_fields in Hpat. cbn [fst snd] in Hpat.
    destruct Hpat as (Hpk & Hc & _).
    destruct (firstn_top 10 (y := q) Hsorted) as [Hin|Hafter].
    + now apply sorted_in.
    + left. exists q. now split.
    + right. intros p Hin. specialize (Hafter p Hin). lia.
Qed.

(** [min] and [max] succeed on timestamps that are present and of one
    kind. *)
Lemma dt_ltb_same_kind (a b : datetime) :
  aware a = aware b -> exists r, dt_ltb a b = Ok r.
Proof.
  unfold aware, dt_ltb. destruct (tzinfo a), (tzinfo b); try discriminate;
    intros _; now eexists.
Qed.

Lemma min_from_total (best : datetime) (l : list datetime) :
  (forall t, In t l -> aware t = aware best) ->
  exists r, min_from best l = Ok r /\ aware r = aware best.
Proof.
  revert best. induction l as [|t l IH]; intros best H; cbn [min_from].
  - now exists best.
  - destruct (dt_ltb_same_kind t best (H t (or_introl eq_refl))) as (r & ->).
    cbn [bind]. destruct r.
    + destruct (IH t) as (r & Hr & Hk).
      * intros u Hu. rewrite (H t) by now left. apply H. now right.
      * exists r. split; [assumption|]. rewrite Hk. apply H. now left.
    + apply IH. intros u Hu. apply H. now right.
Qed.

Lemma max_from_total (best : datetime) (l : list datetime) :
  (forall t, In t l -> aware t = aware best) ->
  exists r, max_from best l = Ok r /\ aware r = aware best.
Proof.
  revert best. induction l as [|t l IH]; intros best H; cbn [max_from].
  - now exists best.
  - destruct (dt_ltb_same_kind best t (eq_sym (H t (or_introl eq_refl))))
      as (r & ->).
    cbn [bind]. destruct r.
    + destruct (IH t) as (r & Hr & Hk).
      * intros u Hu. rewrite (H t) by now left. apply H. now right.
      * exists r. split; [assumption|]. rewrite Hk. apply H. now left.
    + apply IH. intros u Hu. apply H. now right.
Qed.

Lemma same_kind_cons (t : datetime) (l : list datetime) :
  same_kind (t :: l) = true -> forall u, In u l -> aware u = aware t.
Proof.
  unfold same_kind. cbn [forallb]. intros H u Hu.
  apply orb_prop in H as [H|H]; apply andb_prop in H as [Ht Hl];
    rewrite forallb_forall in Hl; specialize (Hl u Hu).
  - congruence.
  - destruct (aware u), (aware t); try discriminate; reflexivity.
Qed.

Lemma pattern_of_total (g : str * list LogEntry) :
  timestamps (snd g) <> [] -> same_kind (timestamps (snd g)) = true ->
  exists p, pattern_of g = Ok p.
Proof.
  destruct g as [k members]. cbn [snd]. unfold pattern_of, py_min, py_max.
  destruct (timestamps members) as [|t ts]; [contradiction|]. intros _ Hk.
  destruct (min_from_total t ts (@same_kind_cons t ts Hk)) as (lo & -> & _).
  destruct (max_from_total t ts (@same_kind_cons t ts Hk)) as (hi & -> & _).
  cbn [bind]. now eexists.
Qed.

Lemma mapM_total {A B} (f : A -> result B) (l : list A) :
  (forall a, In a l -> exists b, f a = Ok b) -> exists out, mapM f l = Ok out.
Proof.
  induction l as [|a l IH]; intros H; cbn [mapM]; [now eexists|].
  destruct (H a (or_introl eq_refl)) as (b & ->). cbn [bind].
  destruct IH as (out & ->); [intros; apply H; now right|].
  cbn [bind]. now eexists.
Qed.

(** It returns when every group of at least 2 entries has a timestamp and
    the timestamps of a group are all naive or all aware. *)
Lemma clustering_returns (entries : list LogEntry) :
  (forall g,
     In g (filter recurring
             (group_by_message _normalize_error_message
                               (filter is_error entries))) ->
     timestamps (snd g) <> [] /\ same_kind (timestamps (snd g)) = true) ->
  exists found, _detect_error_patterns entries = Ok found.
Proof.
  intros H. unfold _detect_error_patterns.
  assert (Hall : exists all,
             mapM pattern_of
               (filter recurring
                  (group_by_message _normalize_error_message
                                    (filter is_error entries))) = Ok all).
  { apply mapM_total. intros g Hg. destruct (H g Hg).
    now apply pattern_of_total. }
  destruct Hall as (all & Hall).
  destruct (filter is_error entries) as [|e0 l0]; [now eexists|].
  rewrite Hall. cbn [bind]. now eexists.
Qed.

Lemma mapM_raise {A B} (f : A -> result B) (l : list A) (a : A) :
  In a l -> (exists e, f a = Raise e) -> exists e, mapM f l = Raise e.
Proof.
  intros Hin (e & He). induction l as [|x l IH]; [contradiction|].
  cbn [mapM]. destruct Hin as [->|Hin].
  - rewrite He. now eexists.
  - destruct (f x); cbn [bind]; [|now eexists].
    destruct (IH Hin) as (e' & ->). now eexists.
Qed.

(** It raises as soon as one group of at least 2 entries has no timestamp
    at all. *)
Lemma clustering_raises (entries : list LogEntry) (g : str * list LogEntry) :
  In g (filter recurring
          (group_by_message _normalize_error_message
                            (filter is_error entries))) ->
  timestamps (snd g) = [] ->
  exists e, _detect_error_patterns entries = Raise e.
Proof.
  intros Hg Hts. unfold _detect_error_patterns.
  destruct (mapM_raise pattern_of _ g Hg) as (e & He).
  { destruct g as [k members]. cbn [snd] in Hts. unfold pattern_of.
    rewrite Hts. now eexists. }
  destruct (filter is_error entries) as [|e0 l0].
  - cbn in Hg. contradiction.
  - rewrite He. now eexists.
Qed.

End Clustering.

(** ** Rounding a timestamp to its bucket *)

Module RoundingFacts.

Import LogAnalyzer.


Lemma parse_interval_positive (interval : str) :
  (0 < _parse_interval interval)%Z.
Proof.
  unfold _parse_interval. cbn [Dict.get].
  repeat match goal with
         | |- context [if ?b then _ else _] => destruct b
         end; lia.
Qed.

(** The fields that [_round_timestamp] hands to [replace] are those of a
    time of day, so that [replace] accepts them. *)
Lemma round_timestamp_valid (t : datetime) (interval_minutes : Z) :
  (0 < interval_minutes)%Z ->
  valid_fields (year t) (month t) (day t) (hour t) (minute t) (second t)
               (microsecond t) = true ->
  let r := _round_timestamp t interval_minutes in
  valid_fields (year r) (month r) (day r) (hour r) (minute r) (second r)
               (microsecond r) = true.
Proof.
  intros Hiv Hv. unfold _round_timestamp, replace_hour_minute. cbn zeta.
  cbn [year month day hour minute second microsecond].
  unfold valid_fields in *.
  repeat (apply andb_prop in Hv as [Hv ?]).
  repeat match goal with H : (_ <=? _)%Z = true |- _ => apply Z.leb_le in H end.
  set (tm := (hour t * 60 + minute t)%Z).
  assert (Hr : (0 <= tm / interval_minutes * interval_minutes <= tm)%Z).
  { split.
    - apply Z.mul_nonneg_nonneg; [apply Z.div_pos|]; lia.
    - rewrite Z.mul_comm. apply Z.mul_div_le. lia. }
  set (r := (tm / interval_minutes * interval_minutes)%Z) in *.
  assert (Hh : (0 <= r / 60 <= 23)%Z).
  { split; [apply Z.div_pos; lia|].
    apply Z.lt_succ_r, Z.div_lt_upper_bound; lia. }
  pose proof (Z.mod_pos_bound r 60 ltac:(lia)).
  repeat (apply andb_true_intro; split); apply Z.leb_le; lia.
Qed.

End RoundingFacts.

(** ** The timeline *)

Module Timeline.

Import LogAnalyzer FileProcessor DictFacts SortFacts TextFacts ListFacts.

Lemma count_entry_balanced (e : LogEntry) (c : counts) :
  c_total c = c_error c + c_warn c + c_info c + c_other c ->
  c_total (count_entry e c)
  = c_error (count_entry e c) + c_warn (count_entry e c)
    + c_info (count_entry e c) + c_other (count_entry e c).
Proof.
  unfold count_entry. destruct (is_error e), (is_warn e), (is_info e); cbn; lia.
Qed.

Lemma count_entry_total (e : LogEntry) (c : counts) :
  c_total (count_entry e c) = S (c_total c).
Proof.
  unfold count_entry. now destruct (is_error e), (is_warn e), (is_info e).
Qed.

Section Buckets.

Variable interval_minutes : Z.

Lemma grouped_snoc (l : list LogEntry) (e : LogEntry) :
  grouped_data interval_minutes (l ++ [e])
  = Dict.update str_eqb (timeline_key interval_minutes e) (count_entry e)
                no_counts (grouped_data interval_minutes l).
Proof. unfold grouped_data. now rewrite fold_left_app. Qed.

(** What the counting loop maintains: the keys are distinct, every key seen
    so far is present, and the counters of a key add up and count the
    entries of that key. *)
Lemma grouped_invariant (l : list LogEntry) :
  let g := grouped_data interval_minutes l in
  NoDup (map fst g)
  /\ (forall e, In e l -> In (timeline_key interval_minutes e) (map fst g))
  /\ (forall k c, In (k, c) g ->
        c_total c = c_error c + c_warn c + c_info c + c_other c
        /\ c_total c
           = count_if (fun e => str_eqb (timeline_key interval_minutes e) k) l).
Proof.
  induction l as [|e l IH] using rev_ind.
  - cbn. repeat split; try constructor; try contradiction.
  - cbn zeta in *. destruct IH as (Hnd & Hkeys & Hcnt).
    rewrite grouped_snoc. split; [|split].
    + now apply update_nodup; [apply str_eqb_eq|].
    + intros e' He'. apply in_app_or in He' as [He'|[<-|[]]].
      * apply update_keys_incl; auto.
      * apply update_key_in, str_eqb_eq.
    + intros k c Hin. rewrite count_if_app. unfold count_if at 2. cbn [filter].
      apply (update_in str_eqb str_eqb_eq) in Hin; [|assumption].
      destruct Hin as [[Hne Hin]|[-> [(v & Hin & ->)|[Hnin ->]]]].
      * destruct (Hcnt _ _ Hin) as [H1 H2]. split; [exact H1|].
        rewrite (keq_neq str_eqb str_eqb_eq) by congruence. cbn. lia.
      * destruct (Hcnt _ _ Hin) as [H1 H2]. split.
        -- now apply count_entry_balanced.
        -- rewrite count_entry_total, str_eqb_refl. cbn. lia.
      * split; [now apply count_entry_balanced|].
        rewrite count_entry_total, str_eqb_refl. cbn.
        rewrite count_if_none; [reflexivity|].
        intros x Hx. apply (keq_neq str_eqb str_eqb_eq).
        intros E. apply Hnin. rewrite <- E. now apply Hkeys.
Qed.

End Buckets.

(** C10: in the result of [get_timeline_data], for any entries and any
    interval token, every bucket record has
    total = error + warn + info + other; the bucket keys are pairwise
    distinct, every entry with a timestamp has its bucket among them, and
    the total of a record is the number of timestamped entries whose key is
    that of the record, so each such entry is counted in exactly one
    bucket; and the records are in ascending order of their key, the ISO
    text of the bucket start. *)
Theorem C10_timeline_buckets (entries : list LogEntry) (interval : str) :
  let out := get_timeline_data entries interval in
  let key := timeline_key (_parse_interval interval) in
  (forall p, In p out ->
     total_count p
     = error_count p + warn_count p + info_count p + other_count p)
  /\ NoDup (map bucket out)
  /\ (forall e, In e entries -> has_timestamp e = true ->
        exists p, In p out /\ bucket p = key e)
  /\ (forall p, In p out ->
        total_count p
        = count_if (fun e => has_timestamp e && str_eqb (key e) (bucket p))
                   entries)
  /\ StronglySorted (fun a b => str_leb (bucket a) (bucket b) = true) out.
Proof.
  intros out key. subst out. unfold get_timeline_data.
  destruct (filter has_timestamp entries) as [|e0 l0] eqn:Hf.
  - repeat split; try constructor; try contradiction.
    intros e He Ht.
    assert (Hin : In e (filter has_timestamp entries))
      by (apply filter_In; now split).
    rewrite Hf in Hin. contradiction.
  - rewrite <- Hf. clear e0 l0 Hf.
    destruct (grouped_invariant (_parse_interval interval)
                (filter has_timestamp entries)) as (Hnd & Hkeys & Hcnt).
    set (g := grouped_data _ _) in *.
    assert (Hin : forall p,
               In p (sorted (fun a b => str_leb (bucket a) (bucket b))
                            (map timeline_point g))
               -> In (bucket p, mkCounts (error_count p) (warn_count p)
                                 (info_count p) (other_count p)
                                 (total_count p)) g).
    { intros p Hp.
      apply sorted_in, in_map_iff in Hp as ([k [a b c d t]] & <- & H).
      exact H. }
    split; [|split; [|split; [|split]]].
    + intros p Hp. apply Hin, Hcnt in Hp. cbn in Hp. apply Hp.
    + eapply Permutation_NoDup.
      * symmetry. apply Permutation_map, sorted_perm.
      * rewrite map_map. cbn. exact Hnd.
    + intros e He Ht.
      assert (Hk : In (key e) (map fst g)).
      { apply Hkeys, filter_In. now split. }
      apply in_map_iff in Hk as ([k c] & Ek & Hk). cbn in Ek. subst k.
      exists (timeline_point (key e, c)). split; [|reflexivity].
      apply sorted_in. now apply in_map.
    + intros p Hp. apply Hin, Hcnt in Hp. cbn in Hp.
      destruct Hp as [_ ->]. apply count_if_filter.
    + apply sorted_strongly_sorted.
      * intros a b. apply str_leb_total.
      * intros a b c. apply str_leb_trans.
Qed.

Import Examples.

Lemma C10_witness :
  let p := hd (timeline_point ([], no_counts))
              (get_timeline_data timeline_entries (lit "1h")) in
  total_count p = error_count p + warn_count p + info_count p + other_count p.
Proof.
  apply (proj1 (C10_timeline_buckets timeline_entries (lit "1h"))).
  vm_compute. left. reflexivity.
Defined.

End Timeline.

(** ** Anomalies *)

Module Anomalies.

Import LogAnalyzer FileProcessor SortFacts ListFacts.

Lemma timestamps_length (l : list LogEntry) :
  length (timestamps l) = length (filter has_timestamp l).
Proof.
  unfold timestamps, has_timestamp.
  induction l as [|e l IH]; cbn; [reflexivity|].
  destruct (timestamp e); cbn; now rewrite IH.
Qed.

Lemma timestamps_filter (l : list LogEntry) :
  timestamps (filter has_timestamp l) = timestamps l.
Proof.
  unfold timestamps, has_timestamp.
  induction l as [|e l IH]; cbn; [reflexivity|].
  destruct (timestamp e) eqn:E; cbn; [|exact IH]. now rewrite E, IH.
Qed.

Lemma sorted_by_timestamp_length (l s : list LogEntry) :
  sorted_by_timestamp l = Ok s -> length s = length (timestamps l).
Proof.
  unfold sorted_by_timestamp. destruct (same_kind _); [|discriminate].
  intros [= <-]. now rewrite sorted_length, timestamps_length.
Qed.

Lemma sorted_by_timestamp_total (l : list LogEntry) :
  same_kind (timestamps l) = true -> exists s, sorted_by_timestamp l = Ok s.
Proof.
  intros H. unfold sorted_by_timestamp. rewrite timestamps_filter, H.
  now eexists.
Qed.

Lemma qlt_true (a b : Q) : qlt a b = true -> (a < b)%Q.
Proof. unfold qlt. now destruct (Qlt_le_dec a b). Qed.

(** A gap that the code finds above 300 seconds is above 300 seconds:
    300 is a double, and rounding does not cross it. *)
Lemma over_300_seconds (us : Z) :
  fltb (Finite 300) (total_seconds us) = true -> (300000000 < us)%Z.
Proof.
  intros H. destruct (Z.lt_ge_cases 300000000 us) as [|Hle]; [assumption|].
  exfalso. unfold total_seconds in H.
  destruct (Z.lt_ge_cases 0 us) as [Hpos|Hneg].
  - destruct (@FloatFacts.to_double_between (us # 1000000) 0 300)
      as (v & Hv & _ & Hmax).
    + unfold Qlt. cbn. lia.
    + unfold Qle. cbn. lia.
    + unfold Qle. cbn. lia.
    + reflexivity.
    + rewrite Hv in H. cbn [fltb] in H. unfold qltb in H.
      destruct (Qlt_le_dec 300 v) as [Hlt|]; [|discriminate].
      exact (Qlt_not_le _ _ Hlt Hmax).
  - pose proof (@FloatFacts.to_double_nonpos (us # 1000000)) as Hn.
    destruct (to_double (us # 1000000)) as [v|[]|]; cbn [fltb] in H;
      try discriminate.
    + unfold qltb in H.
      destruct (Qlt_le_dec 300 v) as [Hlt|]; [|discriminate].
      assert (Hv : (v <= 0)%Q) by (apply Hn; unfold Qle; cbn; lia).
      apply (Qlt_not_le _ _ Hlt). eapply Qle_trans; [exact Hv|discriminate].
    + assert (Hf : false = true) by (apply Hn; unfold Qle; cbn; lia).
      discriminate.
Qed.

(** The threshold that the code computes for the gaps of a sorted list:
    the sum of the gaps in seconds, divided by their number and
    multiplied by 10, each step rounded to a double. *)
Local Abbreviation gap_threshold s :=
  (fmul (fdiv_by (py_sum (map (fun g => total_seconds (snd g)) (time_gaps s)))
                 (inject_Z (Z.of_nat (length (time_gaps s)))))
        (Finite 10)).

Lemma time_anomaly_origin (entries : list LogEntry) (found : list Anomaly)
    (a : Anomaly) :
  _detect_time_anomalies entries = Ok found -> In a found ->
  anomaly_type a = lit "time_gap"
  /\ 10 <= length (timestamps entries)
  /\ exists s g,
       sorted_by_timestamp entries = Ok s /\ In g (time_gaps s)
       /\ anomaly_timestamp a = entry_iso (fst g)
       /\ fltb (gap_threshold s) (total_seconds (snd g)) = true
       /\ (300000000 < snd g)%Z.
Proof.
  unfold _detect_time_anomalies.
  destruct (sorted_by_timestamp entries) as [s|] eqn:Hs; cbn [bind];
    [|discriminate].
  destruct (length s <? 10) eqn:Hlen; [now intros [= <-]|].
  apply Nat.ltb_ge in Hlen. rewrite (sorted_by_timestamp_length _ Hs) in Hlen.
  destruct (time_gaps s) as [|g0 gs] eqn:Hg; [now intros [= <-]|].
  rewrite <- Hg. clear g0 gs Hg. intros [= <-] Hin.
  apply in_flat_map in Hin as (g & Hg & Hin).
  change (match total_seconds (snd g) with
          | Finite b => qltb 300 b
          | Infinity b => negb b
          | NaN => false
          end) with (fltb (Finite 300) (total_seconds (snd g))) in Hin.
  destruct (fltb (fmul _ _) (total_seconds (snd g))) eqn:H1;
    [|contradiction].
  destruct (fltb (Finite 300) (total_seconds (snd g))) eqn:H2;
    [|contradiction].
  destruct Hin as [<-|[]]. cbn [anomaly_type anomaly_timestamp].
  split; [reflexivity|]. split; [assumption|].
  exists s, g. repeat split; try assumption.
  now apply over_300_seconds.
Qed.

(** Two different type tags cannot both be the tag of a record. *)
Ltac clash H1 H2 := rewrite H1 in H2; vm_compute in H2; discriminate H2.

Lemma volume_anomaly_type (entries : list LogEntry) (a : Anomaly) :
  In a (_detect_volume_anomalies entries) ->
  anomaly_type a = lit "volume_spike"
  /\ 3 <= length (hourly_counts entries).
Proof.
  unfold _detect_volume_anomalies.
  destruct (length (hourly_counts entries) <? 3) eqn:E; [contradiction|].
  apply Nat.ltb_ge in E. intros Hin.
  apply in_flat_map in Hin as ([h n] & _ & Hin).
  destruct (_ && _); [|contradiction]. destruct Hin as [<-|[]]. now split.
Qed.

Lemma error_spike_type (entries : list LogEntry) (a : Anomaly) :
  In a (_detect_error_spikes entries) -> anomaly_type a = lit "error_spike".
Proof.
  unfold _detect_error_spikes.
  destruct (_ <? 10); [contradiction|].
  destruct (_ <? 3); [contradiction|]. intros Hin.
  apply in_flat_map in Hin as ([h n] & _ & Hin).
  destruct (_ && _); [|contradiction]. now destruct Hin as [<-|[]].
Qed.

(** C9 (as amended): whatever [_detect_anomalies] returns holds at most
    10 records; it holds no time-gap record when fewer than 10 entries
    carry a timestamp, nor when there are no more than 100 entries at all;
    it holds no volume record when the timestamped entries fill fewer than
    3 hourly buckets; and each time-gap record stands for a gap between two
    consecutive entries, in timestamp order, that is longer than 300
    seconds and that, as a double, exceeds the threshold that the code
    computes in doubles: the sum of the gaps, added up from the left,
    divided by their number and multiplied by 10.  The function does
    return whenever the timestamps are all naive or all aware, or there
    are no more than 100 entries. *)
Theorem C9_anomaly_limits (entries : list LogEntry) :
  (forall found, _detect_anomalies entries = Ok found ->
     length found <= 10
     /\ (length (timestamps entries) < 10 \/ length entries <= 100 ->
         forall a, In a found -> anomaly_type a <> lit "time_gap")
     /\ (length (hourly_counts entries) < 3 ->
         forall a, In a found -> anomaly_type a <> lit "volume_spike")
     /\ (forall a, In a found -> anomaly_type a = lit "time_gap" ->
         exists s g,
           sorted_by_timestamp entries = Ok s /\ In g (time_gaps s)
           /\ anomaly_timestamp a = entry_iso (fst g)
           /\ fltb (gap_threshold s) (total_seconds (snd g)) = true
           /\ (300000000 < snd g)%Z))
  /\ (same_kind (timestamps entries) = true \/ length entries <= 100 ->
      exists found, _detect_anomalies entries = Ok found).
Proof.
  unfold _detect_anomalies. split.
  - intros found.
    destruct (if 100 <? length entries then _detect_time_anomalies entries
              else Ok []) as [ta|] eqn:Hta; cbn [bind]; [|discriminate].
    intros E. apply Ok_inj in E. subst found.
    assert (Hsplit : forall a,
              In a (firstn 10 (ta ++ _detect_volume_anomalies entries
                                  ++ _detect_error_spikes entries)) ->
              In a ta \/ In a (_detect_volume_anomalies entries)
              \/ In a (_detect_error_spikes entries)).
    { intros a Ha. apply in_firstn, in_app_or in Ha as [Ha|Ha]; [now left|].
      apply in_app_or in Ha. now right. }
    assert (Hta' : forall a, In a ta ->
              100 < length entries /\ _detect_time_anomalies entries = Ok ta).
    { intros a Ha. destruct (100 <? length entries) eqn:E.
      - split; [now apply Nat.ltb_lt | assumption].
      - injection Hta as <-. contradiction. }
    split; [apply firstn_le_length|]. split; [|split].
    + intros Hfew a Ha Ety.
      destruct (Hsplit a Ha) as [H|[H|H]].
      * destruct (Hta' a H) as [Hbig Hd].
        destruct (@time_anomaly_origin entries ta a Hd H) as (_ & Hten & _).
        lia.
      * apply volume_anomaly_type in H as [H _]. clash H Ety.
      * apply error_spike_type in H. clash H Ety.
    + intros Hfew a Ha Ety.
      destruct (Hsplit a Ha) as [H|[H|H]].
      * destruct (Hta' a H) as [_ Hd].
        destruct (@time_anomaly_origin entries ta a Hd H) as (H1 & _).
        clash H1 Ety.
      * apply volume_anomaly_type in H as [_ H]. lia.
      * apply error_spike_type in H. clash H Ety.
    + intros a Ha Ety.
      destruct (Hsplit a Ha) as [H|[H|H]].
      * destruct (Hta' a H) as [_ Hd].
        now destruct (@time_anomaly_origin entries ta a Hd H) as (_ & _ & Hex).
      * apply volume_anomaly_type in H as [H _]. clash H Ety.
      * apply error_spike_type in H. clash H Ety.
  - intros H. destruct (100 <? length entries) eqn:E.
    + destruct H as [H|H]; [|apply Nat.ltb_lt in E; lia].
      destruct (sorted_by_timestamp_total entries H) as (s & Hs).
      unfold _detect_time_anomalies. rewrite Hs. cbn [bind].
      destruct (length s <? 10); [cbn [bind]; now eexists|].
      destruct (time_gaps s); cbn [bind]; now eexists.
    + cbn [bind]. now eexists.
Qed.

Import Examples.

Lemma C9_witness :
  exists found, _detect_anomalies timeline_entries = Ok found.
Proof.
  apply (proj2 (C9_anomaly_limits timeline_entries)).
  right. vm_compute. lia.
Defined.

(** The claim as stated fails where rounding puts the computed threshold
    below ten times the mean.  After 109 gaps of 27.600430 s a gap of
    300.844687 s is exactly ten times the mean of the 110 gaps, and does
    not exceed it; the code computes the threshold 300.8446869999997 and
    reports the gap. *)
Lemma C9_counterexample :
  sorted_by_timestamp drift_entries = Ok drift_entries
  /\ map snd (time_gaps drift_entries)
     = repeat 27600430%Z 109 ++ [300844687%Z]
  /\ (300844687 * Z.of_nat (length (time_gaps drift_entries))
      = 10 * fold_right Z.add 0 (map snd (time_gaps drift_entries)))%Z
  /\ gap_threshold drift_entries
     = Finite (2646257852089047 # 8796093022208)
  /\ total_seconds 300844687 = Finite (1323128926044525 # 4398046511104)
  /\ option_map (map (fun a => (anomaly_type a, anomaly_timestamp a)))
                (match _detect_anomalies drift_entries with
                 | Ok found => Some found
                 | Raise _ => None
                 end)
     = Some [(lit "time_gap", lit "2024-01-01T00:50:08.446870")].
Proof. vm_compute. repeat split; reflexivity. Qed.

(** A gap of almost a day after a hundred entries one second apart is
    reported, with the timestamp of the entry before it. *)
Lemma gap_is_reported :
  option_map (map (fun a => (anomaly_type a, anomaly_timestamp a)))
             (match _detect_anomalies gap_entries with
              | Ok found => Some found
              | Raise _ => None
              end)
  = Some [(lit "time_gap", lit "2024-01-01T00:01:39")].
Proof. vm_compute. reflexivity. Qed.

End Anomalies.

(** ** Format detection *)

Module Detection.

Import FileProcessor TextFacts StripFacts SpecWords ListFacts.

Lemma pos_of_nat (n : nat) : 0 < n -> Z.pos (Pos.of_nat n) = Z.of_nat n.
Proof.
  intros H. rewrite <- positive_nat_Z, Nat2Pos.id by lia. reflexivity.
Qed.

Lemma ratio_le_1 (a b : nat) : a <= b -> 0 < b -> (ratio a b <= 1)%Q.
Proof.
  intros Hab Hb. unfold ratio, Qle. cbn [Qnum Qden].
  rewrite pos_of_nat by assumption. lia.
Qed.

Lemma ratio_self (n : nat) : 0 < n -> (ratio n n == 1)%Q.
Proof.
  intros Hn. unfold ratio, Qeq. cbn [Qnum Qden].
  rewrite pos_of_nat by assumption. lia.
Qed.

Lemma qmin_le_l (a b : Q) : (qmin a b <= a)%Q.
Proof.
  unfold qmin.
  destruct (Qlt_le_dec b a); [now apply Qlt_le_weak | apply Qle_refl].
Qed.

Lemma qmin_le_r (a b : Q) : (qmin a b <= b)%Q.
Proof.
  unfold qmin. destruct (Qlt_le_dec b a); [apply Qle_refl | assumption].
Qed.

Lemma firstn_min {A} (n : nat) (l : list A) :
  firstn (Nat.min n (length l)) l = firstn n l.
Proof.
  destruct (Nat.le_ge_cases n (length l)) as [H|H].
  - now rewrite Nat.min_l.
  - rewrite Nat.min_r by assumption. rewrite firstn_all.
    symmetry. now apply firstn_all2.
Qed.

(** The lines of the sample are stripped and not blank. *)
Lemma nonblank_lines_nonblank (content line : str) :
  In line (nonblank_lines content) -> nonempty (strip line) = true.
Proof.
  unfold nonblank_lines. intros H. apply in_flat_map in H as (l & _ & H).
  destruct (nonempty (strip l)) eqn:E; [|contradiction].
  destruct H as [<-|[]]. now rewrite strip_idem.
Qed.

Section Scores.

Variable json_loads : str -> result json.
Variable dialect : Type.
Variable csv_sniff : str -> str -> result dialect.
Variable csv_reader : list str -> dialect -> result (list (list str)).

Lemma json_counts_objects (lines : list str) (valid total : nat) :
  (forall line, In line lines ->
     nonempty (strip line) = true
     /\ exists data, json_loads line = Ok (JObj data)) ->
  json_counts json_loads lines valid total = Ok (valid + length lines, total).
Proof.
  revert valid. induction lines as [|l lines IH]; intros valid H; cbn.
  - now rewrite Nat.add_0_r.
  - destruct (H l (or_introl eq_refl)) as (Hn & data & ->). rewrite Hn. cbn.
    rewrite IH by (intros; apply H; now right). f_equal. f_equal. lia.
Qed.

Lemma csv_score_le_1 (lines : list str) :
  (_score_csv_format csv_sniff csv_reader lines <= 1)%Q.
Proof.
  unfold _score_csv_format. destruct (length lines <? 2); [easy|].
  unfold score_csv, bind.
  destruct (csv_sniff _ _); [|easy].
  destruct (csv_reader _ _) as [[|header [|row rows]]|]; try easy.
  destruct (length header <? 2); [easy|]. apply qmin_le_l.
Qed.

Lemma syslog_score_le_1 (lines : list str) :
  (_score_syslog_format lines <= 1)%Q.
Proof.
  unfold _score_syslog_format. destruct lines as [|l lines]; [easy|].
  apply ratio_le_1.
  - unfold count_if. etransitivity; [apply filter_length_le|].
    rewrite length_firstn. lia.
  - cbn [length]. lia.
Qed.

Lemma structured_sum_le (lines : list str) (acc : Q) :
  (fold_left
     (fun acc line =>
        acc + qmin (ratio (count_if (fun p => is_some (re_search p line))
                                    structured_patterns)
                          (length structured_patterns)) 1)
     lines acc
   <= acc + inject_Z (Z.of_nat (length lines)))%Q.
Proof.
  revert acc. induction lines as [|l lines IH]; intros acc.
  - cbn. rewrite Qplus_0_r. apply Qle_refl.
  - cbn [fold_left length]. eapply Qle_trans; [apply IH|].
    rewrite Nat2Z.inj_succ, <- Z.add_1_l, inject_Z_plus, Qplus_assoc.
    apply Qplus_le_l, Qplus_le_r. apply qmin_le_r.
Qed.

Lemma structured_score_le_1 (lines : list str) :
  (_score_structured_format lines <= 1)%Q.
Proof.
  unfold _score_structured_format. destruct lines as [|l lines]; [easy|].
  set (n := Nat.min (length (l :: lines)) 20).
  assert (Hn : 0 < n) by (subst n; cbn [length]; lia).
  apply Qle_shift_div_r.
  - change 0%Q with (inject_Z 0). rewrite <- Zlt_Qlt. lia.
  - rewrite Qmult_1_l. eapply Qle_trans; [apply structured_sum_le|].
    rewrite Qplus_0_l, length_firstn, Nat.min_comm. apply Qle_refl.
Qed.

(** [max] returns an element whose score none exceeds. *)
Lemma max_by_score_spec (best : LogFormat * Q) (l : list (LogFormat * Q)) :
  In (max_by_score best l) (best :: l)
  /\ forall x, In x (best :: l) -> (snd x <= snd (max_by_score best l))%Q.
Proof.
  revert best. induction l as [|y l IH]; intros best; cbn [max_by_score].
  - split; [now left|]. intros x [<-|[]]. apply Qle_refl.
  - destruct (Qlt_le_dec (snd best) (snd y)) as [Hlt|Hle].
    + destruct (IH y) as [Hin Hmax]. split.
      * destruct Hin as [<-|Hin]; [right; now left | right; now right].
      * intros x [<-|[<-|Hx]].
        -- eapply Qle_trans; [apply Qlt_le_weak, Hlt|]. apply Hmax. now left.
        -- apply Hmax. now left.
        -- apply Hmax. now right.
    + destruct (IH best) as [Hin Hmax]. split.
      * destruct Hin as [<-|Hin]; [now left | right; now right].
      * intros x [<-|[<-|Hx]].
        -- apply Hmax. now left.
        -- eapply Qle_trans; [exact Hle|]. apply Hmax. now left.
        -- apply Hmax. now right.
Qed.

(** The first key stays when no later score is strictly larger. *)
Lemma max_by_score_first (best : LogFormat * Q) (l : list (LogFormat * Q)) :
  (forall x, In x l -> (snd x <= snd best)%Q) -> max_by_score best l = best.
Proof.
  induction l as [|y l IH]; intros H; cbn [max_by_score]; [reflexivity|].
  destruct (Qlt_le_dec (snd best) (snd y)) as [Hlt|Hle].
  - exfalso. apply (Qlt_not_le _ _ Hlt), H. now left.
  - apply IH. intros x Hx. apply H. now right.
Qed.

Lemma below_spec (q t : Q) :
  below q t = if Qlt_le_dec q t then true else false.
Proof. reflexivity. Qed.

(** C7: when the content has at least 3 lines that are not blank and every
    line of the sample (the first 100 of them) decodes to a JSON object,
    [_detect_log_format] answers JSON with confidence 1, which is at least
    0.7.  In general, with at least 3 such lines, the answer is taken from
    a format whose score is the largest of the five, and that format is
    replaced by plain text at confidence 0.5 exactly when it is JSON, CSV
    or syslog and its score is below 0.7, 0.8 or 0.6. *)
Theorem C7_format_detection (content filename : str) :
  3 <= length (nonblank_lines content) ->
  ((forall line, In line (firstn 100 (nonblank_lines content)) ->
      exists data, json_loads line = Ok (JObj data)) ->
   exists confidence,
     _detect_log_format json_loads csv_sniff csv_reader content filename
     = Ok (JSON, confidence)
     /\ (confidence == 1)%Q /\ (7 # 10 <= confidence)%Q)
  /\ (forall answer,
        _detect_log_format json_loads csv_sniff csv_reader content filename
        = Ok answer ->
        exists json_score best confidence,
          let sample := firstn 100 (nonblank_lines content) in
          let scores :=
            [ (JSON, json_score);
              (CSV, _score_csv_format csv_sniff csv_reader sample);
              (SYSLOG, _score_syslog_format sample);
              (CUSTOM, _score_structured_format sample);
              (PLAIN_TEXT, (1 # 10)%Q) ] in
          _score_json_format json_loads sample = Ok json_score
          /\ In (best, confidence) scores
          /\ (forall f q, In (f, q) scores -> (q <= confidence)%Q)
          /\ answer = accept best confidence).
Proof.
  intros H3. unfold _detect_log_format.
  destruct (length (nonblank_lines content) <? minimum_lines) eqn:E.
  { apply Nat.ltb_lt in E. unfold minimum_lines in E. lia. }
  rewrite firstn_min. set (sample := firstn 100 (nonblank_lines content)).
  assert (Hlen : 3 <= length sample).
  { subst sample. rewrite length_firstn. lia. }
  split.
  - intros Hobj.
    assert (Hjs : _score_json_format json_loads sample
                  = Ok (ratio (length sample) (length sample))).
    { unfold _score_json_format. destruct sample as [|l0 ls] eqn:Es;
        [cbn in Hlen; lia|]. rewrite <- Es in *.
      rewrite json_counts_objects.
      - cbn [bind Nat.add].
        destruct (length sample =? 0) eqn:E0; [|reflexivity].
        apply Nat.eqb_eq in E0. lia.
      - intros line Hl. split; [|now apply Hobj].
        apply nonblank_lines_nonblank with content.
        subst sample. now apply in_firstn in Hl. }
    rewrite Hjs. cbn [bind].
    assert (H1 : (ratio (length sample) (length sample) == 1)%Q)
      by (apply ratio_self; lia).
    rewrite max_by_score_first.
    + exists (ratio (length sample) (length sample)).
      cbn [format_eqb andb]. rewrite below_spec.
      destruct (Qlt_le_dec _ json_confidence) as [Hlt|Hle].
      * exfalso. rewrite H1 in Hlt. revert Hlt. unfold json_confidence. easy.
      * repeat split; [assumption|]. rewrite H1. easy.
    + cbn [snd]. intros x [<-|[<-|[<-|[<-|[]]]]]; cbn [snd]; rewrite H1.
      * apply csv_score_le_1.
      * apply syslog_score_le_1.
      * apply structured_score_le_1.
      * easy.
  - intros answer.
    destruct (_score_json_format json_loads sample) as [js|] eqn:Hjs;
      cbn [bind]; [|discriminate].
    destruct (max_by_score_spec (JSON, js)
                [(CSV, _score_csv_format csv_sniff csv_reader sample);
                 (SYSLOG, _score_syslog_format sample);
                 (CUSTOM, _score_structured_format sample);
                 (PLAIN_TEXT, (1 # 10)%Q)]) as [Hin Hmax].
    destruct (max_by_score _ _) as [best conf].
    intros Hans. exists js, best, conf. cbn zeta.
    split; [reflexivity|]. split; [exact Hin|]. split.
    + intros f q Hq. apply (Hmax (f, q) Hq).
    + unfold accept, acceptance_threshold. rewrite !below_spec in Hans.
      unfold json_confidence, csv_confidence, syslog_confidence in Hans.
      destruct best; cbn [format_eqb andb] in Hans;
        repeat match type of Hans with
               | context [Qlt_le_dec ?a ?b] => destruct (Qlt_le_dec a b)
               end; congruence.
Qed.

End Scores.

Import Examples.

Lemma C7_witness :
  exists confidence,
    _detect_log_format (table_loads twelve_records) no_sniff no_rows
                       (content_of twelve_records) (lit "app.log")
    = Ok (JSON, confidence)
    /\ (confidence == 1)%Q /\ (7 # 10 <= confidence)%Q.
Proof.
  apply (proj1 (C7_format_detection (table_loads twelve_records) no_sniff
                  no_rows (content_of twelve_records) (lit "app.log")
                  ltac:(vm_compute; lia))).
  intros line H. vm_compute in H.
  repeat (destruct H as [<-|H]; [eexists; vm_compute; reflexivity|]).
  contradiction.
Defined.

End Detection.

(** ** The timestamp extractor *)

Module Timestamps.

Import FileProcessor TextFacts StripFacts ReFacts SpecWords.

Lemma digit_cases (c : ascii) : is_digit c = true -> In c (lit "0123456789").
Proof.
  intros H.
  assert (Hall : forallb (fun c => implb (is_digit c)
                                         (mem_char c (lit "0123456789")))
                         all_chars = true) by (vm_compute; reflexivity).
  rewrite forallb_forall in Hall. specialize (Hall c (all_chars_complete c)).
  rewrite H in Hall. cbn [implb] in Hall. unfold mem_char in Hall.
  apply existsb_exists in Hall as (x & Hx & E).
  apply Ascii.eqb_eq in E. now subst.
Qed.

(** Case analysis on a digit. *)
Ltac digit c H :=
  apply digit_cases in H;
  cbn in H;
  repeat (destruct H as [<-|H]; [|]); [..|contradiction].

Lemma digit_not_space (c : ascii) : is_digit c = true -> is_space c = false.
Proof. intros H. digit c H; reflexivity. Qed.


Lemma digits_rev (s : str) :
  forallb is_digit s = true -> forallb is_digit (rev s) = true.
Proof.
  rewrite !forallb_forall. intros H x Hx. apply H. now apply in_rev.
Qed.

Lemma lstrip_digits (s : str) : forallb is_digit s = true -> lstrip s = s.
Proof.
  intros H. apply lstrip_fixed. destruct s as [|c s]; [exact I|].
  cbn in H. apply andb_prop in H as [H _]. now apply digit_not_space.
Qed.










Section Extractor.

Variable utcoffset : Z -> Z.

(** What the digit branch makes of a reading. *)
Local Abbreviation digit_outcome r :=
  (match r with
   | Ok t => Ok (Some t)
   | Raise e => if caught_in_digits e then Ok None else Raise e
   end).






Lemma first_format_skip (s : str) (fmt : string) (fmts : list string) :
  try_format utcoffset s fmt = Raise ValueError ->
  first_format utcoffset s (fmt :: fmts) = first_format utcoffset s fmts.
Proof. intros H. cbn [first_format]. now rewrite H. Qed.






End Extractor.

Import Examples.



(** The branch for microseconds is never taken: a value above 1e13 is
    above 1e10 and is read as milliseconds. *)
Lemma microseconds_are_read_as_milliseconds :
  _extract_timestamp utc (Some (lit "20000000000000"))
  = Ok (Some (DateTime 2603 10 11 11 33 20 0 None))
  /\ fromtimestamp utc (to_double (20000000000000 # 1000000))
     = Ok (DateTime 1970 8 20 11 33 20 0 None).
Proof. split; vm_compute; reflexivity. Qed.

(** The quotient by 1000 is a double: in 9000000000123 milliseconds the
    microsecond comes out as 122999, not as 123000. *)
Lemma milliseconds_are_rounded :
  _extract_timestamp utc (Some (lit "9000000000123"))
  = Ok (Some (DateTime 2255 3 14 16 0 0 122999 None)).
Proof. vm_compute. reflexivity. Qed.

(** The extractor does raise: of a second beyond the years that the
    platform's [localtime] can count, [fromtimestamp] raises [OSError],
    which the loop over the formats does not catch. *)
Lemma oserror_is_not_caught :
  _extract_timestamp utc (Some (lit "100000000000000000")) = Raise OSError
  /\ _extract_timestamp utc (Some (lit "67768036191676795")) = Ok None
  /\ _extract_timestamp utc (Some (lit "67768036191676800")) = Raise OSError.
Proof. repeat split; vm_compute; reflexivity. Qed.

End Timestamps.

(** ** The message normalizer of the pattern detector *)

Module Normalizer.

Import LogAnalyzer PatternDetector TextFacts StripFacts ReFacts.

Lemma stages (message : str) :
  _normalize_message message
  = normalize_whitespace (substitute_placeholders message).
Proof. reflexivity. Qed.

(** *** The last substitution, seen through the matcher *)

Lemma lstrip_length (s : str) : length (lstrip s) <= length s.
Proof.
  induction s as [|c s IH]; cbn; [lia|]. destruct (is_space c); cbn; lia.
Qed.

Lemma blanks_space (c : ascii) (s : str) :
  is_space c = true -> blanks (c :: s) = S (blanks s).
Proof.
  intros H. unfold blanks. rewrite lstrip_space by assumption.
  pose proof (lstrip_length s). cbn [length]. lia.
Qed.

Lemma blanks_nonspace (c : ascii) (s : str) :
  is_space c = false -> blanks (c :: s) = 0.
Proof.
  intros H. unfold blanks. rewrite lstrip_nonspace by assumption. lia.
Qed.

Lemma m_space (st : mstate) :
  m space st = match rest st with
               | c :: s => if is_space c then [step st c s] else []
               | [] => []
               end.
Proof. reflexivity. Qed.

(** The greedy star takes every blank. *)
Lemma star_space_first (n : nat) (st : mstate) :
  length (rest st) <= n ->
  exists st' others,
    star_loop (m space) n st = st' :: others /\ rest st' = lstrip (rest st).
Proof.
  revert st. induction n as [|n IH]; intros st Hn.
  - exists st, []. destruct (rest st); [now split | cbn in Hn; lia].
  - cbn [star_loop]. rewrite (m_space st).
    destruct (rest st) as [|c s] eqn:E.
    + exists st, []. split; [reflexivity|]. now rewrite E.
    + destruct (is_space c) eqn:Hc.
      * cbn [flat_map]. rewrite app_nil_r.
        assert (Hp : progress st (step st c s) = true).
        { unfold progress. rewrite E. cbn [rest step length].
          apply Nat.ltb_lt. lia. }
        rewrite Hp.
        destruct (IH (step st c s)) as (st' & others & -> & Hr);
          [cbn in *; lia|].
        exists st', (others ++ [st]). split; [reflexivity|].
        rewrite Hr. cbn [rest step]. symmetry. now apply lstrip_space.
      * exists st, []. split; [reflexivity|].
        rewrite E. symmetry. now apply lstrip_nonspace.
Qed.

Lemma whitespace_match (before s : str) :
  match match_at whitespace_re before s with
  | Some x => length (m_text x) = blanks s /\ 0 < blanks s
  | None => blanks s = 0
  end.
Proof.
  unfold match_at, whitespace_re, plus. cbn [m]. rewrite m_space.
  cbn [start_state rest].
  destruct s as [|c s]; [reflexivity|].
  destruct (is_space c) eqn:Hc; [|now apply blanks_nonspace].
  cbn [flat_map]. rewrite app_nil_r. cbn [m].
  destruct (star_space_first (n := length (rest (step (start_state before
                                                        (c :: s)) c s)))
              (step (start_state before (c :: s)) c s) (le_n _))
    as (st' & others & -> & Hr).
  cbn [m_text]. cbn [rest step] in Hr. rewrite Hr.
  rewrite length_firstn, blanks_space by assumption.
  unfold blanks. pose proof (lstrip_length s). cbn [length]. lia.
Qed.

Lemma sub_whitespace (s : str) :
  forall before,
    sub_from whitespace_re (lit " ") before s 0 = collapse false s
    /\ sub_from whitespace_re (lit " ") before s (blanks s) = collapse true s.
Proof.
  induction s as [|c s IH]; intros before.
  - split; reflexivity.
  - assert (H0 : sub_from whitespace_re (lit " ") before (c :: s) 0
                 = collapse false (c :: s)).
    { cbn [sub_from collapse].
      pose proof (whitespace_match before (c :: s)) as Hm.
      destruct (match_at whitespace_re before (c :: s)) as [x|].
      - destruct Hm as [Hlen Hpos].
        destruct (is_space c) eqn:Hc;
          [|rewrite blanks_nonspace in Hpos by assumption; lia].
        rewrite Hlen, blanks_space by assumption.
        cbn [lit list_ascii_of_string app]. f_equal. apply IH.
      - destruct (is_space c) eqn:Hc;
          [rewrite blanks_space in Hm by assumption; discriminate|].
        f_equal. apply IH. }
    split; [exact H0|].
    destruct (is_space c) eqn:Hc.
    + rewrite blanks_space by assumption. cbn [sub_from collapse].
      rewrite Hc. apply IH.
    + rewrite blanks_nonspace by assumption. rewrite H0.
      cbn [collapse]. now rewrite Hc.
Qed.

(** The last step replaces every run of blanks by one space and strips. *)
Lemma normalize_whitespace_spec (s : str) :
  normalize_whitespace s = strip (collapse false s).
Proof.
  unfold normalize_whitespace, re_sub.
  now rewrite (proj1 (sub_whitespace s [])).
Qed.

(** *** Blanks that are single spaces *)

Lemma collapse_tidy (s : str) (b : bool) : tidy b (collapse b s) = true.
Proof.
  revert b. induction s as [|c s IH]; intros b; [reflexivity|].
  cbn [collapse]. destruct (is_space c) eqn:Hc.
  - destruct b; [apply IH|]. cbn [tidy].
    change (is_space " ") with true. cbv iota. now rewrite IH.
  - cbn [tidy]. rewrite Hc. apply IH.
Qed.

Lemma tidy_fixed (s : str) (b : bool) : tidy b s = true -> collapse b s = s.
Proof.
  revert b. induction s as [|c s IH]; intros b; [reflexivity|].
  cbn [tidy collapse]. destruct (is_space c).
  - intros H. apply andb_prop in H as [H Hs]. apply andb_prop in H as [Hc Hb].
    apply Ascii.eqb_eq in Hc. subst c. destruct b; [discriminate|].
    now rewrite IH.
  - intros H. now rewrite IH.
Qed.

Lemma tidy_lstrip (s : str) (b : bool) :
  tidy b s = true -> tidy false (lstrip s) = true.
Proof.
  revert b. induction s as [|c s IH]; intros b; [reflexivity|].
  cbn [tidy lstrip]. destruct (is_space c) eqn:Hc.
  - intros H. apply andb_prop in H as [_ Hs]. now apply IH with true.
  - intros H. cbn [tidy]. now rewrite Hc.
Qed.

Lemma tidy_prefix (p w : str) (b : bool) :
  tidy b (p ++ w) = true -> tidy b p = true.
Proof.
  revert b. induction p as [|c p IH]; intros b; [reflexivity|].
  cbn [app tidy]. destruct (is_space c).
  - intros H. apply andb_prop in H as [H Hs]. rewrite H. cbn.
    now apply IH with (b := true).
  - apply IH.
Qed.

Lemma tidy_strip (s : str) : tidy false s = true -> tidy false (strip s) = true.
Proof.
  intros H. unfold strip.
  destruct (rstrip_split (lstrip s)) as (w & E & _).
  apply tidy_prefix with w. rewrite <- E. now apply tidy_lstrip with false.
Qed.

(** The normalization of blanks is idempotent. *)
Lemma normalize_whitespace_idem (s : str) :
  normalize_whitespace (normalize_whitespace s) = normalize_whitespace s.
Proof.
  rewrite !normalize_whitespace_spec.
  rewrite tidy_fixed by apply tidy_strip, collapse_tidy.
  apply strip_idem.
Qed.

(** *** Messages that no placeholder pattern touches *)

Lemma plain_space : plain_char " " = true.
Proof. reflexivity. Qed.

Lemma collapse_class (d : ascii -> bool) (s : str) (b : bool) :
  d " "%char = true -> forallb d s = true -> forallb d (collapse b s) = true.
Proof.
  intros Hsp. revert b. induction s as [|c s IH]; intros b; [reflexivity|].
  cbn [forallb collapse]. intros H. apply andb_prop in H as [Hc Hs].
  destruct (is_space c); [destruct b|]; cbn [forallb];
    rewrite ?Hsp, ?Hc; cbn [andb]; auto.
Qed.

Lemma strip_class (d : ascii -> bool) (s : str) :
  forallb d s = true -> forallb d (strip s) = true.
Proof.
  intros H. unfold strip.
  destruct (lstrip_split s) as (w1 & E1 & _).
  destruct (rstrip_split (lstrip s)) as (w2 & E2 & _).
  rewrite E1, E2, !forallb_app in H.
  apply andb_prop in H as [_ H]. now apply andb_prop in H as [H _].
Qed.

Lemma placeholders_plain (message : str) :
  forallb plain_char message = true ->
  substitute_placeholders message = message.
Proof.
  intros H. unfold substitute_placeholders.
  repeat (rewrite (fun r repl Hr =>
                     @sub_none_in_class plain_char r repl message Hr H);
          [|vm_compute; reflexivity]).
  reflexivity.
Qed.

(** C8 (as amended): normalizing a normalized message returns it unchanged
    whenever the nine placeholder substitutions leave the normalized
    message as it is; this is so for every message without digits, hyphens,
    slashes, backslashes and quote characters, on which the normalizer is
    therefore idempotent. *)
Theorem C8_normalizer_fixed_points (message : str) :
  (substitute_placeholders (_normalize_message message)
   = _normalize_message message ->
   _normalize_message (_normalize_message message)
   = _normalize_message message)
  /\ (forallb plain_char message = true ->
      _normalize_message (_normalize_message message)
      = _normalize_message message).
Proof.
  assert (Hfix : substitute_placeholders (_normalize_message message)
                 = _normalize_message message ->
                 _normalize_message (_normalize_message message)
                 = _normalize_message message).
  { intros H. rewrite (stages (_normalize_message message)), H.
    rewrite stages. apply normalize_whitespace_idem. }
  split; [exact Hfix|].
  intros Hplain. apply Hfix. apply placeholders_plain.
  rewrite stages, placeholders_plain, normalize_whitespace_spec by assumption.
  apply strip_class, collapse_class; [reflexivity | assumption].
Qed.

Lemma C8_witness :
  _normalize_message (_normalize_message (lit "user 42 logged   in"))
  = _normalize_message (lit "user 42 logged   in").
Proof.
  apply (proj1 (C8_normalizer_fixed_points (lit "user 42 logged   in"))).
  vm_compute. reflexivity.
Defined.

(** The claim as stated fails: a quoted string with a blank inside hides a
    path from the first pass; once the quoted string has been replaced,
    the second pass sees the path. *)
Lemma C8_counterexample :
  _normalize_message (lit "/a'x y'/b") = lit "/a'<STRING>'/b"
  /\ _normalize_message (_normalize_message (lit "/a'x y'/b")) = lit "<PATH>"
  /\ _normalize_message (_normalize_message (lit "/a'x y'/b"))
     <> _normalize_message (lit "/a'x y'/b").
Proof.
  split; [vm_compute; reflexivity|]. split; [vm_compute; reflexivity|].
  vm_compute. discriminate.
Qed.

(** Another way to fail: a UUID followed by a URL is not at a word
    boundary until the URL has been replaced. *)
Lemma uuid_before_url :
  _normalize_message (lit "abcdefab-abcd-abcd-abcd-abcdefabcdefhttp://x")
  = lit "abcdefab-abcd-abcd-abcd-abcdefabcdef<URL>"
  /\ _normalize_message
       (_normalize_message (lit "abcdefab-abcd-abcd-abcd-abcdefabcdefhttp://x"))
     = lit "<UUID><URL>".
Proof. split; vm_compute; reflexivity. Qed.

End Normalizer.

(** ** The names of the timestamp patterns *)

Module PatternNames.

Import FileProcessor TextFacts ReFacts.

(** A match of a literal text is that text. *)
Lemma text_consumes (s : str) (st st' : mstate) :
  In st' (m (text s) st) -> rest st = s ++ rest st'.
Proof.
  revert st. induction s as [|c s IH]; intros st.
  - cbn. intros [<-|[]]. reflexivity.
  - change (text (c :: s)) with (Seq (chr c) (text s)). cbn [m].
    intros H. apply in_flat_map in H as (st1 & H1 & H2).
    unfold chr in H1. cbn [m] in H1.
    destruct (rest st) as [|c' r] eqn:Er; [contradiction|].
    destruct (Ascii.eqb c c') eqn:Ec; [|contradiction].
    apply Ascii.eqb_eq in Ec. subst c'.
    destruct H1 as [<-|[]]. apply IH in H2. cbn [step rest] in H2.
    now rewrite H2.
Qed.

Lemma match_at_text (s before subject : str) (x : rmatch) :
  match_at (text s) before subject = Some x -> m_text x = s.
Proof.
  unfold match_at.
  destruct (m (text s) (start_state before subject)) as [|st' l] eqn:E;
    [discriminate|].
  intros [= <-]. cbn [m_text].
  assert (H : In st' (m (text s) (start_state before subject)))
    by (rewrite E; now left).
  apply text_consumes in H. cbn [start_state rest] in H.
  rewrite H. rewrite length_app, Nat.add_sub.
  rewrite firstn_app, Nat.sub_diag, firstn_all. cbn. apply app_nil_r.
Qed.

Lemma search_text (s before subject : str) (x : rmatch) :
  search_from (text s) before subject = Some x -> m_text x = s.
Proof.
  revert before. induction subject as [|c subject IH]; intros before;
    cbn [search_from];
    destruct (match_at (text s) before _) as [y|] eqn:E.
  - intros [= <-]. exact (match_at_text _ _ _ E).
  - intros H. discriminate H.
  - intros [= <-]. exact (match_at_text _ _ _ E).
  - apply IH.
Qed.

Section Names.

Variable utcoffset : Z -> Z.

(** What [_create_log_entry_from_text] hands to [_extract_timestamp] is
    the name of a pattern, and no name is a timestamp: nothing is raised
    and nothing is found. *)
Lemma pattern_name_stamp (name line : str) (x : rmatch) :
  In name (map fst timestamp_patterns) ->
  re_search (text name) line = Some x ->
  _extract_timestamp utcoffset (Some (m_text x)) = Ok None.
Proof.
  intros Hname Hx. rewrite (search_text _ _ _ Hx). cbn in Hname.
  repeat (destruct Hname as [<-|Hname]; [vm_compute; reflexivity|]).
  contradiction.
Qed.

(** So a line parsed as plain text never has a timestamp. *)
Lemma text_entry_has_no_timestamp (line : str) (n : nat) :
  timestamp (_create_log_entry_from_text utcoffset line n) = None.
Proof.
  unfold _create_log_entry_from_text. cbn [timestamp].
  assert (H : forall names,
            incl names (map fst timestamp_patterns) ->
            first_timestamp utcoffset names line = None).
  { induction names as [|name names IH]; intros Hincl; [reflexivity|].
    cbn [first_timestamp].
    destruct (re_search (text name) line) as [x|] eqn:E.
    - rewrite (@pattern_name_stamp name line x); [reflexivity| |exact E].
      apply Hincl. now left.
    - apply IH. intros y Hy. apply Hincl. now right. }
  apply H, incl_refl.
Qed.

End Names.

End PatternNames.

(** ** Counting into a dictionary *)

Module CountFacts.

Import FileProcessor DictFacts ListFacts.

Lemma level_eqb_eq (a b : LogLevel) : level_eqb a b = true <-> a = b.
Proof. destruct a, b; cbn; split; intros H; congruence. Qed.

Section Tally.

Context {A K : Type}.
Variable keq : K -> K -> bool.
Variable key : A -> K.

Local Abbreviation tally l :=
  (fold_left (fun d x => Dict.update keq (key x) S 0 d) l []).

Lemma update_total (k : K) (d : list (K * nat)) :
  total (map snd (Dict.update keq k S 0 d)) = S (total (map snd d)).
Proof.
  unfold total. induction d as [|[k' n] d IH]; cbn; [reflexivity|].
  destruct (keq k' k); cbn; [reflexivity|]. rewrite IH. lia.
Qed.

(** Every item adds one to exactly one counter. *)
Lemma tally_total (l : list A) : total (map snd (tally l)) = length l.
Proof.
  induction l as [|x l IH] using rev_ind; [reflexivity|].
  rewrite fold_left_app, length_app. cbn [fold_left length].
  rewrite update_total, IH. lia.
Qed.

Hypothesis keq_spec : forall a b, keq a b = true <-> a = b.

(** The keys are distinct, every key met is present, and a counter holds
    the number of items of its key. *)
Lemma tally_invariant (l : list A) :
  NoDup (map fst (tally l))
  /\ (forall x, In x l -> In (key x) (map fst (tally l)))
  /\ (forall k n, In (k, n) (tally l) ->
        0 < n /\ n = count_if (fun x => keq (key x) k) l).
Proof.
  induction l as [|x l IH] using rev_ind.
  - cbn. repeat split; try constructor; contradiction.
  - destruct IH as (Hnd & Hkeys & Hcnt).
    rewrite fold_left_app. cbn [fold_left]. split; [|split].
    + now apply update_nodup.
    + intros y Hy. apply in_app_or in Hy as [Hy|[<-|[]]].
      * apply update_keys_incl; auto.
      * now apply update_key_in.
    + intros k n Hin. rewrite count_if_app. unfold count_if at 2.
      cbn [filter].
      apply (update_in keq keq_spec) in Hin; [|assumption].
      destruct Hin as [[Hne Hin]|[-> [(v & Hin & ->)|[Hnin ->]]]].
      * destruct (Hcnt _ _ Hin) as [H1 H2]. split; [exact H1|].
        rewrite (keq_neq keq keq_spec) by congruence. cbn. lia.
      * destruct (Hcnt _ _ Hin) as [H1 H2]. split; [lia|].
        rewrite (keq_refl keq keq_spec). cbn. lia.
      * split; [lia|]. rewrite (keq_refl keq keq_spec). cbn.
        rewrite count_if_none; [reflexivity|].
        intros y Hy. apply (keq_neq keq keq_spec).
        intros E. apply Hnin. rewrite <- E. now apply Hkeys.
Qed.

End Tally.

Lemma nodup_keys_perm {K V} (l l' : list (K * V)) :
  Permutation l l' -> NoDup (map fst l) -> NoDup (map fst l').
Proof.
  intros Hp. apply Permutation_NoDup. now apply Permutation_map.
Qed.

Lemma nodup_firstn {T} (n : nat) (l : list T) :
  NoDup l -> NoDup (firstn n l).
Proof.
  intros H. revert n. induction H as [|x l Hx Hnd IH]; intros [|n]; cbn;
    try constructor; auto.
  intros Hin. apply Hx. now apply in_firstn in Hin.
Qed.

Lemma total_firstn (n : nat) (l : list nat) : total (firstn n l) <= total l.
Proof.
  revert n. induction l as [|x l IH]; intros [|n]; cbn; try lia.
  specialize (IH n). unfold total in *. lia.
Qed.

Lemma total_perm (l l' : list nat) : Permutation l l' -> total l = total l'.
Proof.
  induction 1; cbn; unfold total in *; cbn; lia.
Qed.

End CountFacts.

(** ** The distributions and the date range *)

Module Distributions.

Import LogAnalyzer FileProcessor TextFacts DictFacts SortFacts ListFacts.
Import Clustering CountFacts.

(** X1: [_get_level_distribution] counts every entry once: the levels of
    the result are distinct, each is counted with the number of entries of
    that level, an entry without a level counting as INFO, no level is
    listed with a zero, every level met is listed, and the counts add up
    to the number of entries. *)
Theorem level_distribution_counts (entries : list LogEntry) :
  let level_of e := match level e with Some l => l | None => INFO end in
  let d := _get_level_distribution entries in
  NoDup (map fst d)
  /\ (forall l n, In (l, n) d ->
        0 < n /\ n = count_if (fun e => level_eqb (level_of e) l) entries)
  /\ (forall e, In e entries -> In (level_of e) (map fst d))
  /\ total (map snd d) = length entries.
Proof.
  intros level_of d. subst d. unfold _get_level_distribution.
  destruct (tally_invariant level_eqb level_of level_eqb_eq entries)
    as (Hnd & Hkeys & Hcnt).
  split; [exact Hnd|]. split; [exact Hcnt|]. split; [exact Hkeys|].
  apply (tally_total level_eqb level_of).
Qed.

Lemma by_count_sorted {T} (count_of : T -> nat) (l : list T) :
  StronglySorted (fun a b => count_of b <= count_of a)
                 (sorted (by_count_desc count_of) l).
Proof.
  apply strongly_sorted_impl
    with (R := fun p q => by_count_desc count_of p q = true).
  - intros a b. unfold by_count_desc. apply Nat.leb_le.
  - apply sorted_strongly_sorted.
    + intros a b. unfold by_count_desc. rewrite Nat.leb_gt, Nat.leb_le. lia.
    + intros a b c. unfold by_count_desc. rewrite !Nat.leb_le. lia.
Qed.

(** X2: [_get_service_distribution] keeps at most 20 services, in
    descending order of their counts; the names are distinct, an entry
    without a service name counts under "unknown", each count is the number
    of entries of that name, and a name that is left out has no more
    entries than any name that is kept. *)
Theorem service_distribution_top (entries : list LogEntry) :
  let name_of e :=
    match service e with
    | Some s => if nonempty s then s else lit "unknown"
    | None => lit "unknown"
    end in
  let entries_of s := count_if (fun e => str_eqb (name_of e) s) entries in
  let d := _get_service_distribution entries in
  length d <= 20
  /\ NoDup (map fst d)
  /\ StronglySorted (fun a b => snd b <= snd a) d
  /\ (forall s n, In (s, n) d -> 0 < n /\ n = entries_of s)
  /\ (forall e, In e entries ->
        In (name_of e) (map fst d)
        \/ (forall s n, In (s, n) d -> entries_of (name_of e) <= n))
  /\ total (map snd d) <= length entries.
Proof.
  intros name_of entries_of d. subst d. unfold _get_service_distribution.
  destruct (tally_invariant str_eqb name_of str_eqb_eq entries)
    as (Hnd & Hkeys & Hcnt).
  pose proof (tally_total str_eqb name_of entries) as Htot.
  set (dist := fold_left _ entries []) in *.
  pose proof (by_count_sorted (@snd str nat) dist) as Hsorted.
  split; [apply firstn_le_length|]. split; [|split; [|split; [|split]]].
  - rewrite <- firstn_map. apply nodup_firstn.
    apply nodup_keys_perm with dist; [|assumption].
    symmetry. apply sorted_perm.
  - now apply firstn_strongly_sorted.
  - intros s n Hin. apply in_firstn, sorted_in in Hin. now apply Hcnt.
  - intros e He. specialize (Hkeys e He).
    apply in_map_iff in Hkeys as ([k n] & Ek & Hin). cbn [fst] in Ek.
    subst k.
    destruct (firstn_top 20 (y := (name_of e, n)) Hsorted) as [Htop|Hafter].
    + now apply sorted_in.
    + left. apply in_map_iff. now exists (name_of e, n).
    + right. intros s n' Hin'. specialize (Hafter _ Hin'). cbn [snd] in Hafter.
      destruct (Hcnt _ _ Hin) as [_ E]. unfold entries_of. now rewrite <- E.
  - rewrite <- Htot, <- firstn_map.
    etransitivity; [apply total_firstn|].
    apply Nat.eq_le_incl, total_perm, Permutation_map, sorted_perm.
Qed.

(** *** [min] and [max] of timestamps *)

Lemma dt_ltb_ok (a b : datetime) (r : bool) :
  dt_ltb a b = Ok r ->
  aware a = aware b /\ r = (time_key a <? time_key b)%Z.
Proof.
  unfold dt_ltb, time_key, aware.
  destruct (tzinfo a), (tzinfo b); try discriminate;
    intros E; apply Ok_inj in E; now subst.
Qed.

Lemma dt_ltb_raise (a b : datetime) (e : exn) :
  dt_ltb a b = Raise e -> e = TypeError /\ aware a <> aware b.
Proof.
  unfold dt_ltb, aware. destruct (tzinfo a), (tzinfo b); try discriminate;
    intros [= <-]; split; congruence.
Qed.

Lemma min_from_ok (best : datetime) (l : list datetime) (r : datetime) :
  min_from best l = Ok r ->
  In r (best :: l)
  /\ forall t, In t (best :: l) ->
       aware t = aware r /\ (time_key r <= time_key t)%Z.
Proof.
  revert best. induction l as [|u l IH]; intros best; cbn [min_from].
  - intros E. apply Ok_inj in E. subst r. split; [now left|].
    intros t [<-|[]]. split; [reflexivity | lia].
  - destruct (dt_ltb u best) as [lt|] eqn:Hlt; cbn [bind]; [|discriminate].
    apply dt_ltb_ok in Hlt as [Hk ->]. intros Hr.
    destruct (IH _ Hr) as [Hin Hall]. split.
    + destruct Hin as [<-|Hin]; [|now right; right].
      destruct (_ <? _)%Z; [right; now left | now left].
    + destruct (time_key u <? time_key best)%Z eqn:Hc.
      * apply Z.ltb_lt in Hc.
        destruct (Hall u (or_introl eq_refl)) as [Hku Hu].
        intros t [<-|[<-|Ht]].
        -- split; [congruence | lia].
        -- now split.
        -- apply Hall. now right.
      * apply Z.ltb_ge in Hc.
        destruct (Hall best (or_introl eq_refl)) as [Hkb Hb].
        intros t [<-|[<-|Ht]].
        -- now split.
        -- split; [congruence | lia].
        -- apply Hall. now right.
Qed.

Lemma max_from_ok (best : datetime) (l : list datetime) (r : datetime) :
  max_from best l = Ok r ->
  In r (best :: l)
  /\ forall t, In t (best :: l) ->
       aware t = aware r /\ (time_key t <= time_key r)%Z.
Proof.
  revert best. induction l as [|u l IH]; intros best; cbn [max_from].
  - intros E. apply Ok_inj in E. subst r. split; [now left|].
    intros t [<-|[]]. split; [reflexivity | lia].
  - destruct (dt_ltb best u) as [gt|] eqn:Hgt; cbn [bind]; [|discriminate].
    apply dt_ltb_ok in Hgt as [Hk ->]. intros Hr.
    destruct (IH _ Hr) as [Hin Hall]. split.
    + destruct Hin as [<-|Hin]; [|now right; right].
      destruct (_ <? _)%Z; [right; now left | now left].
    + destruct (time_key best <? time_key u)%Z eqn:Hc.
      * apply Z.ltb_lt in Hc.
        destruct (Hall u (or_introl eq_refl)) as [Hku Hu].
        intros t [<-|[<-|Ht]].
        -- split; [congruence | lia].
        -- now split.
        -- apply Hall. now right.
      * apply Z.ltb_ge in Hc.
        destruct (Hall best (or_introl eq_refl)) as [Hkb Hb].
        intros t [<-|[<-|Ht]].
        -- now split.
        -- split; [congruence | lia].
        -- apply Hall. now right.
Qed.

Lemma min_from_raise (best : datetime) (l : list datetime) (e : exn) :
  min_from best l = Raise e -> e = TypeError.
Proof.
  revert best. induction l as [|u l IH]; intros best; cbn [min_from];
    [discriminate|].
  destruct (dt_ltb u best) eqn:Hlt; cbn [bind].
  - apply IH.
  - intros [= <-]. now apply dt_ltb_raise in Hlt.
Qed.

Lemma max_from_raise (best : datetime) (l : list datetime) (e : exn) :
  max_from best l = Raise e -> e = TypeError.
Proof.
  revert best. induction l as [|u l IH]; intros best; cbn [max_from];
    [discriminate|].
  destruct (dt_ltb best u) eqn:Hlt; cbn [bind].
  - apply IH.
  - intros [= <-]. now apply dt_ltb_raise in Hlt.
Qed.

Lemma one_kind (t : datetime) (l : list datetime) :
  (forall u, In u l -> aware u = aware t) -> same_kind (t :: l) = true.
Proof.
  intros H. unfold same_kind. cbn [forallb].
  destruct (aware t) eqn:Ht; cbn [negb andb orb].
  - replace (forallb aware l) with true; [reflexivity|].
    symmetry. apply forallb_forall. intros u Hu. now apply H.
  - replace (forallb (fun t0 => negb (aware t0)) l) with true;
      [reflexivity|].
    symmetry. apply forallb_forall. intros u Hu. now rewrite (H u Hu).
Qed.

(** The two outcomes of [_get_date_range]. *)
Lemma date_range_outcome (entries : list LogEntry) :
  let ts := timestamps entries in
  match _get_date_range entries with
  | Ok range =>
      same_kind ts = true
      /\ match range with
         | (None, None) => ts = []
         | (Some lo, Some hi) =>
             In lo ts /\ In hi ts
             /\ forall t, In t ts ->
                  (time_key lo <= time_key t <= time_key hi)%Z
         | _ => False
         end
  | Raise e => e = TypeError /\ same_kind ts = false
  end.
Proof.
  intros ts. subst ts. unfold _get_date_range.
  destruct (timestamps entries) as [|t l] eqn:Hts; [now split|].
  unfold py_min, py_max.
  destruct (min_from t l) as [lo|e] eqn:Hmin; cbn [bind].
  - pose proof (min_from_ok _ _ Hmin) as [Ha Hlo].
    assert (Hk : same_kind (t :: l) = true).
    { apply one_kind. intros u Hu.
      destruct (Hlo u (or_intror Hu)) as [-> _].
      now destruct (Hlo t (or_introl eq_refl)) as [-> _]. }
    destruct (max_from_total t l (@same_kind_cons t l Hk)) as (hi & Hmax & _).
    rewrite Hmax. cbn [bind]. split; [exact Hk|].
    apply max_from_ok in Hmax as [Hb Hhi].
    split; [assumption|]. split; [assumption|].
    intros u Hu. split; [now apply Hlo | now apply Hhi].
  - split; [now apply min_from_raise in Hmin|].
    destruct (same_kind (t :: l)) eqn:Hk; [|reflexivity].
    destruct (min_from_total t l (@same_kind_cons t l Hk)) as (lo & E & _).
    congruence.
Qed.

(** X3: [_get_date_range] returns exactly when the timestamps present are
    all naive or all aware, and raises [TypeError] otherwise; what it
    returns is the pair of [None] when no entry has a timestamp, and else
    two of the timestamps, the first not after and the second not before
    any timestamp of the entries. *)
Theorem date_range_bounds (entries : list LogEntry) :
  let ts := timestamps entries in
  match _get_date_range entries with
  | Ok range =>
      same_kind ts = true
      /\ match range with
         | (None, None) => ts = []
         | (Some lo, Some hi) =>
             In lo ts /\ In hi ts
             /\ forall t, In t ts ->
                  (time_key lo <= time_key t <= time_key hi)%Z
         | _ => False
         end
  | Raise e => e = TypeError /\ same_kind ts = false
  end.
Proof. exact (date_range_outcome entries). Qed.

End Distributions.

(** ** Slices *)

Module SliceFacts.

Import ListFacts.

Local Open Scope Z_scope.

Lemma firstn_clip {A} (n : nat) (l : list A) :
  firstn (Nat.min n (length l)) l = firstn n l.
Proof.
  destruct (Nat.le_ge_cases n (length l)) as [H|H].
  - now rewrite Nat.min_l.
  - rewrite Nat.min_r by assumption. now rewrite firstn_all, firstn_all2.
Qed.

(** A slice with bounds that are not negative: [stop - start] items after
    the first [start]. *)
Lemma py_slice_window {A} (l : list A) (start len : Z) :
  0 <= start -> 0 <= len ->
  py_slice l start (start + len)
  = firstn (Z.to_nat len) (skipn (Z.to_nat start) l).
Proof.
  intros Hs Hl. unfold py_slice, slice_index.
  destruct (start <? 0) eqn:E1; [apply Z.ltb_lt in E1; lia|].
  destruct (start + len <? 0) eqn:E2; [apply Z.ltb_lt in E2; lia|].
  set (n := Z.of_nat (length l)).
  destruct (Z.le_gt_cases n start) as [Hge|Hlt].
  - rewrite (Z.min_r start n) by lia.
    rewrite !skipn_all2 by (subst n; lia).
    now rewrite !firstn_nil.
  - rewrite (Z.min_l start n) by lia.
    rewrite <- (firstn_clip (Z.to_nat len)). f_equal.
    rewrite length_skipn. subst n. lia.
Qed.

Lemma py_slice_in {A} (l : list A) (start stop : Z) (x : A) :
  In x (py_slice l start stop) -> In x l.
Proof.
  unfold py_slice. intros H. apply in_firstn in H.
  set (k := Z.to_nat _) in H.
  rewrite <- (firstn_skipn k l). apply in_or_app. right. exact H.
Qed.

Lemma firstn_add {A} (a b : nat) (l : list A) :
  firstn (a + b) l = firstn a l ++ firstn b (skipn a l).
Proof.
  revert l. induction a as [|a IH]; intros [|x l]; cbn [Nat.add firstn skipn];
    try reflexivity.
  - now rewrite firstn_nil.
  - cbn. now rewrite IH.
Qed.

End SliceFacts.

(** ** The queries on the entries of a file *)

Module Queries.

Import LogAnalyzer FileProcessor TextFacts ListFacts ReFacts SliceFacts.

Lemma lower_char_idem (c : ascii) : lower_char (lower_char c) = lower_char c.
Proof.
  assert (H : forallb (fun c => Ascii.eqb (lower_char (lower_char c))
                                          (lower_char c)) all_chars = true)
    by (vm_compute; reflexivity).
  rewrite forallb_forall in H. apply Ascii.eqb_eq, H, all_chars_complete.
Qed.

Lemma lower_idem (s : str) : lower (lower s) = lower s.
Proof.
  unfold lower. rewrite map_map. apply map_ext, lower_char_idem.
Qed.

Lemma truthy_lower (t t' : str) :
  lower t' = lower t ->
  option_map lower (truthy_text (Some t'))
  = option_map lower (truthy_text (Some t)).
Proof.
  intros H. destruct t, t'; try discriminate;
    cbn [truthy_text nonempty option_map]; [reflexivity | now rewrite H].
Qed.

Lemma search_rejects_case (t t' : str) (e : LogEntry) :
  lower t' = lower t ->
  search_rejects (Some t') e = search_rejects (Some t) e.
Proof.
  intros H. unfold search_rejects. pose proof (truthy_lower _ _ H) as Ht.
  destruct (truthy_text (Some t')), (truthy_text (Some t));
    cbn in Ht; try discriminate; [|reflexivity].
  injection Ht as ->. reflexivity.
Qed.

(** What an entry that passed the filters looks like. *)
Lemma passes_filters_meets (lf sf st : option str) (e : LogEntry) :
  passes_filters lf sf st e = true ->
  (forall w, truthy_text lf = Some w ->
     option_map level_value (level e) = Some w)
  /\ (forall w, truthy_text sf = Some w -> service e = Some w)
  /\ (forall term, truthy_text st = Some term ->
        contains (lower (message e)) (lower term) = true).
Proof.
  unfold passes_filters, level_rejects, service_rejects, search_rejects.
  intros H. split; [|split].
  - intros w Hw. rewrite Hw in H.
    destruct (level e) as [l|]; [|discriminate]. cbn.
    destruct (str_eqb (level_value l) w) eqn:E; [|discriminate].
    apply str_eqb_eq in E. now rewrite E.
  - intros w Hw. rewrite Hw in H.
    destruct (match truthy_text lf with Some _ => _ | None => _ end);
      [discriminate|].
    unfold truthy_text in H at 1. destruct (service e) as [s|]; [|discriminate].
    destruct (nonempty s); [|discriminate].
    destruct (str_eqb s w) eqn:E; [|discriminate].
    apply str_eqb_eq in E. now rewrite E.
  - intros term Hterm. rewrite Hterm in H.
    destruct (match truthy_text lf with Some _ => _ | None => _ end);
      [discriminate|].
    destruct (match truthy_text sf with Some _ => _ | None => _ end);
      [discriminate|].
    now destruct (contains _ _).
Qed.

(** An entry that meets the filters passes them. *)
Lemma service_accepts (sf : option str) (e : LogEntry) :
  (forall w, truthy_text sf = Some w -> service e = Some w) ->
  service_rejects sf e = false.
Proof.
  intros Hs. unfold service_rejects.
  destruct (truthy_text sf) as [w|] eqn:E; [|reflexivity].
  rewrite (Hs w eq_refl).
  assert (Hw : nonempty w = true).
  { unfold truthy_text in E. destruct sf as [x|]; [|discriminate].
    destruct (nonempty x) eqn:Ex; [|discriminate]. now injection E as <-. }
  unfold truthy_text. now rewrite Hw, str_eqb_refl.
Qed.

Lemma meets_passes_filters (lf sf st : option str) (e : LogEntry) :
  (forall w, truthy_text lf = Some w ->
     option_map level_value (level e) = Some w) ->
  (forall w, truthy_text sf = Some w -> service e = Some w) ->
  (forall term, truthy_text st = Some term ->
     contains (lower (message e)) (lower term) = true) ->
  passes_filters lf sf st e = true.
Proof.
  intros Hl Hs Ht. unfold passes_filters.
  rewrite (service_accepts sf e Hs).
  assert (El : level_rejects lf e = false).
  { unfold level_rejects.
    destruct (truthy_text lf) as [w|]; [|reflexivity].
    specialize (Hl w eq_refl). destruct (level e) as [l|]; [|discriminate].
    cbn in Hl. injection Hl as Hl. now rewrite Hl, str_eqb_refl. }
  assert (Et : search_rejects st e = false).
  { unfold search_rejects.
    destruct (truthy_text st) as [term|]; [|reflexivity].
    now rewrite (Ht term eq_refl). }
  now rewrite El, Et.
Qed.

(** X4: [get_entries] keeps exactly the entries that meet every filter
    given, a filter that is absent or empty not being applied.  An entry
    meets the filters when its level value is the level filter, its
    service is the service filter and its message contains the search
    term, the last without regard to case.  Each record of a page is made
    from an entry that meets them; "total" is the number of entries that
    meet them, and the page from 0 with that limit holds the records of
    all of them, in the order of the file; a level filter that is no level
    value finds nothing; and search terms that differ by case only give
    the same answer. *)
Theorem get_entries_filters (entries : list LogEntry) (offset limit : Z)
    (level_filter service_filter search_term : option str) :
  let page := get_entries entries offset limit level_filter service_filter
                          search_term in
  let meets (e : LogEntry) :=
    (forall w, truthy_text level_filter = Some w ->
       option_map level_value (level e) = Some w)
    /\ (forall w, truthy_text service_filter = Some w -> service e = Some w)
    /\ (forall term, truthy_text search_term = Some term ->
          contains (lower (message e)) (lower term) = true) in
  let whole := get_entries entries 0 (Z.of_nat (page_total page))
                           level_filter service_filter search_term in
  (forall d, In d (page_entries page) ->
     exists e, In e entries /\ d = _entry_to_dict e /\ meets e
       /\ (forall w, truthy_text level_filter = Some w -> d_level d = Some w)
       /\ (forall w, truthy_text service_filter = Some w ->
             d_service d = Some w)
       /\ (forall term, truthy_text search_term = Some term ->
             contains (lower (d_message d)) (lower term) = true))
  /\ (forall e, In e entries -> meets e ->
        In (_entry_to_dict e) (page_entries whole))
  /\ (forall keep : LogEntry -> bool,
        (forall e, keep e = true <-> meets e) ->
        page_total page = count_if keep entries
        /\ page_entries whole = map _entry_to_dict (filter keep entries))
  /\ page_total page
     = count_if (passes_filters level_filter service_filter search_term)
                entries
  /\ (forall w, truthy_text level_filter = Some w ->
        (forall l, level_value l <> w) ->
        page_total page = 0 /\ page_entries page = [])
  /\ (forall term term', search_term = Some term ->
        lower term' = lower term ->
        get_entries entries offset limit level_filter service_filter
                    (Some term') = page).
Proof.
  intros page meets whole.
  assert (Hwhole : page_entries whole
                   = map _entry_to_dict
                       (filter (passes_filters level_filter service_filter
                                               search_term) entries)).
  { subst whole page. unfold get_entries. cbn [page_entries page_total].
    rewrite py_slice_window by lia.
    cbn [Z.to_nat skipn]. now rewrite Nat2Z.id, firstn_all. }
  assert (Hiff : forall e,
            passes_filters level_filter service_filter search_term e = true
            <-> meets e).
  { intros e. split.
    - apply passes_filters_meets.
    - intros (H1 & H2 & H3). now apply meets_passes_filters. }
  subst page. unfold get_entries in *.
  cbn [page_entries page_total] in *.
  split; [|split; [|split; [|split; [reflexivity|split]]]].
  - intros d Hd. apply in_map_iff in Hd as (e & <- & He).
    apply SliceFacts.py_slice_in, filter_In in He as [He Hp].
    exists e. split; [assumption|]. split; [reflexivity|].
    split; [now apply Hiff|]. now apply passes_filters_meets.
  - intros e He Hm. rewrite Hwhole. apply in_map, filter_In.
    split; [exact He|now apply Hiff].
  - intros keep Hkeep.
    assert (Hext : forall e,
              passes_filters level_filter service_filter search_term e
              = keep e).
    { intros e. destruct (keep e) eqn:E.
      - now apply Hiff, Hkeep.
      - destruct (passes_filters _ _ _ e) eqn:E'; [|reflexivity].
        apply Hiff, Hkeep in E'. congruence. }
    rewrite Hwhole. unfold count_if.
    now rewrite (filter_ext _ _ Hext).
  - intros w Hw Hno.
    assert (Hnone : filter (passes_filters level_filter service_filter
                                           search_term) entries = []).
    { apply Clustering.filter_none. intros e _.
      unfold passes_filters, level_rejects. rewrite Hw.
      destruct (level e) as [l|]; [|reflexivity].
      destruct (str_eqb (level_value l) w) eqn:E; [|reflexivity].
      apply str_eqb_eq in E. now elim (Hno l). }
    rewrite Hnone. split; [reflexivity|].
    unfold py_slice. cbn [skipn length]. rewrite skipn_nil, firstn_nil.
    reflexivity.
  - intros term term' -> Hcase.
    assert (Hsame : forall e,
               passes_filters level_filter service_filter (Some term') e
               = passes_filters level_filter service_filter (Some term) e).
    { intros e. unfold passes_filters.
      now rewrite (search_rejects_case _ _ e Hcase). }
    now rewrite (filter_ext _ _ Hsame).
Qed.

(** X5: the pages of [get_entries], for an offset and a limit that are not
    negative: a page holds [limit] records, or what is left after [offset]
    records when that is less; a page and the page that starts where it
    ends make up the page of both limits; the page from 0 with the total as
    its limit holds every entry that passes the filters, in the order of the
    file; and "total" does not depend on the offset or the limit. *)
Theorem get_entries_pages (entries : list LogEntry) (offset limit more : Z)
    (level_filter service_filter search_term : option str) :
  (0 <= offset)%Z -> (0 <= limit)%Z -> (0 <= more)%Z ->
  let page o n := get_entries entries o n level_filter service_filter
                              search_term in
  length (page_entries (page offset limit))
  = Nat.min (Z.to_nat limit)
            (page_total (page offset limit) - Z.to_nat offset)
  /\ page_entries (page offset limit)
     ++ page_entries (page (offset + limit)%Z more)
     = page_entries (page offset (limit + more)%Z)
  /\ page_entries (page 0%Z (Z.of_nat (page_total (page offset limit))))
     = map _entry_to_dict
           (filter (passes_filters level_filter service_filter search_term)
                   entries)
  /\ page_total (page offset limit) = page_total (page 0%Z 0%Z).
Proof.
  intros Ho Hl Hm page. subst page. unfold get_entries.
  cbn [page_entries page_total].
  set (kept := filter _ entries).
  rewrite !py_slice_window by lia.
  split; [|split; [|split; [|reflexivity]]].
  - now rewrite length_map, length_firstn, length_skipn.
  - rewrite <- map_app. f_equal.
    rewrite Z2Nat.inj_add by lia.
    rewrite (Z2Nat.inj_add limit more) by lia.
    rewrite firstn_add, skipn_skipn. f_equal. f_equal. f_equal. lia.
  - cbn [Z.to_nat skipn]. now rewrite Nat2Z.id, firstn_all.
Qed.

Import Examples.

Lemma get_entries_pages_witness :
  page_entries (get_entries timeline_entries 1 2 None None None)
  ++ page_entries (get_entries timeline_entries (1 + 2) 1 None None None)
  = page_entries (get_entries timeline_entries 1 (2 + 1) None None None).
Proof.
  apply (@get_entries_pages timeline_entries 1 2 1 None None None); lia.
Defined.

End Queries.

(** ** Statistics, chat context and time series *)

Module Summaries.

Import LogAnalyzer FileProcessor TextFacts DictFacts SortFacts ListFacts.
Import Clustering CountFacts Distributions.

Section Constant.

Context {A K : Type}.
Variable keq : K -> K -> bool.
Variable key : A -> K.
Variable k : K.
Hypothesis keq_refl : keq k k = true.

(** Items of one key fill one counter. *)
Lemma tally_constant (l : list A) :
  (forall x, In x l -> key x = k) -> l <> [] ->
  fold_left (fun d x => Dict.update keq (key x) S 0 d) l []
  = [(k, length l)].
Proof.
  induction l as [|x l IH] using rev_ind; [contradiction|].
  intros Hk _. rewrite fold_left_app, length_app. cbn [fold_left length].
  rewrite (Hk x) by (apply in_or_app; right; now left).
  destruct l as [|y l].
  - reflexivity.
  - rewrite IH; [|intros z Hz; apply Hk, in_or_app; now left|discriminate].
    cbn [Dict.update]. rewrite keq_refl. do 2 f_equal. lia.
Qed.

End Constant.

Lemma filter_nil_all {A} (f : A -> bool) (l : list A) :
  filter f l = [] -> forall x, In x l -> f x = false.
Proof.
  intros H x Hx. destruct (f x) eqn:E; [|reflexivity].
  assert (Hin : In x (filter f l)) by (apply filter_In; now split).
  rewrite H in Hin. contradiction.
Qed.

Lemma positive_length {A} (l : list A) :
  (0 <? length l) = match l with [] => false | _ => true end.
Proof. now destruct l. Qed.

Lemma timestamps_none (l : list LogEntry) :
  timestamps l = [] <-> filter has_timestamp l = [].
Proof.
  unfold timestamps, has_timestamp.
  induction l as [|e l IH]; cbn; [tauto|].
  destruct (timestamp e); cbn; [split; discriminate | exact IH].
Qed.

(** X6: [get_basic_stats] returns exactly when the timestamps present are
    all naive or all aware and raises [TypeError] otherwise.  In what it
    returns, the level counts add up to the number of entries,
    "has_timestamps" tells whether the date range has a start and an end,
    and when "has_services" is false every entry is counted under
    "unknown". *)
Theorem basic_stats_consistent (entries : list LogEntry) :
  match get_basic_stats entries with
  | Ok stats =>
      same_kind (timestamps entries) = true
      /\ stats_total_entries stats = length entries
      /\ total (map snd (stats_level_counts stats)) = length entries
      /\ is_some (fst (stats_date_range stats)) = stats_has_timestamps stats
      /\ is_some (snd (stats_date_range stats)) = stats_has_timestamps stats
      /\ (stats_has_services stats = false ->
            stats_service_counts stats
            = match entries with
              | [] => []
              | _ => [(lit "unknown", length entries)]
              end)
  | Raise e => e = TypeError /\ same_kind (timestamps entries) = false
  end.
Proof.
  unfold get_basic_stats. pose proof (date_range_outcome entries) as Hr.
  cbn zeta in Hr.
  destruct (_get_date_range entries) as [[lo hi]|e]; cbn [bind];
    [|exact Hr].
  destruct Hr as [Hk Hr].
  cbn [stats_total_entries stats_level_counts stats_date_range
       stats_has_timestamps stats_has_services stats_service_counts fst snd].
  split; [exact Hk|]. split; [reflexivity|]. split; [|split; [|split]].
  - apply (tally_total level_eqb).
  - rewrite positive_length.
    destruct lo, hi; try contradiction; cbn [is_some].
    + destruct Hr as (Hlo & _).
      destruct (filter has_timestamp entries) eqn:E; [|reflexivity].
      apply timestamps_none in E. rewrite E in Hlo. contradiction.
    + apply timestamps_none in Hr. now rewrite Hr.
  - rewrite positive_length.
    destruct lo, hi; try contradiction; cbn [is_some].
    + destruct Hr as (Hlo & _).
      destruct (filter has_timestamp entries) eqn:E; [|reflexivity].
      apply timestamps_none in E. rewrite E in Hlo. contradiction.
    + apply timestamps_none in Hr. now rewrite Hr.
  - rewrite positive_length. intros Hs.
    destruct (filter has_service entries) eqn:E; [|discriminate].
    destruct entries as [|e0 l0] eqn:He; [reflexivity|]. rewrite <- He in *.
    unfold _get_service_distribution.
    rewrite (@tally_constant _ _ str_eqb _ (lit "unknown")).
    + reflexivity.
    + reflexivity.
    + intros e Hin. pose proof (filter_nil_all _ _ E e Hin) as Hno.
      unfold has_service, truthy_text in Hno.
      destruct (service e) as [s|]; [|reflexivity].
      now destruct (nonempty s).
    + rewrite He. discriminate.
Qed.

Lemma is_error_level (e : LogEntry) :
  is_error e = true ->
  In (option_map level_value (level e))
     [Some (lit "ERROR"); Some (lit "FATAL"); Some (lit "CRITICAL")].
Proof.
  unfold is_error. destruct (level e) as [[]|]; try discriminate; intros _;
    cbn; tauto.
Qed.

(** X7: [get_file_context_for_chat] returns exactly when [_get_date_range]
    does.  Its sample is made of the first ten entries, or of all when
    there are fewer; its error entries are made of the first five entries
    of level ERROR, FATAL or CRITICAL; its services are at most ten, the
    most frequent first. *)
Theorem chat_context_samples (entries : list LogEntry) :
  match get_file_context_for_chat entries with
  | Ok ctx =>
      same_kind (timestamps entries) = true
      /\ ctx_total_entries ctx = length entries
      /\ ctx_sample_entries ctx = map _entry_to_dict (firstn 10 entries)
      /\ length (ctx_sample_entries ctx) = Nat.min 10 (length entries)
      /\ ctx_error_entries ctx
         = map _entry_to_dict (firstn 5 (filter is_error entries))
      /\ (forall d, In d (ctx_error_entries ctx) ->
            In (d_level d) [Some (lit "ERROR"); Some (lit "FATAL");
                            Some (lit "CRITICAL")])
      /\ length (ctx_services ctx) <= 10
      /\ StronglySorted (fun a b => snd b <= snd a) (ctx_services ctx)
  | Raise e => e = TypeError /\ same_kind (timestamps entries) = false
  end.
Proof.
  unfold get_file_context_for_chat.
  pose proof (date_range_outcome entries) as Hr. cbn zeta in Hr.
  destruct (_get_date_range entries) as [range|e]; cbn [bind]; [|exact Hr].
  destruct Hr as [Hk _].
  cbn [ctx_total_entries ctx_sample_entries ctx_error_entries ctx_services].
  assert (Hsample : (if 10 <? length entries then firstn 10 entries
                     else entries) = firstn 10 entries).
  { destruct (10 <? length entries) eqn:E; [reflexivity|].
    apply Nat.ltb_ge in E. now rewrite firstn_all2. }
  rewrite Hsample.
  split; [exact Hk|]. split; [reflexivity|]. split; [reflexivity|].
  split; [now rewrite length_map, length_firstn|]. split; [reflexivity|].
  split; [|split].
  - intros d Hd. apply in_map_iff in Hd as (e & <- & He).
    apply in_firstn, filter_In in He as [_ He]. now apply is_error_level.
  - apply firstn_le_length.
  - apply firstn_strongly_sorted. unfold _get_service_distribution.
    apply firstn_strongly_sorted, (by_count_sorted (@snd str nat)).
Qed.

(** *** [_generate_time_series] *)

Section Measures.

Context {K V : Type}.
Variable keq : K -> K -> bool.
Variable mu : V -> nat.
Variable f : V -> V.
Variable dflt : V.
Variable delta : nat.
Hypothesis mu_dflt : mu dflt = 0.
Hypothesis mu_f : forall v, mu (f v) = mu v + delta.

(** An update adds [delta] to the sum of a measure over the values. *)
Lemma update_measure (k : K) (d : list (K * V)) :
  total (map (fun kv => mu (snd kv)) (Dict.update keq k f dflt d))
  = total (map (fun kv => mu (snd kv)) d) + delta.
Proof.
  unfold total. induction d as [|[k' v] d IH]; cbn.
  - rewrite mu_f, mu_dflt. lia.
  - destruct (keq k' k); cbn; [rewrite mu_f | rewrite IH]; lia.
Qed.

End Measures.

Lemma update_forall {K V} (keq : K -> K -> bool) (P : V -> Prop)
    (k : K) (f : V -> V) (dflt : V) (d : list (K * V)) :
  (forall v, P v -> P (f v)) -> P (f dflt) ->
  Forall (fun kv => P (snd kv)) d ->
  Forall (fun kv => P (snd kv)) (Dict.update keq k f dflt d).
Proof.
  intros Hf Hd. induction 1 as [|[k' v] d Hv Hall IH]; cbn.
  - now repeat constructor.
  - cbn [snd] in Hv. destruct (keq k' k); constructor; cbn [snd]; auto.
Qed.

Lemma error_not_warn (e : LogEntry) : is_error e = true -> is_warn e = false.
Proof. unfold is_error, is_warn. now destruct (level e) as [[]|]. Qed.

Lemma error_not_info (e : LogEntry) : is_error e = true -> is_info e = false.
Proof. unfold is_error, is_info. now destruct (level e) as [[]|]. Qed.

Lemma warn_not_info (e : LogEntry) : is_warn e = true -> is_info e = false.
Proof. unfold is_warn, is_info. now destruct (level e) as [[]|]. Qed.

(** The state of the loop of [_generate_time_series] after the entries
    [l]. *)
Lemma hourly_data_invariant (l : list LogEntry) :
  let d :=
    fold_left (fun d e =>
                 match timestamp e with
                 | Some t => Dict.update dt_eqb (replace_minute t 0)
                                         (count_series e) no_counts d
                 | None => d
                 end) l [] in
  total (map (fun kc => c_total (snd kc)) d) = count_if has_timestamp l
  /\ total (map (fun kc => c_error (snd kc)) d)
     = count_if (fun e => has_timestamp e && is_error e) l
  /\ total (map (fun kc => c_warn (snd kc)) d)
     = count_if (fun e => has_timestamp e && is_warn e) l
  /\ total (map (fun kc => c_info (snd kc)) d)
     = count_if (fun e => has_timestamp e && is_info e) l
  /\ Forall (fun kc => c_error (snd kc) + c_warn (snd kc) + c_info (snd kc)
                       <= c_total (snd kc)
                       /\ c_other (snd kc) = 0 /\ 0 < c_total (snd kc)) d.
Proof.
  induction l as [|e l IH] using rev_ind.
  - cbn. repeat split; constructor.
  - cbn zeta in *. rewrite fold_left_app. cbn [fold_left].
    rewrite !count_if_app. unfold count_if at 2 4 6 8. cbn [filter].
    unfold has_timestamp at 2 4 6 8.
    destruct IH as (Ht & He & Hw & Hi & Hall).
    destruct (timestamp e) as [t|]; cbn [andb length].
    + split; [|split; [|split; [|split]]].
      * rewrite update_measure with (delta := 1); [lia|reflexivity|].
        intros c. unfold count_series.
        destruct (is_error e), (is_warn e), (is_info e); cbn; lia.
      * rewrite update_measure with (delta := if is_error e then 1 else 0);
          [destruct (is_error e); cbn [length]; lia|reflexivity|].
        intros c. unfold count_series.
        destruct (is_error e), (is_warn e), (is_info e); cbn; lia.
      * rewrite update_measure with (delta := if is_warn e then 1 else 0);
          [destruct (is_warn e); cbn [length]; lia|reflexivity|].
        intros c. unfold count_series.
        destruct (is_error e) eqn:E1;
          [rewrite (error_not_warn e E1); cbn; lia|].
        destruct (is_warn e), (is_info e); cbn; lia.
      * rewrite update_measure with (delta := if is_info e then 1 else 0);
          [destruct (is_info e); cbn [length]; lia|reflexivity|].
        intros c. unfold count_series.
        destruct (is_error e) eqn:E1;
          [rewrite (error_not_info e E1); cbn; lia|].
        destruct (is_warn e) eqn:E2;
          [rewrite (warn_not_info e E2); cbn; lia|].
        destruct (is_info e); cbn; lia.
      * apply (@update_forall _ _ dt_eqb
                 (fun c => c_error c + c_warn c + c_info c <= c_total c
                           /\ c_other c = 0 /\ 0 < c_total c));
          [| |exact Hall].
        -- intros c (H1 & H2 & H3). unfold count_series.
           destruct (is_error e), (is_warn e), (is_info e); cbn; lia.
        -- unfold count_series.
           destruct (is_error e), (is_warn e), (is_info e); cbn; lia.
    + rewrite !Nat.add_0_r. now repeat split.
Qed.

(** X8: in the hourly series of [_generate_time_series] the totals add up
    to the number of entries with a timestamp, and the error, warning and
    info counts to the numbers of such entries of level ERROR, FATAL or
    CRITICAL, of level WARN or WARNING, and of level INFO; a point counts
    at least one entry, its three counts do not exceed its total (an entry
    of another level or of none is in the total only), and the points are
    in ascending order of their timestamp text. *)
Theorem time_series_totals (entries : list LogEntry) :
  let series := _generate_time_series entries in
  total (map total_count series) = count_if has_timestamp entries
  /\ total (map error_count series)
     = count_if (fun e => has_timestamp e && is_error e) entries
  /\ total (map warn_count series)
     = count_if (fun e => has_timestamp e && is_warn e) entries
  /\ total (map info_count series)
     = count_if (fun e => has_timestamp e && is_info e) entries
  /\ (forall p, In p series ->
        error_count p + warn_count p + info_count p <= total_count p
        /\ 0 < total_count p)
  /\ StronglySorted (fun a b => str_leb (bucket a) (bucket b) = true) series.
Proof.
  intros series. subst series. unfold _generate_time_series.
  destruct (hourly_data_invariant entries) as (Ht & He & Hw & Hi & Hall).
  set (d := fold_left _ entries []) in *.
  set (points := map _ d).
  assert (Hperm : Permutation
                    (sorted (fun a b => str_leb (bucket a) (bucket b)) points)
                    points) by apply sorted_perm.
  assert (Hsum : forall (g : TimelinePoint -> nat) (h : counts -> nat),
             (forall kc, g (timeline_point kc) = h (snd kc)) ->
             total (map g (sorted (fun a b => str_leb (bucket a) (bucket b))
                                  points))
             = total (map (fun kc => h (snd kc)) d)).
  { intros g h Hgh.
    rewrite (total_perm (Permutation_map g Hperm)).
    subst points. rewrite map_map. f_equal. apply map_ext.
    intros kc. now rewrite Hgh. }
  split; [|split; [|split; [|split; [|split]]]].
  - now rewrite (Hsum total_count c_total).
  - now rewrite (Hsum error_count c_error).
  - now rewrite (Hsum warn_count c_warn).
  - now rewrite (Hsum info_count c_info).
  - intros p Hp. apply sorted_in in Hp. subst points.
    apply in_map_iff in Hp as (kc & <- & Hkc).
    rewrite Forall_forall in Hall.
    destruct (Hall kc Hkc) as (Hle & _ & Hpos). now split.
  - apply sorted_strongly_sorted.
    + intros a b. apply str_leb_total.
    + intros a b c. apply str_leb_trans.
Qed.

End Summaries.

(** ** Buckets of the timeline, and files without timestamps *)

Module Rounding.

Import LogAnalyzer FileProcessor TextFacts DictFacts SortFacts ListFacts.
Import Clustering ReFacts.

Local Open Scope Z_scope.

Lemma parse_interval_values (interval : str) :
  In (_parse_interval interval) [1; 5; 15; 30; 60; 120; 360; 720; 1440].
Proof.
  unfold _parse_interval. cbn [Dict.get].
  repeat match goal with
         | |- context [if ?b then _ else _] => destruct b
         end; cbn; tauto.
Qed.

(** X9: [_round_timestamp] with the minutes of an interval token.  The
    minutes are one of 1, 5, 15, 30, 60, 120, 360, 720 and 1440, so they
    divide the day.  For a timestamp with a time of day, the result keeps
    the date and the offset, has no seconds, starts a multiple of the
    interval after midnight, is not after the timestamp and less than one
    interval before it, and is left unchanged by rounding it again. *)
Theorem round_timestamp_floor (t : datetime) (interval : str) :
  0 <= hour t <= 23 -> 0 <= minute t <= 59 ->
  0 <= second t <= 59 -> 0 <= microsecond t <= 999999 ->
  let minutes := _parse_interval interval in
  let r := _round_timestamp t minutes in
  1440 mod minutes = 0
  /\ (year r, month r, day r, tzinfo r) = (year t, month t, day t, tzinfo t)
  /\ second r = 0 /\ microsecond r = 0
  /\ 0 <= hour r <= 23 /\ 0 <= minute r <= 59
  /\ (hour r * 60 + minute r) mod minutes = 0
  /\ wall_us r <= wall_us t < wall_us r + minutes * 60 * us_per_second
  /\ _round_timestamp r minutes = r.
Proof.
  intros Hh Hm Hs Hu minutes r.
  assert (Hpos : 0 < minutes).
  { subst minutes. pose proof (parse_interval_values interval) as H.
    cbn [In] in H. lia. }
  assert (Hday : 1440 mod minutes = 0).
  { subst minutes. pose proof (parse_interval_values interval) as H.
    cbn [In] in H.
    repeat (destruct H as [<-|H]; [reflexivity|]). contradiction. }
  clearbody minutes. split; [exact Hday|]. clear Hday.
  subst r. unfold _round_timestamp, replace_hour_minute.
  cbn [year month day hour minute second microsecond tzinfo].
  set (tm := hour t * 60 + minute t).
  set (k := tm / minutes).
  assert (Hk : minutes * k <= tm < minutes * k + minutes).
  { subst k. split.
    - apply Z.mul_div_le. lia.
    - pose proof (Z.mul_succ_div_gt tm minutes Hpos). lia. }
  assert (Hk0 : 0 <= k) by (subst k; apply Z.div_pos; lia).
  assert (Hrm : 0 <= k * minutes <= tm) by nia.
  set (rm := k * minutes) in *.
  pose proof (Z.div_mod rm 60 ltac:(lia)) as Hdm.
  pose proof (Z.mod_pos_bound rm 60 ltac:(lia)) as Hmod.
  assert (Hq : 0 <= rm / 60 <= 23).
  { split; [apply Z.div_pos; lia|].
    apply Z.lt_succ_r, Z.div_lt_upper_bound; lia. }
  split; [reflexivity|]. split; [reflexivity|]. split; [reflexivity|].
  split; [exact Hq|]. split; [lia|].
  assert (Hback : rm / 60 * 60 + rm mod 60 = rm) by lia.
  split; [|split].
  - rewrite Hback. subst rm. apply Z.mod_mul. lia.
  - unfold wall_us, us_per_second.
    cbn [year month day hour minute second microsecond].
    set (d := ymd2ord (year t) (month t) (day t)).
    subst tm. nia.
  - rewrite Hback. subst rm. rewrite Z.div_mul by lia. reflexivity.
Qed.

Import Examples.

Lemma round_timestamp_floor_witness :
  let t := DateTime 2024 1 1 10 47 31 250000 None in
  _round_timestamp (_round_timestamp t (_parse_interval (lit "15m")))
                   (_parse_interval (lit "15m"))
  = _round_timestamp t (_parse_interval (lit "15m")).
Proof.
  cbn zeta.
  apply (@round_timestamp_floor (DateTime 2024 1 1 10 47 31 250000 None)
                                (lit "15m"));
    cbn; lia.
Defined.

End Rounding.

Module WithoutTimestamps.

Import LogAnalyzer FileProcessor TextFacts DictFacts SortFacts ListFacts.
Import Clustering ReFacts Summaries.

Lemma mapM_all_raise {A B} (f : A -> result B) (l : list A) (e : exn) :
  l <> [] -> (forall a, In a l -> f a = Raise e) -> mapM f l = Raise e.
Proof.
  destruct l as [|a l]; [contradiction|]. intros _ H. cbn [mapM].
  now rewrite (H a (or_introl eq_refl)).
Qed.

Lemma timestamps_incl (l l' : list LogEntry) :
  (forall e, In e l' -> In e l) ->
  timestamps l = [] -> timestamps l' = [].
Proof.
  intros Hincl H. unfold timestamps in *.
  destruct (flat_map _ l') as [|t ts] eqn:E; [reflexivity|].
  assert (Hin : In t (flat_map (fun e => match timestamp e with
                                         | Some t => [t]
                                         | None => []
                                         end) l'))
    by (rewrite E; now left).
  apply in_flat_map in Hin as (e & He & Ht).
  assert (Hin : In t (flat_map (fun e => match timestamp e with
                                         | Some t => [t]
                                         | None => []
                                         end) l))
    by (apply in_flat_map; exists e; split; [now apply Hincl | exact Ht]).
  rewrite H in Hin. contradiction.
Qed.

Lemma no_timestamps (l : list LogEntry) :
  (forall e, In e l -> timestamp e = None) -> timestamps l = [].
Proof.
  intros H. unfold timestamps. apply flat_map_nil.
  intros e He. now rewrite (H e He).
Qed.

Lemma series_without_timestamps (l : list LogEntry) (d : list (datetime * counts)) :
  (forall e, In e l -> timestamp e = None) ->
  fold_left (fun d e =>
               match timestamp e with
               | Some t => Dict.update dt_eqb (replace_minute t 0)
                                       (count_series e) no_counts d
               | None => d
               end) l d = d.
Proof.
  revert d. induction l as [|e l IH]; intros d H; cbn [fold_left];
    [reflexivity|].
  rewrite (H e) by now left. apply IH. intros x Hx. apply H. now right.
Qed.

(** X10: [analyze_file] on entries none of which has a timestamp.  When no
    two entries of level ERROR, FATAL or CRITICAL share a normalized
    message, it returns the number of entries and the two distributions
    with an empty date range and no patterns, anomalies or time series;
    when two such entries share one, it raises [ValueError]. *)
Theorem analyze_file_without_timestamps (entries : list LogEntry) :
  (forall e, In e entries -> timestamp e = None) ->
  let shared k :=
    count_if (fun e => is_error e
                       && str_eqb (_normalize_error_message (message e)) k)
             entries in
  ((forall k, shared k < 2) ->
     analyze_file entries
     = Ok (mkLogAnalysis (length entries) (None, None)
                         (_get_level_distribution entries)
                         (_get_service_distribution entries) [] [] []))
  /\ ((exists k, 2 <= shared k) -> analyze_file entries = Raise ValueError).
Proof.
  intros Hnone shared.
  pose proof (no_timestamps entries Hnone) as Hts.
  assert (Hrange : _get_date_range entries = Ok (None, None))
    by (unfold _get_date_range; now rewrite Hts).
  assert (Hanom : _detect_anomalies entries = Ok []).
  { assert (Htime : (if 100 <? length entries
                     then _detect_time_anomalies entries else Ok []) = Ok []).
    { destruct (100 <? length entries); [|reflexivity].
      unfold _detect_time_anomalies, sorted_by_timestamp.
      now rewrite (proj1 (timestamps_none entries) Hts). }
    assert (Hvol : _detect_volume_anomalies entries = []).
    { unfold _detect_volume_anomalies, hourly_counts. now rewrite Hts. }
    assert (Hspike : _detect_error_spikes entries = []).
    { unfold _detect_error_spikes.
      rewrite filter_none; [reflexivity|].
      intros e He. unfold has_timestamp.
      rewrite (Hnone e He). apply andb_false_r. }
    unfold _detect_anomalies. now rewrite Htime, Hvol, Hspike. }
  assert (Hseries : _generate_time_series entries = []).
  { unfold _generate_time_series.
    now rewrite series_without_timestamps. }
  destruct (group_invariant _normalize_error_message
              (filter is_error entries)) as (Hnd & Hkeys & Hmem).
  assert (Hlen : forall k members,
             In (k, members)
                (group_by_message _normalize_error_message
                                  (filter is_error entries)) ->
             length members = shared k).
  { intros k members Hg. subst shared. cbn beta.
    rewrite <- count_if_filter. unfold count_if.
    now rewrite <- (Hmem _ _ Hg). }
  split.
  - intros Hfew.
    assert (Hpat : _detect_error_patterns entries = Ok []).
    { unfold _detect_error_patterns.
      destruct (filter is_error entries) as [|e1 l1] eqn:Hf; [reflexivity|].
      rewrite <- Hf in *.
      rewrite filter_none; [reflexivity|].
      intros [k members] Hg. unfold recurring. cbn [snd].
      apply Nat.leb_gt. rewrite (Hlen _ _ Hg). apply Hfew. }
    unfold analyze_file. destruct entries as [|e0 l0]; [reflexivity|].
    rewrite Hrange. cbn [bind]. rewrite Hpat, Hanom. cbn [bind].
    now rewrite Hseries.
  - intros (k & Hk).
    assert (Hpat : _detect_error_patterns entries = Raise ValueError).
    { unfold _detect_error_patterns.
      destruct (filter is_error entries) as [|e1 l1] eqn:Hf.
      { exfalso. subst shared. cbn beta in Hk.
        rewrite <- count_if_filter, Hf in Hk. cbn in Hk. lia. }
      rewrite <- Hf in *.
      rewrite (@mapM_all_raise _ _ pattern_of _ ValueError);
        [reflexivity| |].
      - assert (Hkey : In k (map fst (group_by_message
                                        _normalize_error_message
                                        (filter is_error entries)))).
        { subst shared. cbn beta in Hk. rewrite <- count_if_filter in Hk.
          unfold count_if in Hk.
          destruct (filter _ (filter is_error entries)) as [|e l] eqn:E;
            [cbn in Hk; lia|].
          assert (Hin : In e (filter
                                (fun e => str_eqb (_normalize_error_message
                                                     (message e)) k)
                                (filter is_error entries)))
            by (rewrite E; now left).
          apply filter_In in Hin as [Hin Hk']. apply str_eqb_eq in Hk'.
          subst k. now apply Hkeys. }
        apply in_map_iff in Hkey as ([k' members] & Ek & Hg).
        cbn in Ek. subst k'.
        intros Hnil.
        assert (Hin : In (k, members)
                         (filter recurring
                            (group_by_message _normalize_error_message
                                              (filter is_error entries)))).
        { apply filter_In. split; [assumption|]. unfold recurring.
          cbn [snd]. apply Nat.leb_le. now rewrite (Hlen _ _ Hg). }
        rewrite Hnil in Hin. contradiction.
      - intros [k' members] Hg. apply filter_In in Hg as [Hg _].
        unfold pattern_of.
        rewrite (@timestamps_incl entries members); [reflexivity| |exact Hts].
        intros e Hin. rewrite (Hmem _ _ Hg) in Hin.
        apply filter_In in Hin as [Hin _].
        now apply filter_In in Hin as [Hin _]. }
    unfold analyze_file. destruct entries as [|e0 l0]; [discriminate|].
    rewrite Hrange. cbn [bind]. now rewrite Hpat.
Qed.

Import Examples.

Lemma analyze_file_without_timestamps_witness :
  analyze_file two_errors = Raise ValueError.
Proof.
  apply (analyze_file_without_timestamps two_errors).
  - intros e [<-|[<-|[]]]; reflexivity.
  - exists (lit "disk failure"). vm_compute. lia.
Defined.

(** X11: [_normalize_error_message] leaves alone a message without digit,
    hyphen, slash and backslash, so that such messages are clustered by
    their exact text. *)
Theorem normalize_error_message_steady (message : str) :
  forallb steady_char message = true ->
  _normalize_error_message message = message.
Proof.
  intros H. unfold _normalize_error_message.
  repeat rewrite (fun r repl Hr =>
                    @sub_none_in_class steady_char r repl message Hr H);
    reflexivity.
Qed.

Lemma normalize_error_message_steady_witness :
  _normalize_error_message (lit "connection refused by peer")
  = lit "connection refused by peer".
Proof.
  apply normalize_error_message_steady. vm_compute. reflexivity.
Defined.

End WithoutTimestamps.

(** ** The extractors of service names and levels *)

Module Extractors.

Import FileProcessor TextFacts ReFacts ListFacts.

Lemma first_service_allowed (patterns : list regex) (service x : str) :
  first_service patterns service = Some x -> excluded x = false.
Proof.
  induction patterns as [|p ps IH]; cbn [first_service]; [discriminate|].
  destruct (re_search p service) as [found|]; [|exact IH].
  destruct (group 1 found) as [extracted|]; [|exact IH].
  destruct (excluded extracted) eqn:E; cbn [negb]; [exact IH|].
  intros [= <-]. exact E.
Qed.

(** X12: whatever [_extract_service] returns is not on the list of
    [_get_excluded_service_names], whatever its case. *)
Theorem extract_service_never_stoplisted (service_input : option str)
    (s : str) :
  _extract_service service_input = Some s ->
  excluded s = false
  /\ forall name, In name _get_excluded_service_names -> lower s <> name.
Proof.
  intros H.
  assert (Hex : excluded s = false).
  { unfold _extract_service in H.
    destruct service_input as [input|]; [|discriminate].
    destruct (negb (nonempty input)); [discriminate|].
    destruct (negb (existsb _ _)).
    - destruct (excluded (strip input)) eqn:E; cbn [negb] in H;
        [discriminate|].
      injection H as <-. exact E.
    - destruct (first_service _ _) as [extracted|] eqn:E.
      + injection H as <-. now apply first_service_allowed in E.
      + destruct (nonempty _); cbn [andb] in H; [|discriminate].
        destruct (excluded _) eqn:E'; cbn [negb] in H; [discriminate|].
        injection H as <-. exact E'. }
  split; [exact Hex|].
  intros name Hname E. unfold excluded in Hex.
  assert (Ht : existsb (str_eqb (lower s)) _get_excluded_service_names
               = true).
  { apply existsb_exists. exists name. split; [assumption|].
    now apply str_eqb_eq. }
  congruence.
Qed.

Lemma extract_service_never_stoplisted_witness :
  excluded (lit "nginx") = false
  /\ forall name, In name _get_excluded_service_names ->
                  lower (lit "nginx") <> name.
Proof.
  apply (@extract_service_never_stoplisted
           (Some (lit "nginx[1234]: worker started")) (lit "nginx")).
  vm_compute. reflexivity.
Defined.

(** *** Levels *)

Lemma first_level_in (table : list (LogLevel * list regex)) (s : str)
    (l : LogLevel) :
  first_level table s = Some l -> In l (map fst table).
Proof.
  induction table as [|[lv ps] table IH]; cbn [first_level]; [discriminate|].
  destruct (existsb _ ps).
  - intros [= <-]. now left.
  - intros H. right. auto.
Qed.

Lemma extract_log_level_in (text : option str) (l : LogLevel) :
  _extract_log_level text = Some l ->
  In l [FATAL; ERROR; WARN; INFO; DEBUG; TRACE].
Proof.
  unfold _extract_log_level. destruct text as [t|]; [|discriminate].
  destruct (negb (nonempty t)); [discriminate|].
  destruct (first_level enhanced_patterns (upper t)) as [lv|] eqn:E.
  - intros [= <-]. apply first_level_in in E. cbn in E. cbn. tauto.
  - intros E'. apply first_level_in in E'. cbn in E'. cbn. tauto.
Qed.

Lemma flat_map_map {A B C} (f : A -> B) (g : B -> list C) (l : list A) :
  flat_map g (map f l) = flat_map (fun x => g (f x)) l.
Proof. induction l as [|x l IH]; cbn; [reflexivity | now rewrite IH]. Qed.

Lemma flat_map_flat_map {A B C} (f : A -> list B) (g : B -> list C)
    (l : list A) :
  flat_map g (flat_map f l) = flat_map (fun x => flat_map g (f x)) l.
Proof.
  induction l as [|x l IH]; cbn; [reflexivity|].
  now rewrite flat_map_app, IH.
Qed.

Lemma upper_lower_char (c : ascii) : upper_char (lower_char c) = upper_char c.
Proof.
  assert (H : forallb (fun c => str_eqb (upper_char (lower_char c))
                                        (upper_char c)) all_chars = true)
    by (vm_compute; reflexivity).
  rewrite forallb_forall in H. apply str_eqb_eq, H, all_chars_complete.
Qed.

Lemma upper_upper_char (c : ascii) :
  flat_map upper_char (upper_char c) = upper_char c.
Proof.
  assert (H : forallb (fun c => str_eqb (flat_map upper_char (upper_char c))
                                        (upper_char c)) all_chars = true)
    by (vm_compute; reflexivity).
  rewrite forallb_forall in H. apply str_eqb_eq, H, all_chars_complete.
Qed.

Lemma upper_lower (t : str) : upper (lower t) = upper t.
Proof.
  unfold upper, lower. rewrite flat_map_map.
  apply flat_map_ext, upper_lower_char.
Qed.

Lemma upper_upper (t : str) : upper (upper t) = upper t.
Proof.
  unfold upper. rewrite flat_map_flat_map.
  apply flat_map_ext, upper_upper_char.
Qed.

Lemma nonempty_lower (t : str) : nonempty (lower t) = nonempty t.
Proof. now destruct t. Qed.

Lemma nonempty_upper (t : str) : nonempty (upper t) = nonempty t.
Proof.
  destruct t as [|c t]; [reflexivity|]. unfold upper. cbn [flat_map].
  unfold upper_char.
  destruct (_ || _); [reflexivity|]. now destruct (code c =? 223).
Qed.

(** X13: [_extract_log_level] returns FATAL, ERROR, WARN, INFO, DEBUG or
    TRACE when it returns a level, never WARNING and never CRITICAL; and
    it does not depend on the case of the text. *)
Theorem extract_log_level_levels (text : str) :
  match _extract_log_level (Some text) with
  | Some l => In l [FATAL; ERROR; WARN; INFO; DEBUG; TRACE]
  | None => True
  end
  /\ _extract_log_level (Some (lower text)) = _extract_log_level (Some text)
  /\ _extract_log_level (Some (upper text)) = _extract_log_level (Some text).
Proof.
  split; [|split].
  - destruct (_extract_log_level (Some text)) eqn:E; [|exact I].
    now apply extract_log_level_in in E.
  - unfold _extract_log_level. now rewrite nonempty_lower, upper_lower.
  - unfold _extract_log_level. now rewrite nonempty_upper, upper_upper.
Qed.

End Extractors.

(** ** What holds of every parsed entry *)

Module ParsedEntries.

Import FileProcessor LogAnalyzer TextFacts ReFacts ListFacts Extractors.

Local Abbreviation parser_levels :=
  [None; Some FATAL; Some ERROR; Some WARN; Some INFO; Some DEBUG;
   Some TRACE].

Lemma extracted_level (text : option str) :
  In (_extract_log_level text) parser_levels.
Proof.
  destruct (_extract_log_level text) as [l|] eqn:E; [|now left].
  apply extract_log_level_in in E. cbn in E. cbn.
  repeat destruct E as [<-|E]; tauto.
Qed.

Lemma flat_map_forall {A B} (P : B -> Prop) (f : A -> list B) (l : list A) :
  (forall a, In a l -> Forall P (f a)) -> Forall P (flat_map f l).
Proof.
  intros H. apply Forall_forall. intros b Hb.
  apply in_flat_map in Hb as (a & Ha & Hb).
  specialize (H a Ha). rewrite Forall_forall in H. auto.
Qed.

Lemma parse_lines_forall (P : LogEntry -> Prop)
    (entry_of : str -> nat -> LogEntry) (content : str) :
  (forall line n, P (entry_of line n)) ->
  Forall P (parse_lines entry_of content).
Proof.
  intros H. unfold parse_lines. apply flat_map_forall. intros nl _.
  destruct (nonempty _); repeat constructor. apply H.
Qed.

Section Parsers.

Variable utcoffset : Z -> Z.
Variable json_loads : str -> result json.
Variable py_repr : json -> str.
Variable coerce_message : json -> result str.
Variable error_text : str -> exn -> str.
Variable dialect : Type.
Variable csv_excel : dialect.
Variable csv_sniff : str -> str -> result dialect.
Variable csv_reader : list str -> dialect -> result (list (list str)).

Local Abbreviation parse :=
  (parse_as utcoffset json_loads py_repr coerce_message error_text
            csv_excel csv_sniff csv_reader).

Lemma level_of_text (line : str) (n : nat) :
  In (level (_create_log_entry_from_text utcoffset line n)) parser_levels.
Proof. apply extracted_level. Qed.

Lemma level_of_fallback (line : str) (n : nat) (reason : str) :
  In (level (_create_fallback_entry line n reason)) parser_levels.
Proof. cbn. tauto. Qed.

Lemma level_of_json_line (line : str) (n : nat) :
  In (level (json_line_entry utcoffset json_loads py_repr coerce_message
                             error_text line n)) parser_levels.
Proof.
  unfold json_line_entry.
  destruct (json_loads line) as [[]|[]]; try apply level_of_fallback.
  destruct (_create_log_entry_from_json _ _ _ _ _ _) as [e|] eqn:E;
    [|apply level_of_fallback].
  unfold _create_log_entry_from_json in E.
  repeat (match type of E with bind ?c _ = _ => destruct c end;
          cbn [bind] in E; [|discriminate]).
  apply Ok_inj in E. subst e. cbn [level]. apply extracted_level.
Qed.

Lemma level_of_syslog_line (patterns : list regex) (line : str) (n : nat) :
  In (level (syslog_line_entry_from utcoffset error_text patterns line n))
     parser_levels.
Proof.
  induction patterns as [|p ps IH]; [apply level_of_text|].
  cbn [syslog_line_entry_from]. destruct (re_match p line) as [x|]; [|exact IH].
  unfold _create_log_entry_from_syslog_match.
  match goal with |- context [bind ?c _] => destruct c end; cbn [bind];
    [|apply level_of_fallback].
  cbn [level].
  destruct (truthy_text (group g_priority x)) as [prio|];
    [|apply extracted_level].
  destruct (py_int prio) as [v|]; [|apply extracted_level].
  destruct (_ <=? 3)%Z; [cbn; tauto|].
  destruct (_ =? 4)%Z; [cbn; tauto|].
  destruct (_ <=? 6)%Z; cbn; tauto.
Qed.

Lemma level_of_structured_line (line : str) (n : nat) :
  In (level (structured_line_entry utcoffset line n)) parser_levels.
Proof.
  unfold structured_line_entry, _create_log_entry_from_structured.
  destruct (fold_left _ _ _); [apply level_of_text|].
  match goal with |- context [bind ?c _] => destruct c end; cbn [bind];
    [|apply level_of_text].
  cbn [level]. apply extracted_level.
Qed.

Lemma level_of_csv_row (lines : list str) (row : csv_row) (n : nat) :
  In (level (csv_row_entry utcoffset error_text lines row n)) parser_levels.
Proof.
  unfold csv_row_entry. destruct row as [|kv row]; [apply level_of_fallback|].
  destruct (_create_log_entry_from_csv _ _ _) as [e|] eqn:E;
    [|apply level_of_fallback].
  unfold _create_log_entry_from_csv in E.
  repeat (match type of E with bind ?c _ = _ => destruct c end;
          cbn [bind] in E; [|discriminate]).
  apply Ok_inj in E. subst e. cbn [level].
  destruct (first_present _ _); [apply extracted_level | now left].
Qed.

Lemma levels_of_parse (fmt : LogFormat) (content : str) :
  Forall (fun e => In (level e) parser_levels) (parse fmt content).
Proof.
  assert (Hplain : Forall (fun e => In (level e) parser_levels)
                     (_parse_plain_text_logs utcoffset content))
    by apply parse_lines_forall, level_of_text.
  destruct fmt; cbn [parse_as]; try exact Hplain.
  - apply parse_lines_forall, level_of_json_line.
  - unfold _parse_csv_logs.
    destruct (parse_csv _ _ _ _ _ _) as [entries|] eqn:E; [|exact Hplain].
    unfold parse_csv in E.
    destruct (_ <? 2); [discriminate|].
    destruct (sniff_first _ _ _) as [found|]; cbn [bind] in E;
      [|discriminate].
    destruct (csv_reader _ _) as [rows|]; cbn [bind] in E; [|discriminate].
    destruct rows as [|[|h headers] data]; try discriminate.
    apply Ok_inj in E. subst entries. apply Forall_forall.
    intros e He. apply in_map_iff in He as (nr & <- & _).
    apply level_of_csv_row.
  - apply parse_lines_forall, level_of_syslog_line.
  - apply parse_lines_forall, level_of_structured_line.
Qed.

(** X14: whatever the format, no entry that the parsers return has the
    level WARNING or CRITICAL: the level is absent or one of FATAL, ERROR,
    WARN, INFO, DEBUG and TRACE.  So [get_entries] with the level filter
    "WARNING" or "CRITICAL" finds nothing in the entries of a file. *)
Theorem parsed_levels (fmt : LogFormat) (content : str) :
  let entries := parse fmt content in
  Forall (fun e => In (level e) parser_levels) entries
  /\ (forall offset limit service_filter search_term,
        page_total (get_entries entries offset limit (Some (lit "WARNING"))
                                service_filter search_term) = 0
        /\ page_total (get_entries entries offset limit
                                   (Some (lit "CRITICAL"))
                                   service_filter search_term) = 0).
Proof.
  intros entries. pose proof (levels_of_parse fmt content) as H.
  fold entries in H. split; [exact H|].
  rewrite Forall_forall in H.
  intros offset limit sf st. unfold get_entries. cbn [page_total].
  split; (rewrite Clustering.filter_none; [reflexivity|]);
    intros e He; specialize (H e He); unfold passes_filters, level_rejects;
    cbn [truthy_text nonempty lit list_ascii_of_string];
    destruct (level e) as [[]|]; try reflexivity;
    cbn in H; repeat destruct H as [H|H]; discriminate || contradiction.
Qed.

(** *** Line numbers *)

Lemma number_of_json_line (line : str) (n : nat) :
  line_number (json_line_entry utcoffset json_loads py_repr coerce_message
                               error_text line n) = n.
Proof.
  unfold json_line_entry.
  destruct (json_loads line) as [[]|[]]; try reflexivity.
  destruct (_create_log_entry_from_json _ _ _ _ _ _) as [e|] eqn:E;
    [|reflexivity].
  unfold _create_log_entry_from_json in E.
  repeat (match type of E with bind ?c _ = _ => destruct c end;
          cbn [bind] in E; [|discriminate]).
  apply Ok_inj in E. now subst e.
Qed.

Lemma number_of_syslog_line (patterns : list regex) (line : str) (n : nat) :
  line_number (syslog_line_entry_from utcoffset error_text patterns line n)
  = n.
Proof.
  induction patterns as [|p ps IH]; [reflexivity|].
  cbn [syslog_line_entry_from]. destruct (re_match p line); [|exact IH].
  unfold _create_log_entry_from_syslog_match.
  match goal with |- context [bind ?c _] => destruct c end; reflexivity.
Qed.

Lemma number_of_structured_line (line : str) (n : nat) :
  line_number (structured_line_entry utcoffset line n) = n.
Proof.
  unfold structured_line_entry, _create_log_entry_from_structured.
  destruct (fold_left _ _ _); [reflexivity|].
  match goal with |- context [bind ?c _] => destruct c end; reflexivity.
Qed.

End Parsers.

(** The loop of the line parsers: the entries are numbered by their lines,
    so in increasing order, and each holds the stripped text of its
    line. *)
Lemma parse_lines_numbers (entry_of : str -> nat -> LogEntry)
    (content : str) :
  (forall line n, line_number (entry_of line n) = n) ->
  (forall line n, raw_line (entry_of line n) = line) ->
  let lines := str_split newline (strip content) in
  StronglySorted lt (map line_number (parse_lines entry_of content))
  /\ Forall (fun e => 1 <= line_number e <= length lines
                      /\ raw_line e = strip (nth (line_number e - 1) lines [])
                      /\ nonempty (raw_line e) = true)
            (parse_lines entry_of content).
Proof.
  intros Hnum Hraw lines. unfold parse_lines, numbered_lines. fold lines.
  assert (H : forall start,
             StronglySorted lt
               (map line_number
                  (flat_map (fun nl => let line := strip (snd nl) in
                                       if nonempty line
                                       then [entry_of line (fst nl)] else [])
                            (combine (seq start (length lines)) lines)))
             /\ Forall (fun e => start <= line_number e
                                 < start + length lines
                                 /\ raw_line e
                                    = strip (nth (line_number e - start)
                                                 lines [])
                                 /\ nonempty (raw_line e) = true)
                  (flat_map (fun nl => let line := strip (snd nl) in
                                       if nonempty line
                                       then [entry_of line (fst nl)] else [])
                            (combine (seq start (length lines)) lines))).
  { induction lines as [|l ls IH]; intros start; [split; constructor|].
    cbn [length seq combine flat_map fst snd]. cbn zeta.
    destruct (IH (S start)) as [Hs Hall].
    assert (Hall' : Forall (fun e => S start <= line_number e
                                     < start + S (length ls)
                                     /\ raw_line e
                                        = strip (nth (line_number e - start)
                                                     (l :: ls) [])
                                     /\ nonempty (raw_line e) = true)
                      (flat_map (fun nl => let line := strip (snd nl) in
                                           if nonempty line
                                           then [entry_of line (fst nl)]
                                           else [])
                                (combine (seq (S start) (length ls)) ls))).
    { eapply Forall_impl; [|exact Hall]. cbn beta.
      intros e (Hrange & Hr & Hne). split; [lia|]. split; [|exact Hne].
      rewrite Hr. replace (line_number e - start)
        with (S (line_number e - S start)) by lia.
      reflexivity. }
    destruct (nonempty (strip l)) eqn:Hl; cbn [app map].
    - split.
      + constructor; [exact Hs|]. rewrite Hnum.
        apply Forall_forall. intros k Hk. apply in_map_iff in Hk as (e & <- & He).
        rewrite Forall_forall in Hall'. destruct (Hall' e He) as [? _]. lia.
      + constructor.
        * rewrite Hnum, Hraw, Nat.sub_diag. cbn [nth].
          split; [lia|]. now split.
        * eapply Forall_impl; [|exact Hall']. cbn beta.
          intros e (Hrange & Hr & Hne). split; [lia|]. now split.
    - split; [exact Hs|].
      eapply Forall_impl; [|exact Hall']. cbn beta.
      intros e (Hrange & Hr & Hne). split; [lia|]. now split. }
  destruct (H 1) as [Hs Hall]. split; [exact Hs|].
  eapply Forall_impl; [|exact Hall]. cbn beta.
  intros e (Hrange & Hr & Hne). split; [lia|]. now split.
Qed.

Section Numbers.

Variable utcoffset : Z -> Z.
Variable json_loads : str -> result json.
Variable py_repr : json -> str.
Variable coerce_message : json -> result str.
Variable error_text : str -> exn -> str.
Variable dialect : Type.
Variable csv_excel : dialect.
Variable csv_sniff : str -> str -> result dialect.
Variable csv_reader : list str -> dialect -> result (list (list str)).

Local Abbreviation parse :=
  (parse_as utcoffset json_loads py_repr coerce_message error_text
            csv_excel csv_sniff csv_reader).

(** X15: parsed as JSON, as syslog, as key=value or as plain text, the
    entries come in increasing order of their line numbers; the line
    number of an entry is the position, counted from 1, of its line among
    the lines of the stripped content, and its raw line is that line
    without the blanks around it, which is not empty. *)
Theorem line_numbers_point_to_lines (content : str) :
  let lines := str_split newline (strip content) in
  Forall (fun fmt =>
            StronglySorted lt (map line_number (parse fmt content))
            /\ Forall (fun e =>
                         1 <= line_number e <= length lines
                         /\ raw_line e
                            = strip (nth (line_number e - 1) lines [])
                         /\ nonempty (raw_line e) = true)
                      (parse fmt content))
         [JSON; SYSLOG; CUSTOM; PLAIN_TEXT].
Proof.
  intros lines. repeat constructor; cbn [parse_as].
  - apply parse_lines_numbers;
      [apply number_of_json_line | apply LineParsers.raw_of_json_line].
  - apply parse_lines_numbers;
      [apply number_of_json_line | apply LineParsers.raw_of_json_line].
  - apply parse_lines_numbers;
      [apply number_of_syslog_line | apply LineParsers.raw_of_syslog_line].
  - apply parse_lines_numbers;
      [apply number_of_syslog_line | apply LineParsers.raw_of_syslog_line].
  - apply parse_lines_numbers;
      [apply number_of_structured_line
      | apply LineParsers.raw_of_structured_line].
  - apply parse_lines_numbers;
      [apply number_of_structured_line
      | apply LineParsers.raw_of_structured_line].
  - now apply parse_lines_numbers.
  - now apply parse_lines_numbers.
Qed.

End Numbers.

End ParsedEntries.

(** ** CSV rows, and the two entry points *)

Module EntryPoints.

Import FileProcessor TextFacts ListFacts.

Section Parsers.

Variable utcoffset : Z -> Z.
Variable json_loads : str -> result json.
Variable py_repr : json -> str.
Variable coerce_message : json -> result str.
Variable error_text : str -> exn -> str.
Variable dialect : Type.
Variable csv_excel : dialect.
Variable csv_sniff : str -> str -> result dialect.
Variable csv_reader : list str -> dialect -> result (list (list str)).

Lemma number_of_csv_row (lines : list str) (row : csv_row) (n : nat) :
  line_number (csv_row_entry utcoffset error_text lines row n) = n.
Proof.
  unfold csv_row_entry. destruct row as [|kv row]; [reflexivity|].
  destruct (_create_log_entry_from_csv _ _ _) as [e|] eqn:E; [|reflexivity].
  unfold _create_log_entry_from_csv in E.
  repeat (match type of E with bind ?c _ = _ => destruct c end;
          cbn [bind] in E; [|discriminate]).
  apply Ok_inj in E. now subst e.
Qed.

Lemma numbers_of_rows {A} (f : nat * A -> LogEntry) (start : nat)
    (rows : list A) :
  (forall nr, line_number (f nr) = fst nr) ->
  map line_number (map f (combine (seq start (length rows)) rows))
  = seq start (length rows).
Proof.
  intros Hf. revert start.
  induction rows as [|r rows IH]; intros start; [reflexivity|].
  cbn [length seq combine map]. now rewrite Hf, IH.
Qed.

(** X16: [_parse_csv_logs] never fails, and what it returns is decided
    by the number of lines, the sniffer and the reader.  With fewer than
    two lines, or when the sniffer raises something other than
    [csv.Error], it returns what the plain-text parser returns.  Otherwise
    the reader is run with the dialect found (the excel dialect when every
    delimiter was turned down): when it yields a header that is not empty,
    the result holds one entry for each row after the header that is not
    empty, numbered from 2 in the order of the rows; when it raises or
    yields no header, the result is again that of the plain-text
    parser. *)
Theorem csv_one_entry_per_row (content : str) :
  let lines := splitlines content in
  let sample := join [newline] (firstn (Nat.min 10 (length lines)) lines) in
  let sniffed := sniff_first csv_sniff sample [","; ";"; tab; "|"] in
  let parsed := _parse_csv_logs utcoffset error_text csv_excel csv_sniff
                                csv_reader content in
  let plain := _parse_plain_text_logs utcoffset content in
  (length lines < 2 -> parsed = plain)
  /\ (forall e, sniffed = Raise e -> parsed = plain)
  /\ (forall found, 2 <= length lines -> sniffed = Ok found ->
        match csv_reader lines (match found with
                                | Some dia => dia
                                | None => csv_excel
                                end) with
        | Ok ((_ :: _) :: data) =>
            length parsed
            = count_if (fun row => match row with [] => false | _ => true end)
                       data
            /\ map line_number parsed = seq 2 (length parsed)
        | _ => parsed = plain
        end).
Proof.
  intros lines sample sniffed parsed plain.
  subst parsed. unfold _parse_csv_logs, parse_csv.
  fold lines. fold sample. fold sniffed. fold plain.
  split; [|split].
  - intros Hlen. apply Nat.ltb_lt in Hlen. now rewrite Hlen.
  - intros e He. rewrite He. now destruct (length lines <? 2).
  - intros found Hlen Hfound. apply Nat.ltb_ge in Hlen.
    rewrite Hlen, Hfound. cbn [bind].
    destruct (csv_reader lines _) as [rows|]; cbn [bind]; [|reflexivity].
    destruct rows as [|[|h header] data]; try reflexivity.
    rewrite !length_map, length_combine, length_seq, Nat.min_id.
    split; [reflexivity|].
    apply numbers_of_rows. intros nr. apply number_of_csv_row.
Qed.

(** X17: [process_file] and [process_content] agree on a file that is not
    blank: with the base name of the path as the file name,
    [process_file] returns the entries that [process_content] returns, and
    raises [LogParsingError] when [process_content] raises; on a blank
    file [process_content] returns no entries, as plain text, where
    [process_file] raises [LogParsingError]. *)
Theorem process_file_agrees (content file_path : str) :
  let filename := last (str_split "/" file_path) [] in
  let by_path :=
    process_file utcoffset json_loads py_repr coerce_message error_text
                 csv_excel csv_sniff csv_reader content file_path in
  match process_content utcoffset json_loads py_repr coerce_message
                        error_text csv_excel csv_sniff csv_reader
                        content filename with
  | Ok (entries, fmt) =>
      if nonempty (strip content) then by_path = Ok entries
      else entries = [] /\ fmt = PLAIN_TEXT /\ by_path = Raise LogParsingError
  | Raise _ =>
      nonempty (strip content) = true /\ by_path = Raise LogParsingError
  end.
Proof.
  intros filename by_path. subst by_path.
  unfold process_content, process_file. fold filename.
  destruct (nonempty (strip content)); cbn [negb]; [|now repeat split].
  destruct (_detect_log_format _ _ _ _ _) as [[fmt q]|]; cbn [bind fst];
    [reflexivity | now split].
Qed.

End Parsers.

End EntryPoints.

(** ** Grouping into a dictionary of lists *)

Module GroupFacts.

Import LogAnalyzer PatternDetector FileProcessor.
Import TextFacts DictFacts SortFacts ListFacts Clustering Distributions.

Lemma fold_left_ext {A B} (f g : A -> B -> A) (l : list B) (a : A) :
  (forall a b, f a b = g a b) -> fold_left f l a = fold_left g l a.
Proof.
  intros H. revert a. induction l as [|b l IH]; intros a; cbn;
    [reflexivity|].
  now rewrite H, IH.
Qed.

Section Grouping.

Context {A : Type}.
Variable select : A -> option str.

Local Abbreviation grouped l :=
  (fold_left (fun d x =>
                match select x with
                | Some k => Dict.update str_eqb k (fun m => m ++ [x]) [] d
                | None => d
                end) l []).

Local Abbreviation selects k :=
  (fun x => match select x with
            | Some k' => str_eqb k' k
            | None => false
            end).

(** The keys are distinct, every key selected is present, and under a key
    are the items that select it, in their order. *)
Lemma grouping_invariant (l : list A) :
  NoDup (map fst (grouped l))
  /\ (forall x k, In x l -> select x = Some k -> In k (map fst (grouped l)))
  /\ (forall k members, In (k, members) (grouped l) ->
        members = filter (selects k) l /\ members <> []).
Proof.
  induction l as [|x l IH] using rev_ind.
  - cbn. repeat split; try constructor; contradiction.
  - destruct IH as (Hnd & Hkeys & Hmem).
    rewrite fold_left_app. cbn [fold_left].
    destruct (select x) as [kx|] eqn:Hx.
    + split; [|split].
      * now apply update_nodup; [apply str_eqb_eq|].
      * intros y k Hy Hk. apply in_app_or in Hy as [Hy|[<-|[]]].
        -- apply update_keys_incl; eauto.
        -- rewrite Hx in Hk. injection Hk as <-.
           apply update_key_in, str_eqb_eq.
      * intros k members Hin. rewrite filter_app. cbn [filter]. rewrite Hx.
        apply (update_in str_eqb str_eqb_eq) in Hin; [|assumption].
        destruct Hin as [[Hne Hin]|[-> [(v & Hin & ->)|[Hnin ->]]]].
        -- rewrite (keq_neq str_eqb str_eqb_eq) by congruence.
           rewrite app_nil_r. now apply Hmem.
        -- rewrite str_eqb_refl. destruct (Hmem _ _ Hin) as [<- _].
           split; [reflexivity|]. now destruct v.
        -- rewrite str_eqb_refl, filter_none; [now split|].
           intros y Hy. destruct (select y) as [ky|] eqn:Ey; [|reflexivity].
           apply (keq_neq str_eqb str_eqb_eq).
           intros E. apply Hnin. rewrite <- E. eauto.
    + split; [exact Hnd|]. split.
      * intros y k Hy Hk. apply in_app_or in Hy as [Hy|[<-|[]]]; eauto.
        congruence.
      * intros k members Hin. rewrite filter_app. cbn [filter]. rewrite Hx.
        rewrite app_nil_r. now apply Hmem.
Qed.

End Grouping.

Lemma mapM_raise_inv {A B} (f : A -> result B) (l : list A) (e : exn) :
  mapM f l = Raise e -> exists a, In a l /\ f a = Raise e.
Proof.
  induction l as [|a l IH]; cbn [mapM]; [discriminate|].
  destruct (f a) eqn:Ea; cbn [bind].
  - destruct (mapM f l); cbn [bind]; [discriminate|].
    intros [= <-]. destruct (IH eq_refl) as (x & Hx & Ex).
    exists x. split; [now right | exact Ex].
  - intros [= <-]. exists a. split; [now left | exact Ea].
Qed.

Lemma same_kind_incl (l l' : list datetime) :
  incl l' l -> same_kind l = true -> same_kind l' = true.
Proof.
  unfold same_kind. intros Hincl H.
  apply orb_prop in H as [H|H]; rewrite forallb_forall in H;
    apply orb_true_iff; [left | right]; apply forallb_forall; auto.
Qed.

Lemma timestamps_in (l : list LogEntry) (t : datetime) :
  In t (timestamps l) <-> exists e, In e l /\ timestamp e = Some t.
Proof.
  unfold timestamps. rewrite in_flat_map. split.
  - intros (e & He & Ht). exists e. split; [assumption|].
    destruct (timestamp e); [|contradiction]. destruct Ht as [<-|[]].
    reflexivity.
  - intros (e & He & Ht). exists e. split; [assumption|].
    rewrite Ht. now left.
Qed.

Lemma timestamps_sub (l l' : list LogEntry) :
  incl l' l -> incl (timestamps l') (timestamps l).
Proof.
  intros H t Ht. apply timestamps_in in Ht as (e & He & Ht).
  apply timestamps_in. exists e. split; [now apply H | exact Ht].
Qed.

(** The guarded [min] and [max] of the detectors: both are [None] when the
    group has no timestamp, and the only failure is that of comparing a
    naive and an aware timestamp. *)
Lemma occurrences_outcome (members : list LogEntry) :
  match occurrences members with
  | Ok occ =>
      same_kind (timestamps members) = true
      /\ (timestamps members = [] -> occ = (None, None))
  | Raise e => e = TypeError /\ same_kind (timestamps members) = false
  end.
Proof.
  change (occurrences members) with (_get_date_range members).
  pose proof (date_range_outcome members) as H. cbn zeta in H.
  destruct (_get_date_range members) as [[lo hi]|e]; [|exact H].
  destruct H as [Hk H]. split; [exact Hk|]. intros Hts. rewrite Hts in H.
  destruct lo, hi; try contradiction.
  - destruct H as [[] _].
  - reflexivity.
Qed.

Lemma occurrences_of_part (entries members : list LogEntry) :
  incl members entries ->
  match occurrences members with
  | Ok occ => timestamps members = [] -> occ = (None, None)
  | Raise e => e = TypeError /\ same_kind (timestamps entries) = false
  end.
Proof.
  intros Hincl. pose proof (occurrences_outcome members) as H.
  destruct (occurrences members) as [occ|e]; [apply H|].
  destruct H as [-> Hk]. split; [reflexivity|].
  destruct (same_kind (timestamps entries)) eqn:E; [|reflexivity].
  rewrite (same_kind_incl (timestamps_sub Hincl) E) in Hk. discriminate.
Qed.

Lemma concat_length_le {A} (n : nat) (parts : list (list A)) :
  Forall (fun part => length part <= n) parts ->
  length (List.concat parts) <= n * length parts.
Proof.
  induction 1 as [|part parts Hp _ IH]; cbn; [lia|].
  rewrite length_app. lia.
Qed.

Lemma in_concat_forall {A} (P : A -> Prop) (parts : list (list A)) :
  Forall (Forall P) parts -> Forall P (List.concat parts).
Proof.
  induction 1 as [|part parts Hp _ IH]; cbn; [constructor|].
  apply Forall_app. now split.
Qed.

End GroupFacts.

(** ** The pattern detector *)

Module Detectors.

Import LogAnalyzer PatternDetector FileProcessor.
Import TextFacts DictFacts SortFacts ListFacts Clustering CountFacts.
Import Distributions SliceFacts GroupFacts.

(** *** [_truncate_message] *)

(** X18: [_truncate_message] with a maximal length of at least 3 returns
    at most that many characters: the message itself when it is short
    enough, and else its first [max_length - 3] characters followed by
    three dots, which makes exactly [max_length] characters. *)
Theorem truncate_message_bound (message : str) (max_length : Z) :
  (3 <= max_length)%Z ->
  let out := _truncate_message message max_length in
  (Z.of_nat (length out) <= max_length)%Z
  /\ ((Z.of_nat (length message) <= max_length)%Z -> out = message)
  /\ ((max_length < Z.of_nat (length message))%Z ->
        out = firstn (Z.to_nat (max_length - 3)) message ++ lit "..."
        /\ Z.of_nat (length out) = max_length).
Proof.
  intros Hmax out. subst out. unfold _truncate_message.
  destruct (Z.of_nat (length message) <=? max_length)%Z eqn:E.
  - apply Z.leb_le in E. split; [exact E|]. split; [reflexivity|]. lia.
  - apply Z.leb_gt in E.
    assert (Hs : py_slice message 0 (max_length - 3)
                 = firstn (Z.to_nat (max_length - 3)) message).
    { replace (max_length - 3)%Z with (0 + (max_length - 3))%Z at 1 by lia.
      rewrite py_slice_window by lia. reflexivity. }
    rewrite Hs.
    assert (Hl : Z.of_nat (length (firstn (Z.to_nat (max_length - 3)) message
                                   ++ lit "..."))
                 = max_length).
    { rewrite length_app, length_firstn. cbn [length lit list_ascii_of_string].
      lia. }
    split; [lia|]. split; [lia|]. intros _. now split.
Qed.

Lemma truncate_message_bound_witness :
  length (_truncate_message (repeat "a"%char 100) 80) = 80.
Proof.
  apply Nat2Z.inj.
  apply (@truncate_message_bound (repeat "a"%char 100) 80); cbn; lia.
Defined.

Lemma truncate_80 (message : str) :
  length (_truncate_message message 80) <= 80.
Proof.
  unfold _truncate_message.
  destruct (Z.of_nat (length message) <=? 80)%Z eqn:E.
  - apply Z.leb_le in E. lia.
  - replace (80 - 3)%Z with (0 + 77)%Z by lia.
    rewrite py_slice_window by lia.
    rewrite length_app, length_firstn. cbn. lia.
Qed.

(** *** [_calculate_severity] *)

Lemma positive_of_nat (n : nat) : 0 < n -> Z.pos (Pos.of_nat n) = Z.of_nat n.
Proof.
  intros H. rewrite <- positive_nat_Z, Nat2Pos.id by lia. reflexivity.
Qed.

(** A fraction [a/b] of small numbers is exceeded by [c/d] when
    [a * d < b * c]. *)
Lemma ratio_exceeds (a : Z) (b : positive) (c d : nat) :
  0 < d ->
  qlt (a # b) (ratio c d) = (a * Z.of_nat d <? Z.of_nat c * Z.pos b)%Z.
Proof.
  intros Hd. unfold qlt, ratio.
  destruct (Qlt_le_dec _ _) as [H|H]; unfold Qlt, Qle in H;
    cbn [Qnum Qden] in H; rewrite positive_of_nat in H by assumption;
    symmetry; [apply Z.ltb_lt | apply Z.ltb_ge]; exact H.
Qed.

(** X19: the thresholds of [_calculate_severity] in whole numbers, with
    the frequency as the exact quotient: "high" when the count is more
    than a tenth of the total, "medium" when it is more than a twentieth,
    "low" otherwise, and "low" when the total is 0. *)
Theorem calculate_severity_thresholds (pattern_count total_entries : nat) :
  _calculate_severity pattern_count total_entries
  = if (0 <? total_entries) && (total_entries <? 10 * pattern_count)
    then lit "high"
    else if (0 <? total_entries) && (total_entries <? 20 * pattern_count)
         then lit "medium"
         else lit "low".
Proof.
  unfold _calculate_severity.
  destruct (0 <? total_entries) eqn:E; cbn [andb]; [|reflexivity].
  apply Nat.ltb_lt in E. rewrite !ratio_exceeds by assumption.
  replace (1 * Z.of_nat total_entries <? Z.of_nat pattern_count * 10)%Z
    with (total_entries <? 10 * pattern_count).
  2:{ destruct (total_entries <? 10 * pattern_count) eqn:E1; symmetry;
        [apply Nat.ltb_lt in E1; apply Z.ltb_lt
        |apply Nat.ltb_ge in E1; apply Z.ltb_ge]; lia. }
  destruct (total_entries <? 10 * pattern_count); [reflexivity|].
  replace (5 * Z.of_nat total_entries <? Z.of_nat pattern_count * 100)%Z
    with (total_entries <? 20 * pattern_count); [reflexivity|].
  destruct (total_entries <? 20 * pattern_count) eqn:E1; symmetry;
    [apply Nat.ltb_lt in E1; apply Z.ltb_lt
    |apply Nat.ltb_ge in E1; apply Z.ltb_ge]; lia.
Qed.

End Detectors.

(** ** The three detectors and [detect_patterns] *)

Module DetectPatterns.

Import LogAnalyzer PatternDetector FileProcessor.
Import TextFacts DictFacts SortFacts ListFacts Clustering CountFacts.
Import Distributions SliceFacts GroupFacts Detectors.

Lemma forall2_outputs {A B} {f : A -> result B} {P : B -> Prop}
    {l : list A} {out : list B} :
  mapM f l = Ok out ->
  (forall a b, In a l -> f a = Ok b -> P b) -> Forall P out.
Proof.
  intros Hm H. apply mapM_ok in Hm. apply Forall_forall. intros b Hb.
  destruct (Forall2_in_r Hm Hb) as (a & Ha & Hab). eauto.
Qed.

Lemma mapM_length {A B} {f : A -> result B} {l : list A} {out : list B} :
  mapM f l = Ok out -> length out = length l.
Proof.
  intros H. apply mapM_ok in H. symmetry. eapply Forall2_length, H.
Qed.

Lemma filter_incl_list {A} (f : A -> bool) (l : list A) : incl (filter f l) l.
Proof. intros x Hx. now apply filter_In in Hx. Qed.

(** *** By category *)

(** What [_detect_error_patterns] of the pattern detector returns. *)
Lemma category_outcome (entries : list LogEntry) :
  match PatternDetector._detect_error_patterns entries with
  | Ok found =>
      length found <= 10
      /\ Forall
           (fun p =>
              exists named, In named error_patterns
                /\ let matching :=
                     filter (fun e => is_some (re_search (snd named)
                                                         (message e)))
                            entries in
                   pattern p = title_from (lit (fst named)) false
                   /\ count p = length matching /\ 2 <= count p
                   /\ examples p = map message (firstn 3 matching)
                   /\ severity p
                      = _calculate_severity (count p) (length entries)
                   /\ category p = lit "error"
                   /\ (timestamps matching = [] ->
                         first_occurrence p = None
                         /\ last_occurrence p = None))
           found
  | Raise e => e = TypeError /\ same_kind (timestamps entries) = false
  end.
Proof.
  unfold PatternDetector._detect_error_patterns.
  destruct (mapM (error_pattern_of entries) error_patterns) as [all|e] eqn:E;
    cbn [bind].
  - assert (Hall : Forall
             (fun part =>
                length part <= 1
                /\ Forall
                     (fun p =>
                        exists named, In named error_patterns
                          /\ let matching :=
                               filter (fun e => is_some (re_search (snd named)
                                                           (message e)))
                                      entries in
                             pattern p = title_from (lit (fst named)) false
                             /\ count p = length matching /\ 2 <= count p
                             /\ examples p = map message (firstn 3 matching)
                             /\ severity p
                                = _calculate_severity (count p)
                                                      (length entries)
                             /\ category p = lit "error"
                             /\ (timestamps matching = [] ->
                                   first_occurrence p = None
                                   /\ last_occurrence p = None))
                     part) all).
    { apply (forall2_outputs E). intros named part Hin.
      unfold error_pattern_of.
      set (matching := filter _ entries).
      destruct (2 <=? length matching) eqn:H2.
      - pose proof (@occurrences_of_part entries matching
                      (filter_incl_list _ _)) as Hocc.
        destruct (occurrences matching) as [occ|]; cbn [bind];
          [|discriminate].
        intros Hp. apply Ok_inj in Hp. subst part.
        split; [cbn; lia|]. repeat constructor.
        exists named. split; [exact Hin|]. cbn zeta. fold matching.
        cbn [pattern count examples severity category first_occurrence
             last_occurrence].
        apply Nat.leb_le in H2. repeat split; try assumption.
        + now rewrite (Hocc H).
        + now rewrite (Hocc H).
      - intros Hp. apply Ok_inj in Hp. subst part.
        split; [cbn; lia | constructor]. }
    split.
    + apply Nat.le_trans with (1 * length all).
      * apply concat_length_le. eapply Forall_impl; [|exact Hall].
        now intros part [H _].
      * rewrite (mapM_length E). cbn. lia.
    + apply in_concat_forall. eapply Forall_impl; [|exact Hall].
      now intros part [_ H].
  - apply mapM_raise_inv in E as (named & Hin & E).
    unfold error_pattern_of in E.
    set (matching := filter _ entries) in E.
    destruct (2 <=? length matching); [|discriminate].
    pose proof (@occurrences_of_part entries matching
                  (filter_incl_list _ _)) as Hocc.
    destruct (occurrences matching) as [occ|e']; cbn [bind] in E;
      [discriminate|].
    injection E as <-. exact Hocc.
Qed.

(** The parts that a loop appends, when each item gives one or none. *)
Lemma mapM_concat_filter {A B C} (f : A -> result (list B)) (q : A -> bool)
    (h : A -> C) (g : B -> C) (l : list A) (all : list (list B)) :
  mapM f l = Ok all ->
  (forall a part, In a l -> f a = Ok part ->
     map g part = if q a then [h a] else []) ->
  map g (List.concat all) = map h (filter q l).
Proof.
  revert all. induction l as [|a l IH]; intros all Hm Hf.
  - cbn in Hm. apply Ok_inj in Hm. now subst all.
  - cbn [mapM] in Hm. destruct (f a) as [part|] eqn:Ea; cbn [bind] in Hm;
      [|discriminate].
    destruct (mapM f l) as [rest|] eqn:El; cbn [bind] in Hm; [|discriminate].
    apply Ok_inj in Hm. subst all. cbn [List.concat filter].
    rewrite map_app, (Hf a part (or_introl eq_refl) Ea).
    rewrite (IH rest eq_refl) by (intros x px Hx; apply Hf; now right).
    now destruct (q a).
Qed.

(** X20: [_detect_error_patterns] of the pattern detector never raises
    for want of timestamps: it raises only [TypeError], and only when the
    entries hold both a naive and an aware timestamp.  It returns at most
    10 patterns: one for each named pattern that at least 2 messages
    match, in the order of the table of patterns, and no other; each
    carries the number of such entries, the first three messages and the
    category "error"; the occurrences are [None] when no matching entry
    has a timestamp. *)
Theorem category_patterns_guarded (entries : list LogEntry) :
  let matching (named : string * regex) :=
    filter (fun e => is_some (re_search (snd named) (message e))) entries in
  match PatternDetector._detect_error_patterns entries with
  | Ok found =>
      length found <= 10
      /\ map (fun p => (pattern p, count p)) found
         = map (fun named => (title_from (lit (fst named)) false,
                              length (matching named)))
               (filter (fun named => 2 <=? length (matching named))
                       error_patterns)
      /\ Forall
           (fun p =>
              exists named, In named error_patterns
                /\ pattern p = title_from (lit (fst named)) false
                /\ count p = length (matching named) /\ 2 <= count p
                /\ examples p = map message (firstn 3 (matching named))
                /\ severity p
                   = _calculate_severity (count p) (length entries)
                /\ category p = lit "error"
                /\ (timestamps (matching named) = [] ->
                      first_occurrence p = None
                      /\ last_occurrence p = None))
           found
  | Raise e => e = TypeError /\ same_kind (timestamps entries) = false
  end.
Proof.
  intros matching. pose proof (category_outcome entries) as H.
  unfold PatternDetector._detect_error_patterns in *.
  destruct (mapM (error_pattern_of entries) error_patterns) as [all|e] eqn:E;
    cbn [bind] in *; [|exact H].
  destruct H as [Hlen Hall]. split; [exact Hlen|]. split; [|exact Hall].
  apply (@mapM_concat_filter _ _ _ (error_pattern_of entries)
           (fun named => 2 <=? length (matching named))
           (fun named => (title_from (lit (fst named)) false,
                          length (matching named)))
           (fun p => (pattern p, count p)) error_patterns all E).
  intros named part _. unfold error_pattern_of. fold (matching named).
  destruct (2 <=? length (matching named)).
  - destruct (occurrences (matching named)); cbn [bind]; [|discriminate].
    intros Hp. apply Ok_inj in Hp. now subst part.
  - intros Hp. apply Ok_inj in Hp. now subst part.
Qed.

(** *** Repetitive messages *)

Lemma existsb_same {A} (f g : A -> bool) (l : list A) :
  (forall x, f x = g x) -> existsb f l = existsb g l.
Proof.
  intros H. induction l as [|x l IH]; cbn; [reflexivity|].
  now rewrite H, IH.
Qed.

Lemma mentions_error (e : LogEntry) :
  level_mentions "error" e
  = match level e with Some ERROR => true | _ => false end.
Proof. unfold level_mentions. now destruct (level e) as [[]|]. Qed.

Lemma mentions_warn (e : LogEntry) : level_mentions "warn" e = is_warn e.
Proof.
  unfold level_mentions, is_warn. now destruct (level e) as [[]|].
Qed.

Lemma normalized_messages_grouped (entries : list LogEntry) :
  normalized_messages entries
  = fold_left
      (fun d x =>
         match (if 10 <? length (_normalize_message (message x))
                then Some (_normalize_message (message x)) else None) with
         | Some k => Dict.update str_eqb k (fun m => m ++ [x]) [] d
         | None => d
         end) entries [].
Proof.
  unfold normalized_messages. apply fold_left_ext. intros d e. cbn zeta.
  now destruct (10 <? _).
Qed.

(** The groups of [_detect_repetitive_patterns]: one for each normalized
    message of more than 10 characters, with the entries of that
    normalized message. *)
Lemma normalized_groups (entries : list LogEntry) :
  let shape e := _normalize_message (message e) in
  let group k := filter (fun e => str_eqb (shape e) k) entries in
  NoDup (map fst (normalized_messages entries))
  /\ (forall k members, In (k, members) (normalized_messages entries) ->
        10 < length k /\ members = group k /\ members <> [])
  /\ (forall k, 10 < length k -> group k <> [] ->
        In (k, group k) (normalized_messages entries)).
Proof.
  intros shape group. rewrite normalized_messages_grouped.
  set (select := fun x : LogEntry =>
                   if 10 <? length (_normalize_message (message x))
                   then Some (_normalize_message (message x)) else None).
  destruct (grouping_invariant select entries) as (Hnd & Hkeys & Hmem).
  assert (Hsel : forall k, 10 < length k ->
            forall e, match select e with
                      | Some k' => str_eqb k' k
                      | None => false
                      end = str_eqb (shape e) k).
  { intros k Hk e. subst select shape. cbn beta.
    destruct (10 <? length _) eqn:E; [reflexivity|].
    apply Nat.ltb_ge in E. symmetry.
    apply (keq_neq str_eqb str_eqb_eq). intros Ek. rewrite Ek in E. lia. }
  split; [exact Hnd|]. split.
  - intros k members Hin. destruct (Hmem _ _ Hin) as [Hm Hne].
    assert (Hk : 10 < length k).
    { destruct members as [|x members]; [contradiction|].
      assert (Hx : In x (filter (fun x => match select x with
                                          | Some k' => str_eqb k' k
                                          | None => false
                                          end) entries))
        by (rewrite <- Hm; now left).
      apply filter_In in Hx as [_ Hx]. subst select. cbn beta in Hx.
      destruct (10 <? length _) eqn:E; [|discriminate].
      apply str_eqb_eq in Hx. rewrite <- Hx. now apply Nat.ltb_lt. }
    split; [exact Hk|]. split; [|exact Hne].
    rewrite Hm. apply filter_ext. now apply Hsel.
  - intros k Hk Hne.
    destruct (group k) as [|x rest] eqn:Hg; [contradiction|].
    assert (Hx : In x (group k)) by (rewrite Hg; now left).
    apply filter_In in Hx as [Hx Ex]. apply str_eqb_eq in Ex.
    assert (Hkey : In k (map fst (fold_left
                     (fun d x => match select x with
                                 | Some k => Dict.update str_eqb k
                                               (fun m => m ++ [x]) [] d
                                 | None => d
                                 end) entries []))).
    { apply (Hkeys x k Hx). subst select shape. cbn beta in *.
      rewrite Ex. apply Nat.ltb_lt in Hk. now rewrite Hk. }
    apply in_map_iff in Hkey as ([k' members] & Ek & Hin). cbn in Ek.
    subst k'. destruct (Hmem _ _ Hin) as [Hm _].
    rewrite <- Hg. replace (group k) with members; [exact Hin|].
    rewrite Hm. apply filter_ext. now apply Hsel.
Qed.

(** What [_detect_repetitive_patterns] returns. *)
Lemma repetitive_outcome (entries : list LogEntry) :
  let shape e := _normalize_message (message e) in
  let group k := filter (fun e => str_eqb (shape e) k) entries in
  match _detect_repetitive_patterns entries with
  | Ok found =>
      Forall
        (fun p =>
           exists k, 10 < length k
             /\ count p = length (group k) /\ 5 <= count p
             /\ examples p = map message (firstn 3 (group k))
             /\ pattern p
                = lit "Repetitive: "
                  ++ _truncate_message (hd [] (examples p)) 80
             /\ severity p = _calculate_severity (count p) (length entries)
             /\ category p
                = (if existsb (fun e => match level e with
                                        | Some ERROR => true
                                        | _ => false
                                        end) (group k)
                   then lit "error"
                   else if existsb is_warn (group k) then lit "warning"
                        else lit "info")
             /\ (timestamps (group k) = [] ->
                   first_occurrence p = None /\ last_occurrence p = None))
        found
      /\ (forall k, 10 < length k -> 5 <= length (group k) ->
            exists p, In p found /\ count p = length (group k)
                      /\ examples p = map message (firstn 3 (group k)))
  | Raise e => e = TypeError /\ same_kind (timestamps entries) = false
  end.
Proof.
  intros shape group.
  destruct (normalized_groups entries) as (Hnd & Hmem & Hkeys).
  subst shape group. cbn beta.
  unfold _detect_repetitive_patterns.
  destruct (mapM (repetitive_pattern_of entries)
                 (normalized_messages entries)) as [all|e] eqn:E;
    cbn [bind].
  - split.
    + apply in_concat_forall. apply (forall2_outputs E).
      intros [k members] part Hin. destruct (Hmem _ _ Hin) as (Hk & -> & _).
      unfold repetitive_pattern_of. cbn [snd].
      set (g := filter _ entries).
      destruct (5 <=? length g) eqn:H5.
      * pose proof (@occurrences_of_part entries g
                      (filter_incl_list _ _)) as Hocc.
        destruct (occurrences g) as [occ|]; cbn [bind];
          [|discriminate].
        intros Hp. apply Ok_inj in Hp. subst part. repeat constructor.
        exists k. split; [exact Hk|].
        cbn [pattern count examples severity category first_occurrence
             last_occurrence].
        apply Nat.leb_le in H5.
        rewrite (existsb_same _ _ g mentions_error).
        rewrite (existsb_same _ _ g mentions_warn).
        repeat split; try assumption.
        -- now rewrite (Hocc H).
        -- now rewrite (Hocc H).
      * intros Hp. apply Ok_inj in Hp. subst part. constructor.
    + intros k Hk H5. set (g := filter _ entries) in *.
      assert (Hin : In (k, g) (normalized_messages entries)).
      { apply Hkeys; [exact Hk|]. fold g. destruct g; [cbn in H5; lia|].
        discriminate. }
      pose proof E as Hall. apply mapM_ok in Hall.
      destruct (Forall2_in_l Hall Hin) as (part & Hpart & Hf).
      unfold repetitive_pattern_of in Hf. cbn [snd] in Hf.
      apply Nat.leb_le in H5. rewrite H5 in Hf.
      destruct (occurrences g) as [occ|]; cbn [bind] in Hf;
        [|discriminate].
      apply Ok_inj in Hf.
      eexists. split.
      * apply in_concat. exists part. split; [exact Hpart|].
        rewrite <- Hf. now left.
      * cbn [count examples]. now split.
  - apply mapM_raise_inv in E as ([k members] & Hin & E).
    destruct (Hmem _ _ Hin) as (Hk & -> & _).
    unfold repetitive_pattern_of in E. cbn [snd] in E.
    set (g := filter _ entries) in E.
    destruct (5 <=? length g); [|discriminate].
    pose proof (@occurrences_of_part entries g
                  (filter_incl_list _ _)) as Hocc.
    destruct (occurrences g) as [occ|e']; cbn [bind] in E;
      [discriminate|].
    injection E as <-. exact Hocc.
Qed.


(** X21: [_detect_repetitive_patterns] raises only [TypeError], and only
    when the entries hold both a naive and an aware timestamp.  What it
    returns has one pattern for each normalized message of more than 10
    characters that at least 5 entries share: its count is the number of
    those entries, its examples are their first three messages, its label
    is "Repetitive: " and the first message cut to 80 characters; its
    category is "error" when one of the entries has the level ERROR
    (FATAL and CRITICAL do not count), else "warning" when one has WARN
    or WARNING, else "info"; its occurrences are [None] when none of the
    entries has a timestamp. *)
Theorem repetitive_patterns_result (entries : list LogEntry) :
  let shape e := _normalize_message (message e) in
  let group k := filter (fun e => str_eqb (shape e) k) entries in
  match _detect_repetitive_patterns entries with
  | Ok found =>
      Forall
        (fun p =>
           exists k, 10 < length k
             /\ count p = length (group k) /\ 5 <= count p
             /\ examples p = map message (firstn 3 (group k))
             /\ pattern p
                = lit "Repetitive: "
                  ++ _truncate_message (hd [] (examples p)) 80
             /\ severity p = _calculate_severity (count p) (length entries)
             /\ category p
                = (if existsb (fun e => match level e with
                                        | Some ERROR => true
                                        | _ => false
                                        end) (group k)
                   then lit "error"
                   else if existsb is_warn (group k) then lit "warning"
                        else lit "info")
             /\ (timestamps (group k) = [] ->
                   first_occurrence p = None /\ last_occurrence p = None))
        found
      /\ (forall k, 10 < length k -> 5 <= length (group k) ->
            exists p, In p found /\ count p = length (group k)
                      /\ examples p = map message (firstn 3 (group k)))
  | Raise e => e = TypeError /\ same_kind (timestamps entries) = false
  end.
Proof. exact (repetitive_outcome entries). Qed.

(** *** By service *)

Lemma service_groups (entries : list LogEntry) :
  let of_service s :=
    filter (fun e => match truthy_text (service e) with
                     | Some s' => str_eqb s' s
                     | None => false
                     end) entries in
  forall s members, In (s, members) (service_entries entries) ->
    nonempty s = true /\ members = of_service s.
Proof.
  intros of_service s members Hin.
  destruct (grouping_invariant (fun e => truthy_text (service e)) entries)
    as (_ & _ & Hmem).
  destruct (Hmem _ _ Hin) as [Hm Hne]. split; [|exact Hm].
  destruct members as [|x members]; [contradiction|].
  assert (Hx : In x (filter (fun e => match truthy_text (service e) with
                                      | Some s' => str_eqb s' s
                                      | None => false
                                      end) entries))
    by (rewrite <- Hm; now left).
  apply filter_In in Hx as [_ Hx]. unfold truthy_text in Hx.
  destruct (service x) as [s'|]; [|discriminate].
  destruct (nonempty s') eqn:E; [|discriminate].
  apply str_eqb_eq in Hx. now subst s'.
Qed.

Lemma most_common_counts (n : nat) (l : list LogEntry) (msg : str)
    (k : nat) :
  In (msg, k) (most_common n (message_counts l)) ->
  k = length (filter (fun e => str_eqb (message e) msg) l).
Proof.
  unfold most_common, message_counts. intros H.
  apply in_firstn, sorted_in in H.
  destruct (tally_invariant str_eqb message str_eqb_eq l) as (_ & _ & Hcnt).
  now destruct (Hcnt _ _ H) as [_ ->].
Qed.

(** What [_detect_service_patterns] returns. *)
Lemma service_outcome (entries : list LogEntry) :
  let of_service s :=
    filter (fun e => match truthy_text (service e) with
                     | Some s' => str_eqb s' s
                     | None => false
                     end) entries in
  match _detect_service_patterns entries with
  | Ok found =>
      Forall
        (fun p =>
           exists s msg, nonempty s = true
             /\ let same :=
                  filter (fun e => str_eqb (message e) msg) (of_service s) in
                10 <= length (of_service s)
                /\ count p = length same /\ 3 <= count p
                /\ pattern p = s ++ lit ": " ++ _truncate_message msg 80
                /\ examples p = [msg]
                /\ severity p
                   = _calculate_severity (count p) (length (of_service s))
                /\ category p = lit "service"
                /\ (timestamps same = [] ->
                      first_occurrence p = None /\ last_occurrence p = None))
        found
      /\ length found <= 5 * length (service_entries entries)
  | Raise e => e = TypeError /\ same_kind (timestamps entries) = false
  end.
Proof.
  intros of_service. pose proof (service_groups entries) as Hgroups.
  subst of_service. cbn zeta in Hgroups. cbn beta.
  unfold _detect_service_patterns.
  destruct (mapM service_patterns_of (service_entries entries))
    as [all|e] eqn:E; cbn [bind].
  - assert (Hall : Forall
             (fun part =>
                length part <= 5
                /\ Forall
                     (fun p =>
                        exists s msg, nonempty s = true
                          /\ let same :=
                               filter (fun e => str_eqb (message e) msg)
                                 (filter (fun e =>
                                            match truthy_text (service e) with
                                            | Some s' => str_eqb s' s
                                            | None => false
                                            end) entries) in
                             10 <= length
                                     (filter (fun e =>
                                                match truthy_text (service e)
                                                with
                                                | Some s' => str_eqb s' s
                                                | None => false
                                                end) entries)
                             /\ count p = length same /\ 3 <= count p
                             /\ pattern p
                                = s ++ lit ": " ++ _truncate_message msg 80
                             /\ examples p = [msg]
                             /\ severity p
                                = _calculate_severity (count p)
                                    (length
                                       (filter (fun e =>
                                                  match truthy_text (service e)
                                                  with
                                                  | Some s' => str_eqb s' s
                                                  | None => false
                                                  end) entries))
                             /\ category p = lit "service"
                             /\ (timestamps same = [] ->
                                   first_occurrence p = None
                                   /\ last_occurrence p = None))
                     part) all).
    { apply (forall2_outputs E). intros [s members] part Hin.
      destruct (Hgroups _ _ Hin) as [Hs ->].
      set (l := filter _ entries).
      unfold service_patterns_of.
      destruct (10 <=? length l) eqn:H10.
      2:{ intros Hp. apply Ok_inj in Hp. subst part.
          split; [cbn; lia | constructor]. }
      apply Nat.leb_le in H10.
      destruct (mapM (service_message_pattern s l)
                     (most_common 5 (message_counts l)))
        as [inner|] eqn:Ei; cbn [bind]; [|discriminate].
      intros Hp. apply Ok_inj in Hp. subst part.
      assert (Hinner : Forall
                (fun q =>
                   length q <= 1
                   /\ Forall
                        (fun p =>
                           exists msg,
                             let same :=
                               filter (fun e => str_eqb (message e) msg) l in
                             count p = length same /\ 3 <= count p
                             /\ pattern p
                                = s ++ lit ": " ++ _truncate_message msg 80
                             /\ examples p = [msg]
                             /\ severity p
                                = _calculate_severity (count p) (length l)
                             /\ category p = lit "service"
                             /\ (timestamps same = [] ->
                                   first_occurrence p = None
                                   /\ last_occurrence p = None))
                        q) inner).
      { apply (forall2_outputs Ei). intros [msg n] q Hmc.
        apply most_common_counts in Hmc.
        unfold service_message_pattern.
        set (same := filter _ l) in *.
        destruct (3 <=? n) eqn:H3.
        2:{ intros Hq. apply Ok_inj in Hq. subst q.
            split; [cbn; lia | constructor]. }
        apply Nat.leb_le in H3.
        pose proof (occurrences_outcome same) as Hocc.
        destruct (occurrences same) as [occ|]; cbn [bind]; [|discriminate].
        intros Hq. apply Ok_inj in Hq. subst q.
        split; [cbn; lia|]. repeat constructor. exists msg. cbn zeta.
        fold same.
        cbn [pattern count examples severity category first_occurrence
             last_occurrence].
        destruct Hocc as [_ Hocc].
        repeat split; try assumption.
        - now rewrite (Hocc H).
        - now rewrite (Hocc H). }
      split.
      - apply Nat.le_trans with (1 * length inner).
        + apply concat_length_le. eapply Forall_impl; [|exact Hinner].
          now intros q [H _].
        + rewrite (mapM_length Ei). unfold most_common.
          pose proof (firstn_le_length 5
                        (sorted (by_count_desc snd) (message_counts l))).
          lia.
      - apply in_concat_forall. eapply Forall_impl; [|exact Hinner].
        intros q [_ Hq]. eapply Forall_impl; [|exact Hq]. cbn beta.
        intros p (msg & Hp). exists s, msg. split; [exact Hs|].
        cbn zeta in *. destruct Hp as (H1 & H2 & H3 & H4 & H5 & H6 & H7).
        repeat (split; [assumption|]). exact H7. }
    split.
    + apply in_concat_forall. eapply Forall_impl; [|exact Hall].
      now intros part [_ H].
    + rewrite <- (mapM_length E). apply concat_length_le.
      eapply Forall_impl; [|exact Hall]. now intros part [H _].
  - apply mapM_raise_inv in E as ([s members] & Hin & E).
    destruct (Hgroups _ _ Hin) as [Hs ->].
    set (l := filter _ entries) in E.
    unfold service_patterns_of in E.
    destruct (10 <=? length l); [|discriminate].
    destruct (mapM (service_message_pattern s l)
                   (most_common 5 (message_counts l)))
      as [inner|e'] eqn:Ei; cbn [bind] in E; [discriminate|].
    injection E as <-.
    apply mapM_raise_inv in Ei as ([msg n] & _ & Ei).
    unfold service_message_pattern in Ei.
    set (same := filter _ l) in Ei.
    destruct (3 <=? n); [|discriminate].
    assert (Hincl : incl same entries).
    { intros x Hx. apply filter_In in Hx as [Hx _].
      now apply filter_In in Hx as [Hx _]. }
    pose proof (occurrences_of_part Hincl) as Hocc.
    destruct (occurrences same) as [occ|e'']; cbn [bind] in Ei;
      [discriminate|].
    injection Ei as <-. exact Hocc.
Qed.

(** What one service adds: nothing when it has fewer than 10 entries, and
    at most 5 patterns, each under its name, otherwise. *)
Lemma service_part (group : str * list LogEntry) (part : list PatternMatch) :
  service_patterns_of group = Ok part ->
  length part <= 5
  /\ (length (snd group) < 10 -> part = [])
  /\ Forall (fun p => exists msg,
               pattern p = fst group ++ lit ": " ++ _truncate_message msg 80)
            part.
Proof.
  destruct group as [s l]. cbn [fst snd]. unfold service_patterns_of.
  destruct (10 <=? length l) eqn:H10.
  2:{ intros Hp. apply Ok_inj in Hp. subst part.
      split; [cbn; lia|]. split; [reflexivity|constructor]. }
  apply Nat.leb_le in H10.
  destruct (mapM (service_message_pattern s l)
                 (most_common 5 (message_counts l)))
    as [inner|] eqn:Ei; cbn [bind]; [|discriminate].
  intros Hp. apply Ok_inj in Hp. subst part.
  assert (Hinner : Forall
            (fun q =>
               length q <= 1
               /\ Forall (fun p => exists msg,
                            pattern p
                            = s ++ lit ": " ++ _truncate_message msg 80) q)
            inner).
  { apply (forall2_outputs Ei). intros [msg n] q _.
    unfold service_message_pattern.
    destruct (3 <=? n).
    - destruct (occurrences _); cbn [bind]; [|discriminate].
      intros Hq. apply Ok_inj in Hq. subst q.
      split; [cbn; lia|]. repeat constructor. now exists msg.
    - intros Hq. apply Ok_inj in Hq. subst q.
      split; [cbn; lia|constructor]. }
  split; [|split].
  - apply Nat.le_trans with (1 * length inner).
    + apply concat_length_le. eapply Forall_impl; [|exact Hinner].
      now intros q [H _].
    + rewrite (mapM_length Ei). unfold most_common.
      pose proof (firstn_le_length 5
                    (sorted (by_count_desc snd) (message_counts l))).
      lia.
  - lia.
  - apply in_concat_forall. eapply Forall_impl; [|exact Hinner].
    now intros q [_ Hq].
Qed.

(** X22: [_detect_service_patterns] raises only [TypeError], and only when
    the entries hold both a naive and an aware timestamp.  Every pattern
    that it returns stands for a message that an entry of a service with
    at least 10 entries carries at least 3 times: its count is the number
    of entries of the service with that message, its label is the service
    name, ": " and the message cut to 80 characters, its only example is
    the message, its severity is relative to the entries of the service, and
    its category is "service".  The result is made of one run of patterns
    for each service, the services being distinct: the run of a service
    holds at most 5 patterns, all under its name, and none when the
    service has fewer than 10 entries. *)
Theorem service_patterns_result (entries : list LogEntry) :
  let of_service s :=
    filter (fun e => match truthy_text (service e) with
                     | Some s' => str_eqb s' s
                     | None => false
                     end) entries in
  match _detect_service_patterns entries with
  | Ok found =>
      Forall
        (fun p =>
           exists s msg, nonempty s = true
             /\ let same :=
                  filter (fun e => str_eqb (message e) msg) (of_service s) in
                10 <= length (of_service s)
                /\ count p = length same /\ 3 <= count p
                /\ pattern p = s ++ lit ": " ++ _truncate_message msg 80
                /\ examples p = [msg]
                /\ severity p
                   = _calculate_severity (count p) (length (of_service s))
                /\ category p = lit "service"
                /\ (timestamps same = [] ->
                      first_occurrence p = None /\ last_occurrence p = None))
        found
      /\ length found <= 5 * length (service_entries entries)
      /\ NoDup (map fst (service_entries entries))
      /\ exists runs,
           found = List.concat runs
           /\ Forall2
                (fun group run =>
                   snd group = of_service (fst group)
                   /\ length run <= 5
                   /\ (length (of_service (fst group)) < 10 -> run = [])
                   /\ Forall (fun p => exists msg,
                                pattern p
                                = fst group ++ lit ": "
                                  ++ _truncate_message msg 80) run)
                (service_entries entries) runs
  | Raise e => e = TypeError /\ same_kind (timestamps entries) = false
  end.
Proof.
  intros of_service. pose proof (service_outcome entries) as H.
  pose proof (service_groups entries) as Hgroups.
  cbn zeta in H, Hgroups. fold of_service in H, Hgroups.
  unfold _detect_service_patterns in *.
  destruct (mapM service_patterns_of (service_entries entries))
    as [all|e] eqn:E; cbn [bind] in *; [|exact H].
  destruct H as [H1 H2]. split; [exact H1|]. split; [exact H2|].
  split.
  - now destruct (grouping_invariant (fun e => truthy_text (service e))
                                     entries) as (Hnd & _).
  - exists all. split; [reflexivity|].
    apply mapM_ok in E.
    assert (Hin : Forall2 (fun group run =>
                             In group (service_entries entries)
                             /\ service_patterns_of group = Ok run)
                          (service_entries entries) all).
    { clear -E. induction E as [|g r gs rs Hg _ IH]; constructor.
      - split; [now left|exact Hg].
      - eapply Forall2_impl; [|exact IH].
        intros a b [Ha Hb]. split; [now right|exact Hb]. }
    eapply Forall2_impl; [|exact Hin].
    intros [s members] run [Hg Hrun]. cbn [fst snd].
    destruct (Hgroups _ _ Hg) as [_ Hm].
    destruct (service_part _ Hrun) as (Hlen & Hfew & Hlab).
    cbn [fst snd] in Hfew, Hlab. rewrite Hm in Hfew.
    repeat split; assumption.
Qed.

(** *** All three *)

(** X23: [detect_patterns] raises only [TypeError], and only when the
    entries hold both a naive and an aware timestamp; in particular it
    returns for entries without any timestamp.  It returns at most 20
    patterns in descending order of their counts, each found by one of the
    three detectors, each with a count of at least 2 and one of the
    categories "error", "warning", "info" and "service"; a pattern that a
    detector found and that is left out has a count no larger than any
    pattern returned. *)
Theorem detect_patterns_result (entries : list LogEntry) :
  match detect_patterns entries with
  | Ok found =>
      length found <= 20
      /\ StronglySorted (fun p q => count q <= count p) found
      /\ Forall (fun p => 2 <= count p
                          /\ In (category p)
                                [lit "error"; lit "warning"; lit "info";
                                 lit "service"]) found
      /\ exists by_category repetitive by_service,
           PatternDetector._detect_error_patterns entries = Ok by_category
           /\ _detect_repetitive_patterns entries = Ok repetitive
           /\ _detect_service_patterns entries = Ok by_service
           /\ (forall p, In p found ->
                 In p (by_category ++ repetitive ++ by_service))
           /\ (forall p, In p (by_category ++ repetitive ++ by_service) ->
                 In p found \/ forall q, In q found -> count p <= count q)
  | Raise e => e = TypeError /\ same_kind (timestamps entries) = false
  end.
Proof.
  unfold detect_patterns.
  pose proof (category_outcome entries) as Hc.
  pose proof (repetitive_outcome entries) as Hr.
  pose proof (service_outcome entries) as Hs. cbn zeta in Hr, Hs.
  destruct (PatternDetector._detect_error_patterns entries) as [a|];
    cbn [bind]; [|exact Hc].
  destruct (_detect_repetitive_patterns entries) as [b|];
    cbn [bind]; [|exact Hr].
  destruct (_detect_service_patterns entries) as [c|];
    cbn [bind]; [|exact Hs].
  pose proof (by_count_sorted count (a ++ b ++ c)) as Hsorted.
  split; [apply firstn_le_length|]. split; [|split].
  - now apply firstn_strongly_sorted.
  - apply Forall_forall. intros p Hp. apply in_firstn, sorted_in in Hp.
    apply in_app_or in Hp as [Hp|Hp]; [|apply in_app_or in Hp as [Hp|Hp]].
    + destruct Hc as [_ Hc]. rewrite Forall_forall in Hc.
      destruct (Hc p Hp) as (named & _ & H). cbn zeta in H.
      destruct H as (_ & _ & H2 & _ & _ & Hcat & _).
      split; [exact H2|]. rewrite Hcat. now left.
    + destruct Hr as [Hr _]. rewrite Forall_forall in Hr.
      destruct (Hr p Hp) as (k & _ & _ & H5 & _ & _ & _ & Hcat & _).
      split; [lia|]. rewrite Hcat.
      destruct (existsb _ _); [now left|].
      destruct (existsb _ _); cbn; tauto.
    + destruct Hs as [Hs _]. rewrite Forall_forall in Hs.
      destruct (Hs p Hp) as (s & msg & _ & H). cbn zeta in H.
      destruct H as (_ & _ & H3 & _ & _ & _ & Hcat & _).
      split; [lia|]. rewrite Hcat. cbn. tauto.
  - exists a, b, c. repeat split; try reflexivity.
    + intros p Hp. now apply in_firstn, sorted_in in Hp.
    + intros p Hp.
      destruct (firstn_top 20 (y := p) Hsorted) as [Hin|Hafter];
        [now apply sorted_in | now left | right; exact Hafter].
Qed.

End DetectPatterns.

(** ** Format detection at upload *)

Module UploadFormat.

Import FileProcessor FileUtils TextFacts ReFacts ListFacts.

Lemma lower_char_keeps_slash (c : ascii) :
  Ascii.eqb (lower_char c) "/" = Ascii.eqb c "/".
Proof.
  assert (H : forallb (fun c => Bool.eqb (Ascii.eqb (lower_char c) "/")
                                         (Ascii.eqb c "/")) all_chars = true)
    by (vm_compute; reflexivity).
  rewrite forallb_forall in H. apply Bool.eqb_prop, H, all_chars_complete.
Qed.

Lemma lower_char_keeps_dot (c : ascii) :
  Ascii.eqb (lower_char c) "." = Ascii.eqb c ".".
Proof.
  assert (H : forallb (fun c => Bool.eqb (Ascii.eqb (lower_char c) ".")
                                         (Ascii.eqb c ".")) all_chars = true)
    by (vm_compute; reflexivity).
  rewrite forallb_forall in H. apply Bool.eqb_prop, H, all_chars_complete.
Qed.

Lemma split_lower (s : str) :
  str_split "/" (lower s) = map lower (str_split "/" s).
Proof.
  unfold lower. induction s as [|c s IH]; [reflexivity|].
  cbn [map str_split]. rewrite lower_char_keeps_slash, IH.
  destruct (Ascii.eqb c "/"); [reflexivity|].
  pose proof (split_not_nil "/" s) as Hne.
  now destruct (str_split "/" s).
Qed.

Lemma last_lower (l : list str) : last (map lower l) [] = lower (last l []).
Proof.
  induction l as [|x l IH]; [reflexivity|].
  cbn [map last]. destruct l as [|y l]; [reflexivity|]. exact IH.
Qed.

Lemma ext_from_lower (r seen : str) :
  ext_from (lower r) (lower seen) = lower (ext_from r seen).
Proof.
  unfold lower. revert seen. induction r as [|c r IH]; intros seen;
    [reflexivity|].
  cbn [map ext_from]. rewrite lower_char_keeps_dot.
  destruct (Ascii.eqb c ".").
  - assert (E : existsb (fun x => negb (Ascii.eqb x "."))
                        (map lower_char r)
                = existsb (fun x => negb (Ascii.eqb x ".")) r).
    { clear IH. induction r as [|x r IH]; [reflexivity|].
      cbn [map existsb]. now rewrite lower_char_keeps_dot, IH. }
    rewrite E. now destruct (existsb _ r).
  - exact (IH (c :: seen)).
Qed.

(** Taking the extension commutes with lower-casing the name. *)
Lemma splitext_lower (filename : str) :
  splitext_ext (lower filename) = lower (splitext_ext filename).
Proof.
  unfold splitext_ext. rewrite split_lower, last_lower.
  unfold lower at 1. rewrite <- map_rev.
  exact (ext_from_lower (rev (last (str_split "/" filename) [])) []).
Qed.

Section Detection.

Variable json_loads : str -> result json.
Variable dialect : Type.
Variable csv_sniff : str -> result dialect.
Variable csv_reader : list str -> dialect -> result (list (list str)).

Lemma half_le (n j : nat) : (n / 2 <=? j) = (n <=? 2 * j + 1).
Proof.
  destruct (n <=? 2 * j + 1) eqn:E.
  - apply Nat.leb_le in E. apply Nat.leb_le.
    apply Nat.lt_succ_r, Nat.Div0.div_lt_upper_bound. lia.
  - apply Nat.leb_gt in E. apply Nat.leb_gt.
    apply Nat.div_le_lower_bound; lia.
Qed.

(** X24: [get_file_format] on the text of an upload.  It never answers
    CUSTOM.  When the first 1000 characters are blank, it answers by the
    extension alone, as [_format_from_extension] does.  A name that ends in
    ".json", in any case, is taken for JSON whatever the content; any
    other content is taken for JSON when, of its first five lines, at
    least one decodes and those that do not decode are at most one more
    than those that do: two lines of five are enough. *)
Theorem get_file_format_rules (content filename : str) :
  let fmt := get_file_format json_loads csv_sniff csv_reader content filename
  in
  let text := firstn 1000 content in
  let lines := first_lines text in
  let decoded :=
    count_if (fun line => nonblank line && decodes json_loads (strip line))
             lines in
  In fmt [JSON; CSV; SYSLOG; PLAIN_TEXT]
  /\ (strip text = [] -> fmt = _format_from_extension filename)
  /\ (lower (splitext_ext filename) = lit ".json" -> fmt = JSON)
  /\ _is_json_format json_loads text
     = (1 <=? decoded) && (count_if nonblank lines <=? 2 * decoded + 1).
Proof.
  intros fmt text lines decoded. subst fmt. unfold get_file_format.
  fold text. rewrite splitext_lower.
  split; [|split; [|split]].
  - destruct (_ || _); [cbn; tauto|].
    destruct (_ || _); [cbn; tauto|].
    destruct (_ || _); cbn; tauto.
  - intros Hblank.
    assert (Hj : _is_json_format json_loads text = false)
      by (unfold _is_json_format, first_lines; now rewrite Hblank).
    assert (Hc : _is_csv_format csv_sniff csv_reader text = false)
      by (unfold _is_csv_format, first_lines; now rewrite Hblank).
    assert (Hs : _is_syslog_format text = false)
      by (unfold _is_syslog_format, first_lines; now rewrite Hblank).
    rewrite Hj, Hc, Hs, !orb_false_r. reflexivity.
  - intros ->. reflexivity.
  - unfold _is_json_format, enough. fold lines. fold decoded.
    rewrite <- half_le.
    destruct (1 <=? decoded) eqn:E1, (count_if nonblank lines / 2 <=? decoded)
      eqn:E2; cbn [andb];
      [apply Nat.leb_le in E1, E2; apply Nat.leb_le
      |apply Nat.leb_le in E1; apply Nat.leb_gt in E2; apply Nat.leb_gt
      |apply Nat.leb_gt in E1; apply Nat.leb_gt
      |apply Nat.leb_gt in E1; apply Nat.leb_gt]; lia.
Qed.

End Detection.

End UploadFormat.

(** ** The two outcomes of the error-pattern clustering *)

Module ErrorClustering.

Import LogAnalyzer FileProcessor.
Import TextFacts DictFacts SortFacts ListFacts Clustering Distributions.
Import GroupFacts.

Lemma filter_filter_and {A} (f g : A -> bool) (l : list A) :
  filter g (filter f l) = filter (fun x => f x && g x) l.
Proof.
  induction l as [|x l IH]; [reflexivity|]. cbn [filter].
  destruct (f x); cbn [filter andb]; [|exact IH].
  destruct (g x); now rewrite IH.
Qed.

(** One group: [min] of nothing raises [ValueError], a group that holds a
    naive and an aware timestamp raises [TypeError], and every other group
    gives its pattern. *)
Lemma pattern_of_outcome (k : str) (group : list LogEntry) :
  match pattern_of (k, group) with
  | Ok p =>
      timestamps group <> [] /\ same_kind (timestamps group) = true
      /\ exists lo hi,
           first_occurrence p = Some lo /\ last_occurrence p = Some hi
           /\ In lo (timestamps group) /\ In hi (timestamps group)
           /\ forall t, In t (timestamps group) ->
                (time_key lo <= time_key t <= time_key hi)%Z
  | Raise e =>
      e = ValueError /\ timestamps group = []
      \/ e = TypeError /\ same_kind (timestamps group) = false
  end.
Proof.
  pose proof (date_range_outcome group) as H. cbn zeta in H.
  unfold _get_date_range in H. unfold pattern_of.
  destruct (timestamps group) as [|t l] eqn:Hts; [left; now split|].
  destruct (py_min (t :: l)) as [lo|e]; cbn [bind] in *.
  - destruct (py_max (t :: l)) as [hi|e]; cbn [bind] in *.
    + destruct H as [Hk H]. split; [discriminate|]. split; [exact Hk|].
      exists lo, hi. cbn [first_occurrence last_occurrence].
      split; [reflexivity|]. split; [reflexivity|]. exact H.
    + now right.
  - now right.
Qed.

(** X25: [_detect_error_patterns] of the analyzer returns exactly when
    every normalized message that at least 2 entries of level ERROR, FATAL
    or CRITICAL share has a timestamp among those entries, and no such
    group holds both a naive and an aware timestamp.  It raises
    [ValueError] for a group without timestamp and [TypeError] for a mixed
    group.  What it returns holds at most 10 patterns in descending order
    of count; the count of a pattern is the number of entries of its
    group, its examples are their first three messages, its severity is
    "high" for more than 10 entries and "medium" otherwise, and its first
    and last occurrence are timestamps of the group, not after and not
    before any other. *)
Theorem detect_error_patterns_outcome (entries : list LogEntry) :
  let group k :=
    filter (fun e => is_error e
                     && str_eqb (_normalize_error_message (message e)) k)
           entries in
  match _detect_error_patterns entries with
  | Ok found =>
      (forall k, 2 <= length (group k) ->
         timestamps (group k) <> []
         /\ same_kind (timestamps (group k)) = true)
      /\ length found <= 10
      /\ StronglySorted (fun p q => count q <= count p) found
      /\ Forall
           (fun p =>
              count p = length (group (pattern p)) /\ 2 <= count p
              /\ examples p = map message (firstn 3 (group (pattern p)))
              /\ severity p
                 = (if 10 <? count p then lit "high" else lit "medium")
              /\ category p = lit "error"
              /\ exists lo hi,
                   first_occurrence p = Some lo
                   /\ last_occurrence p = Some hi
                   /\ In lo (timestamps (group (pattern p)))
                   /\ In hi (timestamps (group (pattern p)))
                   /\ forall t, In t (timestamps (group (pattern p))) ->
                        (time_key lo <= time_key t <= time_key hi)%Z)
           found
  | Raise e =>
      exists k, 2 <= length (group k)
        /\ (e = ValueError /\ timestamps (group k) = []
            \/ e = TypeError /\ same_kind (timestamps (group k)) = false)
  end.
Proof.
  intros group.
  destruct (group_invariant _normalize_error_message
              (filter is_error entries)) as (Hnd & Hkeys & Hmem).
  assert (Hgroup : forall k members,
            In (k, members)
               (group_by_message _normalize_error_message
                                 (filter is_error entries)) ->
            members = group k).
  { intros k members Hin. rewrite (Hmem _ _ Hin). apply filter_filter_and. }
  assert (Hlisted : forall k, group k <> [] ->
            In (k, group k)
               (group_by_message _normalize_error_message
                                 (filter is_error entries))).
  { intros k Hne. destruct (group k) as [|e l] eqn:Hg; [congruence|].
    assert (He : In e (group k)) by (rewrite Hg; now left).
    unfold group in He. rewrite <- filter_filter_and in He.
    apply filter_In in He as [He Hk]. apply str_eqb_eq in Hk.
    pose proof (Hkeys e He) as Hin. rewrite Hk in Hin.
    apply in_map_iff in Hin as ([k' members] & Hfst & Hin).
    cbn [fst] in Hfst. subst k'. rewrite <- Hg.
    now rewrite <- (Hgroup _ _ Hin). }
  pose proof (clustering_result entries) as Hres.
  unfold _detect_error_patterns in *.
  destruct (filter is_error entries) as [|e0 l0] eqn:Hf.
  { split; [|split; [cbn; lia|split; constructor]].
    intros k Hk. exfalso. unfold group in Hk.
    rewrite <- filter_filter_and, Hf in Hk. cbn in Hk. lia. }
  rewrite <- Hf in *. clear e0 l0 Hf.
  set (groups := group_by_message _ _) in *.
  destruct (mapM pattern_of (filter recurring groups)) as [all|e] eqn:Hall;
    cbn [bind] in *.
  - destruct (Hres _ eq_refl) as (Hlen & Hsorted & _).
    apply mapM_ok in Hall.
    assert (Hone : forall g p, In g (filter recurring groups) ->
              pattern_of g = Ok p ->
              timestamps (group (fst g)) <> []
              /\ same_kind (timestamps (group (fst g))) = true
              /\ pattern p = fst g /\ count p = length (group (fst g))
              /\ 2 <= count p
              /\ examples p = map message (firstn 3 (group (fst g)))
              /\ severity p
                 = (if 10 <? count p then lit "high" else lit "medium")
              /\ category p = lit "error"
              /\ exists lo hi,
                   first_occurrence p = Some lo
                   /\ last_occurrence p = Some hi
                   /\ In lo (timestamps (group (fst g)))
                   /\ In hi (timestamps (group (fst g)))
                   /\ forall t, In t (timestamps (group (fst g))) ->
                        (time_key lo <= time_key t <= time_key hi)%Z).
    { intros [k members] p Hg Hp. apply filter_In in Hg as [Hg Hrec].
      unfold recurring in Hrec. cbn [snd] in Hrec. apply Nat.leb_le in Hrec.
      pose proof (Hgroup _ _ Hg) as ->. cbn [fst].
      pose proof (pattern_of_outcome k (group k)) as Ho.
      destruct (pattern_of_fields _ Hp) as (Hpat & Hcnt & Hex & Hsev & Hcat).
      cbn [fst snd] in Hpat, Hcnt, Hex, Hsev. rewrite <- Hcnt in Hsev.
      rewrite Hp in Ho.
      destruct Ho as (Hts & Hk & Hocc).
      repeat (split; [assumption || lia|]). exact Hocc. }
    split; [|split; [exact Hlen|split; [exact Hsorted|]]].
    + intros k Hk.
      assert (Hin : In (k, group k) (filter recurring groups)).
      { apply filter_In. split.
        - apply Hlisted. destruct (group k); [cbn in Hk; lia|discriminate].
        - unfold recurring. cbn [snd]. now apply Nat.leb_le. }
      destruct (Forall2_in_l Hall Hin) as (p & _ & Hp).
      destruct (Hone _ _ Hin Hp) as (Hts & Hkind & _). now split.
    + apply Forall_forall. intros p Hp. apply in_firstn, sorted_in in Hp.
      destruct (Forall2_in_r Hall Hp) as (g & Hg & Hgp).
      destruct (Hone _ _ Hg Hgp) as (_ & _ & Hpat & Hrest).
      rewrite Hpat. exact Hrest.
  - apply mapM_raise_inv in Hall as ([k members] & Hg & Hp).
    apply filter_In in Hg as [Hg Hrec].
    unfold recurring in Hrec. cbn [snd] in Hrec. apply Nat.leb_le in Hrec.
    pose proof (Hgroup _ _ Hg) as ->.
    pose proof (pattern_of_outcome k (group k)) as Ho. rewrite Hp in Ho.
    exists k. now split.
Qed.

End ErrorClustering.

(** ** Volume spikes and error spikes *)

Module Spikes.

Import LogAnalyzer FileProcessor.
Import TextFacts DictFacts SortFacts ListFacts CountFacts Anomalies.

(** *** Counting into a dictionary whose keys are compared by an
    equivalence *)

Section TallyUpTo.

Context {A K : Type}.
Variable keq : K -> K -> bool.
Variable key : A -> K.

Hypothesis keq_refl : forall a, keq a a = true.
Hypothesis keq_sym : forall a b, keq a b = keq b a.
Hypothesis keq_trans :
  forall a b c, keq a b = true -> keq b c = true -> keq a c = true.

Local Abbreviation tally l :=
  (fold_left (fun d x => Dict.update keq (key x) S 0 d) l []).

Local Abbreviation apart :=
  (ForallOrdPairs (fun a b : K * nat => keq (fst a) (fst b) = false)).

Lemma update_apart (k : K) (d : list (K * nat)) :
  apart d ->
  apart (Dict.update keq k S 0 d)
  /\ (forall k' n, In (k', n) (Dict.update keq k S 0 d) ->
        keq k' k = false /\ In (k', n) d
        \/ keq k' k = true
           /\ ((exists v, In (k', v) d /\ n = S v)
               \/ n = 1 /\ forall k'' v, In (k'', v) d -> keq k'' k = false)).
Proof.
  induction d as [|[k0 n0] d IH]; intros Hd; cbn [Dict.update].
  - split; [repeat constructor|].
    intros k' n [[= <- <-]|[]]. right. split; [apply keq_refl|].
    right. split; [reflexivity|]. intros k'' v [].
  - inversion Hd as [|x l Hx Hrest]; subst.
    destruct (keq k0 k) eqn:E.
    + split.
      * constructor; [|exact Hrest].
        rewrite Forall_forall in *. intros b Hb. exact (Hx b Hb).
      * intros k' n [[= <- <-]|Hin].
        -- right. split; [exact E|]. left. exists n0. split; [now left|].
           reflexivity.
        -- left. split; [|now right].
           rewrite Forall_forall in Hx. specialize (Hx _ Hin).
           cbn [fst] in Hx.
           destruct (keq k' k) eqn:E'; [|reflexivity].
           rewrite keq_sym in E'.
           now rewrite (keq_trans E E') in Hx.
    + destruct (IH Hrest) as [Hap Hin']. split.
      * constructor; [|exact Hap].
        apply Forall_forall. intros [k' n] Hb. cbn [fst].
        destruct (Hin' _ _ Hb) as [[_ Hin]|[Ek [(v & Hin & _)|[_ _]]]].
        -- rewrite Forall_forall in Hx. exact (Hx _ Hin).
        -- rewrite Forall_forall in Hx. exact (Hx _ Hin).
        -- destruct (keq k0 k') eqn:E'; [|reflexivity].
           now rewrite (keq_trans E' Ek) in E.
      * intros k' n [[= <- <-]|Hin].
        -- left. split; [exact E|now left].
        -- destruct (Hin' _ _ Hin) as [[Ek H]|[Ek [(v & H & ->)|[-> H]]]].
           ++ left. split; [exact Ek|now right].
           ++ right. split; [exact Ek|]. left. exists v.
              split; [now right|reflexivity].
           ++ right. split; [exact Ek|]. right. split; [reflexivity|].
              intros k'' v [[= <- <-]|Hv]; [exact E|exact (H _ _ Hv)].
Qed.

Lemma update_keeps_keys (k k0 : K) (n0 : nat) (d : list (K * nat)) :
  In (k0, n0) d -> exists n, In (k0, n) (Dict.update keq k S 0 d).
Proof.
  induction d as [|[k1 n1] d IH]; [contradiction|]. cbn [Dict.update].
  intros [[= -> ->]|Hin].
  - destruct (keq k0 k); eexists; now left.
  - destruct (keq k1 k).
    + exists n0. now right.
    + destruct (IH Hin) as (n & Hn). exists n. now right.
Qed.

Lemma update_has_key (k : K) (d : list (K * nat)) :
  exists k' n, In (k', n) (Dict.update keq k S 0 d) /\ keq k' k = true.
Proof.
  induction d as [|[k1 n1] d IH]; cbn [Dict.update].
  - exists k, 1. split; [now left|apply keq_refl].
  - destruct (keq k1 k) eqn:E.
    + exists k1, (S n1). split; [now left|exact E].
    + destruct IH as (k' & n & Hin & Ek). exists k', n.
      split; [now right|exact Ek].
Qed.

(** No two keys are equivalent, every item has its key in the dictionary
    up to equivalence, and a counter holds the number of the items whose
    key is equivalent to its key. *)
Lemma tally_up_to (l : list A) :
  apart (tally l)
  /\ (forall x, In x l -> exists k n, In (k, n) (tally l)
                                      /\ keq k (key x) = true)
  /\ (forall k n, In (k, n) (tally l) ->
        0 < n /\ n = count_if (fun x => keq k (key x)) l).
Proof.
  induction l as [|x l IH] using rev_ind.
  - cbn. split; [constructor|]. split; [intros x []|intros k n []].
  - destruct IH as (Hap & Hkeys & Hcnt).
    rewrite fold_left_app. cbn [fold_left].
    destruct (update_apart (key x) Hap) as [Hap' Hin']. split; [exact Hap'|].
    split.
    + intros y Hy. apply in_app_or in Hy as [Hy|[<-|[]]].
      * destruct (Hkeys y Hy) as (k & n & Hin & Ek).
        destruct (update_keeps_keys (key x) _ _ _ Hin) as (n' & Hn').
        now exists k, n'.
      * apply update_has_key.
    + intros k n Hin. rewrite count_if_app. unfold count_if at 2.
      cbn [filter].
      destruct (Hin' _ _ Hin) as [[Ek H]|[Ek [(v & H & ->)|[-> H]]]].
      * rewrite Ek. cbn. destruct (Hcnt _ _ H) as [H1 H2]. lia.
      * rewrite Ek. cbn. destruct (Hcnt _ _ H) as [H1 H2]. lia.
      * rewrite Ek. cbn. split; [lia|].
        rewrite count_if_none; [reflexivity|].
        intros y Hy. destruct (Hkeys y Hy) as (k' & n' & Hk' & Ey).
        specialize (H _ _ Hk').
        destruct (keq k (key y)) eqn:E'; [|reflexivity].
        rewrite keq_sym in E'.
        pose proof (keq_trans Ey E') as E1.
        now rewrite (keq_trans E1 Ek) in H.
Qed.

End TallyUpTo.

(** *** [datetime] keys *)

Lemma dt_eqb_refl (a : datetime) : dt_eqb a a = true.
Proof. unfold dt_eqb. destruct (tzinfo a); apply Z.eqb_refl. Qed.

Lemma dt_eqb_sym (a b : datetime) : dt_eqb a b = dt_eqb b a.
Proof.
  unfold dt_eqb. destruct (tzinfo a), (tzinfo b); try reflexivity;
    apply Z.eqb_sym.
Qed.

Lemma dt_eqb_trans (a b c : datetime) :
  dt_eqb a b = true -> dt_eqb b c = true -> dt_eqb a c = true.
Proof.
  unfold dt_eqb. destruct (tzinfo a), (tzinfo b), (tzinfo c);
    try discriminate; rewrite !Z.eqb_eq; congruence.
Qed.

(** The buckets of a bucketing loop over timestamps. *)
Lemma bucket_counts_spec (key_of : datetime -> datetime)
    (ts : list datetime) :
  total (map snd (bucket_counts key_of ts)) = length ts
  /\ ForallOrdPairs (fun a b => dt_eqb (fst a) (fst b) = false)
                    (bucket_counts key_of ts)
  /\ (forall k n, In (k, n) (bucket_counts key_of ts) ->
        0 < n /\ n = count_if (fun t => dt_eqb k (key_of t)) ts).
Proof.
  unfold bucket_counts. split; [apply tally_total|].
  destruct (tally_up_to dt_eqb key_of dt_eqb_refl dt_eqb_sym dt_eqb_trans ts)
    as (Hap & _ & Hcnt).
  now split.
Qed.

(** *** The thresholds *)

(** A count exceeds [c] times the mean of the counts when the count times
    the number of counts exceeds [c] times their sum. *)
Lemma above_average (counts : list nat) (c : positive) (n : nat) :
  counts <> [] ->
  qlt (average counts * (Z.pos c # 1)) (qnat n)
  = (Pos.to_nat c * total counts <? n * length counts).
Proof.
  intros Hne. unfold qlt, average, qnat. fold (total counts).
  assert (Hlen : 0 < length counts) by (destruct counts; [congruence|cbn; lia]).
  set (s := total counts). set (len := length counts) in *.
  destruct (Z.of_nat len) as [|p|p] eqn:Hp; try lia.
  destruct (Qlt_le_dec _ _) as [H|H]; unfold Qlt, Qle, Qdiv, Qmult, Qinv in H;
    cbn [Qnum Qden inject_Z] in H; symmetry;
    [apply Nat.ltb_lt | apply Nat.ltb_ge];
    apply Nat2Z.inj_lt || apply Nat2Z.inj_le;
    rewrite !Nat2Z.inj_mul, positive_nat_Z, Hp; nia.
Qed.

(** The counts that exceed three times the mean are fewer than a third of
    the counts. *)
Lemma few_above_average (counts : list nat) :
  3 * count_if (fun n => 3 * total counts <? n * length counts) counts
  <= length counts.
Proof.
  set (s := total counts). set (len := length counts).
  assert (H : forall l,
            count_if (fun n => 3 * s <? n * len) l * (3 * s + 1)
            <= total l * len).
  { induction l as [|n l IH]; [cbn; lia|].
    unfold count_if in *. cbn [filter].
    change (total (n :: l)) with (n + total l).
    destruct (3 * s <? n * len) eqn:E.
    - apply Nat.ltb_lt in E. cbn [length]. nia.
    - nia. }
  specialize (H counts). fold s in H. nia.
Qed.

(** The records of a loop that reports the counts above a threshold. *)
Lemma threshold_records {K R} (d : list (K * nat)) (p : nat -> bool)
    (mk : K -> nat -> R) (body : K * nat -> list R) :
  (forall k n, body (k, n) = if p n then [mk k n] else []) ->
  (forall a, In a (flat_map body d)
             <-> exists k n, In (k, n) d /\ p n = true /\ a = mk k n)
  /\ length (flat_map body d) = count_if p (map snd d).
Proof.
  intros Hbody. split.
  - intros a. rewrite in_flat_map. split.
    + intros ([k n] & Hin & Ha). rewrite Hbody in Ha.
      destruct (p n) eqn:E; [|contradiction]. destruct Ha as [<-|[]].
      now exists k, n.
    + intros (k & n & Hin & Hp & ->). exists (k, n). split; [exact Hin|].
      rewrite Hbody, Hp. now left.
  - unfold count_if. induction d as [|[k n] d IH]; [reflexivity|].
    cbn [flat_map map filter snd]. rewrite length_app, Hbody, IH.
    now destruct (p n).
Qed.

Lemma count_if_le {T} (p q : T -> bool) (l : list T) :
  (forall x, p x = true -> q x = true) -> count_if p l <= count_if q l.
Proof.
  intros H. unfold count_if. induction l as [|x l IH]; [cbn; lia|].
  cbn [filter]. destruct (p x) eqn:E.
  - rewrite (H x E). cbn. lia.
  - destruct (q x); cbn; lia.
Qed.

Lemma stamped_errors_length (entries : list LogEntry) :
  length (timestamps (filter (fun e => is_error e && has_timestamp e)
                             entries))
  = length (filter (fun e => is_error e && has_timestamp e) entries).
Proof.
  unfold timestamps, has_timestamp.
  induction entries as [|e l IH]; [reflexivity|]. cbn [filter].
  destruct (is_error e); cbn [andb]; [|exact IH].
  destruct (timestamp e) eqn:E; [|exact IH].
  cbn [flat_map length]. rewrite E. cbn. now rewrite IH.
Qed.

(** X26: [_detect_volume_anomalies].  The hourly buckets count the entries
    whose timestamp lies in the hour.  With the mean taken as the exact
    quotient, a record is returned exactly for each bucket that holds more
    than 100 entries and more than 3 times the mean of the buckets, when
    there are at least 3 buckets; it carries the hour and the count, and is
    "medium" when the count exceeds 5 times the mean and "low" otherwise.
    Fewer than a third of the buckets can be reported. *)
Theorem volume_spike_thresholds (entries : list LogEntry) :
  let stamped := timestamps entries in
  let hourly := hourly_counts entries in
  let found := _detect_volume_anomalies entries in
  (forall h n, In (h, n) hourly ->
     0 < n
     /\ n = count_if (fun t => dt_eqb h (replace_minute t 0)) stamped)
  /\ (forall a, In a found
        <-> 3 <= length hourly
            /\ exists h n, In (h, n) hourly
                 /\ 100 < n /\ 3 * length stamped < n * length hourly
                 /\ a = {| anomaly_type := lit "volume_spike";
                           description :=
                             lit "Unusual high log volume: " ++ of_nat n
                             ++ lit " entries in 1 hour";
                           anomaly_timestamp := isoformat h;
                           anomaly_severity :=
                             if 5 * length stamped <? n * length hourly
                             then lit "medium" else lit "low";
                           affected_entries := n |})
  /\ 3 * length found <= length hourly.
Proof.
  intros stamped hourly found. subst found.
  assert (Htotal : total (map snd hourly) = length stamped)
    by apply (bucket_counts_spec (fun t => replace_minute t 0) stamped).
  split; [apply (bucket_counts_spec (fun t => replace_minute t 0) stamped)|].
  unfold _detect_volume_anomalies. fold hourly.
  destruct (length hourly <? 3) eqn:Hlen.
  { apply Nat.ltb_lt in Hlen. split; [|cbn; lia].
    intros a. split; [intros []|]. intros [H _]. lia. }
  apply Nat.ltb_ge in Hlen.
  assert (Hne : map snd hourly <> [])
    by (destruct hourly; [cbn in Hlen; lia|discriminate]).
  match goal with
  | |- context [flat_map ?f hourly] =>
      destruct (@threshold_records _ _ hourly
                  (fun n => (3 * length stamped <? n * length hourly)
                            && (100 <? n))
                  (fun h n =>
                     {| anomaly_type := lit "volume_spike";
                        description :=
                          lit "Unusual high log volume: " ++ of_nat n
                          ++ lit " entries in 1 hour";
                        anomaly_timestamp := isoformat h;
                        anomaly_severity :=
                          if 5 * length stamped <? n * length hourly
                          then lit "medium" else lit "low";
                        affected_entries := n |})
                  f) as [Hin Hcount]
  end.
  { intros k n. cbn beta iota.
    rewrite (@above_average (map snd hourly) 3 n Hne).
    rewrite (@above_average (map snd hourly) 5 n Hne).
    rewrite Htotal, length_map. reflexivity. }
  split.
  - intros a. rewrite Hin. split.
    + intros (h & n & Hh & Hp & ->). split; [exact Hlen|].
      apply andb_prop in Hp as [H1 H2].
      apply Nat.ltb_lt in H1, H2. now exists h, n.
    + intros (_ & h & n & Hh & H1 & H2 & ->). exists h, n.
      split; [exact Hh|]. split; [|reflexivity].
      apply andb_true_intro. split; now apply Nat.ltb_lt.
  - rewrite Hcount.
    pose proof (few_above_average (map snd hourly)) as Hfew.
    rewrite Htotal, length_map in Hfew.
    pose proof (@count_if_le _
                  (fun n => (3 * length stamped <? n * length hourly)
                            && (100 <? n))
                  (fun n => 3 * length stamped <? n * length hourly)
                  (map snd hourly)) as Hle.
    cbn beta in Hle. specialize (Hle (fun n H => proj1 (andb_prop _ _ H))).
    lia.
Qed.

(** X27: [_detect_error_spikes].  The error entries with a timestamp are
    counted in slots of 10 minutes.  With the mean taken as the exact
    quotient, a record is returned exactly for each slot that holds more
    than 10 errors and more than 3 times the mean of the slots, when there
    are at least 10 such entries and at least 3 slots; it carries the slot
    and the count, and is "high" when the count exceeds 5 times the mean
    and "medium" otherwise.  Fewer than a third of the slots can be
    reported. *)
Theorem error_spike_thresholds (entries : list LogEntry) :
  let errors := filter (fun e => is_error e && has_timestamp e) entries in
  let slot t := replace_minute t ((minute t / 10) * 10)%Z in
  let slots := bucket_counts slot (timestamps errors) in
  let found := _detect_error_spikes entries in
  (forall s n, In (s, n) slots ->
     0 < n /\ n = count_if (fun t => dt_eqb s (slot t)) (timestamps errors))
  /\ (forall a, In a found
        <-> 10 <= length errors /\ 3 <= length slots
            /\ exists s n, In (s, n) slots
                 /\ 10 < n /\ 3 * length errors < n * length slots
                 /\ a = {| anomaly_type := lit "error_spike";
                           description :=
                             lit "Error spike: " ++ of_nat n
                             ++ lit " errors in 10 minutes";
                           anomaly_timestamp := isoformat s;
                           anomaly_severity :=
                             if 5 * length errors <? n * length slots
                             then lit "high" else lit "medium";
                           affected_entries := n |})
  /\ 3 * length found <= length slots.
Proof.
  intros errors slot slots found. subst found.
  assert (Htotal : total (map snd slots) = length errors).
  { transitivity (length (timestamps errors)).
    - apply (bucket_counts_spec slot (timestamps errors)).
    - apply stamped_errors_length. }
  split; [apply (bucket_counts_spec slot (timestamps errors))|].
  unfold _detect_error_spikes. fold errors. fold slot. fold slots.
  destruct (length errors <? 10) eqn:Hten.
  { apply Nat.ltb_lt in Hten. split; [|cbn; lia].
    intros a. split; [intros []|]. intros [H _]. lia. }
  apply Nat.ltb_ge in Hten.
  destruct (length slots <? 3) eqn:Hlen.
  { apply Nat.ltb_lt in Hlen. split; [|cbn; lia].
    intros a. split; [intros []|]. intros (_ & H & _). lia. }
  apply Nat.ltb_ge in Hlen.
  assert (Hne : map snd slots <> [])
    by (destruct slots; [cbn in Hlen; lia|discriminate]).
  match goal with
  | |- context [flat_map ?f slots] =>
      destruct (@threshold_records _ _ slots
                  (fun n => (3 * length errors <? n * length slots)
                            && (10 <? n))
                  (fun s n =>
                     {| anomaly_type := lit "error_spike";
                        description :=
                          lit "Error spike: " ++ of_nat n
                          ++ lit " errors in 10 minutes";
                        anomaly_timestamp := isoformat s;
                        anomaly_severity :=
                          if 5 * length errors <? n * length slots
                          then lit "high" else lit "medium";
                        affected_entries := n |})
                  f) as [Hin Hcount]
  end.
  { intros k n. cbn beta iota.
    rewrite (@above_average (map snd slots) 3 n Hne).
    rewrite (@above_average (map snd slots) 5 n Hne).
    rewrite Htotal, length_map. reflexivity. }
  split.
  - intros a. rewrite Hin. split.
    + intros (s & n & Hs & Hp & ->). split; [exact Hten|].
      split; [exact Hlen|].
      apply andb_prop in Hp as [H1 H2].
      apply Nat.ltb_lt in H1, H2. now exists s, n.
    + intros (_ & _ & s & n & Hs & H1 & H2 & ->). exists s, n.
      split; [exact Hs|]. split; [|reflexivity].
      apply andb_true_intro. split; now apply Nat.ltb_lt.
  - rewrite Hcount.
    pose proof (few_above_average (map snd slots)) as Hfew.
    rewrite Htotal, length_map in Hfew.
    pose proof (@count_if_le _
                  (fun n => (3 * length errors <? n * length slots)
                            && (10 <? n))
                  (fun n => 3 * length errors <? n * length slots)
                  (map snd slots)) as Hle.
    cbn beta in Hle. specialize (Hle (fun n H => proj1 (andb_prop _ _ H))).
    lia.
Qed.

End Spikes.

(** ** Decimal rendering *)

Module Decimals.

Import TextFacts ListFacts.

Local Open Scope Z_scope.

Lemma digit_char (k : Z) :
  0 <= k < 10 ->
  is_digit (ascii_of_nat (48 + Z.to_nat k)) = true
  /\ digit_val (ascii_of_nat (48 + Z.to_nat k)) = k.
Proof.
  intros H.
  assert (E : k = 0 \/ k = 1 \/ k = 2 \/ k = 3 \/ k = 4 \/ k = 5 \/ k = 6
              \/ k = 7 \/ k = 8 \/ k = 9) by lia.
  repeat destruct E as [->|E]; try subst k; now split.
Qed.

Lemma digits_value_snoc (ds : str) (c : ascii) :
  digits_value (ds ++ [c]) = digits_value ds * 10 + digit_val c.
Proof. unfold digits_value. now rewrite fold_left_app. Qed.

(** The digits of a number, the least significant first. *)
Lemma digits_rev_value (fuel : nat) (n : Z) :
  0 <= n < 2 ^ Z.of_nat fuel -> (0 < fuel)%nat ->
  forallb is_digit (Datetime.digits_rev fuel n) = true
  /\ digits_value (rev (Datetime.digits_rev fuel n)) = n.
Proof.
  revert n. induction fuel as [|f IH]; intros n Hn Hf; [lia|].
  cbn [Datetime.digits_rev].
  assert (Hmod : 0 <= n mod 10 < 10) by (apply Z.mod_pos_bound; lia).
  destruct (digit_char Hmod) as [Hd Hv].
  destruct (n / 10 =? 0) eqn:E.
  - apply Z.eqb_eq in E. cbn [forallb rev app]. rewrite Hd.
    split; [reflexivity|].
    unfold digits_value. cbn [fold_left]. rewrite Hv.
    pose proof (Z.div_mod n 10). lia.
  - apply Z.eqb_neq in E.
    assert (H10 : 10 <= n).
    { destruct (Z.lt_ge_cases n 10) as [Hlt|]; [|assumption].
      rewrite Z.div_small in E by lia. congruence. }
    rewrite Nat2Z.inj_succ, Z.pow_succ_r in Hn by lia.
    assert (Hq : 0 <= n / 10 < 2 ^ Z.of_nat f).
    { split; [apply Z.div_pos; lia|].
      apply Z.div_lt_upper_bound; lia. }
    assert (Hf' : (0 < f)%nat).
    { destruct f; [|lia]. cbn in Hq. lia. }
    destruct (IH _ Hq Hf') as [Hds Hval].
    cbn [forallb rev]. rewrite Hd, Hds. split; [reflexivity|].
    rewrite digits_value_snoc, Hval, Hv.
    pose proof (Z.div_mod n 10). lia.
Qed.

Lemma digits_rev_length (fuel : nat) (n : Z) (w : nat) :
  0 <= n < 10 ^ Z.of_nat w -> (1 <= w)%nat ->
  (length (Datetime.digits_rev fuel n) <= w)%nat.
Proof.
  revert n w. induction fuel as [|f IH]; intros n w Hn Hw; [cbn; lia|].
  cbn [Datetime.digits_rev length].
  destruct (n / 10 =? 0) eqn:E; [cbn; lia|].
  apply Z.eqb_neq in E.
  assert (H10 : 10 <= n).
  { destruct (Z.lt_ge_cases n 10) as [Hlt|]; [|assumption].
    rewrite Z.div_small in E by lia. congruence. }
  destruct w as [|[|w]]; [lia| cbn in Hn; lia|].
  assert (Hq : 0 <= n / 10 < 10 ^ Z.of_nat (S w)).
  { split; [apply Z.div_pos; lia|].
    apply Z.div_lt_upper_bound; [lia|].
    rewrite <- Z.pow_succ_r by lia. now rewrite <- Nat2Z.inj_succ. }
  specialize (IH _ (S w) Hq). lia.
Qed.

Lemma decimal_value (n : Z) :
  0 <= n ->
  forallb is_digit (decimal n) = true /\ digits_value (decimal n) = n.
Proof.
  intros Hn. unfold decimal. rewrite Z.abs_eq by assumption.
  assert (Hb : 0 <= n < 2 ^ Z.of_nat (S (Z.to_nat (Z.log2 n)))).
  { split; [assumption|].
    rewrite Nat2Z.inj_succ, Z2Nat.id by apply Z.log2_nonneg.
    destruct (Z.eq_dec n 0) as [->|Hne]; [cbn; lia|].
    apply Z.log2_spec. lia. }
  destruct (digits_rev_value Hb) as [Hd Hv]; [lia|].
  split; [|exact Hv].
  rewrite forallb_forall in *. intros c Hc. apply Hd. now apply in_rev.
Qed.

Lemma zeros_value (k : nat) (ds : str) :
  digits_value (repeat "0"%char k ++ ds) = digits_value ds.
Proof.
  unfold digits_value. induction k as [|k IH]; [reflexivity|exact IH].
Qed.

(** A number of at most [width] digits, padded with zeros: [width] digits
    whose value is the number. *)
Lemma padded_spec (width : nat) (n : Z) :
  0 <= n < 10 ^ Z.of_nat width -> (1 <= width)%nat ->
  length (padded width n) = width
  /\ forallb is_digit (padded width n) = true
  /\ digits_value (padded width n) = n.
Proof.
  intros Hn Hw. unfold padded.
  destruct (decimal_value (proj1 Hn)) as [Hd Hv].
  assert (Hlen : (length (decimal n) <= width)%nat).
  { unfold decimal. rewrite length_rev, Z.abs_eq by lia.
    now apply digits_rev_length. }
  change (ascii_of_nat 48) with "0"%char.
  split; [rewrite length_app, repeat_length; lia|]. split.
  - rewrite forallb_app, Hd, andb_true_r. apply forallb_forall.
    intros c Hc. apply repeat_spec in Hc. now subst c.
  - now rewrite zeros_value.
Qed.

End Decimals.

(** ** Reading back a timestamp written by [isoformat] *)

Module IsoFacts.

Import FileProcessor TextFacts StripFacts ReFacts ListFacts Decimals.

(** *** The first result of the matcher *)

Lemma consumed_app (p tail : str) :
  firstn (length (p ++ tail) - length tail) (p ++ tail) = p.
Proof.
  rewrite length_app.
  replace (length p + length tail - length tail) with (length p + 0) by lia.
  rewrite firstn_app_2. cbn. apply app_nil_r.
Qed.

Lemma m_group (g : nat) (r : regex) (before p tail : str)
    (cs : list (nat * str)) (others : list mstate) :
  m r (MState before (p ++ tail) cs)
  = MState (rev p ++ before) tail cs :: others ->
  m (Grp g r) (MState before (p ++ tail) cs)
  = MState (rev p ++ before) tail ((g, p) :: cs)
    :: map (capture g (MState before (p ++ tail) cs)) others.
Proof.
  intros H. cbn [m]. rewrite H. cbn [map]. f_equal.
  unfold capture, consumed. cbn [pre rest caps]. now rewrite consumed_app.
Qed.

Lemma m_rep_digits (k : nat) (ds tail before : str) (cs : list (nat * str)) :
  length ds = k -> forallb is_digit ds = true ->
  m (rep k digit) (MState before (ds ++ tail) cs)
  = [MState (rev ds ++ before) tail cs].
Proof.
  revert ds before. induction k as [|k IH]; intros ds before Hlen Hds.
  - destruct ds; [reflexivity|discriminate].
  - destruct ds as [|d ds]; [discriminate|]. cbn [forallb] in Hds.
    apply andb_prop in Hds as [Hd Hds]. injection Hlen as Hlen.
    change (m (rep (S k) digit) ?st)
      with (flat_map (m (rep k digit)) (m digit st)).
    unfold digit at 2. cbn [m rest app]. rewrite Hd. cbn [flat_map]. unfold step.
    cbn [pre caps]. rewrite (IH ds (d :: before) Hlen Hds), app_nil_r.
    cbn [rev]. now rewrite <- app_assoc.
Qed.

Lemma m_upto_digits (k : nat) (ds tail before : str)
    (cs : list (nat * str)) :
  length ds = k -> forallb is_digit ds = true ->
  exists others,
    m (upto k digit) (MState before (ds ++ tail) cs)
    = MState (rev ds ++ before) tail cs :: others.
Proof.
  revert ds before. induction k as [|k IH]; intros ds before Hlen Hds.
  - destruct ds; [|discriminate]. now exists [].
  - destruct ds as [|d ds]; [discriminate|]. cbn [forallb] in Hds.
    apply andb_prop in Hds as [Hd Hds]. injection Hlen as Hlen.
    change (m (upto (S k) digit) ?st)
      with (flat_map (m (upto k digit)) (m digit st) ++ [st]).
    unfold digit at 2. cbn [m rest app]. rewrite Hd. cbn [flat_map]. unfold step.
    cbn [pre caps].
    destruct (IH ds (d :: before) Hlen Hds) as (others & ->).
    cbn [rev]. rewrite <- (app_assoc (rev ds)). cbn [app].
    eexists. reflexivity.
Qed.

(** *** The fields of two digits *)

Lemma range_forall (P : Z -> Prop) (lo : Z) (k : nat) :
  Forall P (map (fun i => (lo + Z.of_nat i)%Z) (seq 0 k)) ->
  forall n, (lo <= n < lo + Z.of_nat k)%Z -> P n.
Proof.
  intros H n Hn. rewrite Forall_forall in H. apply H.
  apply in_map_iff. exists (Z.to_nat (n - lo)). split; [lia|].
  apply in_seq. lia.
Qed.

(** [reads r n]: on the two digits of [n], the first result of [r] is the
    position after them; any other result is the position after the first
    digit. *)
Local Abbreviation reads r n :=
  (forall (before tail : str) (cs : list (nat * str)),
     exists others,
       m r (MState before (padded 2 n ++ tail) cs)
       = MState (rev (padded 2 n) ++ before) tail cs :: others
       /\ Forall (fun st' => exists ch, rest st' = ch :: tail
                                       /\ is_digit ch = true) others).

Ltac read_one :=
  intros ? ? ?; eexists; split; [cbv; reflexivity | repeat econstructor].

Ltac read_all lo k :=
  intros n Hn;
  match goal with
  | |- ?G =>
      let P := eval pattern n in G in
      match P with
      | ?F _ =>
          assert (H : Forall F (map (fun i => (lo + Z.of_nat i)%Z) (seq 0 k)));
          [ let l := fresh "l" in
            set (l := map _ (seq 0 k)); vm_compute in l; subst l;
            repeat (apply Forall_cons; [read_one|]); apply Forall_nil
          | apply (@range_forall F lo k H); lia ]
      end
  end.

Lemma read_hour (n : Z) :
  (0 <= n <= 23)%Z ->
  reads (alts [Seq (chr "2") (range_cls "0" "3");
               Seq (range_cls "0" "1") digit; digit]) n.
Proof. revert n. read_all 0%Z 24. Qed.

Lemma read_month (n : Z) :
  (1 <= n <= 12)%Z ->
  reads (alts [Seq (chr "1") (range_cls "0" "2");
               Seq (chr "0") (range_cls "1" "9"); range_cls "1" "9"]) n.
Proof. revert n. read_all 1%Z 12. Qed.

Lemma read_day (n : Z) :
  (1 <= n <= 31)%Z ->
  reads (alts [Seq (chr "3") (range_cls "0" "1");
               Seq (range_cls "1" "2") digit;
               Seq (chr "0") (range_cls "1" "9");
               range_cls "1" "9";
               Seq (chr " ") (range_cls "1" "9")]) n.
Proof. revert n. read_all 1%Z 31. Qed.

Lemma read_minute (n : Z) :
  (0 <= n <= 59)%Z ->
  reads (alts [Seq (range_cls "0" "5") digit; digit]) n.
Proof. revert n. read_all 0%Z 60. Qed.

Lemma read_second (n : Z) :
  (0 <= n <= 59)%Z ->
  reads (alts [Seq (chr "6") (range_cls "0" "1");
               Seq (range_cls "0" "5") digit; digit]) n.
Proof. revert n. read_all 0%Z 60. Qed.

(** The two digits of a minute. *)
Lemma minute_digits (n : Z) :
  (0 <= n <= 59)%Z ->
  exists m1 m2, padded 2 n = [m1; m2]
                /\ Text.between 48 53 m1 = true /\ is_digit m2 = true.
Proof.
  revert n. intros n Hn.
  assert (H : Forall (fun n => exists m1 m2,
                        padded 2 n = [m1; m2]
                        /\ Text.between 48 53 m1 = true /\ is_digit m2 = true)
                     (map (fun i => (0 + Z.of_nat i)%Z) (seq 0 60))).
  { set (l := map _ (seq 0 60)). vm_compute in l. subst l.
    repeat (apply Forall_cons;
            [do 2 eexists; split; [cbv; reflexivity|split; reflexivity]|]).
    apply Forall_nil. }
  apply (@range_forall _ 0%Z 60 H). lia.
Qed.

(** *** Following the first result through a pattern *)

(** [first_is r st rst cps]: [r] matches at [st], and its first result
    leaves the text [rst] with the groups [cps]. *)
Local Abbreviation first_is r st rst cps :=
  (exists y ys, m r st = y :: ys /\ rest y = rst /\ caps y = cps).

Lemma first_eps (before tail : str) (cs : list (nat * str)) :
  first_is Eps (MState before tail cs) tail cs.
Proof. do 2 eexists. split; [reflexivity|]. now split. Qed.

Lemma first_cls (p : ascii -> bool) (R : regex) (c : ascii)
    (before tail rst : str) (cs cps : list (nat * str)) :
  p c = true ->
  first_is R (MState (c :: before) tail cs) rst cps ->
  first_is (Seq (Cls p) R) (MState before (c :: tail) cs) rst cps.
Proof.
  intros Hp (y & ys & Ey & Hy). exists y. eexists. split; [|exact Hy].
  change (m (Seq ?a ?b) ?st) with (flat_map (m b) (m a st)).
  cbn [m rest]. rewrite Hp. cbn [flat_map]. unfold step. cbn [pre caps].
  rewrite Ey. reflexivity.
Qed.

Lemma first_chr (c : ascii) (R : regex) (before tail rst : str)
    (cs cps : list (nat * str)) :
  first_is R (MState (c :: before) tail cs) rst cps ->
  first_is (Seq (chr_ci c) R) (MState before (c :: tail) cs) rst cps.
Proof. apply first_cls. apply Ascii.eqb_refl. Qed.

Lemma first_group (g : nat) (r R : regex) (p before tail rst : str)
    (cs cps : list (nat * str)) :
  (exists others, m r (MState before (p ++ tail) cs)
                  = MState (rev p ++ before) tail cs :: others) ->
  first_is R (MState (rev p ++ before) tail ((g, p) :: cs)) rst cps ->
  first_is (Seq (Grp g r) R) (MState before (p ++ tail) cs) rst cps.
Proof.
  intros (others & E) (y & ys & Ey & Hy). exists y. eexists.
  split; [|exact Hy].
  change (m (Seq ?a ?b) ?st) with (flat_map (m b) (m a st)).
  rewrite (@m_group g r before p tail cs others E). cbn [flat_map].
  rewrite Ey. reflexivity.
Qed.

Lemma first_field (g : nat) (r R : regex) (n : Z) (before tail rst : str)
    (cs cps : list (nat * str)) :
  reads r n ->
  first_is R (MState (rev (padded 2 n) ++ before) tail
                     ((g, padded 2 n) :: cs)) rst cps ->
  first_is (Seq (Grp g r) R) (MState before (padded 2 n ++ tail) cs) rst cps.
Proof.
  intros Hr. apply first_group.
  destruct (Hr before tail cs) as (others & E & _). now exists others.
Qed.

Lemma first_digits (g k : nat) (R : regex) (ds before tail rst : str)
    (cs cps : list (nat * str)) :
  length ds = k -> forallb is_digit ds = true ->
  first_is R (MState (rev ds ++ before) tail ((g, ds) :: cs)) rst cps ->
  first_is (Seq (Grp g (rep k digit)) R) (MState before (ds ++ tail) cs)
           rst cps.
Proof.
  intros Hlen Hds. apply first_group. exists [].
  now apply m_rep_digits.
Qed.

Lemma first_fraction (R : regex) (ds before tail rst : str)
    (cs cps : list (nat * str)) :
  length ds = 6 -> forallb is_digit ds = true ->
  first_is R (MState (rev ds ++ before) tail ((gf, ds) :: cs)) rst cps ->
  first_is (Seq (Grp gf (rep_range 1 6 (range_cls "0" "9"))) R)
           (MState before (ds ++ tail) cs) rst cps.
Proof.
  intros Hlen Hds. apply first_group.
  change (range_cls "0" "9") with digit.
  change (rep_range 1 6 digit) with (Seq (rep 1 digit) (upto 5 digit)).
  destruct ds as [|d ds]; [discriminate|]. injection Hlen as Hlen.
  cbn [forallb] in Hds. apply andb_prop in Hds as [Hd Hds].
  change (m (Seq ?a ?b) ?st) with (flat_map (m b) (m a st)).
  change ((d :: ds) ++ tail) with ([d] ++ ds ++ tail).
  rewrite (@m_rep_digits 1 [d] (ds ++ tail) before cs eq_refl)
    by (cbn; now rewrite Hd).
  cbn [flat_map rev app].
  destruct (@m_upto_digits 5 ds tail (d :: before) cs Hlen Hds)
    as (others & ->).
  rewrite <- (app_assoc (rev ds)). cbn [app]. eexists. reflexivity.
Qed.

(** *** Patterns without a result *)

Lemma nil_cls (p : ascii -> bool) (R : regex) (c : ascii)
    (before tail : str) (cs : list (nat * str)) :
  (p c = true -> m R (MState (c :: before) tail cs) = []) ->
  m (Seq (Cls p) R) (MState before (c :: tail) cs) = [].
Proof.
  intros H. change (m (Seq ?a ?b) ?st) with (flat_map (m b) (m a st)).
  cbn [m rest]. destruct (p c); [|reflexivity].
  cbn [flat_map]. unfold step. cbn [pre caps]. now rewrite H.
Qed.

Lemma nil_chr (c : ascii) (R : regex) (before tail : str)
    (cs : list (nat * str)) :
  m R (MState (c :: before) tail cs) = [] ->
  m (Seq (chr_ci c) R) (MState before (c :: tail) cs) = [].
Proof. intros H. apply nil_cls. now intros _. Qed.

Lemma nil_group (g : nat) (r R : regex) (p before tail : str)
    (cs : list (nat * str)) (others : list mstate) :
  m r (MState before (p ++ tail) cs)
  = MState (rev p ++ before) tail cs :: others ->
  m R (MState (rev p ++ before) tail ((g, p) :: cs)) = [] ->
  (forall st', In st' others ->
     m R (capture g (MState before (p ++ tail) cs) st') = []) ->
  m (Seq (Grp g r) R) (MState before (p ++ tail) cs) = [].
Proof.
  intros E Hfirst Hothers.
  change (m (Seq ?a ?b) ?st) with (flat_map (m b) (m a st)).
  rewrite (@m_group g r before p tail cs others E). cbn [flat_map].
  rewrite Hfirst. cbn [app].
  apply flat_map_nil. intros x Hx. apply in_map_iff in Hx as (st' & <- & Hin).
  now apply Hothers.
Qed.

(** A field of two digits before a pattern that cannot start with a
    digit. *)
Lemma nil_field (g : nat) (r R : regex) (n : Z) (before tail : str)
    (cs : list (nat * str)) :
  reads r n ->
  m R (MState (rev (padded 2 n) ++ before) tail ((g, padded 2 n) :: cs))
  = [] ->
  (forall st ch s, rest st = ch :: s -> is_digit ch = true -> m R st = []) ->
  m (Seq (Grp g r) R) (MState before (padded 2 n ++ tail) cs) = [].
Proof.
  intros Hr Hfirst Hdigit.
  destruct (Hr before tail cs) as (others & E & Hall).
  apply (@nil_group g r R (padded 2 n) before tail cs others E Hfirst).
  intros st' Hin.
  rewrite Forall_forall in Hall. destruct (Hall _ Hin) as (ch & Hrest & Hch).
  now apply (Hdigit _ ch tail).
Qed.

Lemma nil_digits (g k : nat) (R : regex) (ds before tail : str)
    (cs : list (nat * str)) :
  length ds = k -> forallb is_digit ds = true ->
  m R (MState (rev ds ++ before) tail ((g, ds) :: cs)) = [] ->
  m (Seq (Grp g (rep k digit)) R) (MState before (ds ++ tail) cs) = [].
Proof.
  intros Hlen Hds H.
  apply (@nil_group g (rep k digit) R ds before tail cs []
                    (@m_rep_digits k ds tail before cs Hlen Hds) H).
  intros st' [].
Qed.

(** No digit is one of the separators, the signs or the letter Z. *)
Lemma digit_apart (ch : ascii) :
  is_digit ch = true ->
  forallb (fun c => negb (Ascii.eqb (lower_char ch) (lower_char c)))
          (lit "-T:.")
  && negb (mem_char ch (lit "+-")) && negb (Ascii.eqb "Z" ch) = true.
Proof.
  intros H.
  assert (Hall : forallb
                   (fun ch =>
                      implb (is_digit ch)
                        (forallb (fun c => negb (Ascii.eqb (lower_char ch)
                                                           (lower_char c)))
                                 (lit "-T:.")
                         && negb (mem_char ch (lit "+-"))
                         && negb (Ascii.eqb "Z" ch)))
                   all_chars = true) by (vm_compute; reflexivity).
  rewrite forallb_forall in Hall.
  specialize (Hall ch (all_chars_complete ch)). now rewrite H in Hall.
Qed.

Lemma nil_sep_at_digit (sep : ascii) (R : regex) (st : mstate) (ch : ascii)
    (s : str) :
  In sep (lit "-T:.") ->
  rest st = ch :: s -> is_digit ch = true ->
  m (Seq (chr_ci sep) R) st = [].
Proof.
  intros Hsep Hrest Hch.
  change (m (Seq ?a ?b) ?st) with (flat_map (m b) (m a st)).
  unfold chr_ci. cbn [m]. rewrite Hrest.
  pose proof (digit_apart ch Hch) as H.
  apply andb_prop in H as [H _]. apply andb_prop in H as [H _].
  rewrite forallb_forall in H. specialize (H sep Hsep).
  apply negb_true_iff in H. now rewrite H.
Qed.

End IsoFacts.

(** ** [isoformat] and [_extract_timestamp] *)

Module IsoRoundTrip.

Import FileProcessor TextFacts StripFacts ReFacts ListFacts Decimals IsoFacts.

(** The pattern of the directives [%Y-%m-%dT%H:%M:%S], followed by [R]. *)
Local Abbreviation iso_re R :=
  (Seq (Grp gY (rep 4 digit))
  (Seq (chr_ci "-")
  (Seq (Grp gm (alts [Seq (chr "1") (range_cls "0" "2");
                      Seq (chr "0") (range_cls "1" "9"); range_cls "1" "9"]))
  (Seq (chr_ci "-")
  (Seq (Grp gd (alts [Seq (chr "3") (range_cls "0" "1");
                      Seq (range_cls "1" "2") digit;
                      Seq (chr "0") (range_cls "1" "9");
                      range_cls "1" "9";
                      Seq (chr " ") (range_cls "1" "9")]))
  (Seq (chr_ci "T")
  (Seq (Grp gH (alts [Seq (chr "2") (range_cls "0" "3");
                      Seq (range_cls "0" "1") digit; digit]))
  (Seq (chr_ci ":")
  (Seq (Grp gM (alts [Seq (range_cls "0" "5") digit; digit]))
  (Seq (chr_ci ":")
  (Seq (Grp gS (alts [Seq (chr "6") (range_cls "0" "1");
                      Seq (range_cls "0" "5") digit; digit]))
       R))))))))))).

(** The text of the date and the time of day, followed by [tail]. *)
Local Abbreviation iso_text Y Mo D H Mi S tail :=
  (padded 4 Y ++ "-"%char :: padded 2 Mo ++ "-"%char :: padded 2 D
   ++ "T"%char :: padded 2 H ++ ":"%char :: padded 2 Mi
   ++ ":"%char :: padded 2 S ++ tail).

Local Abbreviation iso_groups Y Mo D H Mi S :=
  [(gS, padded 2 S); (gM, padded 2 Mi); (gH, padded 2 H);
   (gd, padded 2 D); (gm, padded 2 Mo); (gY, padded 4 Y)].

Local Abbreviation first_is r st rst cps :=
  (exists y ys, m r st = y :: ys /\ rest y = rst /\ caps y = cps).

Local Abbreviation in_range Y Mo D H Mi S :=
  ((1 <= Y <= 9999)%Z /\ (1 <= Mo <= 12)%Z /\ (1 <= D <= 31)%Z
   /\ (0 <= H <= 23)%Z /\ (0 <= Mi <= 59)%Z /\ (0 <= S <= 59)%Z).

Lemma year_digits (Y : Z) :
  (1 <= Y <= 9999)%Z ->
  length (padded 4 Y) = 4 /\ forallb is_digit (padded 4 Y) = true
  /\ digits_value (padded 4 Y) = Y.
Proof. intros H. apply padded_spec; [cbn; lia|lia]. Qed.

Lemma iso_first (R : regex) (Y Mo D H Mi S : Z) (tail rst : str)
    (cps : list (nat * str)) :
  in_range Y Mo D H Mi S ->
  (forall before,
     first_is R (MState before tail (iso_groups Y Mo D H Mi S)) rst cps) ->
  first_is (iso_re R) (start_state [] (iso_text Y Mo D H Mi S tail)) rst cps.
Proof.
  intros (HY & HMo & HD & HH & HMi & HS) HR. unfold start_state.
  destruct (year_digits HY) as (Hlen & Hds & _).
  apply first_digits; [exact Hlen|exact Hds|].
  apply first_chr. apply first_field; [now apply read_month|].
  apply first_chr. apply first_field; [now apply read_day|].
  apply first_chr. apply first_field; [now apply read_hour|].
  apply first_chr. apply first_field; [now apply read_minute|].
  apply first_chr. apply first_field; [now apply read_second|].
  apply HR.
Qed.

Lemma iso_nil (R : regex) (Y Mo D H Mi S : Z) (tail : str) :
  in_range Y Mo D H Mi S ->
  (forall before, m R (MState before tail (iso_groups Y Mo D H Mi S)) = []) ->
  (forall st ch s, rest st = ch :: s -> is_digit ch = true -> m R st = []) ->
  m (iso_re R) (start_state [] (iso_text Y Mo D H Mi S tail)) = [].
Proof.
  intros (HY & HMo & HD & HH & HMi & HS) HR Hdigit. unfold start_state.
  destruct (year_digits HY) as (Hlen & Hds & _).
  assert (Hsep : forall sep R' st ch s,
             In sep (lit "-T:.") -> rest st = ch :: s -> is_digit ch = true ->
             m (Seq (chr_ci sep) R') st = [])
    by (intros; eapply nil_sep_at_digit; eassumption).
  apply nil_digits; [exact Hlen|exact Hds|].
  apply nil_chr. apply nil_field; [now apply read_month| |].
  2:{ intros st ch s. apply Hsep. cbn. tauto. }
  apply nil_chr. apply nil_field; [now apply read_day| |].
  2:{ intros st ch s. apply Hsep. cbn. tauto. }
  apply nil_chr. apply nil_field; [now apply read_hour| |].
  2:{ intros st ch s. apply Hsep. cbn. tauto. }
  apply nil_chr. apply nil_field; [now apply read_minute| |].
  2:{ intros st ch s. apply Hsep. cbn. tauto. }
  apply nil_chr. apply nil_field; [now apply read_second| |].
  2:{ exact Hdigit. }
  apply HR.
Qed.

(** *** What [strptime] makes of the first result *)

Lemma strptime_by_first (fmt data : str) (r : regex) (rst : str)
    (cps : list (nat * str)) :
  strptime_regex fmt = Some r ->
  first_is r (start_state [] data) rst cps ->
  strptime data fmt
  = match rst with
    | _ :: _ => Raise ValueError
    | [] =>
        let y := int_of (assoc gY cps) 1900 in
        let mo :=
          match assoc gb cps with
          | Some b =>
              match index_of (lower b) month_names 1 with
              | Some i => i
              | None => 1%Z
              end
          | None => int_of (assoc gm cps) 1
          end in
        let d := int_of (assoc gd cps) 1 in
        let h := int_of (assoc gH cps) 0 in
        let mi := int_of (assoc gM cps) 0 in
        let s := int_of (assoc gS cps) 0 in
        let us := match assoc gf cps with
                  | Some f => fraction_value f
                  | None => 0%Z
                  end in
        do tz <-
          match assoc gz cps with
          | Some z =>
              do off <- offset_value z;
              if (Z.abs off <? us_per_day)%Z then Ok (Some off)
              else Raise ValueError
          | None => Ok None
          end;
        mk_datetime y mo d h mi s us tz
    end.
Proof.
  intros Hre (y & ys & E & Hrest & Hcaps).
  unfold strptime, re_match, match_at. rewrite Hre, E. cbn [m_after].
  rewrite Hrest. destruct rst; [|reflexivity].
  unfold group. cbn [m_caps]. rewrite Hcaps. reflexivity.
Qed.

Lemma strptime_no_match (fmt data : str) (r : regex) :
  strptime_regex fmt = Some r -> m r (start_state [] data) = [] ->
  strptime data fmt = Raise ValueError.
Proof.
  intros Hre E. unfold strptime, re_match, match_at. now rewrite Hre, E.
Qed.

(** No format whose pattern needs a character outside a class reads a text
    made of that class. *)
Lemma strptime_in_class (d : ascii -> bool) (s fmt : str) :
  match strptime_regex fmt with
  | Some r => needs_other d r
  | None => true
  end = true ->
  forallb d s = true -> strptime s fmt = Raise ValueError.
Proof.
  intros Hr Hs. unfold strptime.
  destruct (strptime_regex fmt) as [r|]; [|reflexivity].
  unfold re_match. now rewrite (match_at_none_in_class d r [] s Hr Hs).
Qed.

Lemma int_of_padded (width : nat) (n default : Z) :
  (0 <= n < 10 ^ Z.of_nat width)%Z -> 1 <= width ->
  int_of (Some (padded width n)) default = n.
Proof.
  intros Hn Hw. destruct (padded_spec Hn Hw) as (_ & Hds & Hv).
  unfold int_of. now rewrite Timestamps.lstrip_digits.
Qed.

Lemma fraction_of_padded (us : Z) :
  (0 <= us <= 999999)%Z -> fraction_value (padded 6 us) = us.
Proof.
  intros H.
  destruct (@padded_spec 6 us) as (Hlen & _ & Hv); [cbn; lia|lia|].
  unfold fraction_value. rewrite Hlen. cbn [Nat.sub repeat].
  now rewrite app_nil_r.
Qed.

(** *** The offset *)

Lemma two_digits (n : Z) :
  (0 <= n <= 99)%Z ->
  exists a b, padded 2 n = [a; b] /\ is_digit a = true /\ is_digit b = true
              /\ digits_value [a; b] = n.
Proof.
  intros H. destruct (@padded_spec 2 n) as (Hlen & Hds & Hv);
    [cbn; lia|lia|].
  destruct (padded 2 n) as [|a [|b [|c l]]]; try discriminate.
  cbn [forallb] in Hds. apply andb_prop in Hds as [Ha Hb].
  apply andb_prop in Hb as [Hb _]. now exists a, b.
Qed.

(** The offset of a zone of whole minutes is written as a sign, two digits
    of hours, a colon and two digits of minutes. *)
Lemma format_offset_minutes (off : Z) :
  (Z.abs off < us_per_day)%Z -> (off mod 60000000 = 0)%Z ->
  exists h mi,
    (0 <= h <= 23)%Z /\ (0 <= mi <= 59)%Z
    /\ ((h * 3600 + mi * 60) * us_per_second = Z.abs off)%Z
    /\ format_offset off
       = (if (off <? 0)%Z then "-"%char else "+"%char)
         :: padded 2 h ++ ":"%char :: padded 2 mi.
Proof.
  intros Hday Hmin. unfold us_per_day, us_per_second in *.
  assert (Ha : (Z.abs off mod 60000000 = 0)%Z).
  { destruct (Z.abs_spec off) as [[_ ->]|[_ ->]]; [exact Hmin|].
    now apply Z.mod_opp_l_z. }
  apply Z.mod_divide in Ha; [|lia]. destruct Ha as (k & Hk).
  assert (Hk' : (0 <= k < 1440)%Z) by lia.
  exists (k / 60)%Z, (k mod 60)%Z.
  assert (Hh : (0 <= k / 60 <= 23)%Z).
  { split; [apply Z.div_pos; lia|].
    apply Z.lt_succ_r, Z.div_lt_upper_bound; lia. }
  assert (Hmi : (0 <= k mod 60 < 60)%Z) by (apply Z.mod_pos_bound; lia).
  split; [exact Hh|]. split; [lia|]. split.
  { pose proof (Z.div_mod k 60). lia. }
  unfold format_offset, us_per_second. rewrite Hk.
  replace (k * 60000000 mod 1000000)%Z with 0%Z.
  2:{ replace (k * 60000000)%Z with (k * 60 * 1000000)%Z by lia.
      now rewrite Z.mod_mul. }
  replace (k * 60000000 / 1000000)%Z with (k * 60)%Z.
  2:{ replace (k * 60000000)%Z with (k * 60 * 1000000)%Z by lia.
      now rewrite Z.div_mul. }
  rewrite Z.mod_mul by lia.
  replace (k * 60000000 / (60 * 1000000))%Z with k.
  2:{ replace (60 * 1000000)%Z with 60000000%Z by lia.
      now rewrite Z.div_mul. }
  replace (k * 60000000 / (3600 * 1000000))%Z with (k / 60)%Z.
  2:{ replace (k * 60000000)%Z with (k * 60000000)%Z by lia.
      replace (3600 * 1000000)%Z with (60000000 * 60)%Z by lia.
      rewrite <- Z.div_div by lia. now rewrite Z.div_mul. }
  cbn [Z.eqb andb].
  destruct (off <? 0)%Z; cbn [lit list_ascii_of_string app];
    now rewrite app_nil_r.
Qed.

(** The pattern of [%z]. *)
Local Abbreviation zone_body :=
  (Alt (seqs [any_of (lit "+-"); digit; digit; opt (chr ":");
              range_cls "0" "5"; digit;
              opt (seqs [opt (chr ":"); range_cls "0" "5"; digit;
                         opt (Seq (chr ".") (rep_range 1 6 digit))])])
       (chr "Z")).

Lemma head_cls (p : ascii -> bool) (R : regex) (c : ascii)
    (before tail : str) (cs : list (nat * str)) (y : mstate) :
  p c = true ->
  (exists ys, m R (MState (c :: before) tail cs) = y :: ys) ->
  exists ys, m (Seq (Cls p) R) (MState before (c :: tail) cs) = y :: ys.
Proof.
  intros Hp (ys & Ey).
  change (m (Seq ?a ?b) ?st) with (flat_map (m b) (m a st)).
  cbn [m rest]. rewrite Hp. cbn [flat_map]. unfold step. cbn [pre caps].
  rewrite Ey. eexists. reflexivity.
Qed.

Lemma head_opt_cls (p : ascii -> bool) (R : regex) (c : ascii)
    (before tail : str) (cs : list (nat * str)) (y : mstate) :
  p c = true ->
  (exists ys, m R (MState (c :: before) tail cs) = y :: ys) ->
  exists ys, m (Seq (opt (Cls p)) R) (MState before (c :: tail) cs) = y :: ys.
Proof.
  intros Hp (ys & Ey).
  change (m (Seq (opt ?a) ?b) ?st)
    with (flat_map (m b) (m a st ++ [st])).
  cbn [m rest]. rewrite Hp. cbn [app flat_map]. unfold step. cbn [pre caps].
  rewrite Ey. eexists. reflexivity.
Qed.

Lemma zone_first (sg h1 h2 m1 m2 : ascii) (before : str)
    (cs : list (nat * str)) :
  In sg (lit "+-") -> is_digit h1 = true -> is_digit h2 = true ->
  Text.between 48 53 m1 = true -> is_digit m2 = true ->
  first_is (Seq (Grp gz zone_body) Eps)
           (MState before [sg; h1; h2; ":"%char; m1; m2] cs) []
           ((gz, [sg; h1; h2; ":"%char; m1; m2]) :: cs).
Proof.
  intros Hsg Hh1 Hh2 Hm1 Hm2.
  change [sg; h1; h2; ":"%char; m1; m2]
    with ([sg; h1; h2; ":"%char; m1; m2] ++ []) at 1.
  apply first_group; [|apply first_eps].
  match goal with
  | |- exists others, m (Alt ?a ?b) ?st = ?y :: others =>
      assert (H : exists ys, m a st = y :: ys)
  end.
  { cbn [seqs app].
    apply head_cls;
      [destruct Hsg as [<-|[<-|[]]]; reflexivity|].
    apply head_cls; [exact Hh1|]. apply head_cls; [exact Hh2|].
    apply head_opt_cls; [reflexivity|].
    apply head_cls; [exact Hm1|]. apply head_cls; [exact Hm2|].
    eexists. reflexivity. }
  destruct H as (ys & E). cbn [m] in *. rewrite E. eexists. reflexivity.
Qed.

(** Where the text goes on with a digit or with a dot, [%z] finds no
    offset. *)
Lemma zone_nil (st : mstate) (ch : ascii) (s : str) :
  rest st = ch :: s -> is_digit ch = true \/ ch = "."%char ->
  m (Seq (Grp gz zone_body) Eps) st = [].
Proof.
  intros Hrest Hch.
  assert (H : mem_char ch (lit "+-") = false /\ Ascii.eqb "Z" ch = false).
  { destruct Hch as [Hch| ->]; [|now split].
    pose proof (digit_apart ch Hch) as H.
    apply andb_prop in H as [H HZ]. apply andb_prop in H as [_ Hs].
    now rewrite negb_true_iff in *. }
  destruct H as [Hsign HZ].
  cbn [m seqs any_of chr]. rewrite Hrest, Hsign, HZ. reflexivity.
Qed.

Lemma offset_value_minutes (sg a b c d : ascii) :
  In sg (lit "+-") ->
  offset_value [sg; a; b; ":"%char; c; d]
  = Ok (let off := ((digits_value [a; b] * 3600 + digits_value [c; d] * 60)
                    * us_per_second)%Z in
        if Ascii.eqb sg "-" then (- off)%Z else off).
Proof.
  intros Hsg. unfold offset_value.
  assert (E1 : str_eqb [sg; a; b; ":"%char; c; d] (lit "Z") = false).
  { destruct (str_eqb _ _) eqn:E; [|reflexivity].
    apply str_eqb_eq in E. discriminate. }
  rewrite E1. cbn [Ascii.eqb Bool.eqb].
  cbn [bind skipn firstn]. unfold fraction_value.
  cbn [length Nat.sub repeat app].
  change (digits_value (repeat "0"%char 6)) with 0%Z.
  change (digits_value []) with 0%Z.
  rewrite !Z.add_0_r. reflexivity.
Qed.

(** *** The other readings of such a text *)

Lemma digit_plain (ch : ascii) :
  is_digit ch = true ->
  Ascii.eqb ch "-" = false /\ Ascii.eqb ch "+" = false
  /\ Ascii.eqb ch "_" = false /\ lower_char ch = ch.
Proof.
  intros H. pose proof (Timestamps.digit_cases _ H) as Hc. cbn in Hc.
  repeat destruct Hc as [<-|Hc]; try contradiction; repeat split.
Qed.

Lemma digitpart_stop (ds : str) (c : ascii) (r : str) :
  forallb is_digit ds = true -> is_digit c = false ->
  Ascii.eqb c "_" = false ->
  digitpart (ds ++ c :: r) = (ds, c :: r).
Proof.
  intros Hds Hc Hu. induction ds as [|d ds IH].
  - cbn [app digitpart]. now rewrite Hc.
  - cbn [forallb] in Hds. apply andb_prop in Hds as [Hd Hds].
    cbn [app digitpart]. rewrite Hd.
    assert (E : match ds ++ c :: r with
                | u :: (d0 :: _) as s'' =>
                    if Ascii.eqb u "_" && is_digit d0 then digitpart s''
                    else digitpart (ds ++ c :: r)
                | _ => digitpart (ds ++ c :: r)
                end = digitpart (ds ++ c :: r)).
    { destruct ds as [|u ds].
      - cbn [app]. destruct r as [|d0 r]; [reflexivity|].
        now rewrite Hu.
      - cbn [app]. cbn [forallb] in Hds. apply andb_prop in Hds as [Hu' _].
        destruct (digit_plain u Hu') as (_ & _ & -> & _).
        now destruct (ds ++ c :: r). }
    rewrite E, IH by assumption. reflexivity.
Qed.

(** Such a text is no number. *)
Lemma py_float_dated (a b c d : ascii) (r : str) :
  forallb is_digit [a; b; c; d] = true ->
  py_float (a :: b :: c :: d :: "-"%char :: r) = None.
Proof.
  intros Hds. pose proof Hds as H. cbn [forallb] in H.
  apply andb_prop in H as [Ha _].
  destruct (digit_plain a Ha) as (Hminus & Hplus & _ & Hlow).
  unfold py_float. cbn [take_sign]. rewrite Hminus, Hplus.
  assert (Hword : forall w, In w [lit "inf"; lit "infinity"; lit "nan"] ->
            str_eqb (lower (a :: b :: c :: d :: "-"%char :: r)) w = false).
  { intros w Hw.
    destruct (str_eqb (lower (a :: b :: c :: d :: "-"%char :: r)) w) eqn:E;
      [|reflexivity].
    apply str_eqb_eq in E. unfold lower in E. cbn [map] in E.
    rewrite Hlow in E.
    destruct Hw as [<-|[<-|[<-|[]]]]; injection E as -> _; discriminate. }
  rewrite !Hword by (cbn; tauto). cbn [orb].
  change (a :: b :: c :: d :: "-"%char :: r)
    with ([a; b; c; d] ++ "-"%char :: r).
  rewrite (@digitpart_stop [a; b; c; d] "-" r Hds eq_refl eq_refl).
  reflexivity.
Qed.

Lemma strip_unspaced (s : str) :
  forallb (fun c => negb (is_space c)) s = true -> strip s = s.
Proof.
  intros H. unfold strip, rstrip.
  assert (Hl : forall u, forallb (fun c => negb (is_space c)) u = true ->
                         lstrip u = u).
  { intros u Hu. apply lstrip_fixed. destruct u as [|c u]; [exact I|].
    cbn [forallb] in Hu. apply andb_prop in Hu as [Hc _].
    now apply negb_true_iff. }
  rewrite (Hl s H), Hl; [apply rev_involutive|].
  rewrite forallb_forall in *. intros c Hc. apply H. now apply in_rev.
Qed.

Lemma valid_in_range (Y Mo D H Mi S us : Z) :
  valid_fields Y Mo D H Mi S us = true ->
  in_range Y Mo D H Mi S /\ (0 <= us <= 999999)%Z.
Proof.
  unfold valid_fields. intros Hv.
  repeat (apply andb_prop in Hv as [Hv ?]).
  repeat match goal with
         | H : (_ <=? _)%Z = true |- _ => apply Z.leb_le in H
         end.
  assert (Hdim : (days_in_month Y Mo <= 31)%Z).
  { unfold days_in_month. destruct (Mo =? 2)%Z; [destruct (is_leap Y); lia|].
    destruct (_ || _); lia. }
  repeat split; lia.
Qed.

(** *** The three formats that can read the text *)

Lemma read_seconds (Y Mo D H Mi S : Z) (tail : str) :
  in_range Y Mo D H Mi S ->
  strptime (iso_text Y Mo D H Mi S tail) (lit "%Y-%m-%dT%H:%M:%S")
  = match tail with
    | [] => mk_datetime Y Mo D H Mi S 0 None
    | _ :: _ => Raise ValueError
    end.
Proof.
  intros Hr.
  rewrite (@strptime_by_first (lit "%Y-%m-%dT%H:%M:%S")
             (iso_text Y Mo D H Mi S tail) (iso_re Eps) tail
             (iso_groups Y Mo D H Mi S) eq_refl).
  2:{ apply iso_first; [exact Hr|]. intros before. apply first_eps. }
  destruct tail; [|reflexivity].
  destruct Hr as (HY & HMo & HD & HH & HMi & HS).
  cbn [assoc gY gm gd gH gM gS gf gz gb Nat.eqb].
  rewrite !int_of_padded by (cbn; lia). reflexivity.
Qed.

Lemma read_fraction (Y Mo D H Mi S us : Z) (tail : str) :
  in_range Y Mo D H Mi S -> (0 <= us <= 999999)%Z ->
  strptime (iso_text Y Mo D H Mi S ("."%char :: padded 6 us ++ tail))
           (lit "%Y-%m-%dT%H:%M:%S.%f")
  = match tail with
    | [] => mk_datetime Y Mo D H Mi S us None
    | _ :: _ => Raise ValueError
    end.
Proof.
  intros Hr Hus.
  destruct (@padded_spec 6 us) as (Hlen & Hds & _); [cbn; lia|lia|].
  rewrite (@strptime_by_first (lit "%Y-%m-%dT%H:%M:%S.%f")
             (iso_text Y Mo D H Mi S ("."%char :: padded 6 us ++ tail))
             (iso_re (Seq (chr_ci ".")
                          (Seq (Grp gf (rep_range 1 6 (range_cls "0" "9")))
                               Eps)))
             tail ((gf, padded 6 us) :: iso_groups Y Mo D H Mi S) eq_refl).
  2:{ apply iso_first; [exact Hr|]. intros before. apply first_chr.
      apply first_fraction; [exact Hlen|exact Hds|]. apply first_eps. }
  destruct tail; [|reflexivity].
  destruct Hr as (HY & HMo & HD & HH & HMi & HS).
  cbn [assoc gY gm gd gH gM gS gf gz gb Nat.eqb].
  rewrite !int_of_padded by (cbn; lia).
  now rewrite fraction_of_padded.
Qed.

Lemma read_offset (Y Mo D H Mi S h mi : Z) (sg : ascii) :
  in_range Y Mo D H Mi S ->
  In sg (lit "+-") -> (0 <= h <= 23)%Z -> (0 <= mi <= 59)%Z ->
  strptime (iso_text Y Mo D H Mi S
                     (sg :: padded 2 h ++ ":"%char :: padded 2 mi))
           (lit "%Y-%m-%dT%H:%M:%S%z")
  = mk_datetime Y Mo D H Mi S 0
      (Some (let off := ((h * 3600 + mi * 60) * us_per_second)%Z in
             if Ascii.eqb sg "-" then (- off)%Z else off)).
Proof.
  intros Hr Hsg Hh Hmi.
  destruct (@two_digits h) as (a & b & Eh & Ha & Hb & Hvh); [lia|].
  destruct (@two_digits mi) as (c & d & Emi & Hc & Hd & Hvmi); [lia|].
  destruct (minute_digits Hmi) as (c' & d' & Emi' & Hc' & _).
  rewrite Emi in Emi'. injection Emi' as <- <-.
  rewrite Eh, Emi. cbn [app].
  rewrite (@strptime_by_first (lit "%Y-%m-%dT%H:%M:%S%z")
             (iso_text Y Mo D H Mi S [sg; a; b; ":"%char; c; d])
             (iso_re (Seq (Grp gz zone_body) Eps)) []
             ((gz, [sg; a; b; ":"%char; c; d]) :: iso_groups Y Mo D H Mi S)
             eq_refl).
  2:{ apply iso_first; [exact Hr|]. intros before.
      now apply zone_first. }
  destruct Hr as (HY & HMo & HD & HH & HMi & HS).
  cbn [assoc gY gm gd gH gM gS gf gz gb Nat.eqb].
  rewrite !int_of_padded by (cbn; lia).
  rewrite (offset_value_minutes a b c d Hsg), Hvh, Hvmi. cbn [bind].
  cbn zeta.
  replace (Z.abs _ <? us_per_day)%Z with true; [reflexivity|].
  symmetry. apply Z.ltb_lt. unfold us_per_day, us_per_second.
  destruct (Ascii.eqb sg "-"); lia.
Qed.

(** With a fraction of a second before the offset, [%z] comes too early. *)
Lemma no_offset_after_fraction (Y Mo D H Mi S : Z) (tail : str) :
  in_range Y Mo D H Mi S ->
  strptime (iso_text Y Mo D H Mi S ("."%char :: tail))
           (lit "%Y-%m-%dT%H:%M:%S%z")
  = Raise ValueError.
Proof.
  intros Hr.
  apply (@strptime_no_match (lit "%Y-%m-%dT%H:%M:%S%z")
           (iso_text Y Mo D H Mi S ("."%char :: tail))
           (iso_re (Seq (Grp gz zone_body) Eps)) eq_refl).
  apply iso_nil; [exact Hr| |].
  - intros before.
    apply zone_nil with (ch := "."%char) (s := tail); [reflexivity|now right].
  - intros st ch s Hrest Hch.
    apply zone_nil with (ch := ch) (s := s); [exact Hrest|now left].
Qed.

(** *** The text of [isoformat] *)

Lemma isoformat_text (t : datetime) :
  isoformat t
  = iso_text (year t) (month t) (day t) (hour t) (minute t) (second t)
             ((if (microsecond t =? 0)%Z then []
               else "."%char :: padded 6 (microsecond t))
              ++ match tzinfo t with
                 | Some off => format_offset off
                 | None => []
                 end).
Proof. reflexivity. Qed.

Lemma padded_in_class (d : ascii -> bool) (width : nat) (n : Z) :
  (forall c, is_digit c = true -> d c = true) ->
  (0 <= n < 10 ^ Z.of_nat width)%Z -> 1 <= width ->
  forallb d (padded width n) = true.
Proof.
  intros Hd Hn Hw. destruct (padded_spec Hn Hw) as (_ & Hds & _).
  rewrite forallb_forall in *. intros c Hc. now apply Hd, Hds.
Qed.

Lemma iso_text_in_class (d : ascii -> bool) (Y Mo D H Mi S : Z)
    (tail : str) :
  (forall c, is_digit c = true -> d c = true) ->
  d "-"%char = true -> d "T"%char = true -> d ":"%char = true ->
  in_range Y Mo D H Mi S -> forallb d tail = true ->
  forallb d (iso_text Y Mo D H Mi S tail) = true.
Proof.
  intros Hd Hdash HT Hcolon (HY & HMo & HD & HH & HMi & HS) Htail.
  repeat (rewrite forallb_app || cbn [forallb]).
  rewrite !(padded_in_class d Hd) by (cbn; lia).
  now rewrite Hdash, HT, Hcolon, Htail.
Qed.

Lemma py_float_iso (Y Mo D H Mi S : Z) (tail : str) :
  in_range Y Mo D H Mi S ->
  py_float (iso_text Y Mo D H Mi S tail) = None.
Proof.
  intros (HY & _). destruct (year_digits HY) as (Hlen & Hds & _).
  destruct (padded 4 Y) as [|a [|b [|c [|d [|e l]]]]]; try discriminate.
  cbn [app]. now apply py_float_dated.
Qed.

Lemma isdigit_iso (Y Mo D H Mi S : Z) (tail : str) :
  isdigit (iso_text Y Mo D H Mi S tail) = false.
Proof.
  unfold isdigit.
  assert (E : forallb is_digit_char (iso_text Y Mo D H Mi S tail) = false).
  { rewrite forallb_app. cbn [forallb].
    change (is_digit_char "-") with false. cbn [andb].
    apply andb_false_r. }
  rewrite E. now destruct (padded 4 Y ++ _).
Qed.

Section ReadBack.

Variable utcoffset : Z -> Z.

Ltac skip_format tac :=
  erewrite Timestamps.first_format_skip;
  [|unfold try_format;
    match goal with
    | |- (if String.eqb ?f _ then _ else _) = _ =>
        change (String.eqb f "%s") with false; cbv iota; tac
    end].

Ltac out_of_class d H :=
  apply (strptime_in_class d); [vm_compute; reflexivity | exact H].

Ltac take_format :=
  cbn [first_format]; unfold try_format;
  match goal with
  | |- context [String.eqb ?f "%s"] =>
      change (String.eqb f "%s") with false; cbv iota
  end.

Lemma formats_seconds (Y Mo D H Mi S : Z) :
  valid_fields Y Mo D H Mi S 0 = true ->
  first_format utcoffset (iso_text Y Mo D H Mi S []) formats
  = Ok (Some (DateTime Y Mo D H Mi S 0 None)).
Proof.
  intros Hv. destruct (valid_in_range _ _ _ _ _ _ _ Hv) as [Hr _].
  assert (Hc : forallb (fun c => is_digit c || mem_char c (lit "-T:+"))
                       (iso_text Y Mo D H Mi S []) = true).
  { apply iso_text_in_class; try reflexivity; [|exact Hr].
    intros c Hc. now rewrite Hc. }
  unfold formats.
  do 3 skip_format
    ltac:(out_of_class (fun c => is_digit c || mem_char c (lit "-T:+")) Hc).
  take_format. rewrite read_seconds by exact Hr.
  unfold mk_datetime. now rewrite Hv.
Qed.

Lemma formats_fraction (Y Mo D H Mi S us : Z) :
  valid_fields Y Mo D H Mi S us = true ->
  first_format utcoffset
    (iso_text Y Mo D H Mi S ("."%char :: padded 6 us ++ [])) formats
  = Ok (Some (DateTime Y Mo D H Mi S us None)).
Proof.
  intros Hv. destruct (valid_in_range _ _ _ _ _ _ _ Hv) as [Hr Hus].
  assert (Hd : forall c, is_digit c = true ->
                 is_digit c || mem_char c (lit "-T:+.") = true)
    by (intros c Hc; now rewrite Hc).
  assert (Hc : forallb (fun c => is_digit c || mem_char c (lit "-T:+."))
                 (iso_text Y Mo D H Mi S ("."%char :: padded 6 us ++ []))
               = true).
  { apply iso_text_in_class; try reflexivity; [exact Hd|exact Hr|].
    cbn [forallb]. rewrite forallb_app.
    rewrite (padded_in_class _ Hd) by (cbn; lia). reflexivity. }
  unfold formats.
  do 2 skip_format
    ltac:(out_of_class (fun c => is_digit c || mem_char c (lit "-T:+.")) Hc).
  take_format. rewrite read_fraction by assumption.
  unfold mk_datetime. now rewrite Hv.
Qed.

Lemma formats_offset (Y Mo D H Mi S h mi : Z) (sg : ascii) :
  valid_fields Y Mo D H Mi S 0 = true ->
  In sg (lit "+-") -> (0 <= h <= 23)%Z -> (0 <= mi <= 59)%Z ->
  first_format utcoffset
    (iso_text Y Mo D H Mi S (sg :: padded 2 h ++ ":"%char :: padded 2 mi))
    formats
  = Ok (Some (DateTime Y Mo D H Mi S 0
                (Some (let off := ((h * 3600 + mi * 60) * us_per_second)%Z in
                       if Ascii.eqb sg "-" then (- off)%Z else off)))).
Proof.
  intros Hv Hsg Hh Hmi. destruct (valid_in_range _ _ _ _ _ _ _ Hv) as [Hr _].
  assert (Hd : forall c, is_digit c = true ->
                 is_digit c || mem_char c (lit "-T:+") = true)
    by (intros c Hc; now rewrite Hc).
  assert (Hc : forallb (fun c => is_digit c || mem_char c (lit "-T:+"))
                 (iso_text Y Mo D H Mi S
                           (sg :: padded 2 h ++ ":"%char :: padded 2 mi))
               = true).
  { apply iso_text_in_class; try reflexivity; [exact Hd|exact Hr|].
    cbn [forallb]. rewrite forallb_app. cbn [forallb].
    rewrite !(padded_in_class _ Hd) by (cbn; lia).
    destruct Hsg as [<-|[<-|[]]]; reflexivity. }
  unfold formats.
  do 3 skip_format
    ltac:(out_of_class (fun c => is_digit c || mem_char c (lit "-T:+")) Hc).
  skip_format ltac:(rewrite read_seconds by exact Hr; reflexivity).
  take_format. rewrite read_offset by assumption.
  unfold mk_datetime. now rewrite Hv.
Qed.

(** No format takes a fraction of a second together with an offset. *)
Lemma formats_fraction_offset (Y Mo D H Mi S us h mi : Z) (sg : ascii) :
  valid_fields Y Mo D H Mi S us = true ->
  In sg (lit "+-") -> (0 <= h <= 23)%Z -> (0 <= mi <= 59)%Z ->
  first_format utcoffset
    (iso_text Y Mo D H Mi S
       ("."%char :: padded 6 us
        ++ sg :: padded 2 h ++ ":"%char :: padded 2 mi))
    formats
  = Ok None.
Proof.
  intros Hv Hsg Hh Hmi. destruct (valid_in_range _ _ _ _ _ _ _ Hv) as [Hr Hus].
  assert (Hd : forall c, is_digit c = true ->
                 is_digit c || mem_char c (lit "-T:+.") = true)
    by (intros c Hc; now rewrite Hc).
  assert (Hc : forallb (fun c => is_digit c || mem_char c (lit "-T:+."))
                 (iso_text Y Mo D H Mi S
                    ("."%char :: padded 6 us
                     ++ sg :: padded 2 h ++ ":"%char :: padded 2 mi))
               = true).
  { apply iso_text_in_class; try reflexivity; [exact Hd|exact Hr|].
    cbn [forallb]. rewrite forallb_app. cbn [forallb].
    rewrite forallb_app. cbn [forallb].
    rewrite !(padded_in_class _ Hd) by (cbn; lia).
    destruct Hsg as [<-|[<-|[]]]; reflexivity. }
  unfold formats.
  do 2 skip_format
    ltac:(out_of_class (fun c => is_digit c || mem_char c (lit "-T:+.")) Hc).
  skip_format ltac:(rewrite read_fraction by assumption; reflexivity).
  skip_format ltac:(rewrite read_seconds by exact Hr; reflexivity).
  skip_format ltac:(now apply no_offset_after_fraction).
  do 7 skip_format
    ltac:(out_of_class (fun c => is_digit c || mem_char c (lit "-T:+.")) Hc).
  cbn [first_format]. unfold try_format.
  change (String.eqb "%s" "%s") with true. cbv iota.
  now rewrite py_float_iso.
Qed.

(** X28: a timestamp written by [isoformat] is read back by
    [_extract_timestamp] when it is naive, with or without microseconds,
    and when it is aware, in a zone of whole minutes, without
    microseconds.  An aware timestamp with microseconds is not read at
    all: the result is [None]. *)
Theorem isoformat_read_back (t : datetime) :
  valid_fields (year t) (month t) (day t) (hour t) (minute t) (second t)
               (microsecond t) = true ->
  match tzinfo t with
  | None => _extract_timestamp utcoffset (Some (isoformat t)) = Ok (Some t)
  | Some off =>
      (Z.abs off < us_per_day)%Z -> (off mod 60000000 = 0)%Z ->
      _extract_timestamp utcoffset (Some (isoformat t))
      = Ok (if (microsecond t =? 0)%Z then Some t else None)
  end.
Proof.
  intros Hv. destruct (valid_in_range _ _ _ _ _ _ _ Hv) as [Hr Hus].
  destruct t as [Y Mo D H Mi S us tz]. cbn [year month day hour minute
    second microsecond tzinfo] in *.
  assert (Hstrip : forall tail,
            forallb (fun c => is_digit c || mem_char c (lit "-T:+.")) tail
            = true ->
            nonempty (iso_text Y Mo D H Mi S tail) = true
            /\ strip (iso_text Y Mo D H Mi S tail)
               = iso_text Y Mo D H Mi S tail).
  { intros tail Htail. split.
    - destruct Hr as [HY _]. destruct (year_digits HY) as (Hlen & _).
      now destruct (padded 4 Y).
    - apply strip_unspaced.
      assert (Hc : forallb (fun c => is_digit c
                                     || mem_char c (lit "-T:+."))
                           (iso_text Y Mo D H Mi S tail) = true).
      { apply iso_text_in_class; try reflexivity; [|exact Hr|exact Htail].
        intros c Hc. now rewrite Hc. }
      rewrite forallb_forall in *. intros c Hin. specialize (Hc c Hin).
      assert (Hall : forallb
                       (fun c => implb (is_digit c
                                        || mem_char c (lit "-T:+."))
                                       (negb (is_space c)))
                       all_chars = true) by (vm_compute; reflexivity).
      rewrite forallb_forall in Hall.
      specialize (Hall c (all_chars_complete c)). now rewrite Hc in Hall. }
  assert (Hd : forall c, is_digit c = true ->
                 is_digit c || mem_char c (lit "-T:+.") = true)
    by (intros c Hc; now rewrite Hc).
  rewrite isoformat_text. cbn [year month day hour minute second
    microsecond tzinfo]. unfold _extract_timestamp.
  destruct tz as [off|].
  - intros Hday Hmin.
    destruct (format_offset_minutes off Hday Hmin)
      as (h & mi & Hh & Hmi & Habs & ->).
    set (sg := if (off <? 0)%Z then "-"%char else "+"%char).
    assert (Hsg : In sg (lit "+-"))
      by (subst sg; destruct (off <? 0)%Z; cbn; tauto).
    assert (Hoff : (let off' := ((h * 3600 + mi * 60) * us_per_second)%Z in
                    if Ascii.eqb sg "-" then (- off')%Z else off') = off).
    { cbn zeta. rewrite Habs. subst sg.
      destruct (off <? 0)%Z eqn:E; cbn [Ascii.eqb Bool.eqb];
        [apply Z.ltb_lt in E | apply Z.ltb_ge in E]; lia. }
    assert (Htail : forallb (fun c => is_digit c || mem_char c (lit "-T:+."))
                            (sg :: padded 2 h ++ ":"%char :: padded 2 mi)
                    = true).
    { cbn [forallb]. rewrite forallb_app. cbn [forallb].
      rewrite !(padded_in_class _ Hd) by (cbn; lia).
      destruct Hsg as [<-|[<-|[]]]; reflexivity. }
    destruct (us =? 0)%Z eqn:Eus.
    + apply Z.eqb_eq in Eus. subst us. cbn [app].
      destruct (Hstrip _ Htail) as [-> ->]. cbn [negb].
      rewrite formats_offset by assumption. now rewrite Hoff.
    + cbn [app].
      assert (Htail' : forallb (fun c => is_digit c
                                         || mem_char c (lit "-T:+."))
                         ("."%char :: padded 6 us
                          ++ sg :: padded 2 h ++ ":"%char :: padded 2 mi)
                       = true).
      { cbn [forallb]. rewrite forallb_app, Htail.
        now rewrite (padded_in_class _ Hd) by (cbn; lia). }
      destruct (Hstrip _ Htail') as [-> ->]. cbn [negb].
      rewrite formats_fraction_offset by assumption. cbn [bind].
      unfold relative_timestamp. now rewrite isdigit_iso.
  - destruct (us =? 0)%Z eqn:Eus.
    + apply Z.eqb_eq in Eus. subst us. cbn [app].
      destruct (Hstrip [] eq_refl) as [-> ->]. cbn [negb].
      now rewrite formats_seconds by assumption.
    + cbn [app].
      assert (Htail : forallb (fun c => is_digit c
                                        || mem_char c (lit "-T:+."))
                        ("."%char :: padded 6 us ++ []) = true).
      { cbn [forallb]. rewrite forallb_app.
        now rewrite (padded_in_class _ Hd) by (cbn; lia). }
      destruct (Hstrip _ Htail) as [-> ->]. cbn [negb].
      now rewrite formats_fraction by assumption.
Qed.

End ReadBack.

Lemma isoformat_read_back_witness :
  _extract_timestamp Examples.utc
    (Some (isoformat (DateTime 2024 8 24 15 30 7 123456 None)))
  = Ok (Some (DateTime 2024 8 24 15 30 7 123456 None)).
Proof.
  exact (@isoformat_read_back Examples.utc
           (DateTime 2024 8 24 15 30 7 123456 None) eq_refl).
Defined.

End IsoRoundTrip.

(** ** The confidence of the detected format *)

Module Confidence.

Import FileProcessor TextFacts StripFacts ListFacts Detection.

Section Scores.

Variable json_loads : str -> result json.
Variable dialect : Type.
Variable csv_sniff : str -> str -> result dialect.
Variable csv_reader : list str -> dialect -> result (list (list str)).

Lemma json_counts_bound (lines : list str) (valid total valid' total' : nat) :
  json_counts json_loads lines valid total = Ok (valid', total') ->
  valid + length lines <= total -> valid' <= total'.
Proof.
  revert valid total. induction lines as [|line lines IH];
    intros valid total; cbn [json_counts length].
  - intros [= <- <-]. lia.
  - intros E H. destruct (negb (nonempty (strip line))).
    + apply (IH _ _ E). lia.
    + destruct (json_loads line) as [[| | | | | |]|[]];
        try discriminate; apply (IH _ _ E); lia.
Qed.

Lemma json_counts_raise (lines : list str) (valid total : nat) (e : exn) :
  json_counts json_loads lines valid total = Raise e ->
  exists line, In line lines /\ json_loads line = Raise e
               /\ e <> JSONDecodeError /\ e <> TypeError.
Proof.
  revert valid total. induction lines as [|line lines IH];
    intros valid total; cbn [json_counts]; [discriminate|].
  intros E.
  assert (Hrec : forall v t, json_counts json_loads lines v t = Raise e ->
            exists l, In l (line :: lines) /\ json_loads l = Raise e
                      /\ e <> JSONDecodeError /\ e <> TypeError).
  { intros v t H. destruct (IH _ _ H) as (l & Hl & Hrest).
    exists l. split; [now right|exact Hrest]. }
  destruct (negb (nonempty (strip line))); [now apply Hrec in E|].
  destruct (json_loads line) as [[| | | | | |]|e'] eqn:El;
    try (now apply Hrec in E).
  destruct e'; try (now apply Hrec in E); injection E as <-;
    exists line; (split; [now left|]); (split; [exact El|]);
    split; discriminate.
Qed.

Lemma json_score_le_1 (lines : list str) (q : Q) :
  _score_json_format json_loads lines = Ok q -> (0 <= q <= 1)%Q.
Proof.
  unfold _score_json_format. destruct lines as [|l lines]; [now intros [= <-]|].
  destruct (json_counts json_loads (l :: lines) 0 (length (l :: lines)))
    as [[valid total]|] eqn:E; cbn [bind]; [|discriminate].
  apply json_counts_bound in E; [|lia].
  destruct (total =? 0) eqn:E0; [now intros [= <-]|].
  apply Nat.eqb_neq in E0. intros [= <-]. split.
  - unfold ratio, Qle. cbn [Qnum Qden]. lia.
  - apply ratio_le_1; lia.
Qed.

(** X29: the answer of [_detect_log_format].  With fewer than 3 lines that
    are not blank, it is the format of the extension at confidence 0.5.
    Otherwise the confidence lies between 0.1 and 1, an answer JSON has a
    confidence of at least 0.7, an answer CSV of at least 0.8, an answer
    syslog of at least 0.6, and plain text is answered at 0.5, for a
    format that was turned down, or at 0.1.  The only failure is an
    exception of [json.loads] other than [JSONDecodeError] and
    [TypeError], on a content of at least 3 such lines. *)
Theorem detection_confidence (content filename : str) :
  let lines := nonblank_lines content in
  match _detect_log_format json_loads csv_sniff csv_reader content filename
  with
  | Ok (fmt, confidence) =>
      (length lines < 3 ->
         fmt = _format_from_extension filename
         /\ confidence = (5 # 10)%Q)
      /\ (3 <= length lines ->
            (1 # 10 <= confidence <= 1)%Q
            /\ match fmt with
               | JSON => (7 # 10 <= confidence)%Q
               | CSV => (8 # 10 <= confidence)%Q
               | SYSLOG => (6 # 10 <= confidence)%Q
               | PLAIN_TEXT =>
                   confidence = (5 # 10)%Q \/ confidence = (1 # 10)%Q
               | CUSTOM => True
               end)
  | Raise e =>
      3 <= length lines
      /\ exists line, In line (firstn 100 lines)
           /\ json_loads line = Raise e
           /\ e <> JSONDecodeError /\ e <> TypeError
  end.
Proof.
  intros lines. unfold _detect_log_format. fold lines.
  unfold minimum_lines.
  destruct (length lines <? 3) eqn:E.
  { apply Nat.ltb_lt in E. split; [now split|]. lia. }
  apply Nat.ltb_ge in E. rewrite firstn_min.
  set (sample := firstn 100 lines).
  destruct (_score_json_format json_loads sample) as [js|e] eqn:Hjs;
    cbn [bind].
  - pose proof (json_score_le_1 _ Hjs) as Hj.
    pose proof (csv_score_le_1 csv_sniff csv_reader sample) as Hc.
    pose proof (syslog_score_le_1 sample) as Hs.
    pose proof (structured_score_le_1 sample) as Hk.
    set (others := [(CSV, _score_csv_format csv_sniff csv_reader sample);
                    (SYSLOG, _score_syslog_format sample);
                    (CUSTOM, _score_structured_format sample);
                    (PLAIN_TEXT, (1 # 10)%Q)]).
    destruct (max_by_score_spec (JSON, js) others) as [Hin Hmax].
    destruct (max_by_score (JSON, js) others) as [best confidence].
    cbn [snd] in Hmax.
    assert (Hlow : (1 # 10 <= confidence)%Q).
    { apply (Hmax (PLAIN_TEXT, (1 # 10)%Q)). cbn. tauto. }
    assert (Hhigh : (confidence <= 1)%Q).
    { destruct Hin as [E1|[E1|[E1|[E1|[E1|[]]]]]]; injection E1 as <- <-;
        try assumption; [apply Hj|easy]. }
    assert (Hplain : best = PLAIN_TEXT -> confidence = (1 # 10)%Q).
    { intros ->.
      destruct Hin as [E1|[E1|[E1|[E1|[E1|[]]]]]]; now injection E1. }
    unfold below, json_confidence, csv_confidence, syslog_confidence.
    destruct best; cbn [format_eqb andb].
    + destruct (Qlt_le_dec confidence (7 # 10)); (split; [lia|]); intros _;
        (split; [|tauto || assumption]); split; easy || assumption.
    + destruct (Qlt_le_dec confidence (8 # 10)); (split; [lia|]); intros _;
        (split; [|tauto || assumption]); split; easy || assumption.
    + destruct (Qlt_le_dec confidence (6 # 10)); (split; [lia|]); intros _;
        (split; [|tauto || assumption]); split; easy || assumption.
    + split; [lia|]. intros _. split; [now split|]. right. now apply Hplain.
    + split; [lia|]. intros _. split; [now split|exact I].
  - split; [exact E|].
    unfold _score_json_format in Hjs.
    destruct sample as [|l0 ls] eqn:Es; [discriminate|]. rewrite <- Es in *.
    destruct (json_counts json_loads sample 0 (length sample))
      as [[v t]|e'] eqn:Ec; cbn [bind] in Hjs.
    + destruct (t =? 0); discriminate.
    + injection Hjs as ->. now apply json_counts_raise in Ec.
Qed.

End Scores.

End Confidence.

(** ** Timestamps without a year *)

Module SyslogStamps.

Import FileProcessor TextFacts StripFacts ReFacts ListFacts Decimals IsoFacts.
Import IsoRoundTrip.

Local Abbreviation first_is r st rst cps :=
  (exists y ys, m r st = y :: ys /\ rest y = rst /\ caps y = cps).

Local Abbreviation unspaced_head s :=
  (match s with c :: _ => is_space c = false | [] => True end).

(** The greedy star takes every blank. *)
Lemma star_spaces (gap text before : str) (cs : list (nat * str)) :
  forallb is_space gap = true -> unspaced_head text ->
  exists others,
    m (Star space) (MState before (gap ++ text) cs)
    = MState (rev gap ++ before) text cs :: others.
Proof.
  intros Hgap Htext. revert before.
  induction gap as [|g gap IH]; intros before.
  - cbn [app rev m rest]. destruct text as [|c s]; [now exists []|].
    cbn [length star_loop]. rewrite Normalizer.m_space. cbn [rest].
    rewrite Htext. now exists [].
  - cbn [forallb] in Hgap. apply andb_prop in Hgap as [Hg Hgap].
    cbn [app m rest length star_loop]. rewrite Normalizer.m_space.
    cbn [rest]. rewrite Hg. cbn [flat_map].
    assert (Hp : progress (MState before (g :: gap ++ text) cs)
                          (step (MState before (g :: gap ++ text) cs) g
                                (gap ++ text)) = true).
    { unfold progress. cbn [rest step length]. apply Nat.ltb_lt. lia. }
    rewrite Hp. unfold step. cbn [pre caps].
    change (star_loop (m space) (length (gap ++ text))
                      (MState (g :: before) (gap ++ text) cs))
      with (m (Star space) (MState (g :: before) (gap ++ text) cs)).
    destruct (IH Hgap (g :: before)) as (others & ->).
    cbn [rev]. rewrite <- (app_assoc (rev gap)). cbn [app].
    eexists. reflexivity.
Qed.

Lemma first_spaces (R : regex) (gap text before rst : str)
    (cs cps : list (nat * str)) :
  gap <> [] -> forallb is_space gap = true -> unspaced_head text ->
  first_is R (MState (rev gap ++ before) text cs) rst cps ->
  first_is (Seq (plus space) R) (MState before (gap ++ text) cs) rst cps.
Proof.
  intros Hne Hgap Htext (y & ys & Ey & Hy).
  destruct gap as [|g gap]; [congruence|].
  cbn [forallb] in Hgap. apply andb_prop in Hgap as [Hg Hgap].
  destruct (@star_spaces gap text (g :: before) cs Hgap Htext)
    as (others & Es).
  cbn [rev] in Ey. rewrite <- (app_assoc (rev gap)) in Ey. cbn [app] in Ey.
  exists y. eexists. split; [|exact Hy].
  change (m (Seq (plus space) R) ?st)
    with (flat_map (m R) (flat_map (m (Star space)) (m space st))).
  rewrite Normalizer.m_space. cbn [rest app]. rewrite Hg. cbn [flat_map].
  unfold step. cbn [pre caps]. rewrite Es.
  cbn [app flat_map]. rewrite Ey. reflexivity.
Qed.

(** The day of the month as a number, before a blank. *)
Lemma read_day_number (d : Z) :
  (1 <= d <= 31)%Z ->
  forall (before tail : str) (cs : list (nat * str)),
    exists others,
      m (alts [Seq (chr "3") (range_cls "0" "1");
               Seq (range_cls "1" "2") digit;
               Seq (chr "0") (range_cls "1" "9");
               range_cls "1" "9";
               Seq (chr " ") (range_cls "1" "9")])
        (MState before (decimal d ++ " "%char :: tail) cs)
      = MState (rev (decimal d) ++ before) (" "%char :: tail) cs :: others.
Proof.
  revert d. intros n Hn.
  match goal with
  | |- ?G =>
      let P := eval pattern n in G in
      match P with
      | ?F _ =>
          assert (H : Forall F (map (fun i => (1 + Z.of_nat i)%Z) (seq 0 31)));
          [ set (l := map _ (seq 0 31)); vm_compute in l; subst l;
            repeat (apply Forall_cons;
                    [intros ? ? ?; eexists; cbv; reflexivity|]);
            apply Forall_nil
          | apply (@range_forall F 1%Z 31 H); lia ]
      end
  end.
Qed.

Lemma decimal_head (d : Z) (tail : str) :
  (1 <= d)%Z -> unspaced_head (decimal d ++ tail).
Proof.
  intros Hd. destruct (@decimal_value d) as [Hds Hv]; [lia|].
  destruct (decimal d) as [|c r]; [cbn in Hv; lia|].
  cbn [forallb] in Hds. apply andb_prop in Hds as [Hc _].
  cbn [app]. now apply Timestamps.digit_not_space.
Qed.

Lemma padded_head (n : Z) (tail : str) :
  (0 <= n <= 99)%Z -> unspaced_head (padded 2 n ++ tail).
Proof.
  intros Hn. destruct (two_digits Hn) as (a & b & -> & Ha & _).
  cbn [app]. now apply Timestamps.digit_not_space.
Qed.

(** The abbreviated names of the months, as syslog writes them. *)
Local Abbreviation month_abbreviations :=
  (map lit ["Jan"; "Feb"; "Mar"; "Apr"; "May"; "Jun";
            "Jul"; "Aug"; "Sep"; "Oct"; "Nov"; "Dec"]).

Lemma month_cases (mo : Z) :
  (1 <= mo <= 12)%Z ->
  mo = 1%Z \/ mo = 2%Z \/ mo = 3%Z \/ mo = 4%Z \/ mo = 5%Z \/ mo = 6%Z
  \/ mo = 7%Z \/ mo = 8%Z \/ mo = 9%Z \/ mo = 10%Z \/ mo = 11%Z
  \/ mo = 12%Z.
Proof. lia. Qed.

Ltac each_month H :=
  apply month_cases in H;
  repeat (destruct H as [H|H]); subst.

Lemma read_month_name (mo : Z) :
  (1 <= mo <= 12)%Z ->
  let name := nth (Z.to_nat (mo - 1)) month_abbreviations [] in
  (forall (before tail : str) (cs : list (nat * str)),
     m (alts (map text_ci month_names)) (MState before (name ++ tail) cs)
     = [MState (rev name ++ before) tail cs])
  /\ index_of (lower name) month_names 1 = Some mo.
Proof.
  intros H. each_month H; (split; [intros; cbv|]; reflexivity).
Qed.

(** The text of a stamp: the month, blanks, the day, a blank and the time
    of day. *)
Local Abbreviation stamp_text name gap d H Mi S :=
  (name ++ gap ++ decimal d ++ " "%char :: padded 2 H
   ++ ":"%char :: padded 2 Mi ++ ":"%char :: padded 2 S).

Local Abbreviation blanks gap := (forallb (Ascii.eqb " ") gap = true).

Lemma blanks_spaces (gap : str) : blanks gap -> forallb is_space gap = true.
Proof.
  intros H. rewrite forallb_forall in *. intros c Hc.
  specialize (H c Hc). apply Ascii.eqb_eq in H. now subst c.
Qed.

Lemma valid_1900 (mo d H Mi S : Z) :
  (1 <= mo <= 12)%Z -> (1 <= d)%Z -> (0 <= H <= 23)%Z ->
  (0 <= Mi <= 59)%Z -> (0 <= S <= 59)%Z ->
  valid_fields 1900 mo d H Mi S 0 = (d <=? days_in_month 1900 mo)%Z.
Proof.
  intros Hmo Hd HH HMi HS. unfold valid_fields.
  repeat match goal with
         | |- context [(?a <=? ?b)%Z] =>
             lazymatch b with
             | days_in_month _ _ => fail
             | _ => replace (a <=? b)%Z with true
                      by (symmetry; apply Z.leb_le; lia)
             end
         end.
  cbn [andb]. now rewrite !andb_true_r.
Qed.

Lemma read_stamp (mo d H Mi S : Z) (gap : str) :
  (1 <= mo <= 12)%Z -> (1 <= d <= 31)%Z -> (0 <= H <= 23)%Z ->
  (0 <= Mi <= 59)%Z -> (0 <= S <= 59)%Z ->
  gap <> [] -> blanks gap ->
  strptime (stamp_text (nth (Z.to_nat (mo - 1)) month_abbreviations [])
                       gap d H Mi S)
           (lit "%b %d %H:%M:%S")
  = mk_datetime 1900 mo d H Mi S 0 None.
Proof.
  intros Hmo Hd HH HMi HS Hne Hgap.
  destruct (read_month_name Hmo) as [Hname Hindex]. cbn zeta in *.
  set (name := nth (Z.to_nat (mo - 1)) month_abbreviations []) in *.
  rewrite <- (app_nil_r (padded 2 S)).
  rewrite (@strptime_by_first (lit "%b %d %H:%M:%S") _
             (Seq (Grp gb (alts (map text_ci month_names)))
             (Seq (plus space)
             (Seq (Grp gd (alts [Seq (chr "3") (range_cls "0" "1");
                                 Seq (range_cls "1" "2") digit;
                                 Seq (chr "0") (range_cls "1" "9");
                                 range_cls "1" "9";
                                 Seq (chr " ") (range_cls "1" "9")]))
             (Seq (plus space)
             (Seq (Grp gH (alts [Seq (chr "2") (range_cls "0" "3");
                                 Seq (range_cls "0" "1") digit; digit]))
             (Seq (chr_ci ":")
             (Seq (Grp gM (alts [Seq (range_cls "0" "5") digit; digit]))
             (Seq (chr_ci ":")
             (Seq (Grp gS (alts [Seq (chr "6") (range_cls "0" "1");
                                 Seq (range_cls "0" "5") digit; digit]))
                  Eps)))))))))
             []
             [(gS, padded 2 S); (gM, padded 2 Mi); (gH, padded 2 H);
              (gd, decimal d); (gb, name)]
             eq_refl).
  2:{ unfold start_state.
      apply first_group; [eexists; apply Hname|].
      apply first_spaces;
        [exact Hne|now apply blanks_spaces|apply decimal_head; lia|].
      apply first_group; [apply read_day_number; lia|].
      change (" "%char :: ?t) with ([" "%char] ++ t).
      apply first_spaces;
        [discriminate|reflexivity|apply padded_head; lia|].
      apply first_field; [now apply read_hour|].
      apply first_chr. apply first_field; [now apply read_minute|].
      apply first_chr. apply first_field; [now apply read_second|].
      apply first_eps. }
  cbn [assoc gY gm gd gH gM gS gf gz gb Nat.eqb]. rewrite Hindex.
  rewrite !int_of_padded by (cbn; lia).
  destruct (@decimal_value d) as [Hds Hv]; [lia|].
  unfold int_of. rewrite Timestamps.lstrip_digits, Hv by exact Hds.
  reflexivity.
Qed.

(** *** The other formats *)

Lemma strptime_year_first (c : ascii) (r fmt : str) :
  is_digit c = false ->
  strptime (c :: r) ("%"%char :: "Y"%char :: fmt) = Raise ValueError.
Proof.
  intros Hc. unfold strptime.
  change (strptime_regex ("%"%char :: "Y"%char :: fmt))
    with (match strptime_regex fmt with
          | Some r' => Some (Seq (Grp gY (rep 4 digit)) r')
          | None => None
          end).
  destruct (strptime_regex fmt) as [r'|]; [|reflexivity].
  unfold re_match, match_at, start_state.
  change (m (Seq ?a ?b) ?st) with (flat_map (m b) (m a st)).
  change (rep 4 digit) with (Seq digit (rep 3 digit)).
  unfold digit at 1. cbn [m rest]. now rewrite Hc.
Qed.

Lemma py_float_word (c : ascii) (r : str) :
  Ascii.eqb c "-" = false -> Ascii.eqb c "+" = false ->
  is_digit c = false -> Ascii.eqb c "." = false ->
  (forall w, In w [lit "inf"; lit "infinity"; lit "nan"] ->
             str_eqb (lower (c :: r)) w = false) ->
  py_float (c :: r) = None.
Proof.
  intros Hminus Hplus Hd Hdot Hword. unfold py_float.
  cbn [take_sign]. rewrite Hminus, Hplus.
  rewrite !Hword by (cbn; tauto). cbn [orb digitpart].
  now rewrite Hd, Hdot.
Qed.

(** What the formats need to know of the twelve names. *)
Lemma month_name_plain (mo : Z) :
  (1 <= mo <= 12)%Z ->
  exists c r,
    nth (Z.to_nat (mo - 1)) month_abbreviations [] = c :: r
    /\ is_space c = false /\ is_digit c = false
    /\ is_digit_char c = false
    /\ forallb (fun x => negb (mem_char x (lit "-/"))) (c :: r) = true
    /\ forall text, py_float (c :: r ++ text) = None.
Proof.
  intros H.
  each_month H; do 2 eexists; (split; [reflexivity|]);
    repeat (split; [reflexivity|]);
    intros text; cbn [app]; apply py_float_word; try reflexivity;
    intros w Hw;
    match goal with
    | |- str_eqb ?a ?b = false =>
        destruct (str_eqb a b) eqn:E; [|reflexivity];
        apply str_eqb_eq in E; apply (f_equal (firstn 2)) in E;
        destruct Hw as [<-|[<-|[<-|[]]]]; vm_compute in E; discriminate E
    end.
Qed.

Lemma digit_unslashed (c : ascii) :
  is_digit c = true -> negb (mem_char c (lit "-/")) = true.
Proof.
  intros H. pose proof (Timestamps.digit_cases _ H) as Hc. cbn in Hc.
  repeat destruct Hc as [<-|Hc]; try contradiction; reflexivity.
Qed.

Section Stamps.

Variable utcoffset : Z -> Z.

Ltac skip_format tac :=
  erewrite Timestamps.first_format_skip;
  [|unfold try_format;
    match goal with
    | |- (if String.eqb ?f _ then _ else _) = _ =>
        change (String.eqb f "%s") with false; cbv iota; tac
    end].

Ltac out_of_class d H :=
  apply (strptime_in_class d); [vm_compute; reflexivity | exact H].

(** X30: a stamp of the form "Aug 24 15:30:00" (the month as syslog
    writes it, blanks, the day as a number, a blank and the time of day)
    is read by [_extract_timestamp] into the year 1900; when the month has
    no such day in 1900, as for "Feb 29", it is not read at all. *)
Theorem syslog_stamp_year (mo d H Mi S : Z) (gap : str) :
  (1 <= mo <= 12)%Z -> (1 <= d <= 31)%Z -> (0 <= H <= 23)%Z ->
  (0 <= Mi <= 59)%Z -> (0 <= S <= 59)%Z ->
  gap <> [] -> blanks gap ->
  _extract_timestamp utcoffset
    (Some (stamp_text (nth (Z.to_nat (mo - 1)) month_abbreviations [])
                      gap d H Mi S))
  = Ok (if (d <=? days_in_month 1900 mo)%Z
        then Some (DateTime 1900 mo d H Mi S 0 None)
        else None).
Proof.
  intros Hmo Hd HH HMi HS Hne Hgap.
  pose proof (@read_stamp mo d H Mi S gap Hmo Hd HH HMi HS Hne Hgap) as Hread.
  destruct (month_name_plain Hmo)
    as (c & r & Ename & Hspace & Hdigit & Hchar & Hclass & Hfloat).
  rewrite Ename in *.
  remember (stamp_text (c :: r) gap d H Mi S) as text eqn:Htext.
  cbn [app] in Htext.
  assert (Hc : forallb (fun x => negb (mem_char x (lit "-/"))) text = true).
  { rewrite Htext. change (c :: r ++ ?t) with ((c :: r) ++ t).
    rewrite forallb_app, Hclass. cbn [andb].
    repeat (rewrite forallb_app || cbn [forallb]).
    rewrite !(padded_in_class _ digit_unslashed) by (cbn; lia).
    destruct (@decimal_value d) as [Hds _]; [lia|].
    assert (Hdd : forallb (fun x => negb (mem_char x (lit "-/")))
                          (decimal d) = true).
    { rewrite forallb_forall in *. intros x Hx.
      now apply digit_unslashed, Hds. }
    assert (Hg : forallb (fun x => negb (mem_char x (lit "-/"))) gap = true).
    { rewrite forallb_forall in *. intros x Hx.
      specialize (Hgap x Hx). apply Ascii.eqb_eq in Hgap. now subst x. }
    now rewrite Hdd, Hg. }
  assert (Hstrip : strip text = text).
  { unfold strip, rstrip.
    rewrite (lstrip_fixed text) by (rewrite Htext; exact Hspace).
    rewrite lstrip_fixed; [apply rev_involutive|].
    destruct (@two_digits S) as (a & b & ES & _ & Hb & _); [lia|].
    rewrite Htext, ES. change (c :: r ++ ?t) with ((c :: r) ++ t).
    rewrite !rev_app_distr. cbn [rev app].
    rewrite !rev_app_distr. cbn [rev app].
    rewrite !rev_app_distr. cbn [rev app].
    now apply Timestamps.digit_not_space. }
  unfold _extract_timestamp.
  replace (nonempty text) with true by (now rewrite Htext).
  cbn [negb]. rewrite Hstrip. unfold formats.
  do 7 skip_format
    ltac:(out_of_class (fun x => negb (mem_char x (lit "-/"))) Hc).
  assert (H8 : try_format utcoffset text "%b %d %H:%M:%S"
               = if (d <=? days_in_month 1900 mo)%Z
                 then Ok (DateTime 1900 mo d H Mi S 0 None)
                 else Raise ValueError).
  { unfold try_format.
    change (String.eqb "%b %d %H:%M:%S" "%s") with false. cbv iota.
    rewrite Hread. unfold mk_datetime. now rewrite valid_1900 by lia. }
  destruct (d <=? days_in_month 1900 mo)%Z.
  { change (first_format utcoffset text ("%b %d %H:%M:%S" :: ?l))
      with (match try_format utcoffset text "%b %d %H:%M:%S" with
            | Ok t => Ok (Some t)
            | Raise e => if caught_in_loop e then first_format utcoffset text l
                         else Raise e
            end).
    now rewrite H8. }
  rewrite (@Timestamps.first_format_skip utcoffset text _ _ H8).
  skip_format
    ltac:(rewrite Htext;
          exact (@strptime_year_first c _ (lit " %b %d %H:%M:%S") Hdigit)).
  do 3 skip_format
    ltac:(out_of_class (fun x => negb (mem_char x (lit "-/"))) Hc).
  cbn [first_format]. unfold try_format.
  change (String.eqb "%s" "%s") with true. cbv iota.
  rewrite Htext at 1. rewrite Hfloat. cbn [caught_in_loop bind].
  unfold relative_timestamp, isdigit. rewrite Htext. cbn [forallb].
  now rewrite Hchar.
Qed.

End Stamps.

Lemma syslog_stamp_year_witness :
  _extract_timestamp Examples.utc (Some (lit "Aug 24 15:30:00"))
  = Ok (Some (DateTime 1900 8 24 15 30 0 0 None))
  /\ _extract_timestamp Examples.utc (Some (lit "Feb 29 10:00:00")) = Ok None.
Proof.
  split.
  - exact (@syslog_stamp_year Examples.utc 8 24 15 30 0 (lit " ")
             ltac:(lia) ltac:(lia) ltac:(lia) ltac:(lia) ltac:(lia)
             ltac:(discriminate) eq_refl).
  - exact (@syslog_stamp_year Examples.utc 2 29 10 0 0 (lit " ")
             ltac:(lia) ltac:(lia) ltac:(lia) ltac:(lia) ltac:(lia)
             ltac:(discriminate) eq_refl).
Defined.

End SyslogStamps.
